(* ===== verification/_CoqProject ===== *)
-Q . S2P
Prelude.v
GoStd.v
Ber.v
BerModel.v
Codes.v
Options.v
Control.v
Packet.v
Display.v
Entry.v
Attribute.v
Parameters.v
Message.v
MessageWire.v
MessageSafety.v
MessageTypes.v
Response.v
ResponseWire.v
Request.v
Testing.v
Mux.v
Sid.v
Conn.v
Server.v
DirOptions.v
Directory.v
DirectorySpec.v
DirectoryProps.v
DirectoryMain.v
DirDatabase.v
DirRefines.v
DirWire.v
DirThreads.v
DirRely.v
DirInterleave.v
DirConcurrent.v
DirAnswers.v
DirSequential.v
DirSchedules.v
DirSession.v
DirFixtures.v
Example.v
