(* ===== verification/Prelude.v ===== *)
(** * Verification of gldap, an LDAP server library in Go

    gldap reads LDAP requests from connections, decodes them, routes them to
    handlers and writes the handlers' responses.  This development models the
    repository's Go code under [src/] as Rocq functions and step relations and
    proves what makes it correct.

    ** How the program works, and where each part is

    A server ([server.go], [Server.v]) accepts connections and starts a
    goroutine for each.  A connection ([conn.go], [Conn.v]) reads BER packets,
    turns each into a request ([request.go], [Request.v]) holding a message
    ([message.go], [add.go], [modify.go]: [Message.v], [Attribute.v]) decoded
    from the packet ([packet.go]: [Packet.v] for the envelope and the checks,
    [Parameters.v] for the parameters of each kind of request), and hands it to
    the multiplexer ([mux.go], [route.go]: [Mux.v]), which calls the first
    handler that matches.  Handlers make responses from the request and write
    them ([response.go]: [Response.v]).  Messages and responses carry controls
    ([control.go]: [Control.v]) and entries ([entry.go]: [Entry.v]).  Codes and
    options are [codes.go] ([Codes.v]) and the [..._options.go] files
    ([Options.v]); [sid.go] is [Sid.v].  What the library prints, the [String]
    methods of the controls and [Log] of a packet, is [Display.v].  The encoders
    of [testing.go], which build the packet a client sends for each message, are
    in [Message.v]; the rest of [testing.go] is [Testing.v].

    The test directory ([testdirectory/]) is an LDAP server made with the
    library: a multiplexer with one handler per kind of request on users,
    groups and token groups that the requests read and change.  Its entries
    are shared by pointer and changed in place, so they live in a store
    ([DirOptions.v], with the directory's options and fixtures); [Directory.v]
    has [find], [match], the handlers and [Start].  Requests run in goroutines
    of their own, and the handlers look entries up outside the directory's lock:
    [DirThreads.v] has the same handlers as threads of atomic operations on the
    shared slices, entries, lock and writers.  [DirFixtures.v] has the loggers,
    certificates, [Stop], [Conn] and the accessors of certificates.  The example
    server ([examples/simple/main.go]) is [Example.v].

    ** The files

    - [Prelude.v]: errors, the outcome of a call, machine integers, bytes.
    - [GoStd.v]: what the code uses of Go's [strings], [strconv], [sort],
      [encoding/binary] and [regexp]; class [Folding] for [strings.EqualFold].
    - [Ber.v]: the interface to the BER library, which the repository only
      calls: class [BerOps] (its functions) and class [BerLaws] (what the code
      relies on).  [BerModel.v]: an X.690 codec that satisfies the interface.
    - [Codes.v], [Options.v], [Control.v], [Packet.v], [Entry.v],
      [Attribute.v], [Parameters.v], [Message.v], [Response.v], [Request.v],
      [Mux.v], [Sid.v]: one component each.
    - [MessageWire.v], [ResponseWire.v]: requests and responses through bytes.
      [MessageSafety.v], [MessageTypes.v]: [newMessage] on arbitrary packets.
    - [Display.v], [Testing.v]: what is printed; the helpers for tests.
    - [Conn.v], [Server.v]: the concurrent parts, as step relations.
    - [DirOptions.v], [Directory.v]: the test directory.  [DirectorySpec.v]:
      its store, reading and changing entries; [DirectoryProps.v]: what each
      handler answers and leaves behind; [DirectoryMain.v]: matching, routing,
      sequences of requests and the properties.
    - [DirDatabase.v]: the directory as a database of plain values, what each
      request does to it and is answered; [DirRefines.v]: the handlers refine it.
    - [DirWire.v]: a client and the directory byte for byte, through
      [readPacket], [newMessage], the multiplexer, a handler and back.
    - [DirThreads.v]: the handlers as threads.  [DirRely.v]: rules for what
      holds under interference; [DirInterleave.v]: the invariant of the shared
      state and what each shared function keeps of it; [DirConcurrent.v]: the
      same for the handlers, and progress; [DirAnswers.v]: what a handler writes,
      whatever comes between its operations; [DirSequential.v]: a thread alone
      against the handler of [Directory.v]; [DirSchedules.v]: the properties.
    - [DirSession.v]: a client's whole session, the connection of [Conn.v] with
      the threads of [DirThreads.v] in the goroutines it starts, as a function of
      what happens next; its end and its answers.
    - [DirFixtures.v], [Example.v]: what surrounds the directory; the example.

    ** Conventions

    A call that can fail returns an [outcome]: a value, a returned error or a
    run-time panic (failed type assertion, index out of range, nil
    dereference).  An error keeps the format string it was made with, verbs not
    expanded, and what it wraps.  Integers are [Z] with conversions written out
    where the code converts ([int64], [int16], [uint16], ...; [int] has 64
    bits).  Go strings and byte slices are both [string].  A nil pointer or
    interface is [None].  Slices are lists: but for the defaults of the test
    directory, the code does not tell a nil slice from an empty one.  Where the
    code iterates a map, the order is a parameter of the definition.  Methods
    that change their receiver return it.  Each
    definition names the lines it models in its comment.

    Loops over lists are structural.  Fuel: [GoStd.TrimSpace], [Display.Quote]
    and the decoder of [BerModel.v] take the length of their input, and each
    round consumes at least one byte; [hexDigits] has 16 rounds for a 64-bit
    tag.  [Log] returns nothing when its fuel is used up; [Log_terminates] says
    that the indentation plus the nesting of the packet is enough, and that with
    a negative indentation, for which the code does not return, none is.
    [DirFixtures.waitReady], the loop that waits for the server, ends with the
    first time [Ready] is true.  Threads are finite programs: no fuel.

    ** What is proved

    - Requests: [newMessage] returns a message or an error on any packet, two
      named defects apart; a returned message's id and kind are the packet's;
      its numbers fit their Go types and its controls are well formed; bind,
      search, add, modify, delete, unbind and StartTLS requests survive the wire.
    - Controls: every well-formed control survives the wire; decoding is
      idempotent; the Behera constructor accepts exactly the documented cases.
    - Responses: a client reads every response as it was made, and responses
      answer their request.  The writer delivers whole responses in order.
    - Mux: the first registered matching handler is called, the last default
      otherwise, and a refusal otherwise; a registered mux never panics.
    - Connections: in every interleaving requests are numbered and served at
      most once by the right handler, an unbind is the last request, the wait
      group counts the goroutines in flight, so that closing waits for exactly
      these, and each writer delivered exactly the responses written to it, with
      at most the first part of one more when the network failed.
    - Server: the wait group counts the serving connections, callbacks run at
      most once, [Stop] waits for the connections counted, and a server run with
      a TLS configuration accepts no plaintext connection.
    - SIDs: printing is correct on every well-formed SID.  BER lengths: what
      [readLength] accepts and returns.  [Log]: one line per packet, in order.
    - Test directory: a started directory answers every sequence of requests,
      each with its entries and one result of the right kind (a StartTLS whose
      handshake fails with two); it refines a
      database of plain values, with the same answers and the same entries after
      any requests; the DNs of its users stay distinct; a client that sends the
      bytes of a bind or a search reads the bytes of the answer.
    - Sessions: a client sends requests, StartTLS among them, without waiting and
      then unbinds or closes.  In every interleaving of the operations of the
      loop and of the handlers the session ends, with the connection closed after
      every request got its complete answer on its writer; or else a delete
      panicked, which one client can make happen.  Each step of a session is one
      of the connection's own step relation or an operation on the directory.
    - Test directory, concurrent requests: in every interleaving no pointer is
      nil and no index outside its array, one panic of delete apart; every
      handler ends; a successful add is kept while nothing is deleted; a handler
      that runs alone does what its one-step version does.
    - The example: entries only after a bind; it stops when interrupted.
    - Defects: theorems that exhibit a panic or a divergence say so.

    Theorems about the BER library are proved against [BerLaws]; their
    witnesses use [BerModel.v].  [ldap.CompileFilter] and
    [ldap.DecompileFilter] are class [LdapOps], instantiated in the witnesses
    by presence filters.

    ** What is not modelled

    The text of log messages other than that of [Log]; the TLS handshake,
    sockets, cryptography, X.509 and PEM, which are parameters or the
    environment's choice; Go's memory model, that is what a data race may do
    beyond an interleaving of single reads and writes; sessions (not connections)
    whose network fails or whose server is stopped; [src/tools/tools.go], which
    only names build dependencies. *)
From stdpp Require Import base decidable option list strings gmap.
From Stdlib Require Import ZArith Lia.

Declare Scope gldap_scope.
Delimit Scope gldap_scope with gldap.
Create HintDb gldap.

Open Scope Z_scope.

(** ** Errors *)

(** [error.go:8-20] The sentinel errors. *)
Inductive sentinel : Type :=
| ErrUnknown
| ErrInvalidParameter
| ErrInvalidState
| ErrInternal.

#[export] Instance sentinel_eq_dec : EqDecision sentinel.
Proof. solve_decision. Defined.

(** The errors of the [io] package the code tests for with [errors.Is]; every
    other error made outside the repository is [OtherErr]. *)
Inductive io_err : Type :=
| EOF
| ErrUnexpectedEOF
| OtherErr.

#[export] Instance io_err_eq_dec : EqDecision io_err.
Proof. solve_decision. Defined.

(** An error value.  [Errorf op text] is [fmt.Errorf("%s: text", op)] and
    [Wrapf op text w] is [fmt.Errorf("%s: text: %w", op, w)]; [text] is the
    format string as the source writes it, with its verbs not expanded. *)
Inductive error : Type :=
| ESentinel (s : sentinel)
| EExternal (k : io_err) (text : string)
| Errorf (op text : string)
| Wrapf (op text : string) (wrapped : error).

Definition sentinel_text (s : sentinel) : string :=
  match s with
  | ErrUnknown => "unknown"
  | ErrInvalidParameter => "invalid parameter"
  | ErrInvalidState => "invalid state"
  | ErrInternal => "internal error"
  end.

(** [err.Error()]. *)
Fixpoint ErrorText (e : error) : string :=
  match e with
  | ESentinel s => sentinel_text s
  | EExternal _ t => t
  | Errorf op t => op +:+ ": " +:+ t
  | Wrapf op t w =>
      if decide (t = "") then op +:+ ": " +:+ ErrorText w
      else op +:+ ": " +:+ t +:+ ": " +:+ ErrorText w
  end.

(** [errors.Is(err, target)] for a sentinel of the repository and for an
    error of package [io]. *)
Fixpoint errors_Is (e : error) (s : sentinel) : bool :=
  match e with
  | ESentinel s' => bool_decide (s' = s)
  | EExternal _ _ | Errorf _ _ => false
  | Wrapf _ _ w => errors_Is w s
  end.

Fixpoint errors_Is_io (e : error) (k : io_err) : bool :=
  match e with
  | EExternal k' _ => bool_decide (k' = k)
  | ESentinel _ | Errorf _ _ => false
  | Wrapf _ _ w => errors_Is_io w k
  end.

(** ** Outcomes: a value, a returned error, or a run-time panic *)

Inductive outcome (A : Type) : Type :=
| Ok (a : A)
| Err (e : error)
| Panic (why : string).
Arguments Ok {A} a.
Arguments Err {A} e.
Arguments Panic {A} why.

#[export] Instance outcome_ret : MRet outcome := λ A a, Ok a.
#[export] Instance outcome_bind : MBind outcome := λ A B f m,
  match m with
  | Ok a => f a
  | Err e => Err e
  | Panic w => Panic w
  end.
#[export] Instance outcome_fmap : FMap outcome := λ A B f m,
  match m with
  | Ok a => Ok (f a)
  | Err e => Err e
  | Panic w => Panic w
  end.

Arguments outcome_bind {_ _} _ !_ / : assert.
Arguments outcome_fmap {_ _} _ !_ / : assert.
Arguments outcome_ret {_} _ / : assert.

(** [if err := m; err != nil { return fmt.Errorf("%s: text: %w", op, err) }]. *)
Definition wrapErr {A} (op text : string) (m : outcome A) : outcome A :=
  match m with
  | Err e => Err (Wrapf op text e)
  | m => m
  end.

(** [if err := m; err != nil { return fmt.Errorf("%s: text: %w", op, s) }]:
    the error of [m] is dropped for a sentinel. *)
Definition replaceErr {A} (op text : string) (s : sentinel) (m : outcome A)
    : outcome A :=
  match m with
  | Err _ => Err (Wrapf op text (ESentinel s))
  | m => m
  end.

(** [xs[i]]: Go panics out of range. *)
Definition index {A} (xs : list A) (i : nat) : outcome A :=
  match xs !! i with
  | Some x => Ok x
  | None => Panic "index out of range"
  end.

(** [guardErr b e]: return the error [e] unless [b]. *)
Definition guardErr (b : bool) (e : error) : outcome unit :=
  if b then Ok () else Err e.

(** A run that does not panic. *)
Definition no_panic {A} (m : outcome A) : Prop := ∀ w, m ≠ Panic w.

(** A run that returns a value. *)
Definition is_Ok {A} (m : outcome A) : Prop := ∃ a, m = Ok a.

Section outcome_lemmas.
Context {A B : Type}.
Implicit Types (m : outcome A) (f : A → outcome B).

Lemma bind_Ok_inv f m b :
  (m ≫= f) = Ok b ↔ ∃ a, m = Ok a ∧ f a = Ok b.
Proof. destruct m; naive_solver. Qed.

Lemma bind_Err_inv f m e :
  (m ≫= f) = Err e ↔ m = Err e ∨ ∃ a, m = Ok a ∧ f a = Err e.
Proof. destruct m; naive_solver. Qed.

Lemma bind_Panic_inv f m w :
  (m ≫= f) = Panic w ↔ m = Panic w ∨ ∃ a, m = Ok a ∧ f a = Panic w.
Proof. destruct m; naive_solver. Qed.

Lemma no_panic_bind f m :
  no_panic m → (∀ a, m = Ok a → no_panic (f a)) → no_panic (m ≫= f).
Proof. intros Hm Hf w [?|(a&?&?)]%bind_Panic_inv; [by eapply Hm|by eapply Hf]. Qed.

Lemma wrapErr_Ok_inv op t m a : wrapErr op t m = Ok a ↔ m = Ok a.
Proof. destruct m; naive_solver. Qed.

Lemma replaceErr_Ok_inv op t s m a : replaceErr op t s m = Ok a ↔ m = Ok a.
Proof. destruct m; naive_solver. Qed.

Lemma wrapErr_Panic_inv op t m w : wrapErr op t m = Panic w ↔ m = Panic w.
Proof. destruct m; naive_solver. Qed.

Lemma replaceErr_Panic_inv op t s m w : replaceErr op t s m = Panic w ↔ m = Panic w.
Proof. destruct m; naive_solver. Qed.

Lemma no_panic_wrapErr op t m : no_panic m → no_panic (wrapErr op t m).
Proof. intros H w ?%wrapErr_Panic_inv. by eapply H. Qed.

Lemma no_panic_replaceErr op t s m : no_panic m → no_panic (replaceErr op t s m).
Proof. intros H w ?%replaceErr_Panic_inv. by eapply H. Qed.

Lemma no_panic_Ok (a : A) : no_panic (Ok a).
Proof. done. Qed.

Lemma no_panic_Err e : no_panic (@Err A e).
Proof. done. Qed.

Lemma no_panic_index (xs : list A) i : (i < length xs)%nat → no_panic (index xs i).
Proof.
  intros H w. unfold index.
  destruct (lookup_lt_is_Some_2 xs i H) as [x ->]. done.
Qed.

Lemma index_Ok_inv (xs : list A) i x : index xs i = Ok x ↔ xs !! i = Some x.
Proof. unfold index. destruct (xs !! i); naive_solver. Qed.

Lemma index_Some (xs : list A) i x : xs !! i = Some x → index xs i = Ok x.
Proof. apply index_Ok_inv. Qed.

Lemma index_not_Err (xs : list A) i e : index xs i ≠ Err e.
Proof. unfold index. by destruct (xs !! i). Qed.
End outcome_lemmas.

Lemma guardErr_Ok_inv b e u : guardErr b e = Ok u ↔ b = true.
Proof. destruct b, u; naive_solver. Qed.

Lemma no_panic_guardErr b e : no_panic (guardErr b e).
Proof. by destruct b. Qed.

#[export] Hint Resolve no_panic_Ok no_panic_Err no_panic_index no_panic_guardErr
  no_panic_wrapErr no_panic_replaceErr : gldap.

(** Sequences of fallible calls: [for _, x := range xs { y, err := f(x); if err
    != nil { return err }; ys = append(ys, y) }] is stdpp's [mapM f xs]. *)
Lemma mapM_Ok_inv {A B} (f : A → outcome B) xs ys :
  mapM f xs = Ok ys ↔ Forall2 (λ x y, f x = Ok y) xs ys.
Proof.
  split.
  - revert ys. induction xs as [|x xs IH]; intros ys; simpl.
    + intros [= <-]. constructor.
    + intros (y & Hy & (ys' & Hys & [= <-])%bind_Ok_inv)%bind_Ok_inv.
      constructor; auto.
  - induction 1 as [|x y xs ys Hy _ IH]; simpl; [done|]. rewrite Hy; simpl. by rewrite IH.
Qed.

Lemma mapM_Panic_inv {A B} (f : A → outcome B) xs w :
  mapM f xs = Panic w → ∃ x, x ∈ xs ∧ f x = Panic w.
Proof.
  induction xs as [|x xs IH]; simpl; [done|].
  intros [?|(y & ? & [Hp|(? & ? & ?)]%bind_Panic_inv)]%bind_Panic_inv; [| |done].
  - exists x. split; [constructor|done].
  - destruct (IH Hp) as (x' & ? & ?). exists x'. split; [by constructor|done].
Qed.

Lemma no_panic_mapM {A B} (f : A → outcome B) xs :
  (∀ x, x ∈ xs → no_panic (f x)) → no_panic (mapM f xs).
Proof. intros H w (x & Hx & Hp)%mapM_Panic_inv. by eapply H. Qed.

(** ** Machine integers *)

(** Conversion to an unsigned, and to a signed (two's complement), integer of
    [w] bits. *)
Definition wrapU (w x : Z) : Z := x mod 2 ^ w.
Definition wrapS (w x : Z) : Z :=
  let y := x mod 2 ^ w in if decide (y < 2 ^ (w - 1)) then y else y - 2 ^ w.

Definition uint8 : Z → Z := wrapU 8.
Definition uint16 : Z → Z := wrapU 16.
Definition uint32 : Z → Z := wrapU 32.
Definition uint64 : Z → Z := wrapU 64.
Definition int8 : Z → Z := wrapS 8.
Definition int16 : Z → Z := wrapS 16.
Definition int64 : Z → Z := wrapS 64.
(** [int] is 64 bits wide on the platforms the server is built for. *)
Definition go_int : Z → Z := wrapS 64.

Definition in_uint (w x : Z) : Prop := 0 ≤ x < 2 ^ w.
Definition in_int (w x : Z) : Prop := - 2 ^ (w - 1) ≤ x < 2 ^ (w - 1).

#[export] Instance in_uint_dec w x : Decision (in_uint w x).
Proof. unfold in_uint. apply _. Defined.
#[export] Instance in_int_dec w x : Decision (in_int w x).
Proof. unfold in_int. apply _. Defined.

Lemma wrapU_id w x : in_uint w x → wrapU w x = x.
Proof. intros. by apply Z.mod_small. Qed.

Lemma wrapU_range w x : 0 ≤ w → in_uint w (wrapU w x).
Proof. intros. apply Z.mod_pos_bound. by apply Z.pow_pos_nonneg. Qed.

Lemma pow2_half w : 0 < w → 2 ^ w = 2 * 2 ^ (w - 1).
Proof. intros. rewrite <-Z.pow_succ_r by lia. f_equal. lia. Qed.

Lemma wrapS_id w x : 0 < w → in_int w x → wrapS w x = x.
Proof.
  intros Hw [Hlo Hhi]. pose proof (pow2_half w Hw) as Hp.
  unfold wrapS. destruct (decide (0 ≤ x)).
  - rewrite Z.mod_small by lia. case_decide; lia.
  - assert (x mod 2 ^ w = x + 2 ^ w) as ->.
    { rewrite <-(Z_mod_plus_full x 1), Z.mul_1_l, Z.mod_small by lia. done. }
    case_decide; lia.
Qed.

Lemma wrapS_range w x : 0 < w → in_int w (wrapS w x).
Proof.
  intros Hw. pose proof (pow2_half w Hw) as Hp.
  assert (0 < 2 ^ w) by (apply Z.pow_pos_nonneg; lia).
  pose proof (Z.mod_pos_bound x (2 ^ w)). unfold wrapS, in_int. case_decide; lia.
Qed.

(** ** Bytes: a Go string and a [[]byte] are both sequences of bytes *)

Definition byteZ (a : Ascii.ascii) : Z := Z.of_N (Ascii.N_of_ascii a).
Definition Zbyte (z : Z) : Ascii.ascii := Ascii.ascii_of_N (Z.to_N z).

Fixpoint bytes (s : string) : list Z :=
  match s with
  | EmptyString => []
  | String a s => byteZ a :: bytes s
  end.

Fixpoint of_bytes (l : list Z) : string :=
  match l with
  | [] => EmptyString
  | z :: l => String (Zbyte z) (of_bytes l)
  end.

Lemma byteZ_range a : 0 ≤ byteZ a < 256.
Proof. unfold byteZ. pose proof (Ascii.N_ascii_bounded a). lia. Qed.

Lemma Zbyte_byteZ a : Zbyte (byteZ a) = a.
Proof. unfold Zbyte, byteZ. by rewrite N2Z.id, Ascii.ascii_N_embedding. Qed.

Lemma byteZ_Zbyte z : 0 ≤ z < 256 → byteZ (Zbyte z) = z.
Proof. intros. unfold Zbyte, byteZ. rewrite Ascii.N_ascii_embedding; lia. Qed.

Lemma of_bytes_bytes s : of_bytes (bytes s) = s.
Proof. induction s as [|a s IH]; simpl; [done|]. by rewrite Zbyte_byteZ, IH. Qed.

Lemma bytes_of_bytes l : Forall (λ z, 0 ≤ z < 256) l → bytes (of_bytes l) = l.
Proof. induction 1 as [|z l Hz _ IH]; simpl; [done|]. by rewrite byteZ_Zbyte, IH. Qed.

Lemma bytes_range s : Forall (λ z, 0 ≤ z < 256) (bytes s).
Proof. induction s; simpl; constructor; auto using byteZ_range. Qed.

Lemma app_cons_str a s t : String a s +:+ t = String a (s +:+ t).
Proof. done. Qed.

Lemma app_nil_l_str t : "" +:+ t = t.
Proof. done. Qed.

Lemma bytes_app s t : bytes (s +:+ t) = bytes s ++ bytes t.
Proof. induction s as [|a s IH]; [done|]. rewrite app_cons_str; simpl. by rewrite IH. Qed.

Lemma of_bytes_app k l : of_bytes (k ++ l) = of_bytes k +:+ of_bytes l.
Proof. induction k as [|z k IH]; [done|]. simpl. by rewrite IH, app_cons_str. Qed.

Lemma length_bytes s : length (bytes s) = String.length s.
Proof. induction s; simpl; auto. Qed.

Lemma bytes_inj s t : bytes s = bytes t → s = t.
Proof. intros H. by rewrite <-(of_bytes_bytes s), H, of_bytes_bytes. Qed.

Lemma app_nil_r_str s : s +:+ "" = s.
Proof. induction s as [|a s IH]; [done|]. by rewrite !app_cons_str, IH. Qed.

Lemma app_assoc_str r s t : r +:+ (s +:+ t) = (r +:+ s) +:+ t.
Proof. induction r as [|a r IH]; [done|]. by rewrite !app_cons_str, IH. Qed.

Lemma length_app_str s t :
  String.length (s +:+ t) = (String.length s + String.length t)%nat.
Proof. induction s as [|a s IH]; [done|]. rewrite app_cons_str; simpl. by rewrite IH. Qed.

(** ** Tactics *)

(** Invert a hypothesis that says a sequence of fallible calls returned. *)
Ltac inv_ok :=
  repeat match goal with
  | H : (_ ≫= _) = Ok _ |- _ => apply bind_Ok_inv in H as (? & ? & H)
  | H : wrapErr _ _ _ = Ok _ |- _ => apply wrapErr_Ok_inv in H
  | H : replaceErr _ _ _ _ = Ok _ |- _ => apply replaceErr_Ok_inv in H
  | H : index _ _ = Ok _ |- _ => apply index_Ok_inv in H
  | H : guardErr _ _ = Ok _ |- _ => apply guardErr_Ok_inv in H
  | H : Ok _ = Ok _ |- _ => injection H as H; subst
  | H : Err _ = Ok _ |- _ => discriminate H
  | H : Panic _ = Ok _ |- _ => discriminate H
  end.
