(* ===== verification/GoStd.v ===== *)
(** The parts of Go's standard library the repository calls, as executable
    functions on byte strings: package [strings] (Module [GoStrings]),
    [strconv] (Module [Strconv]), [sort] (Module [GoSort]), [encoding/binary]
    (Module [Binary]) and the one regular expression the test directory
    compiles (Module [Regexp]).  Each function comes with the lemma the
    components use.  [strings.EqualFold] needs Unicode's folding tables, so it
    is an interface (class [Folding]) that fixes its behaviour on ASCII. *)
From Stdlib Require Import Ascii.
From stdpp Require Import base decidable option list strings sorting gmap.
From Stdlib Require Import ZArith Lia DecimalString DecimalZ DecimalN.
From S2P Require Import Prelude.

Module GoStrings.

(** [strings.HasPrefix]. *)
Fixpoint HasPrefix (s p : string) {struct p} : bool :=
  match p, s with
  | EmptyString, _ => true
  | String a p, String b s => bool_decide (a = b) && HasPrefix s p
  | String _ _, EmptyString => false
  end.

(** [strings.Contains]. *)
Fixpoint Contains (s sub : string) : bool :=
  HasPrefix s sub ||
  match s with
  | EmptyString => false
  | String _ s => Contains s sub
  end.

(** The first [n] bytes of a string dropped. *)
Fixpoint drop_str (n : nat) (s : string) : string :=
  match n, s with
  | S n, String _ s => drop_str n s
  | _, _ => s
  end.

(** [strings.TrimPrefix]. *)
Definition TrimPrefix (s p : string) : string :=
  if HasPrefix s p then drop_str (String.length p) s else s.

(** [strings.HasSuffix] and [strings.TrimSuffix]. *)
Definition HasSuffix (s p : string) : bool := HasPrefix (String.rev s) (String.rev p).
Definition TrimSuffix (s p : string) : string :=
  if HasSuffix s p then String.rev (drop_str (String.length p) (String.rev s)) else s.

(** [strings.ReplaceAll(s, c, new)] for a one-byte old string [c]. *)
Fixpoint ReplaceAll (s : string) (c : Ascii.ascii) (new : string) : string :=
  match s with
  | EmptyString => EmptyString
  | String a s =>
      if decide (a = c) then new +:+ ReplaceAll s c new
      else String a (ReplaceAll s c new)
  end.

(** [strings.Trim(s, cutset)] for a cutset of ASCII bytes. *)
Fixpoint TrimLeft (s : string) (cutset : list Ascii.ascii) : string :=
  match s with
  | EmptyString => EmptyString
  | String a s' => if decide (a ∈ cutset) then TrimLeft s' cutset else s
  end.
Definition TrimRight (s : string) (cutset : list Ascii.ascii) : string :=
  String.rev (TrimLeft (String.rev s) cutset).
Definition Trim (s : string) (cutset : list Ascii.ascii) : string :=
  TrimRight (TrimLeft s cutset) cutset.

(** The UTF-8 encodings of Unicode's white space, the code points
    [unicode.IsSpace] accepts. *)
Definition white_space : list string :=
  map of_bytes
    ([[9]; [10]; [11]; [12]; [13]; [32]; [194; 133]; [194; 160];
      [225; 154; 128]] ++
     map (λ b, [226; 128; b]) [128; 129; 130; 131; 132; 133; 134; 135; 136; 137; 138;
                               168; 169; 175] ++
     [[226; 129; 159]; [227; 128; 128]]).

(** Strip leading members of [pats], all of them non-empty. *)
Fixpoint strip (fuel : nat) (pats : list string) (s : string) : string :=
  match fuel with
  | O => s
  | S fuel =>
      match list_find (λ p, Is_true (HasPrefix s p)) pats with
      | Some (_, p) => strip fuel pats (drop_str (String.length p) s)
      | None => s
      end
  end.

(** [strings.TrimSpace].  The fuel is the length of the string: every round
    strips at least one byte. *)
Definition TrimSpace (s : string) : string :=
  let l := strip (String.length s) white_space s in
  String.rev (strip (String.length l) (map String.rev white_space) (String.rev l)).

(** ASCII letters to lower case, and case-insensitive equality of strings of
    ASCII bytes. *)
Definition lower (a : Ascii.ascii) : Ascii.ascii :=
  let z := byteZ a in if decide (65 ≤ z ≤ 90) then Zbyte (z + 32) else a.
Fixpoint ToLower (s : string) : string :=
  match s with
  | EmptyString => EmptyString
  | String a s => String (lower a) (ToLower s)
  end.
Definition is_ascii (s : string) : bool := forallb (λ z, z <? 128) (bytes s).
Definition asciiEqualFold (s t : string) : bool := bool_decide (ToLower s = ToLower t).

(** [strings.EqualFold]: an equivalence, and ASCII case folding on ASCII. *)
Class Folding : Type := {
  EqualFold : string → string → bool;
  EqualFold_refl s : EqualFold s s = true;
  EqualFold_sym s t : EqualFold s t = EqualFold t s;
  EqualFold_ascii s t :
    is_ascii s = true → is_ascii t = true → EqualFold s t = asciiEqualFold s t;
}.

(** The interface has an implementation: fold the ASCII letters only. *)
Definition ascii_folding : Folding.
Proof.
  refine {| EqualFold := asciiEqualFold |}; unfold asciiEqualFold.
  - intros s. by apply bool_decide_eq_true.
  - intros s t. apply bool_decide_ext. done.
  - done.
Defined.

Lemma HasPrefix_spec s p : HasPrefix s p = true ↔ ∃ t, s = p +:+ t.
Proof.
  revert s. induction p as [|a p IH]; intros s; simpl.
  - split; [|done]. intros _. by exists s.
  - destruct s as [|b s].
    { split; [done|]. intros [t ?]. by rewrite app_cons_str in *. }
    rewrite andb_true_iff, bool_decide_eq_true, IH. split.
    + intros [-> [t ->]]. by exists t.
    + intros [t Ht]. rewrite app_cons_str in Ht. injection Ht as -> ->. eauto.
Qed.

(** [Contains s sub] says that [sub] occurs in [s]. *)
Lemma Contains_spec s sub : Contains s sub = true ↔ ∃ a b, s = a +:+ sub +:+ b.
Proof.
  induction s as [|c s IH]; simpl; rewrite orb_true_iff, HasPrefix_spec.
  - split.
    + intros [[t Ht]|?]; [|done]. by exists "", t.
    + intros ([|] & b & Hb); [|by rewrite app_cons_str in Hb]. left. by exists b.
  - rewrite IH. split.
    + intros [[t Ht]|(a & b & ->)]; [by exists "", t|]. by exists (String c a), b.
    + intros ([|a' a] & b & Hb); [left; by exists b|].
      rewrite app_cons_str in Hb. injection Hb as -> ->. right. by exists a, b.
Qed.

Lemma HasPrefix_refl s : HasPrefix s s = true.
Proof. apply HasPrefix_spec. exists "". by rewrite app_nil_r_str. Qed.

Lemma Contains_refl s : Contains s s = true.
Proof. apply Contains_spec. exists "", "". by rewrite app_nil_r_str. Qed.

Lemma Contains_nil s : Contains s "" = true.
Proof. by destruct s. Qed.

Lemma drop_str_app p t : drop_str (String.length p) (p +:+ t) = t.
Proof. induction p as [|a p IH]; [by destruct t|]. by rewrite app_cons_str. Qed.

(** A string cut in two. *)
Lemma substring_drop n s : String.substring 0 n s +:+ drop_str n s = s.
Proof.
  revert n. induction s as [|a s IH]; intros [|n]; try done.
  simpl. rewrite app_cons_str. by rewrite IH.
Qed.

Lemma length_drop_str n s : String.length (drop_str n s) = (String.length s - n)%nat.
Proof. revert s. induction n as [|n IH]; intros [|a s]; simpl; [done..|apply IH]. Qed.

Lemma TrimPrefix_app p t : TrimPrefix (p +:+ t) p = t.
Proof.
  unfold TrimPrefix. replace (HasPrefix (p +:+ t) p) with true.
  - apply drop_str_app.
  - symmetry. apply HasPrefix_spec. by exists t.
Qed.

End GoStrings.

Module Strconv.

(** [strconv.FormatInt(z, 10)], and [fmt]'s [%d]. *)
Definition FormatInt (z : Z) : string := NilZero.string_of_int (Z.to_int z).

Definition err_syntax : error := EExternal OtherErr "strconv.ParseInt: invalid syntax".
Definition err_range : error := EExternal OtherErr "strconv.ParseInt: value out of range".

(** [strconv.ParseInt(s, 10, 64)]: an optional sign, then one or more decimal
    digits whose value fits in 64 bits. *)
Definition ParseInt (s : string) : outcome Z :=
  let go (neg : bool) (r : string) :=
    match NilZero.uint_of_string r with
    | None => Err err_syntax
    | Some d =>
        let z := if neg then - Z.of_N (N.of_uint d) else Z.of_N (N.of_uint d) in
        if decide (in_int 64 z) then Ok z else Err err_range
    end in
  match s with
  | String "+"%char r => go false r
  | String "-"%char r => go true r
  | r => go false r
  end.

Lemma to_uint_nonnil p : Pos.to_uint p ≠ Decimal.Nil.
Proof. apply DecimalPos.Unsigned.to_uint_nonnil. Qed.

Lemma ParseInt_unsigned d :
  d ≠ Decimal.Nil →
  ParseInt (NilZero.string_of_uint d) =
    if decide (in_int 64 (Z.of_N (N.of_uint d))) then Ok (Z.of_N (N.of_uint d))
    else Err err_range.
Proof.
  intros Hd. unfold ParseInt. pose proof (NilZero.usu d Hd) as Hu.
  destruct d; try done; simpl in *; by rewrite Hu.
Qed.

(** A formatted 64-bit integer parses back to itself. *)
Lemma ParseInt_FormatInt z : in_int 64 z → ParseInt (FormatInt z) = Ok z.
Proof.
  intros Hz. unfold FormatInt. destruct z as [|p|p]; simpl.
  - vm_compute. done.
  - rewrite ParseInt_unsigned by apply to_uint_nonnil.
    assert (Z.of_N (N.of_uint (Pos.to_uint p)) = Z.pos p) as ->.
    { change (Pos.to_uint p) with (N.to_uint (N.pos p)).
      by rewrite DecimalN.Unsigned.of_to. }
    by case_decide.
  - rewrite NilZero.usu by apply to_uint_nonnil.
    assert (Z.of_N (N.of_uint (Pos.to_uint p)) = Z.pos p) as ->.
    { change (Pos.to_uint p) with (N.to_uint (N.pos p)).
      by rewrite DecimalN.Unsigned.of_to. }
    by case_decide.
Qed.

(** Two integers with the same decimal representation are equal. *)
Lemma FormatInt_inj z1 z2 : FormatInt z1 = FormatInt z2 → z1 = z2.
Proof.
  intros H. apply DecimalZ.to_int_inj.
  assert (∀ z, NilZero.int_of_string (FormatInt z) = Some (Z.to_int z)) as Hrt.
  { intros z. apply NilZero.isi; destruct z; simpl; try done;
      intros [= He]; by eapply to_uint_nonnil. }
  pose proof (Hrt z1) as H1. rewrite H, Hrt in H1. by injection H1.
Qed.

Lemma nb_digits_double d :
  (Decimal.nb_digits (Decimal.Little.double d) ≤ S (Decimal.nb_digits d))%nat ∧
  (Decimal.nb_digits (Decimal.Little.succ_double d) ≤ S (Decimal.nb_digits d))%nat.
Proof. induction d; simpl; lia. Qed.

Lemma nb_digits_pos p : (Decimal.nb_digits (Pos.to_little_uint p) ≤ Pos.size_nat p)%nat.
Proof.
  induction p as [p IH|p IH|]; simpl; [| |lia];
    destruct (nb_digits_double (Pos.to_little_uint p)); lia.
Qed.

Lemma length_string_of_uint d :
  (String.length (NilZero.string_of_uint d) ≤ S (Decimal.nb_digits d))%nat.
Proof.
  assert (String.length (NilEmpty.string_of_uint d) = Decimal.nb_digits d) as He
    by (induction d; simpl; auto).
  destruct d; simpl in *; lia.
Qed.

(** A 64-bit integer has a short decimal representation. *)
Lemma FormatInt_length z : in_int 64 z → (String.length (FormatInt z) ≤ 67)%nat.
Proof.
  intros Hz.
  assert (∀ p, Z.pos p ≤ 2 ^ 63 →
    (String.length (NilZero.string_of_uint (Pos.to_uint p)) ≤ 65)%nat) as Hp.
  { intros p Hp. etrans; [apply length_string_of_uint|].
    unfold Pos.to_uint. rewrite DecimalFacts.nb_digits_rev.
    assert (Pos.size_nat p ≤ 64)%nat; [|pose proof (nb_digits_pos p); lia].
    enough (Z.of_nat (Pos.size_nat p) ≤ 64) by lia.
    assert (Z.of_nat (Pos.size_nat p) = Z.log2 (Z.pos p) + 1) as ->.
    { clear Hp. induction p as [p IH|p IH|]; [| |done].
      - change (Z.pos p~1) with (2 * Z.pos p + 1). rewrite Z.log2_succ_double by lia.
        cbn [Pos.size_nat]. lia.
      - change (Z.pos p~0) with (2 * Z.pos p). rewrite Z.log2_double by lia.
        cbn [Pos.size_nat]. lia. }
    apply Z.log2_le_mono in Hp. rewrite Z.log2_pow2 in Hp by lia. lia. }
  unfold FormatInt. destruct z as [|p|p]; simpl; [lia| |].
  - etrans; [apply Hp|lia]. unfold in_int in Hz. simpl in Hz. lia.
  - apply le_n_S. etrans; [apply Hp|lia]. unfold in_int in Hz. simpl in Hz. lia.
Qed.

Lemma ParseInt_range s z : ParseInt s = Ok z → in_int 64 z.
Proof.
  unfold ParseInt. intros H.
  repeat first [ progress case_decide | progress case_match ]; naive_solver.
Qed.

Lemma ParseInt_no_panic s : no_panic (ParseInt s).
Proof.
  intros w H. unfold ParseInt in H.
  repeat first [ progress case_decide | progress case_match ]; naive_solver.
Qed.

End Strconv.

Module GoSort.

(** [sort.Strings]: ascending byte-wise lexicographic order. *)
Definition Strings (l : list string) : list string := merge_sort String.le l.

Lemma Strings_perm l : Strings l ≡ₚ l.
Proof. apply merge_sort_Permutation. Qed.

Lemma Strings_sorted l : StronglySorted String.le (Strings l).
Proof. apply StronglySorted_merge_sort; apply _. Qed.

(** The result depends on the elements only, not on their order. *)
Lemma Strings_unique l k : l ≡ₚ k → Strings l = Strings k.
Proof.
  intros H. apply (StronglySorted_unique String.le); auto using Strings_sorted.
  by rewrite !Strings_perm.
Qed.

End GoSort.

Module Binary.

(** [binary.Write] of an [n]-byte unsigned integer, big and little endian. *)
Fixpoint be_bytes (n : nat) (z : Z) : list Z :=
  match n with
  | O => []
  | S n => (z / 256 ^ Z.of_nat n) mod 256 :: be_bytes n z
  end.
Fixpoint le_bytes (n : nat) (z : Z) : list Z :=
  match n with
  | O => []
  | S n => z mod 256 :: le_bytes n (z / 256)
  end.

(** The value of a big- and of a little-endian integer. *)
Definition be_value (l : list Z) : Z := foldl (λ acc b, acc * 256 + b) 0 l.
Definition le_value (l : list Z) : Z := foldr (λ b acc, b + 256 * acc) 0 l.

(** [io.ReadFull] of [n] bytes, the first thing [binary.Read] does: [EOF] when
    nothing is left, [ErrUnexpectedEOF] on a short read.  Reading zero bytes
    always succeeds. *)
Definition ReadFull (n : nat) (r : list Z) : outcome (list Z * list Z) :=
  if decide (n ≤ length r)%nat then Ok (take n r, drop n r)
  else match r with
       | [] => Err (EExternal EOF "EOF")
       | _ => Err (EExternal ErrUnexpectedEOF "unexpected EOF")
       end.

Lemma length_be_bytes n z : length (be_bytes n z) = n.
Proof. induction n; simpl; auto. Qed.

Lemma length_le_bytes n z : length (le_bytes n z) = n.
Proof. revert z; induction n; intros; simpl; auto. Qed.

Lemma foldl_be acc l :
  foldl (λ acc b, acc * 256 + b) acc l = acc * 256 ^ Z.of_nat (length l) + be_value l.
Proof.
  revert acc. induction l as [|b l IH] using rev_ind; intros acc; [cbn; lia|].
  unfold be_value. rewrite !foldl_app, length_app; simpl.
  rewrite IH. fold (be_value l).
  replace (Z.of_nat (length l + 1)) with (Z.succ (Z.of_nat (length l))) by lia.
  rewrite Z.pow_succ_r by lia. lia.
Qed.

Lemma be_value_cons b l :
  be_value (b :: l) = b * 256 ^ Z.of_nat (length l) + be_value l.
Proof. unfold be_value at 1. simpl. by rewrite foldl_be. Qed.

(** Reading what was written gives the value modulo the width. *)
Lemma be_value_bytes n z : be_value (be_bytes n z) = z mod 256 ^ Z.of_nat n.
Proof.
  induction n as [|n IH]; [simpl; by rewrite Z.mod_1_r|].
  cbn [be_bytes]. rewrite be_value_cons, length_be_bytes, IH.
  replace (Z.of_nat (S n)) with (Z.of_nat n + 1) by lia.
  rewrite Z.pow_add_r, Z.pow_1_r by lia.
  assert (0 < 256 ^ Z.of_nat n) by (apply Z.pow_pos_nonneg; lia).
  rewrite Z.rem_mul_r by lia. lia.
Qed.

Lemma be_bytes_range n z : Forall (λ b, 0 ≤ b < 256) (be_bytes n z).
Proof.
  induction n; simpl; constructor; [|done]. apply Z.mod_pos_bound. lia.
Qed.

Lemma be_value_range l :
  Forall (λ b, 0 ≤ b < 256) l → 0 ≤ be_value l < 256 ^ Z.of_nat (length l).
Proof.
  induction 1 as [|b l Hb _ IH]; [vm_compute; split; congruence|].
  rewrite be_value_cons. cbn [length].
  replace (Z.of_nat (S (length l))) with (Z.of_nat (length l) + 1) by lia.
  rewrite Z.pow_add_r, Z.pow_1_r by lia. nia.
Qed.

Lemma le_value_bytes n z : le_value (le_bytes n z) = z mod 256 ^ Z.of_nat n.
Proof.
  revert z. induction n as [|n IH]; intros z; [simpl; by rewrite Z.mod_1_r|].
  cbn [le_bytes le_value foldr]. fold (le_value (le_bytes n (z / 256))). rewrite IH.
  replace (Z.of_nat (S n)) with (1 + Z.of_nat n) by lia.
  rewrite Z.pow_add_r, Z.pow_1_r by lia.
  assert (0 < 256 ^ Z.of_nat n) by (apply Z.pow_pos_nonneg; lia).
  rewrite Z.rem_mul_r by lia. lia.
Qed.

End Binary.

Module Regexp.

(** [regexp.MustCompile(`\((.*?)\)`).FindAllString(s, -1)]: the successive
    leftmost shortest matches.  [open] is the text matched since the opening
    parenthesis; a newline, which [.] does not match, abandons it. *)
Fixpoint find_parens (opened : option string) (s : string) : list string :=
  match s with
  | EmptyString => []
  | String c s =>
      match opened with
      | None =>
          if decide (c = "("%char) then find_parens (Some "(") s
          else find_parens None s
      | Some acc =>
          if decide (c = ")"%char) then (acc +:+ ")") :: find_parens None s
          else if decide (c = "010"%char) then find_parens None s
          else find_parens (Some (acc +:+ String c "")) s
      end
  end.
Definition FindAllString (s : string) : list string := find_parens None s.

(** [c] does not occur in [s]. *)
Fixpoint lacks (c : Ascii.ascii) (s : string) : bool :=
  match s with
  | EmptyString => true
  | String a s => bool_decide (a ≠ c) && lacks c s
  end.

Lemma FindAllString_none s : lacks "(" s = true → FindAllString s = [].
Proof.
  unfold FindAllString. induction s as [|c s IH]; simpl; [done|].
  rewrite andb_true_iff, bool_decide_eq_true. intros [Hc Hs].
  case_decide; [done|]. auto.
Qed.

Lemma find_parens_open acc d s :
  lacks ")" d = true → lacks "010" d = true →
  find_parens (Some acc) (d +:+ String ")" s) = (acc +:+ d +:+ ")") :: find_parens None s.
Proof.
  revert acc. induction d as [|c d IH]; intros acc; [done|].
  rewrite app_cons_str. simpl. rewrite !andb_true_iff, !bool_decide_eq_true.
  intros [? ?] [? ?]. do 2 (case_decide; [done|]).
  rewrite IH by done. by rewrite <-!app_assoc_str, app_cons_str.
Qed.

(** A text without a closing parenthesis or a newline, in parentheses, is one
    match. *)
Lemma FindAllString_single d :
  lacks ")" d = true → lacks "010" d = true →
  FindAllString ("(" +:+ d +:+ ")") = ["(" +:+ d +:+ ")"].
Proof.
  intros. unfold FindAllString. rewrite app_cons_str, app_nil_l_str. simpl.
  by rewrite find_parens_open.
Qed.

End Regexp.
