(* ===== verification/Ber.v ===== *)
(** The interface to [github.com/go-asn1-ber/asn1-ber], the BER library the
    repository calls and does not contain.  [Packet] is the library's packet
    with the fields the repository reads or writes; class [BerOps] holds the
    functions and constants the repository uses, and class [BerLaws] what the
    repository relies on: the constructors fill the fields they document, a
    packet's bytes are the X.690 definite-length encoding, and decoding the
    bytes of a packet gives back what X.690 keeps of it ([reparse]).  The
    theorems of the other files are proved against these two classes. *)
From stdpp Require Import base decidable option list strings gmap.
From Stdlib Require Import ZArith Lia.
From S2P Require Import Prelude GoStd.

(** The dynamic types a packet's [Value interface{}] holds in the repository. *)
Inductive goval : Type :=
| VNil
| VString (s : string)
| VBytes (s : string)
| VBool (b : bool)
| VInt64 (z : Z)
| VInt16 (z : Z)
| VInt8 (z : Z)
| VOther.

#[export] Instance goval_eq_dec : EqDecision goval.
Proof. solve_decision. Defined.

(** [ber.Packet].  [Data] is the content of its [*bytes.Buffer], which the
    library always allocates. *)
Inductive Packet : Type := mkPacket {
  ClassType : Z;
  TagType : Z;
  Tag : Z;
  Value : goval;
  Data : string;
  Children : list Packet;
  Description : string;
}.

(** Assignments to the fields of a packet. *)
Definition set_Value (v : goval) (p : Packet) : Packet :=
  mkPacket (ClassType p) (TagType p) (Tag p) v (Data p) (Children p) (Description p).
Definition set_Data (d : string) (p : Packet) : Packet :=
  mkPacket (ClassType p) (TagType p) (Tag p) (Value p) d (Children p) (Description p).
Definition set_Children (c : list Packet) (p : Packet) : Packet :=
  mkPacket (ClassType p) (TagType p) (Tag p) (Value p) (Data p) c (Description p).
Definition set_Description (d : string) (p : Packet) : Packet :=
  mkPacket (ClassType p) (TagType p) (Tag p) (Value p) (Data p) (Children p) d.

(** [p.Children[i] = f(p.Children[i])] for an index known to be in range. *)
Definition alter_child (i : nat) (f : Packet → Packet) (p : Packet) : Packet :=
  set_Children (alter f i (Children p)) p.

(** Induction over a packet and all its children. *)
Fixpoint Packet_tree_ind (P : Packet → Prop)
    (H : ∀ c t g v d cs ds, Forall P cs → P (mkPacket c t g v d cs ds))
    (p : Packet) : P p :=
  match p with
  | mkPacket c t g v d cs ds =>
      H c t g v d cs ds
        ((fix go (l : list Packet) : Forall P l :=
            match l with
            | [] => Forall_nil_2 P
            | x :: l => Forall_cons_2 P x l (Packet_tree_ind P H x) (go l)
            end) cs)
  end.

(** The integer in an interface value of one of Go's signed integer types. *)
Definition goval_int (v : goval) : option Z :=
  match v with
  | VInt64 z | VInt16 z | VInt8 z => Some z
  | _ => None
  end.

(** The functions and constants of the library. *)
Class BerOps : Type := {
  ClassUniversal : Z;
  ClassApplication : Z;
  ClassContext : Z;
  TypePrimitive : Z;
  TypeConstructed : Z;
  TagBoolean : Z;
  TagInteger : Z;
  TagOctetString : Z;
  TagEnumerated : Z;
  TagSequence : Z;
  TagSet : Z;
  TagGeneralString : Z;
  LengthLongFormBitmask : Z;
  LengthValueBitmask : Z;
  LengthIndefinite : Z;
  ber_Encode : Z → Z → Z → goval → string → Packet;
  ber_NewString : Z → Z → Z → string → string → Packet;
  ber_NewInteger : Z → Z → Z → goval → string → Packet;
  ber_NewBoolean : Z → Z → Z → bool → string → Packet;
  AppendChild : Packet → Packet → Packet;
  Packet_Bytes : Packet → string;
  ber_DecodePacketErr : string → outcome Packet;
  ber_ParseInt64 : string → outcome Z;
  ber_DecodeString : string → string;
}.

(** The length octets of X.690, 8.1.3: the short form below 128, else the
    shortest long form. *)
Definition length_octets (n : Z) : list Z :=
  if decide (n < 128) then [n]
  else let k := Z.to_nat (Z.log2 n / 8 + 1) in
       (128 + Z.of_nat k) :: Binary.be_bytes k n.

Section Wire.
Context `{BerOps}.

(** The value the library derives from the content of a primitive packet of
    the universal class. *)
Definition universal_value (tag : Z) (content : string) : goval :=
  let int := match ber_ParseInt64 content with Ok z => z | _ => 0 end in
  if decide (tag = TagBoolean) then VBool (bool_decide (int ≠ 0))
  else if decide (tag = TagInteger) then VInt64 int
  else if decide (tag = TagEnumerated) then VInt64 int
  else if decide (tag = TagOctetString) then VString (ber_DecodeString content)
  else VOther.

(** What the encoding of a packet keeps of it: the identifier and the content
    octets.  A constructed packet's children are read again; the value of a
    primitive one is derived from its content in the universal class and left
    unset otherwise; descriptions are lost. *)
Fixpoint reparse (p : Packet) : Packet :=
  if decide (TagType p = TypeConstructed) then
    mkPacket (ClassType p) (TagType p) (Tag p) VNil (Data p)
      (map reparse (Children p)) ""
  else
    mkPacket (ClassType p) (TagType p) (Tag p)
      (if decide (ClassType p = ClassUniversal)
       then universal_value (Tag p) (Data p) else VNil)
      (Data p) [] "".

(** The packets whose bytes the library reads back: known class and type, a
    one-octet identifier, at most [math.MaxInt32] bytes of content, and the
    content of a constructed packet is the encoding of its children. *)
Inductive encodable : Packet → Prop :=
| encodable_primitive c g v d cs ds :
    c ∈ [ClassUniversal; ClassApplication; ClassContext] →
    0 ≤ g < 31 →
    (c = ClassUniversal → g ∈ [TagBoolean; TagInteger; TagEnumerated; TagOctetString]) →
    Z.of_nat (String.length d) < 2 ^ 31 →
    encodable (mkPacket c TypePrimitive g v d cs ds)
| encodable_constructed c g v d cs ds :
    c ∈ [ClassUniversal; ClassApplication; ClassContext] →
    0 ≤ g < 31 →
    d = foldr (λ q s, Packet_Bytes q +:+ s) "" cs →
    Z.of_nat (String.length d) < 2 ^ 31 →
    Forall encodable cs →
    encodable (mkPacket c TypeConstructed g v d cs ds).
End Wire.

#[global] Arguments reparse {_} _ : simpl never.

(** What the repository relies on. *)
Class BerLaws `(B : BerOps) : Prop := {
  law_ClassUniversal : ClassUniversal = 0;
  law_ClassApplication : ClassApplication = 64;
  law_ClassContext : ClassContext = 128;
  law_TypePrimitive : TypePrimitive = 0;
  law_TypeConstructed : TypeConstructed = 32;
  law_TagBoolean : TagBoolean = 1;
  law_TagInteger : TagInteger = 2;
  law_TagOctetString : TagOctetString = 4;
  law_TagEnumerated : TagEnumerated = 10;
  law_TagSequence : TagSequence = 16;
  law_TagSet : TagSet = 17;
  law_TagGeneralString : TagGeneralString = 27;
  law_LengthLongFormBitmask : LengthLongFormBitmask = 128;
  law_LengthValueBitmask : LengthValueBitmask = 127;
  law_LengthIndefinite : LengthIndefinite = -1;
  law_Encode c t g d : ber_Encode c t g VNil d = mkPacket c t g VNil "" [] d;
  law_NewString c t g s d :
    ber_NewString c t g s d = mkPacket c t g (VString s) s [] d;
  law_NewInteger c t g v d :
    ∃ content, ber_NewInteger c t g v d = mkPacket c t g v content [] d;
  law_NewInteger_data c t g v d z :
    goval_int v = Some z → in_int 64 z →
    ber_ParseInt64 (Data (ber_NewInteger c t g v d)) = Ok z ∧
    (String.length (Data (ber_NewInteger c t g v d)) ≤ 8)%nat;
  law_NewInteger_small c t g v d z :
    goval_int v = Some z → 0 ≤ z < 128 →
    Data (ber_NewInteger c t g v d) = of_bytes [z];
  law_NewBoolean c t g b d :
    ∃ content, ber_NewBoolean c t g b d = mkPacket c t g (VBool b) content [] d;
  law_NewBoolean_data c t g b d :
    (∃ z, ber_ParseInt64 (Data (ber_NewBoolean c t g b d)) = Ok z ∧
          (z ≠ 0 ↔ b = true)) ∧
    String.length (Data (ber_NewBoolean c t g b d)) = 1%nat;
  law_AppendChild p q :
    AppendChild p q =
      set_Data (Data p +:+ Packet_Bytes q) (set_Children (Children p ++ [q]) p);
  law_Bytes p :
    0 ≤ Tag p < 31 →
    Packet_Bytes p =
      of_bytes ((ClassType p + TagType p + Tag p)
                :: length_octets (Z.of_nat (String.length (Data p)))) +:+ Data p;
  law_ParseInt64_range s z : ber_ParseInt64 s = Ok z → in_int 64 z;
  law_ParseInt64_no_panic s : no_panic (ber_ParseInt64 s);
  law_Decode_no_panic s : no_panic (ber_DecodePacketErr s);
  law_DecodeString s : ber_DecodeString s = s;
  law_Decode p : encodable p → ber_DecodePacketErr (Packet_Bytes p) = Ok (reparse p);
}.

(** ** What the laws say of the fields *)

Create Rewrite HintDb ber.

Section fields.
Context `{L : BerLaws}.

Lemma Encode_eq c t g d : ber_Encode c t g VNil d = mkPacket c t g VNil "" [] d.
Proof. apply law_Encode. Qed.
Lemma NewString_eq c t g s d :
  ber_NewString c t g s d = mkPacket c t g (VString s) s [] d.
Proof. apply law_NewString. Qed.
Lemma NewInteger_eq c t g v d :
  ber_NewInteger c t g v d =
    mkPacket c t g v (Data (ber_NewInteger c t g v d)) [] d.
Proof. by destruct (law_NewInteger c t g v d) as [x ->]. Qed.
Lemma NewBoolean_eq c t g b d :
  ber_NewBoolean c t g b d =
    mkPacket c t g (VBool b) (Data (ber_NewBoolean c t g b d)) [] d.
Proof. by destruct (law_NewBoolean c t g b d) as [x ->]. Qed.

Lemma Children_AppendChild p q : Children (AppendChild p q) = Children p ++ [q].
Proof. by rewrite law_AppendChild. Qed.
Lemma Data_AppendChild p q : Data (AppendChild p q) = Data p +:+ Packet_Bytes q.
Proof. by rewrite law_AppendChild. Qed.
Lemma Value_AppendChild p q : Value (AppendChild p q) = Value p.
Proof. by rewrite law_AppendChild. Qed.
Lemma ClassType_AppendChild p q : ClassType (AppendChild p q) = ClassType p.
Proof. by rewrite law_AppendChild. Qed.
Lemma TagType_AppendChild p q : TagType (AppendChild p q) = TagType p.
Proof. by rewrite law_AppendChild. Qed.
Lemma Tag_AppendChild p q : Tag (AppendChild p q) = Tag p.
Proof. by rewrite law_AppendChild. Qed.
Lemma Description_AppendChild p q : Description (AppendChild p q) = Description p.
Proof. by rewrite law_AppendChild. Qed.

Lemma Value_NewInteger c t g v d : Value (ber_NewInteger c t g v d) = v.
Proof. by rewrite NewInteger_eq. Qed.
Lemma Children_NewInteger c t g v d : Children (ber_NewInteger c t g v d) = [].
Proof. by rewrite NewInteger_eq. Qed.
Lemma ClassType_NewInteger c t g v d : ClassType (ber_NewInteger c t g v d) = c.
Proof. by rewrite NewInteger_eq. Qed.
Lemma TagType_NewInteger c t g v d : TagType (ber_NewInteger c t g v d) = t.
Proof. by rewrite NewInteger_eq. Qed.
Lemma Tag_NewInteger c t g v d : Tag (ber_NewInteger c t g v d) = g.
Proof. by rewrite NewInteger_eq. Qed.
Lemma Value_NewBoolean c t g b d : Value (ber_NewBoolean c t g b d) = VBool b.
Proof. by rewrite NewBoolean_eq. Qed.
Lemma ClassType_NewBoolean c t g v d : ClassType (ber_NewBoolean c t g v d) = c.
Proof. by rewrite NewBoolean_eq. Qed.
Lemma TagType_NewBoolean c t g v d : TagType (ber_NewBoolean c t g v d) = t.
Proof. by rewrite NewBoolean_eq. Qed.
Lemma Tag_NewBoolean c t g v d : Tag (ber_NewBoolean c t g v d) = g.
Proof. by rewrite NewBoolean_eq. Qed.
End fields.

#[export] Hint Rewrite @Encode_eq @NewString_eq @Children_AppendChild
  @Value_AppendChild @ClassType_AppendChild @TagType_AppendChild @Tag_AppendChild
  @Description_AppendChild @Value_NewInteger @Children_NewInteger
  @ClassType_NewInteger @TagType_NewInteger @Tag_NewInteger @Value_NewBoolean
  @ClassType_NewBoolean @TagType_NewBoolean @Tag_NewBoolean
  using typeclasses eauto : ber.

(** Evaluate the fields of packets built with the library. *)
Ltac ber_simpl := repeat (autorewrite with ber; simpl).

(** ** The wire *)

Section wire_lemmas.
Context `{L : BerLaws}.

Lemma primitive_not_constructed : TypePrimitive ≠ TypeConstructed.
Proof. rewrite law_TypePrimitive, law_TypeConstructed. done. Qed.

Lemma reparse_constructed p :
  TagType p = TypeConstructed →
  reparse p = mkPacket (ClassType p) TypeConstructed (Tag p) VNil (Data p)
                (map reparse (Children p)) "".
Proof. destruct p; unfold reparse; simpl. intros ->. by rewrite decide_True. Qed.

Lemma reparse_primitive p :
  TagType p = TypePrimitive →
  reparse p = mkPacket (ClassType p) TypePrimitive (Tag p)
                (if decide (ClassType p = ClassUniversal)
                 then universal_value (Tag p) (Data p) else VNil)
                (Data p) [] "".
Proof.
  destruct p; unfold reparse; simpl. intros ->. rewrite decide_False; [done|].
  apply primitive_not_constructed.
Qed.

Lemma reparse_octets p :
  ClassType p = ClassUniversal → TagType p = TypePrimitive → Tag p = TagOctetString →
  reparse p = mkPacket ClassUniversal TypePrimitive TagOctetString (VString (Data p))
                (Data p) [] "".
Proof.
  intros Hc Ht Hg. rewrite reparse_primitive, Hc, Hg by done. rewrite decide_True by done.
  unfold universal_value. rewrite law_DecodeString.
  rewrite law_TagBoolean, law_TagInteger, law_TagEnumerated, law_TagOctetString.
  done.
Qed.

Lemma reparse_integer c t g v d z :
  c = ClassUniversal → t = TypePrimitive → g = TagInteger ∨ g = TagEnumerated →
  goval_int v = Some z → in_int 64 z →
  reparse (ber_NewInteger c t g v d) =
    mkPacket c t g (VInt64 z) (Data (ber_NewInteger c t g v d)) [] "".
Proof.
  intros -> -> Hg Hv Hz.
  rewrite reparse_primitive by (by rewrite TagType_NewInteger).
  rewrite ClassType_NewInteger, Tag_NewInteger, decide_True by done.
  unfold universal_value.
  destruct (law_NewInteger_data ClassUniversal TypePrimitive g v d z) as [-> _]; [done..|].
  revert Hg. rewrite law_TagBoolean, law_TagInteger, law_TagEnumerated.
  by intros [-> | ->].
Qed.

Lemma reparse_boolean c t g b d :
  c = ClassUniversal → t = TypePrimitive → g = TagBoolean →
  reparse (ber_NewBoolean c t g b d) =
    mkPacket c t g (VBool b) (Data (ber_NewBoolean c t g b d)) [] "".
Proof.
  intros -> -> ->.
  rewrite reparse_primitive by (by rewrite TagType_NewBoolean).
  rewrite ClassType_NewBoolean, Tag_NewBoolean, decide_True by done.
  unfold universal_value. rewrite decide_True by done.
  destruct (law_NewBoolean_data ClassUniversal TypePrimitive TagBoolean b d)
    as [(z & -> & Hz) _].
  f_equal. f_equal. rewrite (bool_decide_ext _ _ Hz).
  destruct b; [by apply bool_decide_eq_true|by apply bool_decide_eq_false].
Qed.

Lemma reparse_context p :
  ClassType p = ClassContext → TagType p = TypePrimitive →
  reparse p = mkPacket ClassContext TypePrimitive (Tag p) VNil (Data p) [] "".
Proof.
  intros Hc Ht. rewrite reparse_primitive, Hc by done. rewrite decide_False; [done|].
  by rewrite law_ClassContext, law_ClassUniversal.
Qed.

(** *** Encodable packets, with a bound on the length of their content *)

Definition enc (p : Packet) (n : Z) : Prop :=
  encodable p ∧ Z.of_nat (String.length (Data p)) ≤ n.

Lemma length_length_octets n : 0 ≤ n < 2 ^ 31 → (length (length_octets n) ≤ 5)%nat.
Proof.
  intros Hn. unfold length_octets. case_decide; [simpl; lia|].
  cbn [length]. rewrite Binary.length_be_bytes.
  assert (Z.log2 n / 8 < 4); [|lia].
  apply Z.div_lt_upper_bound; [lia|]. apply Z.log2_lt_pow2; lia.
Qed.

Lemma encodable_fields p :
  encodable p → 0 ≤ Tag p < 31 ∧ Z.of_nat (String.length (Data p)) < 2 ^ 31.
Proof. by destruct 1. Qed.

Lemma enc_Bytes p n : enc p n → Z.of_nat (String.length (Packet_Bytes p)) ≤ n + 6.
Proof.
  intros [[Hg Hd]%encodable_fields Hn]. rewrite law_Bytes by done.
  rewrite length_app_str, <-length_bytes. cbn [of_bytes bytes length].
  assert (∀ l, length (bytes (of_bytes l)) = length l) as ->
    by (induction l; simpl; auto).
  pose proof (length_length_octets (Z.of_nat (String.length (Data p)))). lia.
Qed.

Lemma enc_Encode c g d :
  c ∈ [ClassUniversal; ClassApplication; ClassContext] → 0 ≤ g < 31 →
  enc (ber_Encode c TypeConstructed g VNil d) 0.
Proof. intros. rewrite Encode_eq. split; [by constructor|done]. Qed.

Lemma enc_octets v s cs d n :
  Z.of_nat (String.length s) ≤ n → n < 2 ^ 31 →
  enc (mkPacket ClassUniversal TypePrimitive TagOctetString v s cs d) n.
Proof.
  intros. split; [|done]. constructor; [by left| |set_solver|lia].
  by rewrite law_TagOctetString.
Qed.

Lemma enc_context g v s cs d n :
  0 ≤ g < 31 → Z.of_nat (String.length s) ≤ n → n < 2 ^ 31 →
  enc (mkPacket ClassContext TypePrimitive g v s cs d) n.
Proof.
  intros. split; [|done]. constructor; [set_solver|done| |lia].
  rewrite law_ClassContext, law_ClassUniversal. done.
Qed.

Lemma enc_NewInteger c g v d z :
  c = ClassUniversal ∧ (g = TagInteger ∨ g = TagEnumerated) ∨
  c = ClassContext ∧ 0 ≤ g < 31 →
  goval_int v = Some z → in_int 64 z →
  enc (ber_NewInteger c TypePrimitive g v d) 8.
Proof.
  intros Hc Hv Hz.
  destruct (law_NewInteger_data c TypePrimitive g v d z Hv Hz) as [_ Hl].
  split; [|lia]. rewrite NewInteger_eq. constructor.
  - destruct Hc as [[-> _]|[-> _]]; set_solver.
  - destruct Hc as [[_ [-> | ->]]|[_ ?]]; [| |done].
    + by rewrite law_TagInteger.
    + by rewrite law_TagEnumerated.
  - destruct Hc as [[_ [-> | ->]]|[-> _]]; [set_solver..|].
    rewrite law_ClassContext, law_ClassUniversal. done.
  - lia.
Qed.

Lemma enc_NewBoolean b d : enc (ber_NewBoolean ClassUniversal TypePrimitive TagBoolean b d) 1.
Proof.
  destruct (law_NewBoolean_data ClassUniversal TypePrimitive TagBoolean b d) as [_ Hl].
  split; [|lia]. rewrite NewBoolean_eq. constructor; [by left| |by left|lia].
  by rewrite law_TagBoolean.
Qed.

Lemma enc_AppendChild p q n m k :
  enc p n → TagType p = TypeConstructed → enc q m → n + m + 6 ≤ k < 2 ^ 31 →
  enc (AppendChild p q) k.
Proof.
  intros [Hp Hn] Ht Hq Hlt. pose proof (enc_Bytes q m Hq) as Hb. destruct Hq as [Hq Hm].
  split; [|rewrite Data_AppendChild, length_app_str; lia].
  rewrite law_AppendChild. destruct Hp as [|c g v d cs ds ? ? -> ? ?]; simpl in *.
  { by apply primitive_not_constructed in Ht. }
  constructor; [done|done| | |by apply Forall_app; auto].
  - clear. induction cs as [|x cs IH]; simpl.
    + by rewrite app_nil_l_str, app_nil_r_str.
    + by rewrite <-app_assoc_str, IH.
  - rewrite length_app_str. lia.
Qed.

(** A control value: an octet string built by appending a packet. *)
Lemma enc_AppendChild_octets d q m k :
  enc q m → m + 6 ≤ k < 2 ^ 31 →
  enc (AppendChild (ber_Encode ClassUniversal TypePrimitive TagOctetString VNil d) q) k.
Proof.
  intros Hq Hm. pose proof (enc_Bytes q m Hq). rewrite law_AppendChild, Encode_eq.
  unfold set_Data, set_Children; simpl. apply enc_octets; [|lia].
  rewrite app_nil_l_str. lia.
Qed.

Lemma enc_decode p n : enc p n → ber_DecodePacketErr (Packet_Bytes p) = Ok (reparse p).
Proof. intros [He _]. by apply law_Decode. Qed.

Lemma enc_le p n m : enc p n → n ≤ m → enc p m.
Proof. intros [? ?] ?. split; [done|lia]. Qed.
End wire_lemmas.

(** *** Appending the packets of a list, as the encoding loops do *)

(** The sum of [f] over a list. *)
Definition sumZ {A} (f : A → Z) (xs : list A) : Z := foldr (λ x s, f x + s) 0 xs.

Lemma sumZ_nonneg {A} (f : A → Z) xs : (∀ x, 0 ≤ f x) → 0 ≤ sumZ f xs.
Proof. intros Hf. induction xs as [|x xs IH]; simpl; [done|]. specialize (Hf x). lia. Qed.

Section append_list.
Context `{L : BerLaws} {A : Type} (f : A → Packet).

(** [for _, x := range xs { p.AppendChild(f(x)) }] *)
Definition appendAll (p : Packet) (xs : list A) : Packet :=
  foldl (λ p x, AppendChild p (f x)) p xs.

Lemma Children_appendAll p xs : Children (appendAll p xs) = Children p ++ map f xs.
Proof.
  revert p. induction xs as [|x xs IH]; intros p; simpl; [by rewrite app_nil_r|].
  unfold appendAll in *. simpl. rewrite IH, Children_AppendChild. by rewrite <-app_assoc.
Qed.

Lemma header_appendAll p xs :
  ClassType (appendAll p xs) = ClassType p ∧ TagType (appendAll p xs) = TagType p ∧
  Tag (appendAll p xs) = Tag p.
Proof.
  revert p. induction xs as [|x xs IH]; intros p; [done|].
  destruct (IH (AppendChild p (f x))) as (H1 & H2 & H3).
  rewrite ClassType_AppendChild in H1. rewrite TagType_AppendChild in H2.
  rewrite Tag_AppendChild in H3. done.
Qed.

Lemma Value_appendAll p xs : Value (appendAll p xs) = Value p.
Proof.
  revert p. induction xs as [|x xs IH]; intros p; [done|].
  unfold appendAll in *. simpl. by rewrite IH, Value_AppendChild.
Qed.

Lemma enc_appendAll p n (size : A → Z) xs k :
  enc p n → TagType p = TypeConstructed →
  (∀ x, 0 ≤ size x) → Forall (λ x, enc (f x) (size x)) xs →
  n + sumZ (λ x, size x + 6) xs ≤ k < 2 ^ 31 → enc (appendAll p xs) k.
Proof.
  intros Hp Ht Hs Hf Hk. revert p n Hp Ht Hk.
  induction Hf as [|x xs Hx _ IH]; intros p n Hp Ht Hk; simpl in *.
  { eapply enc_le; [done|lia]. }
  pose proof (sumZ_nonneg (λ x, size x + 6) xs) as Hn.
  assert (0 ≤ sumZ (λ x, size x + 6) xs) by (apply Hn; intros y; specialize (Hs y); lia).
  eapply (IH (AppendChild p (f x)) (n + size x + 6)); [| |lia].
  - eapply enc_AppendChild; [done|done|done|lia].
  - by rewrite TagType_AppendChild.
Qed.
End append_list.

(** *** Packets as built, and as read from the wire *)

Section via.
Context `{L : BerLaws}.

(** A packet as its builder left it, or as the reader of its bytes sees it. *)
Definition via (wire : bool) (p : Packet) : Packet := if wire then reparse p else p.

Lemma ClassType_via w p : ClassType (via w p) = ClassType p.
Proof. destruct w, p; [|done]. unfold via, reparse. simpl. by case_decide. Qed.
Lemma TagType_via w p : TagType (via w p) = TagType p.
Proof. destruct w, p; [|done]. unfold via, reparse. simpl. by case_decide. Qed.
Lemma Tag_via w p : Tag (via w p) = Tag p.
Proof. destruct w, p; [|done]. unfold via, reparse. simpl. by case_decide. Qed.
Lemma Data_via w p : Data (via w p) = Data p.
Proof. destruct w, p; [|done]. unfold via, reparse. simpl. by case_decide. Qed.

Lemma Children_via w p :
  TagType p = TypeConstructed → Children (via w p) = map (via w) (Children p).
Proof.
  intros Ht. destruct w; simpl; [by rewrite reparse_constructed|].
  by rewrite map_id.
Qed.

Lemma Value_via_integer w c t g z d :
  c = ClassUniversal → t = TypePrimitive → g = TagInteger ∨ g = TagEnumerated →
  in_int 64 z → Value (via w (ber_NewInteger c t g (VInt64 z) d)) = VInt64 z.
Proof.
  intros -> -> Hg Hz. destruct w; simpl.
  - by rewrite (reparse_integer _ _ _ _ _ z).
  - apply Value_NewInteger.
Qed.

Lemma Value_via_boolean w b d :
  Value (via w (ber_NewBoolean ClassUniversal TypePrimitive TagBoolean b d)) = VBool b.
Proof.
  destruct w; simpl; [by rewrite reparse_boolean|]. apply Value_NewBoolean.
Qed.
End via.

#[export] Hint Rewrite @ClassType_via @TagType_via @Tag_via @Data_via
  using typeclasses eauto : ber.
