(* ===== verification/BerModel.v ===== *)
(** The interface of [Ber] has an implementation: an executable X.690 codec
    for one-octet identifiers, with the laws of [BerLaws] proved of it.  It
    shows that the hypotheses of the development can be met together, and it
    is what the concrete evaluations of the other files run on.  It is not a
    transcription of asn1-ber. *)
From stdpp Require Import base decidable option list strings gmap.
From Stdlib Require Import ZArith Lia.
From S2P Require Import Prelude GoStd Ber.

(** Two's complement, in the fewest octets. *)
Fixpoint int_width (fuel : nat) (n : Z) (z : Z) : Z :=
  match fuel with
  | O => n
  | S fuel => if decide (in_int (8 * n) z) then n else int_width fuel (n + 1) z
  end.
Definition int_octets (z : Z) : list Z :=
  Binary.be_bytes (Z.to_nat (int_width 7 1 z)) z.
Definition parse_int (l : list Z) : outcome Z :=
  if decide (length l ≤ 8)%nat then
    match l with
    | [] => Ok 0
    | _ => Ok (wrapS (8 * Z.of_nat (length l)) (Binary.be_value l))
    end
  else Err (EExternal OtherErr "integer too large").

(** The length octets of a packet, and the rest. *)
Definition read_len (l : list Z) : option (Z * list Z) :=
  match l with
  | [] => None
  | b :: l =>
      if decide (b < 128) then Some (b, l)
      else let k := Z.to_nat (b - 128) in
           if decide (k ≤ length l)%nat
           then Some (Binary.be_value (take k l), drop k l) else None
  end.

Definition model_value (cls tag : Z) (content : list Z) : goval :=
  let int := match parse_int content with Ok z => z | _ => 0 end in
  if decide (cls ≠ 0) then VNil
  else if decide (tag = 1) then VBool (bool_decide (int ≠ 0))
  else if decide (tag = 2) then VInt64 int
  else if decide (tag = 10) then VInt64 int
  else if decide (tag = 4) then VString (of_bytes content)
  else VOther.

(** One packet, and a sequence of packets that fills its content. *)
Fixpoint decode_one (fuel : nat) (l : list Z) : option (Packet * list Z) :=
  match fuel with
  | O => None
  | S fuel =>
      match l with
      | [] => None
      | id :: l =>
          let cls := (id / 64) * 64 in
          let typ := ((id / 32) mod 2) * 32 in
          let tag := id mod 32 in
          '(n, l) ← read_len l;
          if decide (n ≤ Z.of_nat (length l)) then
            let content := take (Z.to_nat n) l in
            let rest := drop (Z.to_nat n) l in
            if decide (typ = 32) then
              kids ← decode_many fuel content;
              Some (mkPacket cls typ tag VNil (of_bytes content) kids "", rest)
            else
              Some (mkPacket cls typ tag (model_value cls tag content)
                      (of_bytes content) [] "", rest)
          else None
      end
  end
with decode_many (fuel : nat) (l : list Z) : option (list Packet) :=
  match fuel with
  | O => None
  | S fuel =>
      match l with
      | [] => Some []
      | _ => '(p, rest) ← decode_one fuel l;
             ps ← decode_many fuel rest;
             Some (p :: ps)
      end
  end.

Definition model_bytes (p : Packet) : string :=
  of_bytes ((ClassType p + TagType p + Tag p)
            :: length_octets (Z.of_nat (String.length (Data p)))) +:+ Data p.

Definition model_decode (s : string) : outcome Packet :=
  match decode_one (2 * String.length s + 2) (bytes s) with
  | Some (p, _) => Ok p
  | None => Err (EExternal ErrUnexpectedEOF "unexpected EOF")
  end.

Definition int_data (v : goval) : string :=
  of_bytes (match goval_int v with Some z => int_octets z | None => [] end).

Definition ber_model : BerOps := {|
  ClassUniversal := 0;
  ClassApplication := 64;
  ClassContext := 128;
  TypePrimitive := 0;
  TypeConstructed := 32;
  TagBoolean := 1;
  TagInteger := 2;
  TagOctetString := 4;
  TagEnumerated := 10;
  TagSequence := 16;
  TagSet := 17;
  TagGeneralString := 27;
  LengthLongFormBitmask := 128;
  LengthValueBitmask := 127;
  LengthIndefinite := -1;
  ber_Encode c t g v d := mkPacket c t g v "" [] d;
  ber_NewString c t g s d := mkPacket c t g (VString s) s [] d;
  ber_NewInteger c t g v d := mkPacket c t g v (int_data v) [] d;
  ber_NewBoolean c t g b d :=
    mkPacket c t g (VBool b) (of_bytes [if b then 1 else 0]) [] d;
  AppendChild p q :=
    set_Data (Data p +:+ model_bytes q) (set_Children (Children p ++ [q]) p);
  Packet_Bytes := model_bytes;
  ber_DecodePacketErr := model_decode;
  ber_ParseInt64 s := parse_int (bytes s);
  ber_DecodeString s := s;
|}.

Lemma int_width_spec fuel n z :
  1 ≤ n → in_int (8 * (n + Z.of_nat fuel)) z →
  let w := int_width fuel n z in
  n ≤ w ≤ n + Z.of_nat fuel ∧ in_int (8 * w) z.
Proof.
  revert n. induction fuel as [|fuel IH]; intros n Hn Hz; simpl.
  { rewrite Z.add_0_r in Hz. split; [lia|done]. }
  case_decide; [split; [lia|done]|].
  destruct (IH (n + 1)) as [? ?]; [lia| |split; [lia|done]].
  by replace (n + 1 + Z.of_nat fuel) with (n + Z.of_nat (S fuel)) by lia.
Qed.

Lemma pow256 n : 0 ≤ n → 256 ^ n = 2 ^ (8 * n).
Proof. intros. by rewrite Z.pow_mul_r by lia. Qed.

Lemma in_int_mono v w z : 0 < v ≤ w → in_int v z → in_int w z.
Proof.
  unfold in_int. intros Hv Hz.
  assert (2 ^ (v - 1) ≤ 2 ^ (w - 1)) by (apply Z.pow_le_mono_r; lia). lia.
Qed.

Lemma wrapS_mod w z : wrapS w (z mod 2 ^ w) = wrapS w z.
Proof. unfold wrapS. by rewrite Zmod_mod. Qed.

Lemma int_octets_spec z :
  in_int 64 z → parse_int (int_octets z) = Ok z ∧ (length (int_octets z) ≤ 8)%nat.
Proof.
  intros Hz. unfold int_octets.
  destruct (int_width_spec 7 1 z) as [Hw Hin]; [lia|done|].
  set (w := int_width 7 1 z) in *.
  assert (length (Binary.be_bytes (Z.to_nat w) z) = Z.to_nat w) as Hlen
    by apply Binary.length_be_bytes.
  split; [|lia]. unfold parse_int. rewrite decide_True by lia.
  destruct (Binary.be_bytes (Z.to_nat w) z) as [|b l] eqn:He; [simpl in *; lia|].
  rewrite <-He, Binary.length_be_bytes, Binary.be_value_bytes, Z2Nat.id by lia.
  rewrite pow256, wrapS_mod by lia. by rewrite wrapS_id by (lia || done).
Qed.

Lemma int_octets_range z : Forall (λ b, 0 ≤ b < 256) (int_octets z).
Proof. apply Binary.be_bytes_range. Qed.

Lemma int_octets_small z : 0 ≤ z < 128 → int_octets z = [z].
Proof.
  intros Hz. unfold int_octets. simpl int_width.
  rewrite decide_True by (unfold in_int; simpl; lia).
  change (Z.to_nat 1) with 1%nat. simpl. f_equal.
  rewrite Z.div_1_r. apply Z.mod_small. lia.
Qed.

Lemma parse_int_range l z : parse_int l = Ok z → in_int 64 z.
Proof.
  unfold parse_int. case_decide as Hl; [|done].
  destruct l as [|b l]; intros [= <-]; [unfold in_int; simpl; lia|].
  eapply (in_int_mono (8 * Z.of_nat (length (b :: l)))); [simpl in *; lia|].
  apply wrapS_range. simpl; lia.
Qed.

Lemma length_octets_range n :
  0 ≤ n < 2 ^ 31 → Forall (λ b, 0 ≤ b < 256) (length_octets n).
Proof.
  intros Hn. unfold length_octets. case_decide; [constructor; [lia|done]|].
  constructor; [|apply Binary.be_bytes_range].
  assert (Z.log2 n < 31) by (apply Z.log2_lt_pow2; lia).
  assert (0 ≤ Z.log2 n) by apply Z.log2_nonneg.
  assert (0 ≤ Z.log2 n / 8 ≤ 3) by (split; [apply Z.div_pos; lia|apply Z.lt_succ_r, Z.div_lt_upper_bound; lia]).
  lia.
Qed.

Lemma read_len_octets n rest :
  0 ≤ n < 2 ^ 31 → read_len (length_octets n ++ rest) = Some (n, rest).
Proof.
  intros Hn. unfold length_octets. case_decide as Hs.
  { simpl. by rewrite decide_True. }
  assert (0 ≤ Z.log2 n) by apply Z.log2_nonneg.
  assert (0 ≤ Z.log2 n / 8) by (apply Z.div_pos; lia).
  set (k := Z.to_nat (Z.log2 n / 8 + 1)).
  cbn [app read_len]. rewrite decide_False by lia.
  replace (Z.to_nat (128 + Z.of_nat k - 128)) with k by lia.
  rewrite decide_True by (rewrite length_app, Binary.length_be_bytes; lia).
  rewrite take_app_length', drop_app_length' by (by rewrite Binary.length_be_bytes).
  rewrite Binary.be_value_bytes, pow256, Z.mod_small; [done| |lia].
  split; [lia|]. apply Z.log2_lt_pow2; [lia|].
  pose proof (Z.div_mod (Z.log2 n) 8). pose proof (Z.mod_pos_bound (Z.log2 n) 8). lia.
Qed.

(** The identifier octet splits into class, type and tag. *)
Lemma identifier_split c t g :
  c ∈ [0; 64; 128] → t = 0 ∨ t = 32 → 0 ≤ g < 31 →
  0 ≤ c + t + g < 256 ∧
  (c + t + g) / 64 * 64 = c ∧ ((c + t + g) / 32) mod 2 * 32 = t ∧
  (c + t + g) mod 32 = g.
Proof.
  intros Hc Ht Hg.
  assert (g ∈ seqZ 0 31) as Hin by (apply elem_of_seqZ; lia).
  revert c t g Hc Ht Hg Hin.
  assert (Forall (λ c, Forall (λ t, Forall (λ g,
    0 ≤ c + t + g < 256 ∧ (c + t + g) / 64 * 64 = c ∧
    ((c + t + g) / 32) mod 2 * 32 = t ∧ (c + t + g) mod 32 = g)
      (seqZ 0 31)) [0; 32]) [0; 64; 128]) as Hall.
  { apply (bool_decide_unpack _). by vm_compute. }
  intros c t g Hc Ht _ Hin.
  rewrite Forall_forall in Hall. specialize (Hall c Hc).
  rewrite Forall_forall in Hall. specialize (Hall t). rewrite Forall_forall in Hall.
  apply Hall; [|done]. destruct Ht as [->| ->]; set_solver.
Qed.

Section laws.
#[local] Existing Instance ber_model.

Lemma bytes_model_bytes p :
  0 ≤ ClassType p + TagType p + Tag p < 256 →
  Z.of_nat (String.length (Data p)) < 2 ^ 31 →
  bytes (model_bytes p) =
    (ClassType p + TagType p + Tag p)
    :: length_octets (Z.of_nat (String.length (Data p))) ++ bytes (Data p).
Proof.
  intros Hid Hlen. unfold model_bytes. rewrite bytes_app, bytes_of_bytes; [done|].
  constructor; [done|]. apply length_octets_range. lia.
Qed.

Lemma length_octets_pos n : (1 ≤ length (length_octets n))%nat.
Proof. unfold length_octets. case_decide; simpl; lia. Qed.

Lemma encodable_header p :
  encodable p →
  ClassType p ∈ [0; 64; 128] ∧ (TagType p = 0 ∨ TagType p = 32) ∧ 0 ≤ Tag p < 31 ∧
  Z.of_nat (String.length (Data p)) < 2 ^ 31.
Proof. destruct 1; simpl in *; auto. Qed.

Lemma encodable_length p : encodable p → (2 ≤ length (bytes (model_bytes p)))%nat.
Proof.
  intros (Hc & Ht & Hg & Hd)%encodable_header.
  rewrite bytes_model_bytes; [|by apply identifier_split|done].
  simpl. rewrite length_app. pose proof (length_octets_pos (Z.of_nat (String.length (Data p)))). lia.
Qed.

(** The decoder inverts the encoder on one packet. *)
Definition decodes (p : Packet) : Prop :=
  ∀ rest fuel, (2 * length (bytes (model_bytes p)) ≤ fuel)%nat →
  decode_one fuel (bytes (model_bytes p) ++ rest) = Some (reparse p, rest).

Lemma decode_many_children cs fuel :
  Forall encodable cs → Forall decodes cs →
  (2 * length (bytes (foldr (λ q s, model_bytes q +:+ s) "" cs)) + 1 ≤ fuel)%nat →
  decode_many fuel (bytes (foldr (λ q s, model_bytes q +:+ s) "" cs)) =
    Some (map reparse cs).
Proof.
  intros He Hd. revert fuel. induction Hd as [|p cs Hp _ IH]; intros fuel.
  { destruct fuel; [simpl; lia|done]. }
  apply Forall_cons in He as [Hep He]. specialize (IH He).
  cbn [foldr map]. rewrite bytes_app, length_app. intros Hf.
  pose proof (encodable_length p Hep) as Hl.
  destruct fuel as [|fuel]; [lia|].
  destruct (bytes (model_bytes p)) as [|b bs] eqn:Hb; [simpl in Hl; lia|].
  cbn [decode_many app]. rewrite app_comm_cons, <-Hb.
  rewrite (Hp _ fuel) by (rewrite Hb; simpl in *; lia). simpl.
  rewrite IH by lia. done.
Qed.

Lemma model_value_universal c g d :
  c ∈ [0; 64; 128] →
  model_value c g (bytes d) =
    if decide (c = 0) then universal_value g d else VNil.
Proof.
  intros _. unfold model_value, universal_value. simpl. rewrite of_bytes_bytes.
  destruct (decide (c = 0)) as [->|?]; [done|]. by rewrite decide_True.
Qed.

Lemma decode_one_reparse p : encodable p → decodes p.
Proof.
  induction p as [c t g v d cs ds IH] using Packet_tree_ind. intros He rest fuel Hf.
  pose proof (encodable_header _ He) as (Hc & Ht & Hg & Hd).
  destruct (identifier_split c t g Hc Ht Hg) as (Hid & Hic & Hit & Hig).
  rewrite bytes_model_bytes in Hf |- * by done. simpl in Hf, Hd |- *.
  destruct fuel as [|fuel]; [lia|]. rewrite length_app in Hf.
  cbn [decode_one]. rewrite <-app_assoc, read_len_octets by lia. simpl.
  rewrite Hic, Hit, Hig, length_app, length_bytes.
  rewrite decide_True by lia. rewrite Nat2Z.id.
  rewrite take_app_length', drop_app_length' by (by rewrite length_bytes).
  rewrite of_bytes_bytes.
  pose proof (length_octets_pos (Z.of_nat (String.length d))).
  inversion He; subst; clear He; simpl in *.
  - by rewrite model_value_universal.
  - rewrite (decode_many_children cs fuel); [done|done| |lia].
    rewrite Forall_forall in *. eauto.
Qed.

Lemma ber_model_laws : BerLaws ber_model.
Proof.
  split; try done; simpl.
  - eauto.
  - intros _ _ _ v _ z Hv Hz. unfold int_data. rewrite Hv.
    rewrite <-length_bytes, bytes_of_bytes by apply int_octets_range.
    by apply int_octets_spec.
  - intros _ _ _ v _ z Hv Hz. unfold int_data. by rewrite Hv, int_octets_small.
  - eauto.
  - intros _ _ _ b _. split; [|by destruct b]. destruct b; eexists; split; done.
  - intros s z. apply parse_int_range.
  - intros s w. unfold parse_int. repeat case_match; done.
  - intros s w. unfold model_decode. repeat case_match; done.
  - intros p He. unfold model_decode.
    rewrite <-(app_nil_r (bytes (model_bytes p))).
    rewrite decode_one_reparse; [done|done|]. rewrite length_bytes. lia.
Qed.
End laws.
