(* ===== verification/Codes.v ===== *)
(** The result codes and application codes of [codes.go] and the maps that
    describe them.  A Go map is a [gmap]; indexing it with a missing key gives
    the zero value ([map_get]). *)
From stdpp Require Import base decidable option list strings gmap.
From Stdlib Require Import ZArith Lia.
From S2P Require Import Prelude.

(** [m[k]] for a Go map to strings. *)
Definition map_get `{Countable K} (m : gmap K string) (k : K) : string :=
  default "" (m !! k).

(** ** Result codes *)

Definition ResultSuccess : Z := 0.
Definition ResultOperationsError : Z := 1.
Definition ResultProtocolError : Z := 2.
Definition ResultTimeLimitExceeded : Z := 3.
Definition ResultSizeLimitExceeded : Z := 4.
Definition ResultCompareFalse : Z := 5.
Definition ResultCompareTrue : Z := 6.
Definition ResultAuthMethodNotSupported : Z := 7.
Definition ResultStrongAuthRequired : Z := 8.
Definition ResultReferral : Z := 10.
Definition ResultAdminLimitExceeded : Z := 11.
Definition ResultUnavailableCriticalExtension : Z := 12.
Definition ResultConfidentialityRequired : Z := 13.
Definition ResultSaslBindInProgress : Z := 14.
Definition ResultNoSuchAttribute : Z := 16.
Definition ResultUndefinedAttributeType : Z := 17.
Definition ResultInappropriateMatching : Z := 18.
Definition ResultConstraintViolation : Z := 19.
Definition ResultAttributeOrValueExists : Z := 20.
Definition ResultInvalidAttributeSyntax : Z := 21.
Definition ResultNoSuchObject : Z := 32.
Definition ResultAliasProblem : Z := 33.
Definition ResultInvalidDNSyntax : Z := 34.
Definition ResultIsLeaf : Z := 35.
Definition ResultAliasDereferencingProblem : Z := 36.
Definition ResultInappropriateAuthentication : Z := 48.
Definition ResultInvalidCredentials : Z := 49.
Definition ResultInsufficientAccessRights : Z := 50.
Definition ResultBusy : Z := 51.
Definition ResultUnavailable : Z := 52.
Definition ResultUnwillingToPerform : Z := 53.
Definition ResultLoopDetect : Z := 54.
Definition ResultSortControlMissing : Z := 60.
Definition ResultOffsetRangeError : Z := 61.
Definition ResultNamingViolation : Z := 64.
Definition ResultObjectClassViolation : Z := 65.
Definition ResultNotAllowedOnNonLeaf : Z := 66.
Definition ResultNotAllowedOnRDN : Z := 67.
Definition ResultEntryAlreadyExists : Z := 68.
Definition ResultObjectClassModsProhibited : Z := 69.
Definition ResultResultsTooLarge : Z := 70.
Definition ResultAffectsMultipleDSAs : Z := 71.
Definition ResultVirtualListViewErrorOrControlError : Z := 76.
Definition ResultOther : Z := 80.
Definition ResultServerDown : Z := 81.
Definition ResultLocalError : Z := 82.
Definition ResultEncodingError : Z := 83.
Definition ResultDecodingError : Z := 84.
Definition ResultTimeout : Z := 85.
Definition ResultAuthUnknown : Z := 86.
Definition ResultFilterError : Z := 87.
Definition ResultUserCanceled : Z := 88.
Definition ResultParamError : Z := 89.
Definition ResultNoMemory : Z := 90.
Definition ResultConnectError : Z := 91.
Definition ResultNotSupported : Z := 92.
Definition ResultControlNotFound : Z := 93.
Definition ResultNoResultsReturned : Z := 94.
Definition ResultMoreResultsToReturn : Z := 95.
Definition ResultClientLoop : Z := 96.
Definition ResultReferralLimitExceeded : Z := 97.
Definition ResultInvalidResponse : Z := 100.
Definition ResultAmbiguousResponse : Z := 101.
Definition ResultTLSNotSupported : Z := 112.
Definition ResultIntermediateResponse : Z := 113.
Definition ResultUnknownType : Z := 114.
Definition ResultCanceled : Z := 118.
Definition ResultNoSuchOperation : Z := 119.
Definition ResultTooLate : Z := 120.
Definition ResultCannotCancel : Z := 121.
Definition ResultAssertionFailed : Z := 122.
Definition ResultAuthorizationDenied : Z := 123.
Definition ResultSyncRefreshRequired : Z := 4096.

(** ** Application codes *)

Definition ApplicationBindRequest : Z := 0.
Definition ApplicationBindResponse : Z := 1.
Definition ApplicationUnbindRequest : Z := 2.
Definition ApplicationSearchRequest : Z := 3.
Definition ApplicationSearchResultEntry : Z := 4.
Definition ApplicationSearchResultDone : Z := 5.
Definition ApplicationModifyRequest : Z := 6.
Definition ApplicationModifyResponse : Z := 7.
Definition ApplicationAddRequest : Z := 8.
Definition ApplicationAddResponse : Z := 9.
Definition ApplicationDelRequest : Z := 10.
Definition ApplicationDelResponse : Z := 11.
Definition ApplicationModifyDNRequest : Z := 12.
Definition ApplicationModifyDNResponse : Z := 13.
Definition ApplicationCompareRequest : Z := 14.
Definition ApplicationCompareResponse : Z := 15.
Definition ApplicationAbandonRequest : Z := 16.
Definition ApplicationSearchResultReference : Z := 19.
Definition ApplicationExtendedRequest : Z := 23.
Definition ApplicationExtendedResponse : Z := 24.

(** [codes.go:84-158] ResultCodeMap, keyed by [uint16]. *)
Definition ResultCodeMap : gmap Z string := list_to_map [
  (ResultSuccess, "Success");
  (ResultOperationsError, "Operations Error");
  (ResultProtocolError, "Protocol Error");
  (ResultTimeLimitExceeded, "Time Limit Exceeded");
  (ResultSizeLimitExceeded, "Size Limit Exceeded");
  (ResultCompareFalse, "Compare False");
  (ResultCompareTrue, "Compare True");
  (ResultAuthMethodNotSupported, "Auth Method Not Supported");
  (ResultStrongAuthRequired, "Strong Auth Required");
  (ResultReferral, "Referral");
  (ResultAdminLimitExceeded, "Admin Limit Exceeded");
  (ResultUnavailableCriticalExtension, "Unavailable Critical Extension");
  (ResultConfidentialityRequired, "Confidentiality Required");
  (ResultSaslBindInProgress, "Sasl Bind In Progress");
  (ResultNoSuchAttribute, "No Such Attribute");
  (ResultUndefinedAttributeType, "Undefined Attribute Type");
  (ResultInappropriateMatching, "Inappropriate Matching");
  (ResultConstraintViolation, "Constraint Violation");
  (ResultAttributeOrValueExists, "Attribute Or Value Exists");
  (ResultInvalidAttributeSyntax, "Invalid Attribute Syntax");
  (ResultNoSuchObject, "No Such Object");
  (ResultAliasProblem, "Alias Problem");
  (ResultInvalidDNSyntax, "Invalid DN Syntax");
  (ResultIsLeaf, "Is Leaf");
  (ResultAliasDereferencingProblem, "Alias Dereferencing Problem");
  (ResultInappropriateAuthentication, "Inappropriate Authentication");
  (ResultInvalidCredentials, "Invalid Credentials");
  (ResultInsufficientAccessRights, "Insufficient Access Rights");
  (ResultBusy, "Busy");
  (ResultUnavailable, "Unavailable");
  (ResultUnwillingToPerform, "Unwilling To Perform");
  (ResultLoopDetect, "Loop Detect");
  (ResultSortControlMissing, "Sort Control Missing");
  (ResultOffsetRangeError, "Result Offset Range Error");
  (ResultNamingViolation, "Naming Violation");
  (ResultObjectClassViolation, "Object Class Violation");
  (ResultResultsTooLarge, "Results Too Large");
  (ResultNotAllowedOnNonLeaf, "Not Allowed On Non Leaf");
  (ResultNotAllowedOnRDN, "Not Allowed On RDN");
  (ResultEntryAlreadyExists, "Entry Already Exists");
  (ResultObjectClassModsProhibited, "Object Class Mods Prohibited");
  (ResultAffectsMultipleDSAs, "Affects Multiple DSAs");
  (ResultVirtualListViewErrorOrControlError, "Failed because of a problem related to the virtual list view");
  (ResultOther, "Other");
  (ResultServerDown, "Cannot establish a connection");
  (ResultLocalError, "An error occurred");
  (ResultEncodingError, " encountered an error while encoding");
  (ResultDecodingError, " encountered an error while decoding");
  (ResultTimeout, " timeout while waiting for a response from the server");
  (ResultAuthUnknown, "The auth method requested in a bind request is unknown");
  (ResultFilterError, "An error occurred while encoding the given search filter");
  (ResultUserCanceled, "The user canceled the operation");
  (ResultParamError, "An invalid parameter was specified");
  (ResultNoMemory, "Out of memory error");
  (ResultConnectError, "A connection to the server could not be established");
  (ResultNotSupported, "An attempt has been made to use a feature not supported ");
  (ResultControlNotFound, "The controls required to perform the requested operation were not found");
  (ResultNoResultsReturned, "No results were returned from the server");
  (ResultMoreResultsToReturn, "There are more results in the chain of results");
  (ResultClientLoop, "A loop has been detected. For example when following referrals");
  (ResultReferralLimitExceeded, "The referral hop limit has been exceeded");
  (ResultCanceled, "Operation was canceled");
  (ResultNoSuchOperation, "Server has no knowledge of the operation requested for cancellation");
  (ResultTooLate, "Too late to cancel the outstanding operation");
  (ResultCannotCancel, "The identified operation does not support cancellation or the cancel operation cannot be performed");
  (ResultAssertionFailed, "An assertion control given in the  operation evaluated to false causing the operation to not be performed");
  (ResultSyncRefreshRequired, "Refresh Required");
  (ResultInvalidResponse, "Invalid Response");
  (ResultAmbiguousResponse, "Ambiguous Response");
  (ResultTLSNotSupported, "Tls Not Supported");
  (ResultIntermediateResponse, "Intermediate Response");
  (ResultUnknownType, "Unknown Type");
  (ResultAuthorizationDenied, "Authorization Denied")
].


(** [codes.go:185-206] ApplicationCodeMap, keyed by [uint8]. *)
Definition ApplicationCodeMap : gmap Z string := list_to_map [
  (ApplicationBindRequest, "Bind Request");
  (ApplicationBindResponse, "Bind Response");
  (ApplicationUnbindRequest, "Unbind Request");
  (ApplicationSearchRequest, "Search Request");
  (ApplicationSearchResultEntry, "Search Result Entry");
  (ApplicationSearchResultDone, "Search Result Done");
  (ApplicationModifyRequest, "Modify Request");
  (ApplicationModifyResponse, "Modify Response");
  (ApplicationAddRequest, "Add Request");
  (ApplicationAddResponse, "Add Response");
  (ApplicationDelRequest, "Del Request");
  (ApplicationDelResponse, "Del Response");
  (ApplicationModifyDNRequest, "Modify DN Request");
  (ApplicationModifyDNResponse, "Modify DN Response");
  (ApplicationCompareRequest, "Compare Request");
  (ApplicationCompareResponse, "Compare Response");
  (ApplicationAbandonRequest, "Abandon Request");
  (ApplicationSearchResultReference, "Search Result Reference");
  (ApplicationExtendedRequest, "Extended Request");
  (ApplicationExtendedResponse, "Extended Response")
].

(** [codes.go:7-81] The declared result codes. *)
Definition resultCodes : list Z :=
  [ResultSuccess; ResultOperationsError; ResultProtocolError; ResultTimeLimitExceeded; ResultSizeLimitExceeded; ResultCompareFalse; ResultCompareTrue; ResultAuthMethodNotSupported; ResultStrongAuthRequired; ResultReferral; ResultAdminLimitExceeded; ResultUnavailableCriticalExtension; ResultConfidentialityRequired; ResultSaslBindInProgress; ResultNoSuchAttribute; ResultUndefinedAttributeType; ResultInappropriateMatching; ResultConstraintViolation; ResultAttributeOrValueExists; ResultInvalidAttributeSyntax; ResultNoSuchObject; ResultAliasProblem; ResultInvalidDNSyntax; ResultIsLeaf; ResultAliasDereferencingProblem; ResultInappropriateAuthentication; ResultInvalidCredentials; ResultInsufficientAccessRights; ResultBusy; ResultUnavailable; ResultUnwillingToPerform; ResultLoopDetect; ResultSortControlMissing; ResultOffsetRangeError; ResultNamingViolation; ResultObjectClassViolation; ResultNotAllowedOnNonLeaf; ResultNotAllowedOnRDN; ResultEntryAlreadyExists; ResultObjectClassModsProhibited; ResultResultsTooLarge; ResultAffectsMultipleDSAs; ResultVirtualListViewErrorOrControlError; ResultOther; ResultServerDown; ResultLocalError; ResultEncodingError; ResultDecodingError; ResultTimeout; ResultAuthUnknown; ResultFilterError; ResultUserCanceled; ResultParamError; ResultNoMemory; ResultConnectError; ResultNotSupported; ResultControlNotFound; ResultNoResultsReturned; ResultMoreResultsToReturn; ResultClientLoop; ResultReferralLimitExceeded; ResultInvalidResponse; ResultAmbiguousResponse; ResultTLSNotSupported; ResultIntermediateResponse; ResultUnknownType; ResultCanceled; ResultNoSuchOperation; ResultTooLate; ResultCannotCancel; ResultAssertionFailed; ResultAuthorizationDenied; ResultSyncRefreshRequired].

(** [codes.go:161-182] The declared application codes. *)
Definition applicationCodes : list Z :=
  [ApplicationBindRequest; ApplicationBindResponse; ApplicationUnbindRequest; ApplicationSearchRequest; ApplicationSearchResultEntry; ApplicationSearchResultDone; ApplicationModifyRequest; ApplicationModifyResponse; ApplicationAddRequest; ApplicationAddResponse; ApplicationDelRequest; ApplicationDelResponse; ApplicationModifyDNRequest; ApplicationModifyDNResponse; ApplicationCompareRequest; ApplicationCompareResponse; ApplicationAbandonRequest; ApplicationSearchResultReference; ApplicationExtendedRequest; ApplicationExtendedResponse].
