(* ===== verification/Options.v ===== *)
(** The functional options of the package: [option.go], [control_options.go],
    [route_options.go], [message_options.go], [response_options.go] and
    [server_options.go].

    A Go [Option] is a function on [interface{}] that tests which options
    struct it was given and updates that one.  [optfn] is such a function by
    cases: one update per options struct, the identity where the Go function's
    type assertion fails.  An [Option] may be nil, hence [option optfn].
    Opaque pointers ([*tls.Config], a logger, a callback) are addresses. *)
From stdpp Require Import base decidable option list strings gmap.
From Stdlib Require Import ZArith Lia.
From S2P Require Import Prelude.

(** The address of an object the code only passes around. *)
Abbreviation handle := Z (only parsing).

(** [control_options.go:6-16] controlOptions *)
Record controlOptions : Type := mkControlOptions {
  withGrace : Z;
  withExpire : Z;
  withErrorCode : Z;
  withCriticality : bool;
  withControlValue : string;
  withTestType_ : string;
  withTestToString_ : string;
}.

(** [control_options.go:18-24] controlDefaults *)
Definition controlDefaults : controlOptions :=
  mkControlOptions (-1) (-1) (-1) false "" "" "".

(** [route_options.go:6-11] routeOptions *)
Record routeOptions : Type := mkRouteOptions {
  withLabel : string;
  withBaseDN : string;
  withFilter : string;
  withScope : Z;
}.

(** [route_options.go:13-15] routeDefaults *)
Definition routeDefaults : routeOptions := mkRouteOptions "" "" "" 0.

(** [message_options.go:8-13] messageOptions *)
Record messageOptions : Type := mkMessageOptions {
  withMinChildren_ : option Z;
  withLenChildren_ : option Z;
  withAssertChild_ : option nat;
  withTag_ : option Z;
}.

(** [message_options.go:15-17] messageDefaults *)
Definition messageDefaults : messageOptions := mkMessageOptions None None None None.

(** [response_options.go:6-12] responseOptions *)
Record responseOptions : Type := mkResponseOptions {
  withDiagnosticMessage : string;
  withMatchedDN : string;
  withResponseCode : option Z;
  withApplicationCode : option Z;
  withAttributes : gmap string (list string);
}.

(** [response_options.go:14-19] responseDefaults *)
Definition responseDefaults : responseOptions :=
  mkResponseOptions "Unused" "Unused" None None ∅.

(** [server_options.go:13-20] configOptions *)
Record configOptions : Type := mkConfigOptions {
  withTLSConfig : option handle;
  withLogger : option handle;
  withReadTimeout : Z;
  withWriteTimeout : Z;
  withDisablePanicRecovery : bool;
  withOnClose : option handle;
}.

(** [server_options.go:22-24] configDefaults *)
Definition configDefaults : configOptions := mkConfigOptions None None 0 0 false None.

(** The dynamic type and value of an interface, as far as [isNil] looks: the
    [reflect.Kind] and whether the value is nil. *)
Inductive reflectKind : Type := Ptr | Map | Array | Chan | Slice | OtherKind.
Inductive iface : Type :=
| INil
| IVal (k : reflectKind) (isnil : bool) (h : handle).

(** [option.go:26-28] generalOptions *)
Record generalOptions : Type := mkGeneralOptions {
  withWriter : iface;
}.

(** [option.go:30-32] generalDefaults *)
Definition generalDefaults : generalOptions := mkGeneralOptions INil.

(** [option.go:51-60] isNil: [reflect.Value.IsNil] panics on an array. *)
Definition isNil (i : iface) : outcome bool :=
  match i with
  | INil => Ok true
  | IVal Array _ _ => Panic "reflect: call of reflect.Value.IsNil on array Value"
  | IVal (Ptr | Map | Chan | Slice) n _ => Ok n
  | IVal OtherKind _ _ => Ok false
  end.

(** [testing.go:18-21] testOptions *)
Record testOptions : Type := mkTestOptions {
  withDescription : string;
}.

(** [testing.go:23-25] testDefaults *)
Definition testDefaults : testOptions := mkTestOptions "".

(** An option function, by the options struct it is applied to. *)
Record optfn : Type := mkOptfn {
  on_control : controlOptions → controlOptions;
  on_route : routeOptions → routeOptions;
  on_message : messageOptions → messageOptions;
  on_response : responseOptions → responseOptions;
  on_config : configOptions → configOptions;
  on_general : generalOptions → outcome generalOptions;
  on_test : testOptions → testOptions;
}.

(** The option function whose type assertions all fail. *)
Definition ignore : optfn := mkOptfn id id id id id Ok id.

Definition controlOption f : optfn := mkOptfn f id id id id Ok id.
Definition routeOption f : optfn := mkOptfn id f id id id Ok id.
Definition messageOption f : optfn := mkOptfn id id f id id Ok id.
Definition responseOption f : optfn := mkOptfn id id id f id Ok id.
Definition configOption f : optfn := mkOptfn id id id id f Ok id.
Definition generalOption f : optfn := mkOptfn id id id id id f id.
Definition testOption f : optfn := mkOptfn id id id id id Ok f.

(** [option.go:13] Option *)
Definition Option : Type := option optfn.

(** [option.go:17-24] applyOpts, for an options struct selected by [on] *)
Definition applyOpts {O} (on : optfn → O → O) (opts : O) (opt : list Option) : O :=
  foldl (λ o f, match f with None => o | Some f => on f o end) opts opt.

(** [option.go:17-24] applyOpts, for an update that may panic *)
Fixpoint applyOptsM {O} (on : optfn → O → outcome O) (opts : O) (opt : list Option)
    : outcome O :=
  match opt with
  | [] => Ok opts
  | None :: opt => applyOptsM on opts opt
  | Some f :: opt => o ← on f opts; applyOptsM on o opt
  end.

(** [control_options.go:26-30] getControlOpts *)
Definition getControlOpts (opt : list Option) : controlOptions :=
  applyOpts on_control controlDefaults opt.
(** [route_options.go:17-21] getRouteOpts *)
Definition getRouteOpts (opt : list Option) : routeOptions :=
  applyOpts on_route routeDefaults opt.
(** [message_options.go:19-23] getMessageOpts *)
Definition getMessageOpts (opt : list Option) : messageOptions :=
  applyOpts on_message messageDefaults opt.
(** [response_options.go:21-25] getResponseOpts *)
Definition getResponseOpts (opt : list Option) : responseOptions :=
  applyOpts on_response responseDefaults opt.
(** [server_options.go:28-32] getConfigOpts *)
Definition getConfigOpts (opt : list Option) : configOptions :=
  applyOpts on_config configDefaults opt.
(** [option.go:34-38] getGeneralOpts *)
Definition getGeneralOpts (opt : list Option) : outcome generalOptions :=
  applyOptsM on_general generalDefaults opt.

(** [testing.go:27-31] getTestOpts *)
Definition getTestOpts (opt : list Option) : testOptions :=
  applyOpts on_test testDefaults opt.

(** [testing.go:33-40] WithDescription *)
Definition WithDescription (desc : string) : Option :=
  Some (testOption (λ _, mkTestOptions desc)).
(** [control_options.go:34-40] WithGraceAuthNsRemaining; [remaining] is a [uint] *)
Definition WithGraceAuthNsRemaining (remaining : Z) : Option :=
  Some (controlOption (λ o, mkControlOptions (go_int remaining) (withExpire o)
    (withErrorCode o) (withCriticality o) (withControlValue o)
    (withTestType_ o) (withTestToString_ o))).
(** [control_options.go:44-50] WithSecondsBeforeExpiration; [seconds] is a [uint] *)
Definition WithSecondsBeforeExpiration (seconds : Z) : Option :=
  Some (controlOption (λ o, mkControlOptions (withGrace o) (go_int seconds)
    (withErrorCode o) (withCriticality o) (withControlValue o)
    (withTestType_ o) (withTestToString_ o))).
(** [control_options.go:53-59] WithErrorCode; [code] is a [uint] *)
Definition WithErrorCode (code : Z) : Option :=
  Some (controlOption (λ o, mkControlOptions (withGrace o) (withExpire o)
    (go_int code) (withCriticality o) (withControlValue o)
    (withTestType_ o) (withTestToString_ o))).
(** [control_options.go:62-68] WithCriticality *)
Definition WithCriticality (criticality : bool) : Option :=
  Some (controlOption (λ o, mkControlOptions (withGrace o) (withExpire o)
    (withErrorCode o) criticality (withControlValue o)
    (withTestType_ o) (withTestToString_ o))).
(** [control_options.go:71-77] WithControlValue *)
Definition WithControlValue (value : string) : Option :=
  Some (controlOption (λ o, mkControlOptions (withGrace o) (withExpire o)
    (withErrorCode o) (withCriticality o) value
    (withTestType_ o) (withTestToString_ o))).
(** [control_options.go:79-85] withTestType *)
Definition withTestType (s : string) : Option :=
  Some (controlOption (λ o, mkControlOptions (withGrace o) (withExpire o)
    (withErrorCode o) (withCriticality o) (withControlValue o)
    s (withTestToString_ o))).
(** [control_options.go:87-93] withTestToString *)
Definition withTestToString (s : string) : Option :=
  Some (controlOption (λ o, mkControlOptions (withGrace o) (withExpire o)
    (withErrorCode o) (withCriticality o) (withControlValue o)
    (withTestType_ o) s)).

(** [route_options.go:24-30] WithLabel *)
Definition WithLabel (l : string) : Option :=
  Some (routeOption (λ o, mkRouteOptions l (withBaseDN o) (withFilter o) (withScope o))).
(** [route_options.go:33-39] WithBaseDN *)
Definition WithBaseDN (dn : string) : Option :=
  Some (routeOption (λ o, mkRouteOptions (withLabel o) dn (withFilter o) (withScope o))).
(** [route_options.go:42-48] WithFilter *)
Definition WithFilter (filter : string) : Option :=
  Some (routeOption (λ o, mkRouteOptions (withLabel o) (withBaseDN o) filter (withScope o))).
(** [route_options.go:51-57] WithScope *)
Definition WithScope (s : Z) : Option :=
  Some (routeOption (λ o, mkRouteOptions (withLabel o) (withBaseDN o) (withFilter o) s)).

(** [message_options.go:25-31] withMinChildren *)
Definition withMinChildren (min : Z) : Option :=
  Some (messageOption (λ o, mkMessageOptions (Some min) (withLenChildren_ o)
    (withAssertChild_ o) (withTag_ o))).
(** [message_options.go:37-43] withLenChildren *)
Definition withLenChildren (len : Z) : Option :=
  Some (messageOption (λ o, mkMessageOptions (withMinChildren_ o) (Some len)
    (withAssertChild_ o) (withTag_ o))).
(** [message_options.go:45-51] withAssertChild; the indexes the code passes are not
    negative *)
Definition withAssertChild (idx : nat) : Option :=
  Some (messageOption (λ o, mkMessageOptions (withMinChildren_ o) (withLenChildren_ o)
    (Some idx) (withTag_ o))).
(** [message_options.go:53-59] withTag *)
Definition withTag (t : Z) : Option :=
  Some (messageOption (λ o, mkMessageOptions (withMinChildren_ o) (withLenChildren_ o)
    (withAssertChild_ o) (Some t))).

(** [response_options.go:29-35] WithDiagnosticMessage *)
Definition WithDiagnosticMessage (msg : string) : Option :=
  Some (responseOption (λ o, mkResponseOptions msg (withMatchedDN o)
    (withResponseCode o) (withApplicationCode o) (withAttributes o))).
(** [response_options.go:38-44] WithMatchedDN *)
Definition WithMatchedDN (dn : string) : Option :=
  Some (responseOption (λ o, mkResponseOptions (withDiagnosticMessage o) dn
    (withResponseCode o) (withApplicationCode o) (withAttributes o))).
(** [response_options.go:49-55] WithResponseCode *)
Definition WithResponseCode (code : Z) : Option :=
  Some (responseOption (λ o, mkResponseOptions (withDiagnosticMessage o)
    (withMatchedDN o) (Some code) (withApplicationCode o) (withAttributes o))).
(** [response_options.go:60-66] WithApplicationCode *)
Definition WithApplicationCode (applicationCode : Z) : Option :=
  Some (responseOption (λ o, mkResponseOptions (withDiagnosticMessage o)
    (withMatchedDN o) (withResponseCode o) (Some applicationCode) (withAttributes o))).
(** [response_options.go:69-75] WithAttributes *)
Definition WithAttributes (attributes : gmap string (list string)) : Option :=
  Some (responseOption (λ o, mkResponseOptions (withDiagnosticMessage o)
    (withMatchedDN o) (withResponseCode o) (withApplicationCode o) attributes)).

(** [server_options.go:35-41] WithLogger *)
Definition WithLogger (l : option handle) : Option :=
  Some (configOption (λ o, mkConfigOptions (withTLSConfig o) l (withReadTimeout o)
    (withWriteTimeout o) (withDisablePanicRecovery o) (withOnClose o))).
(** [server_options.go:44-51] WithTLSConfig *)
Definition WithTLSConfig (tc : option handle) : Option :=
  Some (configOption (λ o, mkConfigOptions tc (withLogger o) (withReadTimeout o)
    (withWriteTimeout o) (withDisablePanicRecovery o) (withOnClose o))).
(** [server_options.go:54-60] WithReadTimeout *)
Definition WithReadTimeout (d : Z) : Option :=
  Some (configOption (λ o, mkConfigOptions (withTLSConfig o) (withLogger o) d
    (withWriteTimeout o) (withDisablePanicRecovery o) (withOnClose o))).
(** [server_options.go:63-69] WithWriteTimeout *)
Definition WithWriteTimeout (d : Z) : Option :=
  Some (configOption (λ o, mkConfigOptions (withTLSConfig o) (withLogger o)
    (withReadTimeout o) d (withDisablePanicRecovery o) (withOnClose o))).
(** [server_options.go:74-80] WithDisablePanicRecovery *)
Definition WithDisablePanicRecovery : Option :=
  Some (configOption (λ o, mkConfigOptions (withTLSConfig o) (withLogger o)
    (withReadTimeout o) (withWriteTimeout o) true (withOnClose o))).
(** [server_options.go:90-96] WithOnClose *)
Definition WithOnClose (handler : option handle) : Option :=
  Some (configOption (λ o, mkConfigOptions (withTLSConfig o) (withLogger o)
    (withReadTimeout o) (withWriteTimeout o) (withDisablePanicRecovery o) handler)).

(** [option.go:41-49] WithWriter *)
Definition WithWriter (w : iface) : Option :=
  Some (generalOption (λ o,
    n ← isNil w; Ok (if n : bool then o else mkGeneralOptions w))).

(** ** Properties *)

Section apply.
Context {O : Type} (on : optfn → O → O).

Lemma applyOpts_app d l k :
  applyOpts on d (l ++ k) = applyOpts on (applyOpts on d l) k.
Proof. apply foldl_app. Qed.

Lemma applyOpts_nil_option d l k :
  applyOpts on d (l ++ None :: k) = applyOpts on d (l ++ k).
Proof. by rewrite !applyOpts_app. Qed.

Lemma applyOpts_snoc d l f : applyOpts on d (l ++ [Some f]) = on f (applyOpts on d l).
Proof. by rewrite applyOpts_app. Qed.
End apply.
