(* ===== verification/Control.v ===== *)
(** LDAP controls: [control.go].

    [Control] is the interface with its nine implementations as constructors.
    The [..._Encode] functions build the BER packet of a control and
    [decodeControl] reads one back; [decodeControl] and
    [addControlDescriptions] also rewrite the packet they are given, so they
    return it.  A failed type assertion and an index out of range are panics. *)
From stdpp Require Import base decidable option list strings gmap.
From Stdlib Require Import ZArith Lia.
From S2P Require Import Prelude GoStd Ber BerModel Codes Options.

(** [control.go:13-33] The control types (OIDs). *)
Definition ControlTypePaging := "1.2.840.113556.1.4.319".
Definition ControlTypeBeheraPasswordPolicy := "1.3.6.1.4.1.42.2.27.8.5.1".
Definition ControlTypeVChuPasswordMustChange := "2.16.840.1.113730.3.4.4".
Definition ControlTypeVChuPasswordWarning := "2.16.840.1.113730.3.4.5".
Definition ControlTypeManageDsaIT := "2.16.840.1.113730.3.4.2".
Definition ControlTypeWhoAmI := "1.3.6.1.4.1.4203.1.11.3".
Definition ControlTypeMicrosoftNotification := "1.2.840.113556.1.4.528".
Definition ControlTypeMicrosoftShowDeleted := "1.2.840.113556.1.4.417".
Definition ControlTypeMicrosoftServerLinkTTL := "1.2.840.113556.1.4.2309".

(** [control.go:36-43] ControlTypeMap *)
Definition ControlTypeMap : gmap string string := list_to_map [
  (ControlTypePaging, "Paging");
  (ControlTypeBeheraPasswordPolicy, "Password Policy - Behera Draft");
  (ControlTypeManageDsaIT, "Manage DSA IT");
  (ControlTypeMicrosoftNotification, "Change Notification - Microsoft");
  (ControlTypeMicrosoftShowDeleted, "Show Deleted Objects - Microsoft");
  (ControlTypeMicrosoftServerLinkTTL,
   "Return TTL-DNs for link values with associated expiry times - Microsoft")
].

(** [control.go:46-56] The Behera password policy error codes. *)
Definition BeheraPasswordExpired : Z := 0.
Definition BeheraAccountLocked : Z := 1.
Definition BeheraChangeAfterReset : Z := 2.
Definition BeheraPasswordModNotAllowed : Z := 3.
Definition BeheraMustSupplyOldPassword : Z := 4.
Definition BeheraInsufficientPasswordQuality : Z := 5.
Definition BeheraPasswordTooShort : Z := 6.
Definition BeheraPasswordTooYoung : Z := 7.
Definition BeheraPasswordInHistory : Z := 8.

(** [control.go:59-69] BeheraPasswordPolicyErrorMap *)
Definition BeheraPasswordPolicyErrorMap : gmap Z string := list_to_map [
  (BeheraPasswordExpired, "Password expired");
  (BeheraAccountLocked, "Account locked");
  (BeheraChangeAfterReset, "Password must be changed");
  (BeheraPasswordModNotAllowed, "Policy prevents password modification");
  (BeheraMustSupplyOldPassword, "Policy requires old password in order to change password");
  (BeheraInsufficientPasswordQuality, "Password fails quality checks");
  (BeheraPasswordTooShort, "Password is too short for policy");
  (BeheraPasswordTooYoung, "Password has been changed too recently");
  (BeheraPasswordInHistory, "New password is in list of old passwords")
].

(** [control.go:429-438] ControlBeheraPasswordPolicy *)
Record beheraPasswordPolicy : Type := mkBehera {
  expire : Z;
  grace : Z;
  error_ : Z;
  errorString : string;
}.

(** [control.go:72-79] Control, with the structs that implement it *)
Inductive Control : Type :=
| ControlString (ControlType : string) (Criticality : bool) (ControlValue : string)
| ControlManageDsaIT (Criticality : bool)
| ControlMicrosoftNotification
| ControlMicrosoftServerLinkTTL
| ControlMicrosoftShowDeleted
| ControlBeheraPasswordPolicy (c : beheraPasswordPolicy)
| ControlVChuPasswordMustChange (MustChange : bool)
| ControlVChuPasswordWarning (Expire : Z)
| ControlPaging (PagingSize : Z) (Cookie : string).

#[export] Instance behera_eq_dec : EqDecision beheraPasswordPolicy.
Proof. solve_decision. Defined.
#[export] Instance control_eq_dec : EqDecision Control.
Proof. solve_decision. Defined.

(** The [GetControlType] methods of the structs. *)

(** [control.go:262-265] ControlString.GetControlType *)
Definition ControlString_GetControlType (ct : string) : string := ct.
(** [control.go:317-320] ControlManageDsaIT.GetControlType *)
Definition ControlManageDsaIT_GetControlType : string := ControlTypeManageDsaIT.
(** [control.go:341-344] ControlMicrosoftNotification.GetControlType *)
Definition ControlMicrosoftNotification_GetControlType : string := ControlTypeMicrosoftNotification.
(** [control.go:371-374] ControlMicrosoftServerLinkTTL.GetControlType *)
Definition ControlMicrosoftServerLinkTTL_GetControlType : string := ControlTypeMicrosoftServerLinkTTL.
(** [control.go:401-404] ControlMicrosoftShowDeleted.GetControlType *)
Definition ControlMicrosoftShowDeleted_GetControlType : string := ControlTypeMicrosoftShowDeleted.
(** [control.go:459-462] ControlBeheraPasswordPolicy.GetControlType *)
Definition ControlBeheraPasswordPolicy_GetControlType : string := ControlTypeBeheraPasswordPolicy.
(** [control.go:557-560] ControlVChuPasswordMustChange.GetControlType *)
Definition ControlVChuPasswordMustChange_GetControlType : string := ControlTypeVChuPasswordMustChange.
(** [control.go:587-590] ControlVChuPasswordWarning.GetControlType *)
Definition ControlVChuPasswordWarning_GetControlType : string := ControlTypeVChuPasswordWarning.
(** [control.go:620-623] ControlPaging.GetControlType *)
Definition ControlPaging_GetControlType : string := ControlTypePaging.

(** [control.go:73-74] GetControlType, of the Control interface *)
Definition GetControlType (c : Control) : string :=
  match c with
  | ControlString ct _ _ => ControlString_GetControlType ct
  | ControlManageDsaIT _ => ControlManageDsaIT_GetControlType
  | ControlMicrosoftNotification => ControlMicrosoftNotification_GetControlType
  | ControlMicrosoftServerLinkTTL => ControlMicrosoftServerLinkTTL_GetControlType
  | ControlMicrosoftShowDeleted => ControlMicrosoftShowDeleted_GetControlType
  | ControlBeheraPasswordPolicy _ => ControlBeheraPasswordPolicy_GetControlType
  | ControlVChuPasswordMustChange _ => ControlVChuPasswordMustChange_GetControlType
  | ControlVChuPasswordWarning _ => ControlVChuPasswordWarning_GetControlType
  | ControlPaging _ _ => ControlPaging_GetControlType
  end.

(** [control.go:443-445] Grace *)
Definition Grace (c : beheraPasswordPolicy) : Z := go_int (grace c).
(** [control.go:449-451] Expire *)
Definition Expire (c : beheraPasswordPolicy) : Z := go_int (expire c).
(** [control.go:455-457] ErrorCode *)
Definition ErrorCode (c : beheraPasswordPolicy) : Z * string :=
  (go_int (error_ c), errorString c).

(** ["Control Type ("+ControlTypeMap[ct]+")"] *)
Definition controlTypeDescription (ct : string) : string :=
  "Control Type (" +:+ map_get ControlTypeMap ct +:+ ")".

(** [control.go:287-298] NewControlString *)
Definition NewControlString (controlType : string) (opt : list Option) : outcome Control :=
  if decide (controlType = "") then
    Err (Wrapf "gldap.NewControlString" "missing control type" (ESentinel ErrInvalidParameter))
  else
    let opts := getControlOpts opt in
    Ok (ControlString controlType (withCriticality opts) (withControlValue opts)).

(** [control.go:333-336] NewControlManageDsaIT *)
Definition NewControlManageDsaIT (opt : list Option) : outcome Control :=
  let opts := getControlOpts opt in
  Ok (ControlManageDsaIT (withCriticality opts)).

(** [control.go:364-366] NewControlMicrosoftNotification *)
Definition NewControlMicrosoftNotification (_ : list Option) : outcome Control :=
  Ok ControlMicrosoftNotification.
(** [control.go:394-396] NewControlMicrosoftServerLinkTTL *)
Definition NewControlMicrosoftServerLinkTTL (_ : list Option) : outcome Control :=
  Ok ControlMicrosoftServerLinkTTL.
(** [control.go:424-426] NewControlMicrosoftShowDeleted *)
Definition NewControlMicrosoftShowDeleted (_ : list Option) : outcome Control :=
  Ok ControlMicrosoftShowDeleted.

(** [control.go:527-549] NewControlBeheraPasswordPolicy *)
Definition NewControlBeheraPasswordPolicy (opt : list Option)
    : outcome beheraPasswordPolicy :=
  let op := "NewControlBeheraPolicy" in
  let opts := getControlOpts opt in
  let fail t := Err (Wrapf op t (ESentinel ErrInvalidParameter)) in
  if bool_decide (withGrace opts ≠ -1) && bool_decide (withExpire opts ≠ -1) then
    fail "behera policies cannot have both grace and expire set"
  else if bool_decide (withGrace opts ≠ -1) && bool_decide (withErrorCode opts ≠ -1) then
    fail "behera policies cannot have both grace and error codes set"
  else if bool_decide (withExpire opts ≠ -1) && bool_decide (withErrorCode opts ≠ -1) then
    fail "behera polices cannot have both expire and error codes set"
  else if decide (withErrorCode opts > 8) then
    fail "%d is not a valid behera policy error code (must be between 0-8"
  else
    Ok (mkBehera (int64 (withExpire opts)) (int64 (withGrace opts))
          (int8 (withErrorCode opts))
          (if decide (withErrorCode opts ≠ -1)
           then map_get BeheraPasswordPolicyErrorMap (int8 (withErrorCode opts))
           else "")).

(** [control.go:655-657] SetCookie *)
Definition ControlPaging_SetCookie (cookie : string) (c : Control) : Control :=
  match c with
  | ControlPaging n _ => ControlPaging n cookie
  | c => c
  end.

(** [control.go:660-662] NewControlPaging *)
Definition NewControlPaging (pagingSize : Z) (_ : list Option) : outcome Control :=
  Ok (ControlPaging pagingSize "").

(** [fmt.Errorf("text: %s", err)]: the text of the error, not the error. *)
Definition printErr {A} (text : string) (m : outcome A) : outcome A :=
  match m with
  | Err e => Err (Errorf text (ErrorText e))
  | m => m
  end.

(** [fmt.Errorf("%s: text", op)] in place of an error. *)
Definition dropErr {A} (op text : string) (m : outcome A) : outcome A :=
  match m with
  | Err _ => Err (Errorf op text)
  | m => m
  end.

(** [v.(string)], [v.(int64)] and [v.(bool)] without the [ok] result. *)
Definition as_string (v : goval) : outcome string :=
  match v with VString s => Ok s | _ => Panic "interface conversion: not string" end.
Definition as_int64 (v : goval) : outcome Z :=
  match v with VInt64 z => Ok z | _ => Panic "interface conversion: not int64" end.
Definition as_bool (v : goval) : outcome bool :=
  match v with VBool b => Ok b | _ => Panic "interface conversion: not bool" end.

Section Control.
Context `{BerOps}.

(** ** Encoding *)

(** The start of every [Encode]: the control's sequence with its type. *)
Definition controlHeader (ct : string) : Packet :=
  AppendChild
    (ber_Encode ClassUniversal TypeConstructed TagSequence VNil "Control")
    (ber_NewString ClassUniversal TypePrimitive TagOctetString ct
       (controlTypeDescription ct)).

(** [if c.Criticality { packet.AppendChild(...) }] *)
Definition appendCriticality (crit : bool) (p : Packet) : Packet :=
  if crit
  then AppendChild p (ber_NewBoolean ClassUniversal TypePrimitive TagBoolean crit "Criticality")
  else p.

(** [control.go:268-278] ControlString.Encode *)
Definition ControlString_Encode (ct : string) (crit : bool) (value : string) : Packet :=
  let packet := appendCriticality crit (controlHeader ct) in
  if decide (value = "") then packet
  else AppendChild packet
         (ber_NewString ClassUniversal TypePrimitive TagOctetString value "Control Value").

(** [control.go:307-315] ControlManageDsaIT.Encode *)
Definition ControlManageDsaIT_Encode (crit : bool) : Packet :=
  appendCriticality crit (controlHeader ControlTypeManageDsaIT).

(** [control.go:347-352] ControlMicrosoftNotification.Encode *)
Definition ControlMicrosoftNotification_Encode : Packet :=
  controlHeader ControlTypeMicrosoftNotification.
(** [control.go:377-382] ControlMicrosoftServerLinkTTL.Encode *)
Definition ControlMicrosoftServerLinkTTL_Encode : Packet :=
  controlHeader ControlTypeMicrosoftServerLinkTTL.
(** [control.go:407-412] ControlMicrosoftShowDeleted.Encode *)
Definition ControlMicrosoftShowDeleted_Encode : Packet :=
  controlHeader ControlTypeMicrosoftShowDeleted.

(** The value packet of a Behera control around one element. *)
Definition beheraValue (packet element : Packet) : Packet :=
  let valuePacket := ber_Encode ClassUniversal TypePrimitive TagOctetString VNil "" in
  let sequencePacket := ber_Encode ClassUniversal TypeConstructed TagSequence VNil "" in
  AppendChild packet (AppendChild valuePacket (AppendChild sequencePacket element)).

(** [control.go:465-510] ControlBeheraPasswordPolicy.Encode *)
Definition ControlBeheraPasswordPolicy_Encode (c : beheraPasswordPolicy) : Packet :=
  let packet := controlHeader ControlTypeBeheraPasswordPolicy in
  let warning tag v :=
    AppendChild (ber_Encode ClassContext TypeConstructed 0 VNil "")
      (ber_NewInteger ClassContext TypePrimitive tag v "") in
  if decide (grace c >= 0) then beheraValue packet (warning 1 (VInt64 (grace c)))
  else if decide (expire c >= 0) then beheraValue packet (warning 0 (VInt64 (expire c)))
  else if decide (error_ c >= 0) then
    beheraValue packet (ber_NewInteger ClassContext TypePrimitive 1 (VInt8 (error_ c)) "")
  else packet.

(** [control.go:563-569] ControlVChuPasswordMustChange.Encode *)
Definition ControlVChuPasswordMustChange_Encode : Packet :=
  controlHeader ControlTypeVChuPasswordMustChange.

(** [control.go:593-600] ControlVChuPasswordWarning.Encode *)
Definition ControlVChuPasswordWarning_Encode (exp : Z) : Packet :=
  AppendChild (controlHeader ControlTypeVChuPasswordWarning)
    (ber_NewString ClassUniversal TypePrimitive TagOctetString
       (Strconv.FormatInt exp) "Control Value").

(** [control.go:626-641] ControlPaging.Encode *)
Definition ControlPaging_Encode (size : Z) (cookie : string) : Packet :=
  let packet := controlHeader ControlTypePaging in
  let p2 := ber_Encode ClassUniversal TypePrimitive TagOctetString VNil "Control Value (Paging)" in
  let seq := ber_Encode ClassUniversal TypeConstructed TagSequence VNil "Search Control Value" in
  let seq := AppendChild seq
    (ber_NewInteger ClassUniversal TypePrimitive TagInteger (VInt64 (int64 size)) "Paging Size") in
  let ck := ber_Encode ClassUniversal TypePrimitive TagOctetString VNil "Cookie" in
  let ck := set_Data (Data ck +:+ cookie) (set_Value (VBytes cookie) ck) in
  let seq := AppendChild seq ck in
  let p2 := AppendChild p2 seq in
  AppendChild packet p2.

(** [control.go:76] The method [Encode] of the interface. *)
Definition Encode (c : Control) : Packet :=
  match c with
  | ControlString ct crit v => ControlString_Encode ct crit v
  | ControlManageDsaIT crit => ControlManageDsaIT_Encode crit
  | ControlMicrosoftNotification => ControlMicrosoftNotification_Encode
  | ControlMicrosoftServerLinkTTL => ControlMicrosoftServerLinkTTL_Encode
  | ControlMicrosoftShowDeleted => ControlMicrosoftShowDeleted_Encode
  | ControlBeheraPasswordPolicy c => ControlBeheraPasswordPolicy_Encode c
  | ControlVChuPasswordMustChange _ => ControlVChuPasswordMustChange_Encode
  | ControlVChuPasswordWarning e => ControlVChuPasswordWarning_Encode e
  | ControlPaging n ck => ControlPaging_Encode n ck
  end.

(** [control.go:81-87] encodeControls *)
Definition encodeControls (controls : list Control) : Packet :=
  foldl (λ packet control, AppendChild packet (Encode control))
    (ber_Encode ClassContext TypeConstructed 0 VNil "Controls") controls.

(** ** Decoding *)

(** [control.go:91-133] The children of a control: its type, its criticality
    and the index of its value packet, with the descriptions set. *)
Definition decodeControlChildren (packet : Packet)
    : outcome (string * bool * option nat * Packet) :=
  let op := "gldap.decodeControl" in
  let describe := set_Description (controlTypeDescription "") in
  match Children packet with
  | [] => Err (Errorf op "at least one child is required for control type")
  | [c0] =>
      ct ← as_string (Value c0);
      Ok (ct, false, None, set_Children [describe c0] packet)
  | [c0; c1] =>
      ct ← as_string (Value c0);
      match Value c1 with
      | VBool crit =>
          Ok (ct, crit, None,
              set_Children [describe c0; set_Description "Criticality" c1] packet)
      | _ =>
          Ok (ct, false, Some 1%nat,
              set_Children [describe c0; set_Description "Control Value" c1] packet)
      end
  | [c0; c1; c2] =>
      ct ← as_string (Value c0);
      crit ← as_bool (Value c1);
      Ok (ct, crit, Some 2%nat,
          set_Children [describe c0; set_Description "Criticality" c1;
                        set_Description "Control Value" c2] packet)
  | _ => Err (Errorf op "more than 3 children is invalid for controls")
  end.

(** [control.go:143-151] and [176-184]: the value's content replaced by the
    packet it encodes. *)
Definition expandValue (value : Packet) : outcome Packet :=
  match Value value with
  | VNil => Ok value
  | _ =>
      valueChildren ← wrapErr "gldap.decodeControl" "failed to decode data bytes"
                        (ber_DecodePacketErr (Data value));
      Ok (AppendChild (set_Value VNil (set_Data "" value)) valueChildren)
  end.

(** [control.go:137-162] The paging control. *)
Definition decodePaging (value : option Packet) : outcome (Control * option Packet) :=
  match value with
  | None => Ok (ControlPaging 0 "", None)
  | Some value =>
      let value := set_Description (Description value +:+ " (Paging)") value in
      value ← expandValue value;
      match Children value with
      | [] => Err (Wrapf "gldap.decodeControl"
                     "paging control value must have a least 1 child"
                     (ESentinel ErrInvalidParameter))
      | seq :: others =>
          c0 ← index (Children seq) 0;
          c1 ← index (Children seq) 1;
          size ← as_int64 (Value c0);
          let cookie := Data c1 in
          let seq := set_Description "Search Control Value" seq in
          let seq := alter_child 0 (set_Description "Paging Size") seq in
          let seq := alter_child 1
            (λ c, set_Value (VBytes cookie) (set_Description "Cookie" c)) seq in
          Ok (ControlPaging (uint32 size) cookie,
              Some (set_Children (seq :: others) value))
      end
  end.

(** [control.go:191-219] One element of a Behera response. *)
Definition beheraElement (c : beheraPasswordPolicy) (child : Packet)
    : outcome (beheraPasswordPolicy * Packet) :=
  let op := "gldap.decodeControl" in
  if decide (Tag child = 0) then
    warningPacket ← index (Children child) 0;
    val ← wrapErr op "failed to decode data bytes" (ber_ParseInt64 (Data warningPacket));
    let set_warning := alter_child 0 (set_Value (VInt64 val)) child in
    if decide (Tag warningPacket = 0) then
      Ok (mkBehera val (grace c) (error_ c) (errorString c), set_warning)
    else if decide (Tag warningPacket = 1) then
      Ok (mkBehera (expire c) val (error_ c) (errorString c), set_warning)
    else Ok (c, child)
  else if decide (Tag child = 1) then
    match bytes (Data child) with
    | [b] =>
        if decide (b > 8) then
          Err (Errorf "invalid PasswordPolicyResponse enum value" "failed to decode data bytes: gldap.decodeControl")
        else
          let val := int8 b in
          Ok (mkBehera (expire c) (grace c) val (map_get BeheraPasswordPolicyErrorMap val),
              set_Value (VInt8 val) child)
    | _ => Err (Errorf "invalid PasswordPolicyResponse enum value" "failed to decode data bytes: gldap.decodeControl")
    end
  else Ok (c, child).

(** [control.go:191-219] The loop over the elements. *)
Fixpoint beheraElements (c : beheraPasswordPolicy) (cs : list Packet)
    : outcome (beheraPasswordPolicy * list Packet) :=
  match cs with
  | [] => Ok (c, [])
  | child :: cs =>
      '(c, child) ← beheraElement c child;
      '(c, cs) ← beheraElements c cs;
      Ok (c, child :: cs)
  end.

(** [control.go:163-220] The Behera password policy control. *)
Definition decodeBehera (value : option Packet) : outcome (Control * option Packet) :=
  let op := "gldap.decodeControl" in
  match value with
  | None =>
      c ← wrapErr op "" (NewControlBeheraPasswordPolicy []);
      Ok (ControlBeheraPasswordPolicy c, None)
  | Some value =>
      let value := set_Description (Description value +:+ " (Password Policy - Behera)") value in
      c ← dropErr op "failed to create behera password control"
            (NewControlBeheraPasswordPolicy []);
      value ← expandValue value;
      match Children value with
      | [] => Err (Wrapf op "behera control value must have a least 1 child"
                     (ESentinel ErrInvalidParameter))
      | sequence :: others =>
          '(c, elements) ← beheraElements c (Children sequence);
          Ok (ControlBeheraPasswordPolicy c,
              Some (set_Children (set_Children elements sequence :: others) value))
      end
  end.

(** [control.go:224-237] The VChu password warning control. *)
Definition decodeVChuWarning (value : option Packet) : outcome (Control * option Packet) :=
  match value with
  | None => Ok (ControlVChuPasswordWarning (-1), None)
  | Some value =>
      let expireStr := ber_DecodeString (Data value) in
      exp ← wrapErr "gldap.decodeControl" "failed to parse value as int"
              (Strconv.ParseInt expireStr);
      Ok (ControlVChuPasswordWarning exp, Some (set_Value (VInt64 exp) value))
  end.

(** [control.go:134-252] The control of a type, from its criticality and its
    value packet; the value packet is returned as the code leaves it. *)
Definition decodeControlValue (ct : string) (crit : bool) (value : option Packet)
    : outcome (Control * option Packet) :=
  let keep c := Ok (c, value) in
  if decide (ct = ControlTypeManageDsaIT) then
    c ← NewControlManageDsaIT [WithCriticality crit]; keep c
  else if decide (ct = ControlTypePaging) then decodePaging value
  else if decide (ct = ControlTypeBeheraPasswordPolicy) then decodeBehera value
  else if decide (ct = ControlTypeVChuPasswordMustChange) then
    keep (ControlVChuPasswordMustChange true)
  else if decide (ct = ControlTypeVChuPasswordWarning) then decodeVChuWarning value
  else if decide (ct = ControlTypeMicrosoftNotification) then
    c ← NewControlMicrosoftNotification []; keep c
  else if decide (ct = ControlTypeMicrosoftShowDeleted) then
    c ← NewControlMicrosoftShowDeleted []; keep c
  else if decide (ct = ControlTypeMicrosoftServerLinkTTL) then
    c ← NewControlMicrosoftServerLinkTTL []; keep c
  else
    match value with
    | None => keep (ControlString ct crit "")
    | Some v => s ← as_string (Value v); keep (ControlString ct crit s)
    end.

(** [control.go:89-253] decodeControl *)
Definition decodeControl (packet : option Packet) : outcome (Control * Packet) :=
  match packet with
  | None => Err (Wrapf "gldap.decodeControl" "packet is nil" (ESentinel ErrInvalidParameter))
  | Some packet =>
      '(ct, crit, at_, packet) ← decodeControlChildren packet;
      '(c, value) ← decodeControlValue ct crit (i ← at_; Children packet !! i);
      Ok (c, match at_, value with
             | Some i, Some v => alter_child i (λ _, v) packet
             | _, _ => packet
             end)
  end.

(** ** Describing *)

(** [control.go:674-707] The type of a control and the index of its value
    packet, with the descriptions set. *)
Definition describeControlChildren (child : Packet)
    : outcome (string * option nat * Packet) :=
  let describe ct := set_Description (controlTypeDescription ct) in
  match Children child with
  | [] => Err (EExternal OtherErr "at least one child is required for a control type")
  | [c0] =>
      ct ← as_string (Value c0);
      Ok (ct, None, set_Children [describe ct c0] child)
  | [c0; c1] =>
      ct ← as_string (Value c0);
      match Value c1 with
      | VBool _ =>
          Ok (ct, None,
              set_Children [describe ct c0; set_Description "Criticality" c1] child)
      | _ =>
          Ok (ct, Some 1%nat,
              set_Children [describe ct c0; set_Description "Control Value" c1] child)
      end
  | [c0; c1; c2] =>
      ct ← as_string (Value c0);
      Ok (ct, Some 2%nat,
          set_Children [describe ct c0; set_Description "Criticality" c1;
                        set_Description "Control Value" c2] child)
  | _ => Err (EExternal OtherErr "more than 3 children for control packet found")
  end.

(** [control.go:713-727] The value packet of a paging control. *)
Definition describePaging (value : Packet) : outcome Packet :=
  let value := set_Description (Description value +:+ " (Paging)") value in
  value ←
    match Value value with
    | VNil => Ok value
    | _ =>
        vc ← printErr "failed to decode data bytes" (ber_DecodePacketErr (Data value));
        c1 ← index (Children vc) 1;
        let vc := alter_child 1 (set_Value (VBytes (Data c1))) vc in
        Ok (AppendChild (set_Value VNil (set_Data "" value)) vc)
    end;
  seq ← index (Children value) 0;
  _ ← index (Children seq) 0;
  _ ← index (Children seq) 1;
  let seq := set_Description "Real Search Control Value" seq in
  let seq := alter_child 0 (set_Description "Paging Size") seq in
  let seq := alter_child 1 (set_Description "Cookie") seq in
  Ok (alter_child 0 (λ _, seq) value).

(** [control.go:741-768] One element of a Behera value; [d] is the
    description of the value so far. *)
Definition describeBeheraElement (d : string) (child : Packet)
    : outcome (string * Packet) :=
  if decide (Tag child = 0) then
    warningPacket ← index (Children child) 0;
    val ← printErr "failed to decode data bytes" (ber_ParseInt64 (Data warningPacket));
    let set_warning := alter_child 0 (set_Value (VInt64 val)) child in
    if decide (Tag warningPacket = 0) then
      Ok (d +:+ " (TimeBeforeExpiration)", set_warning)
    else if decide (Tag warningPacket = 1) then
      Ok (d +:+ " (GraceAuthNsRemaining)", set_warning)
    else Ok (d, child)
  else if decide (Tag child = 1) then
    let fail := Err (Errorf "failed to decode data bytes" "invalid PasswordPolicyResponse enum value") in
    match bytes (Data child) with
    | [b] =>
        if decide (b > 8) then fail
        else Ok (d, set_Value (VInt8 (int8 b)) (set_Description "Error" child))
    | _ => fail
    end
  else Ok (d, child).

(** [control.go:741-768] The loop over the elements. *)
Fixpoint describeBeheraElements (d : string) (cs : list Packet)
    : outcome (string * list Packet) :=
  match cs with
  | [] => Ok (d, [])
  | child :: cs =>
      '(d, child) ← describeBeheraElement d child;
      '(d, cs) ← describeBeheraElements d cs;
      Ok (d, child :: cs)
  end.

(** [control.go:729-768] The value packet of a Behera control. *)
Definition describeBehera (value : Packet) : outcome Packet :=
  let value := set_Description
    (Description value +:+ " (Password Policy - Behera Draft)") value in
  value ←
    match Value value with
    | VNil => Ok value
    | _ =>
        vc ← printErr "failed to decode data bytes" (ber_DecodePacketErr (Data value));
        Ok (AppendChild (set_Value VNil (set_Data "" value)) vc)
    end;
  sequence ← index (Children value) 0;
  '(d, elements) ← describeBeheraElements (Description value) (Children sequence);
  Ok (set_Description d (alter_child 0 (set_Children elements) value)).

(** [control.go:670-770] The body of the loop over the controls. *)
Definition describeControl (child : Packet) : outcome Packet :=
  '(ct, at_, child) ← describeControlChildren (set_Description "Control" child);
  match at_ with
  | None => Ok child
  | Some i =>
      value ← index (Children child) i;
      value ←
        (if decide (ct = ControlTypePaging) then describePaging value
         else if decide (ct = ControlTypeBeheraPasswordPolicy) then describeBehera value
         else Ok value);
      Ok (alter_child i (λ _, value) child)
  end.

(** [control.go:664-772] addControlDescriptions *)
Definition addControlDescriptions (packet : option Packet) : outcome Packet :=
  match packet with
  | None => Err (Wrapf "gldap.addControlDescriptions" "missing packet" (ESentinel ErrInvalidParameter))
  | Some packet =>
      let packet := set_Description "Controls" packet in
      children ← mapM describeControl (Children packet);
      Ok (set_Children children packet)
  end.
End Control.

(** ** Well-formed controls *)

(** The types [decodeControl] knows. *)
Definition knownControlTypes : list string :=
  [ControlTypePaging; ControlTypeBeheraPasswordPolicy; ControlTypeVChuPasswordMustChange;
   ControlTypeVChuPasswordWarning; ControlTypeManageDsaIT;
   ControlTypeMicrosoftNotification; ControlTypeMicrosoftShowDeleted;
   ControlTypeMicrosoftServerLinkTTL].

(** A password policy response carries nothing, the grace logins left, the
    time before expiration, or one of the nine errors with its text. *)
Inductive behera_wf : beheraPasswordPolicy → Prop :=
| behera_empty : behera_wf (mkBehera (-1) (-1) (-1) "")
| behera_grace n : 0 ≤ n < 2 ^ 63 → behera_wf (mkBehera (-1) n (-1) "")
| behera_expire n : 0 ≤ n < 2 ^ 63 → behera_wf (mkBehera n (-1) (-1) "")
| behera_error e : 0 ≤ e ≤ 8 →
    behera_wf (mkBehera (-1) (-1) e (map_get BeheraPasswordPolicyErrorMap e)).

(** The controls that stand for themselves on the wire. *)
Definition control_wf (c : Control) : Prop :=
  match c with
  | ControlString ct _ _ => ct ∉ knownControlTypes
  | ControlBeheraPasswordPolicy c => behera_wf c
  | ControlVChuPasswordMustChange b => b = true
  | ControlVChuPasswordWarning e => in_int 64 e
  | ControlPaging n _ => in_uint 32 n
  | _ => True
  end.

(** The bytes of the caller's own strings in a control. *)
Definition control_size (c : Control) : Z :=
  match c with
  | ControlString ct _ v => Z.of_nat (String.length ct) + Z.of_nat (String.length v)
  | ControlPaging _ ck => Z.of_nat (String.length ck)
  | _ => 0
  end.

(** ** Lemmas *)

Section value_dispatch.
Context `{BerOps}.
Implicit Types (crit : bool) (v : option Packet).

Lemma decodeValue_ManageDsaIT crit v :
  decodeControlValue ControlTypeManageDsaIT crit v = Ok (ControlManageDsaIT crit, v).
Proof. reflexivity. Qed.
Lemma decodeValue_Paging crit v :
  decodeControlValue ControlTypePaging crit v = decodePaging v.
Proof. reflexivity. Qed.
Lemma decodeValue_Behera crit v :
  decodeControlValue ControlTypeBeheraPasswordPolicy crit v = decodeBehera v.
Proof. reflexivity. Qed.
Lemma decodeValue_MustChange crit v :
  decodeControlValue ControlTypeVChuPasswordMustChange crit v =
    Ok (ControlVChuPasswordMustChange true, v).
Proof. reflexivity. Qed.
Lemma decodeValue_Warning crit v :
  decodeControlValue ControlTypeVChuPasswordWarning crit v = decodeVChuWarning v.
Proof. reflexivity. Qed.
Lemma decodeValue_Notification crit v :
  decodeControlValue ControlTypeMicrosoftNotification crit v =
    Ok (ControlMicrosoftNotification, v).
Proof. reflexivity. Qed.
Lemma decodeValue_ShowDeleted crit v :
  decodeControlValue ControlTypeMicrosoftShowDeleted crit v =
    Ok (ControlMicrosoftShowDeleted, v).
Proof. reflexivity. Qed.
Lemma decodeValue_ServerLinkTTL crit v :
  decodeControlValue ControlTypeMicrosoftServerLinkTTL crit v =
    Ok (ControlMicrosoftServerLinkTTL, v).
Proof. reflexivity. Qed.
Lemma decodeValue_String ct crit v :
  ct ∉ knownControlTypes →
  decodeControlValue ct crit v =
    match v with
    | None => Ok (ControlString ct crit "", v)
    | Some p => s ← as_string (Value p); Ok (ControlString ct crit s, v)
    end.
Proof.
  intros Hct. unfold decodeControlValue, knownControlTypes in *.
  rewrite !not_elem_of_cons in Hct. destruct_and!.
  by repeat (rewrite decide_False by done).
Qed.
End value_dispatch.

#[export] Hint Rewrite @decodeValue_ManageDsaIT @decodeValue_Paging @decodeValue_Behera
  @decodeValue_MustChange @decodeValue_Warning @decodeValue_Notification
  @decodeValue_ShowDeleted @decodeValue_ServerLinkTTL : ber.

Section decoding.
Context `{L : BerLaws}.

(** *** What a control looks like to [decodeControl] *)

(** [shows p ct crit value]: the children of [p] give type [ct], criticality
    [crit] and value packet [value]. *)
Inductive shows (p : Packet) : string → bool → option Packet → Prop :=
| shows_type c0 ct :
    Children p = [c0] → Value c0 = VString ct → shows p ct false None
| shows_crit c0 c1 ct crit :
    Children p = [c0; c1] → Value c0 = VString ct → Value c1 = VBool crit →
    shows p ct crit None
| shows_value c0 c1 ct :
    Children p = [c0; c1] → Value c0 = VString ct → (∀ b, Value c1 ≠ VBool b) →
    shows p ct false (Some c1)
| shows_both c0 c1 c2 ct crit :
    Children p = [c0; c1; c2] → Value c0 = VString ct → Value c1 = VBool crit →
    shows p ct crit (Some c2).

Lemma decodeControl_shows p ct crit v c v' :
  shows p ct crit v →
  decodeControlValue ct crit (set_Description "Control Value" <$> v) = Ok (c, v') →
  ∃ p', decodeControl (Some p) = Ok (c, p').
Proof.
  intros Hs Hv. unfold decodeControl, decodeControlChildren.
  destruct Hs as [c0 ct Hc H0|c0 c1 ct crit Hc H0 H1|c0 c1 ct Hc H0 H1|c0 c1 c2 ct crit Hc H0 H1];
    rewrite Hc, H0; simpl in *.
  - rewrite Hv. simpl. eauto.
  - rewrite H1; simpl. rewrite Hv. simpl. eauto.
  - destruct (Value c1) eqn:E; try (by destruct (H1 b)); simpl; rewrite Hv; simpl; eauto.
  - rewrite H1; simpl. rewrite Hv. simpl. eauto.
Qed.

Lemma shows_header ct : shows (controlHeader ct) ct false None.
Proof. eapply shows_type; unfold controlHeader; by ber_simpl. Qed.

Lemma shows_header_value ct q :
  (∀ b, Value q ≠ VBool b) → shows (AppendChild (controlHeader ct) q) ct false (Some q).
Proof. intros. eapply shows_value; [unfold controlHeader; by ber_simpl| |done]. by ber_simpl. Qed.

Lemma shows_criticality ct crit :
  shows (appendCriticality crit (controlHeader ct)) ct crit None.
Proof.
  destruct crit; [|apply shows_header].
  eapply shows_crit; [unfold appendCriticality, controlHeader; by ber_simpl|by ber_simpl..].
Qed.

Lemma shows_criticality_value ct crit q :
  (∀ b, Value q ≠ VBool b) →
  shows (AppendChild (appendCriticality crit (controlHeader ct)) q) ct crit (Some q).
Proof.
  intros. destruct crit; [|by apply shows_header_value].
  eapply shows_both; [unfold appendCriticality, controlHeader; by ber_simpl|by ber_simpl..].
Qed.

(** The same after a trip over the wire. *)
Lemma reparse_typed ct d :
  Value (reparse (ber_NewString ClassUniversal TypePrimitive TagOctetString ct d)) = VString ct.
Proof. rewrite reparse_octets; by ber_simpl. Qed.

Lemma Value_reparse_value q :
  ClassType q = ClassUniversal → TagType q = TypePrimitive → Tag q = TagOctetString →
  ∀ b, Value (reparse q) ≠ VBool b.
Proof. intros. by rewrite reparse_octets. Qed.

Lemma shows_reparse p ct crit v :
  TagType p = TypeConstructed →
  (∃ c0, Children p = [c0] ∧ Value (reparse c0) = VString ct ∧ crit = false ∧ v = None) ∨
  (∃ c0 c1, Children p = [c0; c1] ∧ Value (reparse c0) = VString ct ∧
     Value (reparse c1) = VBool crit ∧ v = None) ∨
  (∃ c0 c1, Children p = [c0; c1] ∧ Value (reparse c0) = VString ct ∧ crit = false ∧
     v = Some c1 ∧ ∀ b, Value (reparse c1) ≠ VBool b) ∨
  (∃ c0 c1 c2, Children p = [c0; c1; c2] ∧ Value (reparse c0) = VString ct ∧
     Value (reparse c1) = VBool crit ∧ v = Some c2) →
  shows (reparse p) ct crit (reparse <$> v).
Proof.
  intros Ht Hp. rewrite reparse_constructed by done.
  destruct Hp as [(c0&Hc&?&->&->)|[(c0&c1&Hc&?&?&->)|[(c0&c1&Hc&?&->&->&?)|(c0&c1&c2&Hc&?&?&->)]]];
    rewrite Hc; simpl.
  - by eapply shows_type.
  - by eapply shows_crit.
  - by eapply shows_value.
  - by eapply shows_both.
Qed.
End decoding.

Section values.
Context `{L : BerLaws}.

Lemma expandValue_nil v : Value v = VNil → expandValue v = Ok v.
Proof. unfold expandValue. by intros ->. Qed.

(** The value packet of a control: an octet string around [q]. *)
Definition valuePacket (d : string) (q : Packet) : Packet :=
  AppendChild (ber_Encode ClassUniversal TypePrimitive TagOctetString VNil d) q.

Lemma Value_valuePacket d q : Value (valuePacket d q) = VNil.
Proof. unfold valuePacket. by ber_simpl. Qed.

Lemma Children_valuePacket d q : Children (valuePacket d q) = [q].
Proof. unfold valuePacket. by ber_simpl. Qed.

Lemma reparse_valuePacket d q :
  reparse (valuePacket d q) =
    mkPacket ClassUniversal TypePrimitive TagOctetString (VString (Packet_Bytes q))
      (Packet_Bytes q) [] "".
Proof.
  unfold valuePacket. rewrite reparse_octets; ber_simpl; [|done..].
  by rewrite Data_AppendChild.
Qed.

(** Both ways a value packet reaches [decodeControl]: as built, and read from
    the wire.  [q'] is the packet inside. *)
Inductive reaches (q : Packet) : Packet → Packet → Prop :=
| reaches_built d : reaches q (valuePacket d q) q
| reaches_wire d n : enc q n → reaches q (reparse (valuePacket d q)) (reparse q)
| reaches_described d v q' : reaches q v q' → reaches q (set_Description d v) q'.

Lemma expandValue_reaches q v q' d :
  reaches q v q' →
  ∃ v', expandValue (set_Description d v) = Ok v' ∧ Children v' = [q'].
Proof.
  induction 1 as [d'|d' n Hq|d' v q' _ IH]; [| |exact IH].
  - eexists. rewrite expandValue_nil by apply Value_valuePacket.
    split; [done|]. apply Children_valuePacket.
  - rewrite reparse_valuePacket. unfold expandValue. simpl.
    rewrite (enc_decode q n Hq). simpl. eexists. split; [done|]. by ber_simpl.
Qed.

Lemma decodePaging_reaches q v q' c0 c1 z :
  reaches q v q' → Children q' = [c0; c1] → Value c0 = VInt64 z →
  ∃ v', decodePaging (Some v) = Ok (ControlPaging (uint32 z) (Data c1), v').
Proof.
  intros Hr Hc Hz. unfold decodePaging.
  destruct (expandValue_reaches q v q' (Description v +:+ " (Paging)") Hr)
    as (v' & -> & Hv'). simpl.
  rewrite Hv', Hc. simpl. rewrite Hz. simpl. eauto.
Qed.

Lemma NewControlBehera_default :
  NewControlBeheraPasswordPolicy [] = Ok (mkBehera (-1) (-1) (-1) "").
Proof. reflexivity. Qed.

Lemma decodeBehera_reaches q v q' e c e' :
  reaches q v q' → Children q' = [e] →
  beheraElement (mkBehera (-1) (-1) (-1) "") e = Ok (c, e') →
  ∃ v', decodeBehera (Some v) = Ok (ControlBeheraPasswordPolicy c, v').
Proof.
  intros Hr Hc He. unfold decodeBehera.
  rewrite NewControlBehera_default. cbn [dropErr mbind outcome_bind].
  destruct (expandValue_reaches q v q'
    (Description v +:+ " (Password Policy - Behera)") Hr) as (v' & -> & Hv'). simpl.
  rewrite Hv', Hc. simpl. rewrite He. simpl. eauto.
Qed.

(** The elements of a Behera response. *)
Lemma beheraElement_warning c e w z :
  Tag e = 0 → Children e = [w] → ber_ParseInt64 (Data w) = Ok z →
  ∃ e', beheraElement c e =
    Ok (if decide (Tag w = 0) then mkBehera z (grace c) (error_ c) (errorString c)
        else if decide (Tag w = 1) then mkBehera (expire c) z (error_ c) (errorString c)
        else c, e').
Proof.
  intros Ht Hc Hz. unfold beheraElement. rewrite decide_True by done.
  rewrite Hc. simpl. rewrite Hz. simpl. repeat case_decide; eauto.
Qed.

Lemma beheraElement_error c e b :
  Tag e = 1 → Data e = of_bytes [b] → 0 ≤ b ≤ 8 →
  ∃ e', beheraElement c e =
    Ok (mkBehera (expire c) (grace c) b (map_get BeheraPasswordPolicyErrorMap b), e').
Proof.
  intros Ht Hd Hb. unfold beheraElement. rewrite Ht, Hd. simpl.
  rewrite byteZ_Zbyte by lia. rewrite decide_False by lia.
  unfold int8. rewrite wrapS_id; [eauto|lia|]. unfold in_int. simpl. lia.
Qed.
End values.

Section roundtrip.
Context `{L : BerLaws}.

(** The packet inside the value of a Behera control. *)
Definition beheraSequence (element : Packet) : Packet :=
  AppendChild (ber_Encode ClassUniversal TypeConstructed TagSequence VNil "") element.

Definition warningElement (tag z : Z) : Packet :=
  AppendChild (ber_Encode ClassContext TypeConstructed 0 VNil "")
    (ber_NewInteger ClassContext TypePrimitive tag (VInt64 z) "").

(** The packet inside the value of a paging control. *)
Definition pagingSequence (size : Z) (cookie : string) : Packet :=
  AppendChild
    (AppendChild
       (ber_Encode ClassUniversal TypeConstructed TagSequence VNil "Search Control Value")
       (ber_NewInteger ClassUniversal TypePrimitive TagInteger (VInt64 (int64 size)) "Paging Size"))
    (mkPacket ClassUniversal TypePrimitive TagOctetString (VBytes cookie) cookie [] "Cookie").

Lemma ControlPaging_Encode_eq n ck :
  ControlPaging_Encode n ck =
    AppendChild (controlHeader ControlTypePaging)
      (valuePacket "Control Value (Paging)" (pagingSequence n ck)).
Proof.
  unfold ControlPaging_Encode, valuePacket, pagingSequence. by rewrite !Encode_eq.
Qed.

Lemma enc_sequence d : enc (ber_Encode ClassUniversal TypeConstructed TagSequence VNil d) 0.
Proof. apply enc_Encode; [by left|]. by rewrite law_TagSequence. Qed.

Lemma in_int_64_nonneg z : 0 ≤ z < 2 ^ 63 → in_int 64 z.
Proof. unfold in_int. simpl. lia. Qed.

Lemma enc_warning tag z :
  0 ≤ tag < 31 → 0 ≤ z < 2 ^ 63 → enc (warningElement tag z) 14.
Proof.
  intros. eapply (enc_AppendChild _ _ 0 8); [apply enc_Encode; [set_solver|lia]| | |lia].
  - by ber_simpl.
  - eapply enc_NewInteger; [by right|done|by apply in_int_64_nonneg].
Qed.

Lemma enc_error e : 0 ≤ e ≤ 8 →
  enc (ber_NewInteger ClassContext TypePrimitive 1 (VInt8 e) "") 8.
Proof.
  intros. eapply enc_NewInteger; [right; split; [done|lia]|done|].
  apply in_int_64_nonneg. lia.
Qed.

Lemma enc_behera e n : enc e n → n ≤ 100 → enc (beheraSequence e) (n + 6).
Proof.
  intros. apply (enc_AppendChild _ _ 0 n); [apply enc_sequence|by ber_simpl|done|lia].
Qed.

(** The warning element as [decodeControl] meets it: built, or re-read. *)
Lemma warning_decodes c tag z e :
  e = warningElement tag z ∨ e = reparse (warningElement tag z) →
  0 ≤ z < 2 ^ 63 →
  ∃ e', beheraElement c e =
    Ok (if decide (tag = 0) then mkBehera z (grace c) (error_ c) (errorString c)
        else if decide (tag = 1) then mkBehera (expire c) z (error_ c) (errorString c)
        else c, e').
Proof.
  intros He Hz.
  destruct (law_NewInteger_data ClassContext TypePrimitive tag (VInt64 z) "" z)
    as [Hp _]; [done|by apply in_int_64_nonneg|].
  destruct He as [-> | ->].
  - edestruct (beheraElement_warning c (warningElement tag z)) as [e' He'];
      [unfold warningElement; by ber_simpl..|exact Hp|].
    exists e'. rewrite He'. by ber_simpl.
  - unfold warningElement. rewrite reparse_constructed by by ber_simpl. ber_simpl.
    rewrite reparse_context by by ber_simpl. ber_simpl.
    by edestruct (beheraElement_warning c) as [e' He'];
      [| | |exists e'; rewrite He'].
Qed.

Lemma error_decodes c b e :
  e = ber_NewInteger ClassContext TypePrimitive 1 (VInt8 b) "" ∨
  e = reparse (ber_NewInteger ClassContext TypePrimitive 1 (VInt8 b) "") →
  0 ≤ b ≤ 8 →
  ∃ e', beheraElement c e =
    Ok (mkBehera (expire c) (grace c) b (map_get BeheraPasswordPolicyErrorMap b), e').
Proof.
  intros He Hb.
  pose proof (law_NewInteger_small ClassContext TypePrimitive 1 (VInt8 b) "" b) as Hd.
  destruct He as [-> | ->]; [|rewrite reparse_context by by ber_simpl; ber_simpl];
    apply beheraElement_error; ber_simpl; auto; apply Hd; done || lia.
Qed.
End roundtrip.

Section wire_roundtrip.
Context `{L : BerLaws}.

Lemma shows_wire_header ct : shows (reparse (controlHeader ct)) ct false None.
Proof.
  apply (shows_reparse _ _ _ None); [unfold controlHeader; by ber_simpl|]. left.
  eexists. unfold controlHeader. ber_simpl. split; [done|].
  by rewrite reparse_octets.
Qed.

Lemma shows_wire_criticality ct crit :
  shows (reparse (appendCriticality crit (controlHeader ct))) ct crit None.
Proof.
  destruct crit; [|apply shows_wire_header].
  apply (shows_reparse _ _ _ None); [unfold appendCriticality, controlHeader; by ber_simpl|].
  right; left. do 2 eexists. unfold appendCriticality, controlHeader. ber_simpl.
  split; [done|]. rewrite reparse_octets, reparse_boolean by done. done.
Qed.

Lemma shows_wire_value ct crit q :
  ClassType q = ClassUniversal → TagType q = TypePrimitive → Tag q = TagOctetString →
  shows (reparse (AppendChild (appendCriticality crit (controlHeader ct)) q)) ct crit
    (Some (reparse q)).
Proof.
  intros Hc Ht Hg. pose proof (Value_reparse_value q Hc Ht Hg) as Hv.
  apply (shows_reparse _ _ _ (Some q)).
  { destruct crit; unfold appendCriticality, controlHeader; by ber_simpl. }
  right; right. destruct crit; [right|left].
  - do 3 eexists. unfold appendCriticality, controlHeader. ber_simpl.
    split; [done|]. rewrite reparse_octets, reparse_boolean by done. done.
  - do 2 eexists. unfold appendCriticality, controlHeader. ber_simpl.
    split; [done|]. rewrite reparse_octets by done. done.
Qed.

(** Both ways a control packet reaches [decodeControl]: as it was built, or
    read from the wire. *)
Definition arrives (wire : bool) (p p' : Packet) : Prop :=
  p' = if wire then reparse p else p.

Lemma arrives_none w ct crit p :
  arrives w (appendCriticality crit (controlHeader ct)) p → shows p ct crit None.
Proof.
  intros ->. destruct w; [apply shows_wire_criticality|apply shows_criticality].
Qed.

Lemma arrives_string w ct crit s d p :
  arrives w (AppendChild (appendCriticality crit (controlHeader ct))
             (ber_NewString ClassUniversal TypePrimitive TagOctetString s d)) p →
  ∃ v, shows p ct crit (Some v) ∧ Value v = VString s ∧ Data v = s.
Proof.
  intros ->. destruct w; eexists.
  - split; [apply shows_wire_value; by ber_simpl|].
    rewrite reparse_octets; by ber_simpl.
  - split; [apply shows_criticality_value; by ber_simpl|]. by ber_simpl.
Qed.

Lemma arrives_value w ct d q p :
  arrives w (AppendChild (controlHeader ct) (valuePacket d q)) p →
  (w = true → ∃ n, enc q n) →
  ∃ v q', shows p ct false (Some v) ∧
          reaches q (set_Description "Control Value" v) q' ∧ arrives w q q'.
Proof.
  intros -> Hq. destruct w; (eexists _, _; split; [|split; [|done]]).
  - by apply (shows_wire_value ct false); unfold valuePacket; ber_simpl.
  - destruct Hq as [n Hn]; [done|]. apply reaches_described. by econstructor.
  - apply shows_header_value. by rewrite Value_valuePacket.
  - apply reaches_described. constructor.
Qed.

Lemma paging_decodes w n ck q' :
  in_uint 32 n → arrives w (pagingSequence n ck) q' →
  ∃ c0 c1, Children q' = [c0; c1] ∧ Value c0 = VInt64 n ∧ Data c1 = ck.
Proof.
  intros Hn Hq.
  assert (int64 n = n) as Hi.
  { apply wrapS_id; [lia|]. unfold in_uint, in_int in *. simpl. lia. }
  rewrite Hq. destruct w; unfold pagingSequence; rewrite Hi;
    [|do 2 eexists; ber_simpl; split; [done|]; by ber_simpl].
  - rewrite reparse_constructed by by ber_simpl. ber_simpl.
    do 2 eexists. split; [done|].
    erewrite reparse_integer; [|done|done|by left|done|].
    + rewrite reparse_octets; by ber_simpl.
    + unfold in_uint, in_int in *. simpl. lia.
Qed.

Lemma enc_paging n ck :
  in_uint 32 n → Z.of_nat (String.length ck) < 2 ^ 30 →
  enc (pagingSequence n ck) (Z.of_nat (String.length ck) + 20).
Proof.
  intros Hn Hck. unfold pagingSequence.
  assert (int64 n = n) as ->.
  { apply wrapS_id; [lia|]. unfold in_uint, in_int in *. simpl. lia. }
  eapply (enc_AppendChild _ _ 14 (Z.of_nat (String.length ck)));
    [|by ber_simpl|by apply enc_octets; lia|lia].
  apply (enc_AppendChild _ _ 0 8); [apply enc_sequence|by ber_simpl| |lia].
  eapply enc_NewInteger; [by left; auto|done|]. unfold in_uint, in_int in *. simpl. lia.
Qed.

(** The packet of a control is one the library reads back. *)
Lemma enc_header ct :
  Z.of_nat (String.length ct) < 2 ^ 30 →
  enc (controlHeader ct) (Z.of_nat (String.length ct) + 6).
Proof.
  intros. unfold controlHeader. rewrite NewString_eq.
  apply (enc_AppendChild _ _ 0 (Z.of_nat (String.length ct)));
    [apply enc_sequence|by ber_simpl|apply enc_octets; lia|lia].
Qed.

Lemma TagType_header ct : TagType (controlHeader ct) = TypeConstructed.
Proof. unfold controlHeader. by ber_simpl. Qed.

Lemma TagType_criticality crit ct :
  TagType (appendCriticality crit (controlHeader ct)) = TypeConstructed.
Proof. destruct crit; unfold appendCriticality, controlHeader; by ber_simpl. Qed.

Lemma enc_criticality ct crit :
  Z.of_nat (String.length ct) < 2 ^ 30 →
  enc (appendCriticality crit (controlHeader ct)) (Z.of_nat (String.length ct) + 13).
Proof.
  intros. destruct crit; simpl.
  - eapply enc_AppendChild; [by apply enc_header|apply TagType_header|apply enc_NewBoolean|lia].
  - eapply enc_le; [by apply enc_header|lia].
Qed.

Lemma enc_value ct d q n :
  Z.of_nat (String.length ct) ≤ 100 → enc q n → n < 2 ^ 30 + 100 →
  enc (AppendChild (controlHeader ct) (valuePacket d q)) (n + 200).
Proof.
  intros. eapply (enc_AppendChild _ _ _ (n + 6));
    [apply enc_header; lia|apply TagType_header| |lia].
  eapply enc_AppendChild_octets; [done|lia].
Qed.

Lemma behera_value_decodes w c e n p :
  arrives w (beheraValue (controlHeader ControlTypeBeheraPasswordPolicy) e) p →
  enc e n → n ≤ 100 →
  (∀ e', arrives w e e' →
     ∃ e'', beheraElement (mkBehera (-1) (-1) (-1) "") e' = Ok (c, e'')) →
  ∃ p', decodeControl (Some p) = Ok (ControlBeheraPasswordPolicy c, p').
Proof.
  intros Hp Hn Hle Hd.
  destruct (arrives_value w _ "" (beheraSequence e) p Hp) as (v & q' & Hs & Hr & Hq).
  { intros _. exists (n + 6). by apply enc_behera. }
  assert (∃ e', Children q' = [e'] ∧ arrives w e e') as (e' & Hc & He').
  { rewrite Hq. unfold arrives, beheraSequence. destruct w; [|by ber_simpl; eauto].
    rewrite reparse_constructed by by ber_simpl. ber_simpl. eauto. }
  destruct (Hd e' He') as [e'' Hd'].
  destruct (decodeBehera_reaches _ _ _ _ _ _ Hr Hc Hd') as [v' Hv'].
  eapply decodeControl_shows; [exact Hs|]. exact Hv'.
Qed.

Lemma behera_decodes w c p :
  behera_wf c → arrives w (ControlBeheraPasswordPolicy_Encode c) p →
  ∃ p', decodeControl (Some p) = Ok (ControlBeheraPasswordPolicy c, p').
Proof.
  intros Hwf Hp.
  destruct Hwf as [|n Hn|n Hn|e He]; unfold ControlBeheraPasswordPolicy_Encode in Hp;
    simpl in Hp.
  - eapply decodeControl_shows; [by apply (arrives_none w _ false)|]. reflexivity.
  - repeat case_decide; try lia.
    eapply (behera_value_decodes w _ (warningElement 1 n)); [done|apply enc_warning; lia|lia|].
    intros e' ->. apply (warning_decodes (mkBehera (-1) (-1) (-1) "") 1 n); [|done]. destruct w; auto.
  - repeat case_decide; try lia.
    eapply (behera_value_decodes w _ (warningElement 0 n)); [done|apply enc_warning; lia|lia|].
    intros e' ->. apply (warning_decodes (mkBehera (-1) (-1) (-1) "") 0 n); [|done]. destruct w; auto.
  - repeat case_decide; try lia.
    eapply behera_value_decodes; [done|by apply enc_error|lia|].
    intros e' ->. apply (error_decodes (mkBehera (-1) (-1) (-1) "") e); [|done].
    destruct w; auto.
Qed.

Lemma decodeControl_arrives w c p :
  control_wf c → (w = true → control_size c < 2 ^ 30) → arrives w (Encode c) p →
  ∃ p', decodeControl (Some p) = Ok (c, p').
Proof.
  intros Hwf Hsz Hp. destruct c as [ct crit v|crit| | | |c|b|e|n ck]; simpl in *.
  - unfold ControlString_Encode in Hp. case_decide as Hv.
    + subst v. eapply decodeControl_shows; [by eapply arrives_none|].
      by rewrite decodeValue_String.
    + destruct (arrives_string _ _ _ _ _ _ Hp) as (u & Hs & Hu & _).
      eapply decodeControl_shows; [done|]. rewrite decodeValue_String by done.
      simpl. rewrite Hu. reflexivity.
  - eapply decodeControl_shows; [by eapply arrives_none|]. reflexivity.
  - eapply decodeControl_shows; [by apply (arrives_none w _ false)|]. reflexivity.
  - eapply decodeControl_shows; [by apply (arrives_none w _ false)|]. reflexivity.
  - eapply decodeControl_shows; [by apply (arrives_none w _ false)|]. reflexivity.
  - by eapply behera_decodes.
  - subst b. eapply decodeControl_shows; [by apply (arrives_none w _ false)|]. reflexivity.
  - destruct (arrives_string w _ false _ _ _ Hp) as (u & Hs & _ & Hd).
    eapply decodeControl_shows; [exact Hs|]. ber_simpl. rewrite law_DecodeString, Hd.
    rewrite Strconv.ParseInt_FormatInt by done. reflexivity.
  - rewrite ControlPaging_Encode_eq in Hp.
    destruct (arrives_value w _ _ _ _ Hp) as (v & q' & Hs & Hr & Hq).
    { intros Hw. eexists. apply enc_paging; auto. }
    destruct (paging_decodes w n ck q' Hwf Hq) as (c0 & c1 & Hc & Hz & <-).
    destruct (decodePaging_reaches _ _ _ _ _ _ Hr Hc Hz) as [v' Hv'].
    eapply decodeControl_shows; [exact Hs|]. etrans; [exact Hv'|].
    unfold uint32. by rewrite wrapU_id.
Qed.

Lemma enc_Encode_control c :
  control_wf c → control_size c < 2 ^ 30 → ∃ n, enc (Encode c) n ∧ n ≤ control_size c + 300.
Proof.
  intros Hwf Hsz.
  assert (∀ ct, ct ∈ knownControlTypes → Z.of_nat (String.length ct) ≤ 25) as Hk.
  { apply Forall_forall. apply (bool_decide_unpack _). by vm_compute. }
  destruct c as [ct crit v|crit| | | |c|b|e|n ck]; simpl in *.
  - unfold ControlString_Encode. case_decide as Hv.
    + eexists. split; [apply enc_criticality; lia|lia].
    + eexists. split.
      * eapply (enc_AppendChild _ _ _ (Z.of_nat (String.length v)));
          [apply enc_criticality; lia|apply TagType_criticality| |split; [reflexivity|lia]].
        rewrite NewString_eq. apply enc_octets; lia.
      * lia.
  - eexists. split; [apply enc_criticality; simpl; lia|simpl; lia].
  - eexists. split; [apply enc_header; simpl; lia|simpl; lia].
  - eexists. split; [apply enc_header; simpl; lia|simpl; lia].
  - eexists. split; [apply enc_header; simpl; lia|simpl; lia].
  - destruct Hwf as [|n Hn|n Hn|e He]; unfold ControlBeheraPasswordPolicy_Encode; simpl.
    + eexists. split; [apply enc_header; simpl; lia|simpl; lia].
    + repeat case_decide; try lia. eexists. split.
      * eapply enc_value; [simpl; lia|apply enc_behera; [apply enc_warning; lia|lia]|lia].
      * lia.
    + repeat case_decide; try lia. eexists. split.
      * eapply enc_value; [simpl; lia|apply enc_behera; [apply enc_warning; lia|lia]|lia].
      * lia.
    + repeat case_decide; try lia. eexists. split.
      * eapply enc_value; [simpl; lia|apply enc_behera; [by apply enc_error|lia]|lia].
      * lia.
  - eexists. split; [apply enc_header; simpl; lia|simpl; lia].
  - eexists. split.
    + pose proof (Strconv.FormatInt_length e Hwf).
      eapply (enc_AppendChild _ _ _ 67);
        [apply enc_header; simpl; lia|apply TagType_header| |split; [reflexivity|simpl; lia]].
      rewrite NewString_eq. apply enc_octets; lia.
    + simpl; lia.
  - rewrite ControlPaging_Encode_eq. eexists. split.
    + eapply enc_value; [simpl; lia|by apply enc_paging|lia].
    + lia.
Qed.
End wire_roundtrip.

(** *** Decoding the rewritten packet again *)

Section again.
Context `{L : BerLaws}.

Lemma expandValue_again v v' :
  expandValue v = Ok v' →
  Value v' = VNil ∧ ∀ d cs, expandValue (set_Description d (set_Children cs v'))
                            = Ok (set_Description d (set_Children cs v')).
Proof.
  unfold expandValue. intros H. destruct (Value v) eqn:E; inv_ok; simpl; ber_simpl;
    rewrite ?E; done.
Qed.

Lemma decodePaging_again d v c v' :
  decodePaging (Some v) = Ok (c, v') →
  ∃ u, v' = Some u ∧ Value u = VNil ∧
  ∃ w, decodePaging (Some (set_Description d u)) = Ok (c, w).
Proof.
  unfold decodePaging. intros (x & Hx & H)%bind_Ok_inv.
  destruct (expandValue_again _ _ Hx) as [Hn He].
  destruct (Children x) as [|seq others] eqn:Hc; [done|].
  apply bind_Ok_inv in H as (c0 & H0%index_Ok_inv & H).
  apply bind_Ok_inv in H as (c1 & H1%index_Ok_inv & H).
  apply bind_Ok_inv in H as (z & Hz & H).
  destruct (Value c0) eqn:Hv0; simplify_eq/=.
  destruct (Children seq) as [|c0' [|c1' cs]] eqn:Hs; simplify_eq/=.
  eexists. split; [done|]. split; [done|].
  specialize (He (d +:+ " (Paging)")). unfold set_Description, set_Children in *; simpl in *.
  rewrite He. simpl. rewrite Hs. simpl. rewrite Hv0. simpl. eauto.
Qed.

Lemma beheraElement_again c child c' child' :
  beheraElement c child = Ok (c', child') →
  ∃ child'', beheraElement c child' = Ok (c', child'').
Proof.
  unfold beheraElement. intros H. destruct (decide (Tag child = 0)) as [Ht|Ht].
  - apply bind_Ok_inv in H as (w & Hw%index_Ok_inv & H).
    apply bind_Ok_inv in H as (z & Hz & H).
    destruct (Children child) as [|? ws] eqn:Hcs; simplify_eq/=.
    repeat case_decide; simplify_eq/=; rewrite ?Hcs; simpl;
      rewrite ?decide_True by done; simpl; rewrite Hz; simpl; eauto.
    + rewrite decide_True by done. eauto.
    + rewrite decide_False, decide_True by done. eauto.
    + rewrite decide_False, decide_False by done. eauto.
  - destruct (decide (Tag child = 1)) as [Ht1|Ht1]; [|simplify_eq/=].
    + destruct (bytes (Data child)) as [|b [|]] eqn:Hb; try done.
      destruct (decide (b > 8)) eqn:Hd; [done|]. simplify_eq/=.
      rewrite decide_False, decide_True, Hb, Hd by done. eauto.
    + rewrite !decide_False by done. eauto.
Qed.

Lemma beheraElements_again c cs c' cs' :
  beheraElements c cs = Ok (c', cs') →
  ∃ cs'', beheraElements c cs' = Ok (c', cs'').
Proof.
  revert c c' cs'. induction cs as [|child cs IH]; intros c c' cs' H; simpl in H.
  { simplify_eq/=. eauto. }
  apply bind_Ok_inv in H as ([c1 child'] & He & H).
  apply bind_Ok_inv in H as ([c2 cs1] & Hes & H). simplify_eq/=.
  destruct (beheraElement_again _ _ _ _ He) as [child'' ->].
  destruct (IH _ _ _ Hes) as [cs'' Hcs]. simpl. rewrite Hcs. simpl. eauto.
Qed.

Lemma decodeBehera_again d v c v' :
  decodeBehera (Some v) = Ok (c, v') →
  ∃ u, v' = Some u ∧ Value u = VNil ∧
  ∃ w, decodeBehera (Some (set_Description d u)) = Ok (c, w).
Proof.
  unfold decodeBehera. rewrite NewControlBehera_default.
  cbn [dropErr mbind outcome_bind]. intros (x & Hx & H)%bind_Ok_inv.
  destruct (expandValue_again _ _ Hx) as [Hn He].
  destruct (Children x) as [|seq others] eqn:Hc; [done|].
  apply bind_Ok_inv in H as ([c1 els] & Hels & H). simplify_eq/=.
  eexists. split; [done|]. split; [done|].
  specialize (He (d +:+ " (Password Policy - Behera)")).
  unfold set_Description, set_Children in *; simpl in *. rewrite He. simpl.
  destruct (beheraElements_again _ _ _ _ Hels) as [els' ->]. simpl. eauto.
Qed.

Lemma decodeVChuWarning_again d v c v' :
  decodeVChuWarning (Some v) = Ok (c, v') →
  ∃ u z, v' = Some u ∧ Value u = VInt64 z ∧
  ∃ w, decodeVChuWarning (Some (set_Description d u)) = Ok (c, w).
Proof.
  unfold decodeVChuWarning. intros (z & Hz & H)%bind_Ok_inv. simplify_eq/=.
  do 2 eexists. split; [done|]. split; [done|]. simpl. rewrite Hz. simpl. eauto.
Qed.

Lemma decodeControlValue_again d ct crit v c v' :
  decodeControlValue ct crit (Some v) = Ok (c, v') →
  ∃ u, v' = Some u ∧ ((∀ b, Value u ≠ VBool b) ∨ Value u = Value v) ∧
  ∃ w, decodeControlValue ct crit (Some (set_Description d u)) = Ok (c, w).
Proof.
  intros H. unfold decodeControlValue in *.
  repeat case_decide; try (simplify_eq/=; by eauto 8).
  - destruct (decodePaging_again d v c v' H) as (u & -> & Hu & w & Hw).
    exists u. rewrite Hu. by eauto 8.
  - destruct (decodeBehera_again d v c v' H) as (u & -> & Hu & w & Hw).
    exists u. rewrite Hu. by eauto 8.
  - destruct (decodeVChuWarning_again d v c v' H) as (u & z & -> & Hu & w & Hw).
    exists u. rewrite Hu. by eauto 8.
  - apply bind_Ok_inv in H as (s & Hs & H). simplify_eq/=.
    eexists. split; [done|]. split; [by right|]. simpl. rewrite Hs. simpl. eauto.
Qed.

(** The packet after decoding a control with a value, in its [i]-th child. *)
Lemma decodeControl_again_value ct crit v c v' p q :
  decodeControlValue ct crit (Some v) = Ok (c, v') →
  (∀ u, v' = Some u → ((∀ b, Value u ≠ VBool b) ∨ Value u = Value v) →
        shows p ct crit (Some u)) →
  p = q → ∃ p'', decodeControl (Some q) = Ok (c, p'').
Proof.
  intros Hv Hs <-.
  destruct (decodeControlValue_again "Control Value" _ _ _ _ _ Hv) as (u & -> & Hu & w & Hw).
  by eapply (decodeControl_shows p ct crit (Some u)); [apply Hs|].
Qed.

Lemma decodeControl_again p c p' :
  decodeControl (Some p) = Ok (c, p') → ∃ p'', decodeControl (Some p') = Ok (c, p'').
Proof.
  unfold decodeControl at 1, decodeControlChildren.
  destruct (Children p) as [|c0 [|c1 [|c2 [|]]]] eqn:Hc; try done; simpl;
    (destruct (Value c0) as [|ct| | | | | |] eqn:H0; simpl; try done).
  - intros ([c' v'] & Hv & H)%bind_Ok_inv. simplify_eq/=.
    eapply (decodeControl_shows _ _ _ None); [by eapply shows_type|done].
  - destruct (Value c1) as [| | |crit| | | |] eqn:H1; simpl;
      intros ([c' v'] & Hv & H)%bind_Ok_inv; simplify_eq/=;
      [..|eapply (decodeControl_shows _ _ _ None); [by eapply shows_crit|done]| | | |];
      (eapply decodeControl_again_value; [exact Hv| |done]);
      intros u -> Hu; (eapply shows_value; [done|done|]); intros b;
      (destruct Hu as [Hu|Hu]; [apply Hu|]); rewrite Hu; simpl; by rewrite H1.
  - destruct (Value c1) as [| | |crit| | | |] eqn:H1; simpl; try done.
    intros ([c' v'] & Hv & H)%bind_Ok_inv. simplify_eq/=.
    eapply decodeControl_again_value; [exact Hv| |done].
    intros u -> _. by eapply shows_both.
Qed.
End again.

(** *** Building a Behera control *)

(** How many of the three options of a Behera control are set. *)
Definition behera_options_set (o : controlOptions) : nat :=
  ((if decide (withGrace o = -1)%Z then 0 else 1) +
   (if decide (withExpire o = -1)%Z then 0 else 1) +
   (if decide (withErrorCode o = -1)%Z then 0 else 1))%nat.

Lemma int_fits w z : 0 < w → -1 ≤ z < 2 ^ (w - 1) → wrapS w z = z.
Proof.
  intros Hw Hz. apply wrapS_id; [done|]. unfold in_int.
  assert (1 ≤ 2 ^ (w - 1)) by (pose proof (Z.pow_pos_nonneg 2 (w - 1)); lia). lia.
Qed.

Lemma NewControlBehera_cases opt (o := getControlOpts opt) :
  -1 ≤ withGrace o < 2 ^ 63 → -1 ≤ withExpire o < 2 ^ 63 → -1 ≤ withErrorCode o →
  if decide ((behera_options_set o ≤ 1)%nat ∧ withErrorCode o ≤ 8)
  then ∃ c, NewControlBeheraPasswordPolicy opt = Ok c ∧ behera_wf c ∧
            expire c = withExpire o ∧ grace c = withGrace o ∧ error_ c = withErrorCode o
  else ∃ e, NewControlBeheraPasswordPolicy opt = Err e ∧ errors_Is e ErrInvalidParameter = true.
Proof.
  intros Hg He Hc. unfold NewControlBeheraPasswordPolicy, behera_options_set.
  fold o. case_decide as Hok.
  - assert (withErrorCode o ≤ 8) as H8 by tauto. destruct Hok as [Hn _].
    assert (int8 (withErrorCode o) = withErrorCode o) as Hi8
      by (apply int_fits; simpl; lia).
    assert (int64 (withExpire o) = withExpire o) as Hie by (apply int_fits; simpl; lia).
    assert (int64 (withGrace o) = withGrace o) as Hig by (apply int_fits; simpl; lia).
    rewrite Hi8, Hie, Hig.
    destruct (decide (withGrace o = -1)) as [Eg|Eg], (decide (withExpire o = -1)) as [Ee|Ee],
      (decide (withErrorCode o = -1)) as [Ec|Ec]; simpl in Hn; try lia;
      rewrite ?Eg, ?Ee, ?Ec; rewrite ?bool_decide_true, ?bool_decide_false by lia; simpl;
      repeat (case_decide; try lia); try done;
      (eexists; split; [reflexivity|split; [|done]]; constructor; lia).
  - rewrite !bool_decide_decide.
    repeat case_decide; simpl in *; try (eexists; split; [reflexivity|reflexivity]); lia.
Qed.

(** ** Properties *)

Section properties.
Context `{L : BerLaws}.

(** C7. Every well-formed control survives the wire: the bytes of its
    encoding decode to a packet that [decodeControl] reads as the same
    control, value, criticality and all. *)
Theorem control_wire_roundtrip c :
  control_wf c → control_size c < 2 ^ 30 →
  ∃ p p', ber_DecodePacketErr (Packet_Bytes (Encode c)) = Ok p ∧
          decodeControl (Some p) = Ok (c, p').
Proof.
  intros Hwf Hsz. destruct (enc_Encode_control c Hwf Hsz) as (n & Hn & _).
  destruct (decodeControl_arrives true c (reparse (Encode c))) as [p' Hp']; [done|done|done|].
  exists (reparse (Encode c)), p'. split; [by eapply enc_decode|done].
Qed.

(** A control decodes from the packet [Encode] built, without passing
    through bytes, whatever the size of its strings. *)
Theorem control_packet_roundtrip c :
  control_wf c → ∃ p', decodeControl (Some (Encode c)) = Ok (c, p').
Proof. intros Hwf. by apply (decodeControl_arrives false c). Qed.

(** [decodeControl] rewrites the packet it decodes (descriptions, expanded
    values, typed values); decoding the rewritten packet gives the same
    control again. *)
Theorem decodeControl_idempotent p c p' :
  decodeControl (Some p) = Ok (c, p') →
  ∃ p'', decodeControl (Some p') = Ok (c, p'').
Proof. apply decodeControl_again. Qed.

(** A control of one to three children whose first child does not hold a
    string makes [decodeControl] panic instead of returning an error. *)
Theorem decodeControl_untyped_panics p c0 cs :
  Children p = c0 :: cs → (length cs ≤ 2)%nat →
  (∀ s, Value c0 ≠ VString s) →
  ∃ w, decodeControl (Some p) = Panic w.
Proof.
  intros Hc Hl Hv. unfold decodeControl, decodeControlChildren. rewrite Hc.
  destruct cs as [|c1 [|c2 [|]]]; simpl in Hl; try lia;
    destruct (Value c0); simpl; eauto; by destruct (Hv s).
Qed.
End properties.

(** [NewControlBeheraPasswordPolicy] accepts at most one of grace, expire
    and error code, with an error code of at most 8, and builds a control with
    exactly that; any other combination is [ErrInvalidParameter]. *)
Theorem NewControlBeheraPasswordPolicy_exclusive opt (o := getControlOpts opt) :
  -1 ≤ withGrace o < 2 ^ 63 → -1 ≤ withExpire o < 2 ^ 63 → -1 ≤ withErrorCode o →
  if decide ((behera_options_set o ≤ 1)%nat ∧ withErrorCode o ≤ 8)
  then ∃ c, NewControlBeheraPasswordPolicy opt = Ok c ∧ behera_wf c ∧
            expire c = withExpire o ∧ grace c = withGrace o ∧ error_ c = withErrorCode o
  else ∃ e, NewControlBeheraPasswordPolicy opt = Err e ∧ errors_Is e ErrInvalidParameter = true.
Proof. apply NewControlBehera_cases. Qed.

(** The check of the error code's upper bound is on a signed integer: an
    unsigned code above the signed range is accepted, and the control carries a
    negative error. *)
Theorem NewControlBeheraPasswordPolicy_negative n :
  2 ^ 63 ≤ n < 2 ^ 64 - 1 →
  ∃ c, NewControlBeheraPasswordPolicy [WithErrorCode n] = Ok c ∧
       error_ c = int8 (n - 2 ^ 64).
Proof.
  intros Hn.
  assert (go_int n = n - 2 ^ 64) as Hi.
  { unfold go_int, wrapS. rewrite Z.mod_small by lia. rewrite decide_False; [done|simpl; lia]. }
  unfold NewControlBeheraPasswordPolicy. simpl. rewrite Hi.
  rewrite decide_False by lia. eexists. split; [reflexivity|done].
Qed.

(** ** Witnesses *)

Lemma control_wire_roundtrip_witness :
  ∃ p p', @ber_DecodePacketErr ber_model (@Packet_Bytes ber_model
            (@Encode ber_model (ControlPaging 100 "abc"))) = Ok p ∧
          @decodeControl ber_model (Some p) = Ok (ControlPaging 100 "abc", p').
Proof.
  apply (@control_wire_roundtrip ber_model ber_model_laws (ControlPaging 100 "abc")).
  - vm_compute. split; congruence.
  - vm_compute. congruence.
Defined.

Lemma control_packet_roundtrip_witness :
  ∃ p', @decodeControl ber_model
          (Some (@Encode ber_model (ControlBeheraPasswordPolicy
             (mkBehera (-1) (-1) 1 "Account locked")))) =
        Ok (ControlBeheraPasswordPolicy (mkBehera (-1) (-1) 1 "Account locked"), p').
Proof.
  apply (@control_packet_roundtrip ber_model ber_model_laws
           (ControlBeheraPasswordPolicy (mkBehera (-1) (-1) 1 "Account locked"))).
  apply (behera_error 1). lia.
Defined.

Lemma decodeControl_idempotent_witness :
  ∃ c p' p'', @decodeControl ber_model
      (Some (@reparse ber_model (@Encode ber_model (ControlPaging 5 "x")))) = Ok (c, p') ∧
    @decodeControl ber_model (Some p') = Ok (c, p'').
Proof.
  destruct (@decodeControl ber_model
    (Some (@reparse ber_model (@Encode ber_model (ControlPaging 5 "x")))))
    as [[c p']|e|w] eqn:E; [|vm_compute in E; discriminate E..].
  destruct (@decodeControl_idempotent ber_model ber_model_laws _ _ _ E) as [p'' H].
  exists c, p', p''. split; [reflexivity|exact H].
Defined.

Lemma decodeControl_untyped_panics_witness :
  ∃ w, @decodeControl ber_model
    (Some (mkPacket 0 32 16 VNil "" [mkPacket 0 0 2 (VInt64 7) "" [] ""] "")) = Panic w.
Proof.
  apply (@decodeControl_untyped_panics ber_model
           _ (mkPacket 0 0 2 (VInt64 7) "" [] "") []); [reflexivity|simpl; lia|done].
Defined.

Lemma NewControlBeheraPasswordPolicy_exclusive_witness :
  ∃ c, NewControlBeheraPasswordPolicy [WithErrorCode 3] = Ok c ∧ behera_wf c ∧
       expire c = -1 ∧ grace c = -1 ∧ error_ c = 3.
Proof.
  apply (NewControlBeheraPasswordPolicy_exclusive [WithErrorCode 3]);
    vm_compute; try split; congruence.
Defined.

Lemma NewControlBeheraPasswordPolicy_negative_witness :
  ∃ c, NewControlBeheraPasswordPolicy [WithErrorCode (2 ^ 64 - 2)] = Ok c ∧
       error_ c = int8 (2 ^ 64 - 2 - 2 ^ 64).
Proof. apply (NewControlBeheraPasswordPolicy_negative (2 ^ 64 - 2)). lia. Defined.
