(* ===== verification/Packet.v ===== *)
(** The request packet: [packet.go], the part shared by every request.

    [packet] is the wrapper around a BER packet with its [validated] flag.  The
    methods that change the packet (the flag, or the controls that
    [decodeControl] rewrites) return it.  A Go slice is a list: the code does
    not tell a nil slice from an empty one. *)
From stdpp Require Import base decidable option list strings gmap.
From Stdlib Require Import ZArith Lia.
From S2P Require Import Prelude GoStd Ber BerModel Codes Options Control.

(** [packet.go:15-18] packet *)
Record packet : Type := mkpacket {
  pkt : Packet;
  validated : bool;
}.

(** [message.go:40-51] requestType *)
Inductive requestType : Type :=
| unknownRequestType
| bindRequestType
| searchRequestType
| extendedRequestType
| modifyRequestType
| addRequestType
| deleteRequestType
| unbindRequestType.

#[export] Instance requestType_eq_dec : EqDecision requestType.
Proof. solve_decision. Defined.

(** [fmt.Errorf("%s: text: %w", op, ErrInvalidParameter)] *)
Definition invalid (op text : string) : error := Wrapf op text (ESentinel ErrInvalidParameter).

Section Packet.
Context `{BerOps}.

(** [packet.go:494-527] assert *)
Definition assert (p : Packet) (cl ty : Z) (opt : list Option) : outcome unit :=
  let op := "gldap.assert" in
  let opts := getMessageOpts opt in
  let n := Z.of_nat (length (Children p)) in
  guardErr (match withLenChildren_ opts with
            | Some len => bool_decide (n = len)
            | None => true
            end)
    (Errorf op "not the correct number of children packets, expected %d but got %d");;
  guardErr (match withMinChildren_ opts with
            | Some min => bool_decide (min ≤ n)
            | None => true
            end)
    (Errorf op "not enough children packets, expected %d but got %d");;
  chkPacket ← match withAssertChild_ opts with
              | Some idx =>
                  guardErr (bool_decide (Z.of_nat idx + 1 ≤ n))
                    (Errorf op "missing asserted child %d, but there are only %d");;
                  index (Children p) idx
              | None => Ok p
              end;
  guardErr (bool_decide (ClassType chkPacket = cl))
    (Errorf op "incorrect class, expected %v but got %v");;
  guardErr (bool_decide (TagType chkPacket = ty))
    (Errorf op "incorrect type, expected %v but got %v");;
  guardErr (match withTag_ opts with
            | Some t => bool_decide (Tag chkPacket = t)
            | None => true
            end)
    (Errorf op "incorrect tag, expected %v but got %v").

(** [packet.go:529-553] assertApplicationRequest *)
Definition assertApplicationRequest (p : Packet) : outcome unit :=
  let op := "gldap.(packet).assertApplicationRequest" in
  guardErr (bool_decide (2 ≤ length (Children p))%nat)
    (Errorf op "missing asserted application request child, but there are only %d");;
  chkPacket ← index (Children p) 1;
  guardErr (bool_decide (ClassType chkPacket = ClassApplication))
    (Errorf op "incorrect class, expected %v (ber.ClassApplication) but got %v");;
  if decide (TagType chkPacket = TypePrimitive) then
    guardErr (bool_decide (Tag chkPacket = ApplicationDelRequest ∨
                           Tag chkPacket = ApplicationUnbindRequest))
      (Errorf op "incorrect type, primitive %q must be a delete request %q or an unbind request %q, but got %q")
  else if decide (TagType chkPacket = TypeConstructed) then Ok ()
  else Err (Errorf op "incorrect type, expected ber.TypeConstructed %q but got %v").

(** [packet.go:20-39] basicValidation *)
Definition basicValidation (p : packet) : outcome packet :=
  let op := "gldap.(packet).basicValidation" in
  if validated p then Ok p
  else
    replaceErr op "invalid ldap packet 0" ErrInvalidParameter
      (assert (pkt p) ClassUniversal TypeConstructed
         [withTag TagSequence; withMinChildren 2]);;
    Ok (mkpacket (pkt p) true).

(** [packet.go:41-60] requestMessageID *)
Definition requestMessageID (p : packet) : outcome (Z * packet) :=
  let op := "gldap.(packet).requestMessageID" in
  p ← wrapErr op "" (basicValidation p);
  msgIDPacket ← index (Children (pkt p)) 0;
  wrapErr op "missing/invalid packet"
    (assert msgIDPacket ClassUniversal TypePrimitive [withTag TagInteger]);;
  match Value msgIDPacket with
  | VInt64 id => Ok (id, p)
  | _ => Err (invalid op "expected int64 message ID and got %t")
  end.

(** [packet.go:63-78] controlPacket *)
Definition controlPacket (p : packet) : outcome (option Packet) :=
  let op := "gldap.(packet).controlPacket" in
  if decide (length (Children (pkt p)) ≤ 2)%nat then Ok None
  else
    c ← index (Children (pkt p)) 2;
    replaceErr op "invalid control packet" ErrInvalidParameter
      (assert c ClassContext TypeConstructed []);;
    Ok (Some c).

(** [packet.go:80-113] requestPacket; line 106 asserts the type of the request
    packet's own value, not of the version's *)
Definition requestPacket (p : packet) : outcome (Packet * packet) :=
  let op := "gldap.(packet).requestPacket" in
  p ← wrapErr op "" (basicValidation p);
  wrapErr op "missing request child packet" (assertApplicationRequest (pkt p));;
  request ← index (Children (pkt p)) 1;
  (if decide (Tag request = ApplicationBindRequest) then
     wrapErr op "missing/invalid packet"
       (assert request ClassUniversal TypePrimitive [withTag TagInteger; withAssertChild 0]);;
     versionPacket ← index (Children request) 0;
     match Value versionPacket with
     | VInt64 ldapVersion =>
         if decide (ldapVersion = 3) then Ok ()
         else
           as_int64 (Value request);;
           Err (Errorf op "incorrect ldap version, expected 3 but got %v")
     | _ => Err (invalid op "%v is not the expected int64 type")
     end
   else Ok ());;
  Ok (request, p).

(** [packet.go:115-140] requestType *)
Definition packet_requestType (p : packet) : outcome (requestType * packet) :=
  let op := "gldap.(Packet).requestType" in
  '(request, p) ← wrapErr op "" (requestPacket p);
  let tag := Tag request in
  if decide (tag = ApplicationBindRequest) then Ok (bindRequestType, p)
  else if decide (tag = ApplicationSearchRequest) then Ok (searchRequestType, p)
  else if decide (tag = ApplicationExtendedRequest) then Ok (extendedRequestType, p)
  else if decide (tag = ApplicationModifyRequest) then Ok (modifyRequestType, p)
  else if decide (tag = ApplicationAddRequest) then Ok (addRequestType, p)
  else if decide (tag = ApplicationDelRequest) then Ok (deleteRequestType, p)
  else if decide (tag = ApplicationUnbindRequest) then Ok (unbindRequestType, p)
  else Err (Wrapf op "unhandled request type %d" (ESentinel ErrInternal)).

(** The loop over the children of a control packet: each is decoded, and
    rewritten, by [decodeControl]. *)
Fixpoint decodeControlList (op : string) (cs : list Packet)
    : outcome (list Control * list Packet) :=
  match cs with
  | [] => Ok ([], [])
  | c :: cs =>
      '(ctrl, c) ← wrapErr op "" (decodeControl (Some c));
      '(controls, cs) ← decodeControlList op cs;
      Ok (ctrl :: controls, c :: cs)
  end.

(** [packet.go:290-303] The end of each request's parameters (also lines 223-236,
    351-364, 476-489 and 612-626): the optional controls. *)
Definition requestControls (op : string) (p : packet) : outcome (list Control * packet) :=
  c ← wrapErr op "" (controlPacket p);
  match c with
  | None => Ok ([], p)
  | Some c =>
      '(controls, cs) ← decodeControlList op (Children c);
      Ok (controls,
          mkpacket (alter_child 2 (set_Children cs) (pkt p)) (validated p))
  end.
End Packet.

(** ** The invariant of a packet and the effect of the methods on it *)

Section packet_lemmas.
Context `{BerOps}.

(** What [assert] checks of the packet or child it looks at. *)
Definition has_header (c : Packet) (cl ty t : Z) : Prop :=
  ClassType c = cl ∧ TagType c = ty ∧ Tag c = t.

Lemma assert_no_panic p cl ty opt : no_panic (assert p cl ty opt).
Proof.
  unfold assert. do 2 (apply no_panic_bind; [auto with gldap|intros _ _]).
  apply no_panic_bind.
  - destruct (withAssertChild_ _) as [idx|]; [|done].
    apply no_panic_bind; [auto with gldap|]. intros _ Hg%guardErr_Ok_inv%bool_decide_eq_true.
    apply no_panic_index. lia.
  - intros c _. do 2 (apply no_panic_bind; [auto with gldap|intros _ _]). auto with gldap.
Qed.

Lemma assert_self_iff p cl ty t u :
  assert p cl ty [withTag t] = Ok u ↔ has_header p cl ty t.
Proof.
  unfold assert, has_header. simpl. destruct u. split.
  - intros ?. inv_ok. by rewrite !bool_decide_eq_true in *.
  - intros (? & ? & ?). rewrite !bool_decide_eq_true_2 by done. done.
Qed.

Lemma assert_child_iff p cl ty t i u :
  assert p cl ty [withTag t; withAssertChild i] = Ok u ↔
  ∃ c, Children p !! i = Some c ∧ has_header c cl ty t.
Proof.
  unfold assert, has_header. simpl. destruct u. split.
  - intros ?. inv_ok. rewrite !bool_decide_eq_true in *. eauto.
  - intros (c & Hc & ? & ? & ?). pose proof (lookup_lt_Some _ _ _ Hc).
    rewrite bool_decide_eq_true_2 by lia. simpl. rewrite (index_Some _ _ _ Hc). simpl.
    rewrite !bool_decide_eq_true_2 by done. done.
Qed.

Lemma assert_min_iff p cl ty t m u :
  assert p cl ty [withTag t; withMinChildren m] = Ok u ↔
  m ≤ Z.of_nat (length (Children p)) ∧ has_header p cl ty t.
Proof.
  unfold assert, has_header. simpl. destruct u. split.
  - intros ?. inv_ok. by rewrite !bool_decide_eq_true in *.
  - intros (? & ? & ? & ?). rewrite !bool_decide_eq_true_2 by done. done.
Qed.

Lemma assert_bare_iff p cl ty u :
  assert p cl ty [] = Ok u ↔ ClassType p = cl ∧ TagType p = ty.
Proof.
  unfold assert. simpl. destruct u. split.
  - intros ?. inv_ok. by rewrite !bool_decide_eq_true in *.
  - intros (? & ?). rewrite !bool_decide_eq_true_2 by done. done.
Qed.

Lemma assert_cases p cl ty opt :
  assert p cl ty opt = Ok () ∨ ∃ e, assert p cl ty opt = Err e.
Proof.
  pose proof (assert_no_panic p cl ty opt) as Hnp.
  destruct (assert p cl ty opt) as [[]|e|w]; [by left|by right; eauto|by destruct (Hnp w)].
Qed.

(** The envelope of an LDAP message: a sequence with at least a message id and
    a request. *)
Definition is_envelope (p : Packet) : Prop :=
  2 ≤ Z.of_nat (length (Children p)) ∧
  has_header p ClassUniversal TypeConstructed TagSequence.

#[export] Instance is_envelope_dec p : Decision (is_envelope p).
Proof. unfold is_envelope, has_header. apply _. Defined.

(** The flag is a cache of the envelope check. *)
Definition packet_wf (p : packet) : Prop := validated p = true → is_envelope (pkt p).

Lemma basicValidation_Ok_inv p q :
  packet_wf p → basicValidation p = Ok q → q = mkpacket (pkt p) true ∧ is_envelope (pkt p).
Proof.
  intros Hwf. unfold basicValidation. destruct (validated p) eqn:E; intros ?; inv_ok.
  - split; [|by apply Hwf]. by destruct q; simpl in *; subst.
  - split; [done|]. by eapply assert_min_iff.
Qed.

Lemma basicValidation_envelope p :
  is_envelope (pkt p) → basicValidation p = Ok (mkpacket (pkt p) true).
Proof.
  intros He. unfold basicValidation. destruct p as [p []]; [done|]; simpl in *.
  assert (assert p ClassUniversal TypeConstructed
            [withTag TagSequence; withMinChildren 2] = Ok ()) as ->; [|done].
  by apply assert_min_iff.
Qed.

Lemma basicValidation_no_panic p : no_panic (basicValidation p).
Proof.
  unfold basicValidation. destruct (validated p); [done|].
  apply no_panic_bind; [|done]. apply no_panic_replaceErr, assert_no_panic.
Qed.

Lemma requestMessageID_Ok_inv p id q :
  packet_wf p → requestMessageID p = Ok (id, q) →
  q = mkpacket (pkt p) true ∧ is_envelope (pkt p) ∧
  ∃ c, Children (pkt p) !! 0%nat = Some c ∧ Value c = VInt64 id.
Proof.
  intros Hwf Hm. unfold requestMessageID in Hm. inv_ok.
  destruct (basicValidation_Ok_inv p x Hwf) as [-> ?]; [done|]. simpl in *.
  destruct (Value x0) eqn:E; simplify_eq. eauto 6.
Qed.

Lemma requestMessageID_no_panic p : packet_wf p → no_panic (requestMessageID p).
Proof.
  intros Hwf. unfold requestMessageID.
  apply no_panic_bind; [apply no_panic_wrapErr, basicValidation_no_panic|].
  intros q Hq%wrapErr_Ok_inv%basicValidation_Ok_inv; [|done].
  destruct Hq as [-> [Hl _]]. simpl.
  apply no_panic_bind; [apply no_panic_index; lia|]. intros c _.
  apply no_panic_bind; [apply no_panic_wrapErr, assert_no_panic|]. intros _ _.
  by destruct (Value c).
Qed.
End packet_lemmas.

Section request_lemmas.
Context `{BerOps}.

(** The header of a request: constructed, or primitive for a delete or an
    unbind. *)
Definition app_request (r : Packet) : Prop :=
  ClassType r = ClassApplication ∧
  (TagType r = TypePrimitive ∧
     (Tag r = ApplicationDelRequest ∨ Tag r = ApplicationUnbindRequest) ∨
   TagType r ≠ TypePrimitive ∧ TagType r = TypeConstructed).

Lemma assertApplicationRequest_iff p u :
  assertApplicationRequest p = Ok u ↔
  ∃ r, Children p !! 1%nat = Some r ∧ app_request r.
Proof.
  unfold assertApplicationRequest, app_request. destruct u. split.
  - intros ?. inv_ok. rewrite !bool_decide_eq_true in *. eexists. split; [done|].
    split; [done|]. repeat case_decide; inv_ok; rewrite ?bool_decide_eq_true in *; tauto.
  - intros (r & Hr & Hc & Ht). pose proof (lookup_lt_Some _ _ _ Hr).
    rewrite bool_decide_eq_true_2 by lia. simpl. rewrite (index_Some _ _ _ Hr). simpl.
    rewrite (bool_decide_eq_true_2 (ClassType r = _)) by done. simpl.
    repeat case_decide; try tauto. by rewrite bool_decide_eq_true_2 by tauto.
Qed.

Lemma assertApplicationRequest_no_panic p : no_panic (assertApplicationRequest p).
Proof.
  unfold assertApplicationRequest.
  apply no_panic_bind; [auto with gldap|]. intros _ Hl%guardErr_Ok_inv%bool_decide_eq_true.
  apply no_panic_bind; [apply no_panic_index; lia|]. intros r _.
  apply no_panic_bind; [auto with gldap|]. intros _ _.
  repeat case_decide; auto with gldap.
Qed.

(** The version a bind request announces, when it holds one. *)
Definition bind_version (r : Packet) (z : Z) : Prop :=
  ∃ v, Children r !! 0%nat = Some v ∧
       has_header v ClassUniversal TypePrimitive TagInteger ∧ Value v = VInt64 z.

Lemma requestPacket_Ok_iff p r q :
  packet_wf p →
  requestPacket p = Ok (r, q) ↔
  q = mkpacket (pkt p) true ∧ is_envelope (pkt p) ∧
  Children (pkt p) !! 1%nat = Some r ∧ app_request r ∧
  (Tag r = ApplicationBindRequest → bind_version r 3).
Proof.
  intros Hwf. unfold requestPacket. split.
  - intros Hr. apply bind_Ok_inv in Hr as (p' & Hp & Hr).
    apply wrapErr_Ok_inv, (basicValidation_Ok_inv p p' Hwf) in Hp as [-> He].
    inv_ok. simplify_eq/=.
    match goal with H : assertApplicationRequest _ = Ok _ |- _ =>
      apply assertApplicationRequest_iff in H as (r' & Hr' & Hreq) end.
    simplify_eq. do 4 (split; [done|]).
    intros Ht. rewrite decide_True in * by done. inv_ok.
    match goal with H : assert _ _ _ _ = Ok _ |- _ =>
      apply assert_child_iff in H as (v & ? & ?) end.
    simplify_eq. destruct (Value v) eqn:Ev; try done.
    case_decide; subst; [by exists v|]. 
    match goal with H : context [as_int64 (Value ?x)] |- _ => by destruct (Value x) end.
  - intros (-> & He & Hr & Hreq & Hv).
    rewrite (basicValidation_envelope p He). simpl.
    assert (assertApplicationRequest (pkt p) = Ok ()) as ->
      by (apply assertApplicationRequest_iff; eauto).
    simpl. rewrite (index_Some _ _ _ Hr). simpl. case_decide; [|done].
    destruct Hv as (v & Hv & Hh & Hz); [done|].
    assert (assert r ClassUniversal TypePrimitive
              [withTag TagInteger; withAssertChild 0] = Ok ()) as ->
      by (apply assert_child_iff; eauto).
    simpl. rewrite (index_Some _ _ _ Hv). simpl. by rewrite Hz.
Qed.

(** [requestPacket] panics exactly on a bind request of another version whose
    own packet holds no [int64]. *)
Lemma requestPacket_Panic_iff p :
  packet_wf p →
  (∃ w, requestPacket p = Panic w) ↔
  is_envelope (pkt p) ∧ ∃ r z, Children (pkt p) !! 1%nat = Some r ∧ app_request r ∧
    Tag r = ApplicationBindRequest ∧ bind_version r z ∧ z ≠ 3 ∧
    ∀ y, Value r ≠ VInt64 y.
Proof.
  intros Hwf. unfold requestPacket. split.
  - intros [w [Hp|(p' & Hp & Hr)]%bind_Panic_inv].
    { by apply wrapErr_Panic_inv, basicValidation_no_panic in Hp. }
    apply wrapErr_Ok_inv, (basicValidation_Ok_inv p p' Hwf) in Hp as [-> He].
    split; [done|]. simpl in Hr.
    destruct (assertApplicationRequest (pkt p)) as [u|e|w'] eqn:Ea; [|done|].
    2:{ by apply assertApplicationRequest_no_panic in Ea. }
    apply assertApplicationRequest_iff in Ea as (r & Hc & Hreq).
    simpl in Hr. rewrite (index_Some _ _ _ Hc) in Hr. simpl in Hr.
    case_decide as Ht; [|done].
    destruct (assert_cases r ClassUniversal TypePrimitive
                [withTag TagInteger; withAssertChild 0]) as [Ha|[e Ha]];
      rewrite Ha in Hr; [|done].
    apply assert_child_iff in Ha as (v & Hv & Hh).
    simpl in Hr. rewrite (index_Some _ _ _ Hv) in Hr. simpl in Hr.
    destruct (Value v) as [| | | |z| | |] eqn:Ev; try done. case_decide; [done|].
    exists r, z. do 3 (split; [done|]). split; [by exists v|]. split; [done|].
    intros y Hy. by rewrite Hy in Hr.
  - intros (He & r & z & Hr & Hreq & Ht & (v & Hv & Hh & Hz) & Hz3 & Hy).
    rewrite (basicValidation_envelope p He). simpl.
    assert (assertApplicationRequest (pkt p) = Ok ()) as ->
      by (apply assertApplicationRequest_iff; eauto).
    simpl. rewrite (index_Some _ _ _ Hr). simpl. rewrite decide_True by done.
    assert (assert r ClassUniversal TypePrimitive
              [withTag TagInteger; withAssertChild 0] = Ok ()) as ->
      by (apply assert_child_iff; eauto).
    simpl. rewrite (index_Some _ _ _ Hv). simpl. rewrite Hz, decide_False by done.
    destruct (Value r) eqn:Er; simpl; eauto. by destruct (Hy z0).
Qed.

(** The request type that goes with an application tag. *)
Definition tag_requestType (t : Z) : option requestType :=
  if decide (t = ApplicationBindRequest) then Some bindRequestType
  else if decide (t = ApplicationSearchRequest) then Some searchRequestType
  else if decide (t = ApplicationExtendedRequest) then Some extendedRequestType
  else if decide (t = ApplicationModifyRequest) then Some modifyRequestType
  else if decide (t = ApplicationAddRequest) then Some addRequestType
  else if decide (t = ApplicationDelRequest) then Some deleteRequestType
  else if decide (t = ApplicationUnbindRequest) then Some unbindRequestType
  else None.

Lemma packet_requestType_eq p r q :
  requestPacket p = Ok (r, q) →
  packet_requestType p =
    match tag_requestType (Tag r) with
    | Some t => Ok (t, q)
    | None => Err (Wrapf "gldap.(Packet).requestType" "unhandled request type %d"
                     (ESentinel ErrInternal))
    end.
Proof.
  intros Hr. unfold packet_requestType, tag_requestType. rewrite Hr. simpl.
  repeat (case_decide; [done|]). done.
Qed.
End request_lemmas.

#[global] Arguments decodeControl {_} _ : simpl never.

Section control_lemmas.
Context `{BerOps}.

Lemma decodeControlList_no_panic op cs :
  (∀ c, c ∈ cs → no_panic (decodeControl (Some c))) → no_panic (decodeControlList op cs).
Proof.
  induction cs as [|c cs IH]; intros Hcs; simpl; [done|].
  apply no_panic_bind.
  { apply no_panic_wrapErr, Hcs. constructor. }
  intros [ctrl c'] _. apply no_panic_bind; [|by intros []].
  apply IH. intros c0 Hc0. apply Hcs. by constructor.
Qed.

Lemma decodeControlList_Ok op cs controls :
  Forall2 (λ c ctrl, ∃ c', decodeControl (Some c) = Ok (ctrl, c')) cs controls →
  ∃ cs', decodeControlList op cs = Ok (controls, cs').
Proof.
  induction 1 as [|c ctrl cs controls [c' Hc] _ [cs' IH]]; simpl; [by eauto|].
  rewrite Hc. simpl. rewrite IH. simpl. eauto.
Qed.

Lemma controlPacket_no_panic p : no_panic (controlPacket p).
Proof.
  unfold controlPacket. case_decide; [done|].
  apply no_panic_bind; [apply no_panic_index; lia|]. intros c _.
  apply no_panic_bind; [|done]. apply no_panic_replaceErr, assert_no_panic.
Qed.

(** The controls of a packet, if its third child is a control packet. *)
Definition control_children (p : Packet) : list Packet :=
  match Children p !! 2%nat with
  | Some c => Children c
  | None => []
  end.

Lemma requestControls_no_panic op p :
  (∀ c, c ∈ control_children (pkt p) → no_panic (decodeControl (Some c))) →
  no_panic (requestControls op p).
Proof.
  unfold control_children. intros Hcs. unfold requestControls.
  apply no_panic_bind; [apply no_panic_wrapErr, controlPacket_no_panic|].
  intros [c|] Hc; [|done]. apply wrapErr_Ok_inv in Hc.
  unfold controlPacket in Hc. case_decide; [done|]. inv_ok.
  match goal with H : Children _ !! 2%nat = Some _ |- _ => rewrite H in Hcs end.
  simplify_eq. apply no_panic_bind; [by apply decodeControlList_no_panic|]. by intros [].
Qed.

Lemma requestControls_none op p :
  (length (Children (pkt p)) ≤ 2)%nat → requestControls op p = Ok ([], p).
Proof.
  intros Hl. unfold requestControls, controlPacket. by rewrite decide_True by done.
Qed.

Lemma requestControls_some op p c controls :
  Children (pkt p) !! 2%nat = Some c →
  ClassType c = ClassContext → TagType c = TypeConstructed →
  Forall2 (λ c ctrl, ∃ c', decodeControl (Some c) = Ok (ctrl, c')) (Children c) controls →
  ∃ q, requestControls op p = Ok (controls, q).
Proof.
  intros Hc Hcl Hty Hcs. unfold requestControls, controlPacket.
  pose proof (lookup_lt_Some _ _ _ Hc). rewrite decide_False by lia.
  rewrite (index_Some _ _ _ Hc). simpl.
  assert (assert c ClassContext TypeConstructed [] = Ok ()) as -> by by apply assert_bare_iff.
  simpl. destruct (decodeControlList_Ok op _ _ Hcs) as [cs' ->]. simpl. eauto.
Qed.
End control_lemmas.
