(* ===== verification/Display.v ===== *)
(** What the library prints: [String] of the controls ([control.go]) and [Log]
    of a packet ([packet.go]), with Go's [%q] and [%v] verbs.

    [Quote] is [strconv.Quote] on the bytes of a string.  Which runes beyond
    ASCII are printable, and the names, tags and the byte dump of the BER
    library, are parameters. *)
From Stdlib Require Import Ascii.
From stdpp Require Import base decidable option list strings gmap.
From Stdlib Require Import ZArith Lia.
From S2P Require Import Prelude GoStd Ber BerModel Codes Options Control Packet.

(** ** [strconv.Quote] *)

(** [unicode.IsPrint] beyond ASCII. *)
Class Printable : Type := { IsPrint_wide : Z → bool }.

Module Quoting.

(** [utf8.DecodeRuneInString] on bytes that do not start with ASCII: the rune and its width;
    [None] for an invalid encoding, which has width 1. *)
Definition cont (b : Z) : bool := (128 <=? b) && (b <=? 191).
Definition decodeRune (l : list Z) : option (Z * nat) :=
  match l with
  | b0 :: b1 :: l =>
      if (194 <=? b0) && (b0 <=? 223) then
        if cont b1 then Some ((b0 - 192) * 64 + (b1 - 128), 2%nat) else None
      else if (224 <=? b0) && (b0 <=? 239) then
        match l with
        | b2 :: _ =>
            let lo := if b0 =? 224 then 160 else 128 in
            let hi := if b0 =? 237 then 159 else 191 in
            if (lo <=? b1) && (b1 <=? hi) && cont b2
            then Some ((b0 - 224) * 4096 + (b1 - 128) * 64 + (b2 - 128), 3%nat) else None
        | [] => None
        end
      else if (240 <=? b0) && (b0 <=? 244) then
        match l with
        | b2 :: b3 :: _ =>
            let lo := if b0 =? 240 then 144 else 128 in
            let hi := if b0 =? 244 then 143 else 191 in
            if (lo <=? b1) && (b1 <=? hi) && cont b2 && cont b3
            then Some ((b0 - 240) * 262144 + (b1 - 128) * 4096 + (b2 - 128) * 64 + (b3 - 128), 4%nat)
            else None
        | _ => None
        end
      else None
  | _ => None
  end.

(** Lower-case hexadecimal digits, [n] of them. *)
Definition hexDigit (d : Z) : Z := if d <? 10 then 48 + d else 87 + d.
Fixpoint hex (n : nat) (z : Z) : list Z :=
  match n with
  | O => []
  | S n => hex n (z / 16) ++ [hexDigit (z mod 16)]
  end.

(** The escape of a rune that is not printable, after the backslash. *)
Definition escape (r : Z) : list Z :=
  if r =? 7 then [97] else if r =? 8 then [98] else if r =? 12 then [102]
  else if r =? 10 then [110] else if r =? 13 then [114] else if r =? 9 then [116]
  else if r =? 11 then [118]
  else if (r <? 32) || (r =? 127) then 120 :: hex 2 r
  else if r <? 65536 then 117 :: hex 4 r
  else 85 :: hex 8 r.

Section quote.
Context `{Printable}.

Fixpoint quoteLoop (fuel : nat) (l : list Z) : list Z :=
  match fuel, l with
  | S fuel, b :: rest =>
      if b <? 128 then
        (if (b =? 34) || (b =? 92) then [92; b]
         else if (32 <=? b) && (b <? 127) then [b]
         else 92 :: escape b) ++ quoteLoop fuel rest
      else
        match decodeRune l with
        | Some (r, width) =>
            (if IsPrint_wide r then take width l else 92 :: escape r) ++
            quoteLoop fuel (drop width l)
        | None => [92; 120] ++ hex 2 b ++ quoteLoop fuel rest
        end
  | _, _ => []
  end.

Definition Quote (s : string) : string :=
  of_bytes ([34] ++ quoteLoop (length (bytes s)) (bytes s) ++ [34]).

(** What the escapes are made of. *)
Definition graphic (b : Z) : Prop := 32 <= b ∧ b ≠ 127.

Lemma hex_graphic n z : 0 <= z → Forall graphic (hex n z).
Proof.
  revert z. induction n as [|n IH]; intros z Hz; simpl; [constructor|].
  apply Forall_app. split; [apply IH, Z.div_pos; lia|]. repeat constructor; unfold hexDigit.
  all: pose proof (Z.mod_pos_bound z 16 ltac:(lia)); destruct (z mod 16 <? 10) eqn:E; lia.
Qed.

Lemma escape_graphic r : 0 <= r → Forall graphic (escape r).
Proof.
  intros Hr. unfold escape, graphic.
  repeat match goal with |- context[if ?b then _ else _] => destruct b end.
  all: constructor; [lia|]; first [by apply hex_graphic|constructor].
Qed.

Lemma decodeRune_spec l r w :
  Forall (λ b, 0 <= b < 256) l → decodeRune l = Some (r, w) →
  0 <= r ∧ (1 <= w)%nat ∧ Forall (λ b, 128 <= b) (take w l).
Proof.
  intros Hl. unfold decodeRune, cont. repeat case_match; try done; intros [= <- <-].
  all: rewrite !andb_true_iff, !Z.leb_le in *; destruct_and?.
  all: rewrite ?andb_true_iff, ?Z.leb_le, ?Z.eqb_eq, ?Z.eqb_neq in *; destruct_and?.
  all: split_and!; [lia|lia|]; simpl; repeat constructor; lia.
Qed.

(** Nothing in a quoted string is a control character: a line of a log stays one line. *)
Lemma quoteLoop_graphic fuel l : Forall (λ b, 0 <= b < 256) l → Forall graphic (quoteLoop fuel l).
Proof.
  revert l. induction fuel as [|fuel IH]; intros l Hl; cbn [quoteLoop]; [constructor|].
  destruct l as [|b l]; [constructor|]. pose proof Hl as [Hb Hl']%Forall_cons.
  destruct (b <? 128) eqn:E1.
  - apply Forall_app. split; [|by apply IH]. unfold graphic.
    destruct ((b =? 34) || (b =? 92)) eqn:E2; [repeat constructor; lia|].
    destruct ((32 <=? b) && (b <? 127)) eqn:E3; [repeat constructor; lia|].
    constructor; [lia|]. apply escape_graphic. lia.
  - destruct (decodeRune (b :: l)) as [[r w]|] eqn:Ed.
    + destruct (decodeRune_spec _ _ _ Hl Ed) as (? & ? & Ht). apply Forall_app. split; [|by apply IH, Forall_drop].
      case_match; [eapply Forall_impl; [exact Ht|]; unfold graphic; simpl; lia|].
      constructor; [unfold graphic; lia|by apply escape_graphic].
    + apply Forall_app. split; [repeat constructor; lia|].
      apply Forall_app. split; [apply hex_graphic; lia|by apply IH].
Qed.
End quote.
End Quoting.
Import Quoting.

(** ** Controls *)

(** The verbs [%t] and [%d]. *)
Definition fmtBool (b : bool) : string := if b then "true" else "false".
Definition fmtInt (z : Z) : string := Strconv.FormatInt z.

Section controls.
Context `{Printable}.

(** ["Control Type: %s (%q)"], with which every description starts *)
Definition controlHead (ct : string) : string :=
  "Control Type: " +:+ map_get ControlTypeMap ct +:+ " (" +:+ Quote ct +:+ ")".

(** [control.go:280-283] ControlString.String *)
Definition ControlString_String (ct : string) (crit : bool) (v : string) : string :=
  controlHead ct +:+ "  Criticality: " +:+ fmtBool crit +:+ "  Control Value: " +:+ v.
(** [control.go:322-329] ControlManageDsaIT.String *)
Definition ControlManageDsaIT_String (crit : bool) : string :=
  controlHead ControlTypeManageDsaIT +:+ "  Criticality: " +:+ fmtBool crit.
(** [control.go:354-360] ControlMicrosoftNotification.String *)
Definition ControlMicrosoftNotification_String : string :=
  controlHead ControlTypeMicrosoftNotification.
(** [control.go:384-390] ControlMicrosoftServerLinkTTL.String *)
Definition ControlMicrosoftServerLinkTTL_String : string :=
  controlHead ControlTypeMicrosoftServerLinkTTL.
(** [control.go:414-420] ControlMicrosoftShowDeleted.String *)
Definition ControlMicrosoftShowDeleted_String : string :=
  controlHead ControlTypeMicrosoftShowDeleted.
(** [control.go:512-523] ControlBeheraPasswordPolicy.String *)
Definition ControlBeheraPasswordPolicy_String (c : beheraPasswordPolicy) : string :=
  controlHead ControlTypeBeheraPasswordPolicy +:+ "  Criticality: " +:+ fmtBool false +:+
  "  Expire: " +:+ fmtInt (expire c) +:+ "  Grace: " +:+ fmtInt (grace c) +:+
  "  Error: " +:+ fmtInt (error_ c) +:+ ", ErrorString: " +:+ errorString c.
(** [control.go:571-579] ControlVChuPasswordMustChange.String *)
Definition ControlVChuPasswordMustChange_String (mustChange : bool) : string :=
  controlHead ControlTypeVChuPasswordMustChange +:+ "  Criticality: " +:+ fmtBool false +:+
  "  MustChange: " +:+ fmtBool mustChange.
(** [control.go:602-610] ControlVChuPasswordWarning.String *)
Definition ControlVChuPasswordWarning_String (exp : Z) : string :=
  controlHead ControlTypeVChuPasswordWarning +:+ "  Criticality: " +:+ fmtBool false +:+
  "  Expire: " +:+ fmtInt exp.
(** [control.go:643-652] ControlPaging.String *)
Definition ControlPaging_String (size : Z) (cookie : string) : string :=
  controlHead ControlTypePaging +:+ "  Criticality: " +:+ fmtBool false +:+
  "  PagingSize: " +:+ fmtInt size +:+ "  Cookie: " +:+ Quote cookie.

(** [control.go:77-79] String, of the Control interface *)
Definition Control_String (c : Control) : string :=
  match c with
  | ControlString ct crit v => ControlString_String ct crit v
  | ControlManageDsaIT crit => ControlManageDsaIT_String crit
  | ControlMicrosoftNotification => ControlMicrosoftNotification_String
  | ControlMicrosoftServerLinkTTL => ControlMicrosoftServerLinkTTL_String
  | ControlMicrosoftShowDeleted => ControlMicrosoftShowDeleted_String
  | ControlBeheraPasswordPolicy c => ControlBeheraPasswordPolicy_String c
  | ControlVChuPasswordMustChange b => ControlVChuPasswordMustChange_String b
  | ControlVChuPasswordWarning e => ControlVChuPasswordWarning_String e
  | ControlPaging size cookie => ControlPaging_String size cookie
  end.
End controls.

(** ** Packets *)

(** What [Log] uses of the BER library. *)
Class BerLog : Type := {
  ClassMap : Z → string;
  TypeMap : Z → string;
  PrintBytes : string → string → string;
  sprintOther : string;
  TagEOC : Z; TagBitString : Z; TagNULL : Z; TagObjectIdentifier : Z; TagObjectDescriptor : Z;
  TagExternal : Z; TagRealFloat : Z; TagEmbeddedPDV : Z; TagUTF8String : Z; TagRelativeOID : Z;
  TagNumericString : Z; TagPrintableString : Z; TagT61String : Z; TagVideotexString : Z;
  TagIA5String : Z; TagUTCTime : Z; TagGeneralizedTime : Z; TagGraphicString : Z;
  TagVisibleString : Z; TagUniversalString : Z; TagCharacterString : Z; TagBMPString : Z;
}.

Section log.
Context `{BerOps} `{BerLog} `{Printable}.

(** [packet.go:630-660] tagMap *)
Definition tagMap : list (Z * string) :=
  [(TagEOC, "EOC (End-of-Content)"); (TagBoolean, "Boolean"); (TagInteger, "Integer");
   (TagBitString, "Bit String"); (TagOctetString, "Octet String"); (TagNULL, "NULL");
   (TagObjectIdentifier, "Object Identifier"); (TagObjectDescriptor, "Object Descriptor");
   (TagExternal, "External"); (TagRealFloat, "Real (float)"); (TagEnumerated, "Enumerated");
   (TagEmbeddedPDV, "Embedded PDV"); (TagUTF8String, "UTF8 String");
   (TagRelativeOID, "Relative-OID"); (TagSequence, "Sequence and Sequence of");
   (TagSet, "Set and Set OF"); (TagNumericString, "Numeric String");
   (TagPrintableString, "Printable String"); (TagT61String, "T61 String");
   (TagVideotexString, "Videotex String"); (TagIA5String, "IA5 String");
   (TagUTCTime, "UTC Time"); (TagGeneralizedTime, "Generalized Time");
   (TagGraphicString, "Graphic String"); (TagVisibleString, "Visible String");
   (TagGeneralString, "General String"); (TagUniversalString, "Universal String");
   (TagCharacterString, "Character String"); (TagBMPString, "BMP String")].

(** [m[k]] of a Go map with these entries *)
Definition assoc (m : list (Z * string)) (k : Z) : string :=
  match list_find (λ x, x.1 = k) m with
  | Some (_, x) => x.2
  | None => ""
  end.

(** [fmt.Sprint(v)] *)
Definition sprint (v : goval) : string :=
  match v with
  | VNil => "<nil>"
  | VString s => s
  | VBytes s => "[" +:+ String.concat " " (fmtInt <$> bytes s) +:+ "]"
  | VBool b => fmtBool b
  | VInt64 z | VInt16 z | VInt8 z => fmtInt z
  | VOther => sprintOther
  end.

(** [fmt.Sprintf("0x%02X", tag)] of a tag that is not negative *)
Definition hexUpper (d : Z) : Z := if d <? 10 then 48 + d else 55 + d.
Fixpoint hexDigits (fuel : nat) (z : Z) : list Z :=
  match fuel with
  | O => []
  | S fuel => (if z <? 16 then [] else hexDigits fuel (z / 16)) ++ [hexUpper (z mod 16)]
  end.
Definition hexTag (tag : Z) : string :=
  let digits := hexDigits 16 tag in
  "0x" +:+ of_bytes (if decide (length digits < 2)%nat then 48 :: digits else digits).

(** [packet.go:567-569] The loop that makes the indentation; [None] when the fuel is used up *)
Fixpoint indentLoop (fuel : nat) (indentStr : string) (indent : Z) : option string :=
  match fuel with
  | O => None
  | S fuel =>
      if decide (Z.of_nat (String.length indentStr) = indent) then Some indentStr
      else indentLoop fuel (indentStr +:+ " ") indent
  end.

(** [packet.go:571-592] What is written for one packet *)
Definition logLine (indentStr : string) (p : Packet) (printBytes : bool) : string :=
  let tagStr := if decide (ClassType p = ClassUniversal) then assoc tagMap (Tag p)
                else hexTag (Tag p) in
  let value := sprint (Value p) in
  let description := if decide (Description p = "") then "" else Description p +:+ ": " in
  indentStr +:+ description +:+ "(" +:+ ClassMap (ClassType p) +:+ ", " +:+ TypeMap (TagType p) +:+
  ", " +:+ tagStr +:+ ") Len=" +:+ fmtInt (Z.of_nat (String.length (Data p))) +:+ " " +:+
  Quote value +:+ of_bytes [10] +:+
  (if printBytes then PrintBytes (Packet_Bytes p) indentStr else "").

(** [packet.go:564-599] Log: what it writes *)
Fixpoint Log (fuel : nat) (p : Packet) (indent : Z) (printBytes : bool) : option string :=
  match p with
  | mkPacket cl ty tag v d cs ds =>
      indentStr ← indentLoop fuel "" indent;
      children ←
        (fix go (cs : list Packet) : option string :=
           match cs with
           | [] => Some ""
           | c :: cs =>
               s ← Log fuel c (go_int (indent + 1)) printBytes;
               rest ← go cs;
               Some (s +:+ rest)
           end) cs;
      Some (logLine indentStr (mkPacket cl ty tag v d cs ds) printBytes +:+ children)
  end.

(** [packet.go:555-561] debug: what it writes to the logger it makes *)
Definition debug (fuel : nat) (p : packet) : option string := Log fuel (pkt p) 0 false.
End log.

(** The description of a control names the control type it has. *)
Lemma Control_String_type `{Printable} c :
  GoStrings.HasPrefix (Control_String c) (controlHead (GetControlType c)) = true.
Proof.
  apply GoStrings.HasPrefix_spec. destruct c; simpl.
  3-5: exists ""; by rewrite app_nil_r_str.
  all: eexists; reflexivity.
Qed.

(** ** Log *)

(** The packets of a tree in the order they are printed, each with its indentation. *)
Fixpoint preorder (p : Packet) (indent : Z) : list (Z * Packet) :=
  match p with
  | mkPacket cl ty tag v d cs ds =>
      (indent, mkPacket cl ty tag v d cs ds) ::
      (fix go (cs : list Packet) : list (Z * Packet) :=
         match cs with
         | [] => []
         | c :: cs => preorder c (indent + 1) ++ go cs
         end) cs
  end.

(** How deep a packet is nested. *)
Fixpoint nesting (p : Packet) : nat :=
  match p with
  | mkPacket cl ty tag v d cs ds =>
      S ((fix go (cs : list Packet) : nat :=
            match cs with
            | [] => 0%nat
            | c :: cs => Nat.max (nesting c) (go cs)
            end) cs)
  end.

Lemma nesting_pos p : (0 < nesting p)%nat.
Proof. destruct p. simpl. lia. Qed.

Fixpoint spaces (n : nat) : string :=
  match n with
  | O => ""
  | S n => spaces n +:+ " "
  end.

Lemma length_spaces n : String.length (spaces n) = n.
Proof. induction n as [|n IH]; [done|]. simpl. rewrite length_app_str, IH. simpl. lia. Qed.

Lemma indentLoop_from fuel k n :
  (k ≤ n)%nat → (n - k < fuel)%nat → indentLoop fuel (spaces k) (Z.of_nat n) = Some (spaces n).
Proof.
  revert k. induction fuel as [|fuel IH]; intros k Hk Hf; [lia|]. simpl. rewrite length_spaces.
  case_decide as Hd; [by replace k with n by lia|].
  change (spaces k +:+ " ") with (spaces (S k)). apply IH; lia.
Qed.

(** A negative indentation is never reached. *)
Lemma indentLoop_negative fuel s n : n < 0 → indentLoop fuel s n = None.
Proof.
  intros Hn. revert s. induction fuel as [|fuel IH]; intros s; simpl; [done|].
  rewrite decide_False by lia. apply IH.
Qed.

Section log_spec.
Context `{BerOps} `{BerLog} `{Printable}.

(** What [Log] is to write. *)
Definition log_text (p : Packet) (indent : Z) (printBytes : bool) : string :=
  foldr (λ x s, logLine (spaces (Z.to_nat x.1)) x.2 printBytes +:+ s) "" (preorder p indent).

Lemma log_text_app (l1 l2 : list (Z * Packet)) b :
  foldr (λ x s, logLine (spaces (Z.to_nat x.1)) x.2 b +:+ s) "" (l1 ++ l2) =
  foldr (λ x s, logLine (spaces (Z.to_nat x.1)) x.2 b +:+ s) "" l1 +:+
  foldr (λ x s, logLine (spaces (Z.to_nat x.1)) x.2 b +:+ s) "" l2.
Proof.
  induction l1 as [|x l1 IH]; [done|]. simpl. by rewrite IH, app_assoc_str.
Qed.

Lemma Log_run p : ∀ fuel indent b,
  0 <= indent → indent + Z.of_nat (nesting p) <= 2 ^ 63 → indent + Z.of_nat (nesting p) <= Z.of_nat fuel →
  Log fuel p indent b = Some (log_text p indent b).
Proof.
  induction p as [cl ty tag v d cs ds IH] using Packet_tree_ind. intros fuel indent b Hi Hm Hf.
  cbn [Log nesting] in *. rewrite <-(Z2Nat.id indent) at 1 by done.
  rewrite (indentLoop_from fuel 0) by lia. simpl.
  set (go := fix go (cs : list Packet) : option string := _).
  assert (go cs = Some (foldr (λ x s, logLine (spaces (Z.to_nat x.1)) x.2 b +:+ s) ""
    ((fix go (cs : list Packet) : list (Z * Packet) :=
         match cs with [] => [] | c :: cs => preorder c (indent + 1) ++ go cs end) cs))) as ->; [|done].
  revert IH Hm Hf. generalize cs at 1 2 3 4 5. intros l. induction l as [|c l IHl]; intros IH Hm Hf; [done|].
  apply Forall_cons in IH as [Hc Hl]. cbn [go]. fold go.
  pose proof (nesting_pos c).
  assert (go_int (indent + 1) = indent + 1) as -> by (apply wrapS_id; unfold in_int; lia).
  rewrite (Hc fuel (indent + 1) b) by lia. simpl. rewrite IHl by (done || lia). simpl.
  by rewrite log_text_app.
Qed.
End log_spec.

Section log_property.
Context `{BerOps} `{BerLog} `{Printable}.

(** C32. [Log] returns exactly when the indentation is not negative: it then writes one line for
    every packet of the tree, a packet before its children and each child one column further
    in; with a negative indentation the loop that makes the indentation never ends, whatever
    the packet.  (Its callers, [debug], the connection when it has read a packet and the
    response writer when it writes one, all start at 0.) *)
Theorem Log_terminates p indent b :
  indent + Z.of_nat (nesting p) <= 2 ^ 63 →
  (0 <= indent → Log (Z.to_nat indent + nesting p) p indent b = Some (log_text p indent b)) ∧
  (indent < 0 → ∀ fuel, Log fuel p indent b = None).
Proof.
  intros Hm. split.
  - intros Hi. apply Log_run; lia.
  - intros Hi fuel. destruct p. cbn [Log]. by rewrite indentLoop_negative.
Qed.

(** [debug] returns. *)
Lemma debug_terminates p :
  Z.of_nat (nesting (pkt p)) <= 2 ^ 63 → ∃ fuel, debug fuel p = Some (log_text (pkt p) 0 false).
Proof. intros Hn. exists (nesting (pkt p)). unfold debug. apply Log_run; lia. Qed.
End log_property.

(** The tags of X.680 and the names of the library's documentation. *)
Definition ber_log_model : BerLog := {|
  ClassMap := λ c, if c =? 0 then "Universal" else if c =? 64 then "Application"
                   else if c =? 128 then "Context" else "Private";
  TypeMap := λ t, if t =? 0 then "Primitive" else "Constructed";
  PrintBytes := λ s indent, indent +:+ s;
  sprintOther := "";
  TagEOC := 0; TagBitString := 3; TagNULL := 5; TagObjectIdentifier := 6; TagObjectDescriptor := 7;
  TagExternal := 8; TagRealFloat := 9; TagEmbeddedPDV := 11; TagUTF8String := 12; TagRelativeOID := 13;
  TagNumericString := 18; TagPrintableString := 19; TagT61String := 20; TagVideotexString := 21;
  TagIA5String := 22; TagUTCTime := 23; TagGeneralizedTime := 24; TagGraphicString := 25;
  TagVisibleString := 26; TagUniversalString := 28; TagCharacterString := 29; TagBMPString := 30
|}.
Definition ascii_print : Printable := {| IsPrint_wide := λ _, false |}.

(** A packet with a child, as a log shows it. *)
Definition logged : Packet :=
  mkPacket 64 32 16 VNil "" [mkPacket 0 0 4 (VString (of_bytes [97; 10; 195; 169; 255])) "a" [] "name"] "".

Example Log_example :
  Log (H := ber_model) (H0 := ber_log_model) (H1 := ascii_print) 3 logged 0 false =
  Some ("(Application, Constructed, 0x10) Len=0 " +:+ of_bytes [34] +:+ "<nil>" +:+ of_bytes [34; 10] +:+
        " name: (Universal, Primitive, Octet String) Len=1 " +:+ of_bytes [34] +:+ "a\n\u00e9\xff" +:+
        of_bytes [34; 10]).
Proof. by vm_compute. Qed.

Lemma Log_terminates_witness :
  Log (H := ber_model) (H0 := ber_log_model) (H1 := ascii_print) 2 logged 0 false =
    Some (log_text (H := ber_model) (H0 := ber_log_model) (H1 := ascii_print) logged 0 false) ∧
  (∀ fuel, Log (H := ber_model) (H0 := ber_log_model) (H1 := ascii_print) fuel logged (-1) false = None).
Proof.
  split.
  - by apply (@Log_terminates ber_model ber_log_model ascii_print logged 0 false).
  - by apply (@Log_terminates ber_model ber_log_model ascii_print logged (-1) false).
Defined.
