(* ===== verification/Entry.v ===== *)
(** Directory entries: [entry.go].

    An [EntryAttribute] keeps its values twice, as strings and as bytes; both
    are sequences of bytes here.  A Go map is iterated in no fixed order:
    [NewEntryFrom] is [NewEntry] for the order in which the loop meets the
    names.  [PrettyPrint] returns the writer it used and what it wrote. *)
From stdpp Require Import base decidable option list strings gmap sorting.
From Stdlib Require Import ZArith Lia.
From S2P Require Import Prelude GoStd Ber BerModel Options.

(** [entry.go:77-84] EntryAttribute *)
Record EntryAttribute : Type := mkEntryAttribute {
  Name : string;
  Values : list string;
  ByteValues : list string;
}.

(** [entry.go:16-21] Entry *)
Record Entry : Type := mkEntry {
  DN : string;
  Attributes : list EntryAttribute;
}.

#[export] Instance EntryAttribute_eq_dec : EqDecision EntryAttribute.
Proof. solve_decision. Defined.
#[export] Instance Entry_eq_dec : EqDecision Entry.
Proof. solve_decision. Defined.

(** [entry.go:24-31] GetAttributeValues *)
Definition GetAttributeValues (e : Entry) (attribute : string) : list string :=
  match list_find (λ attr, Name attr = attribute) (Attributes e) with
  | Some (_, attr) => Values attr
  | None => []
  end.

(** [entry.go:87-97] NewEntryAttribute *)
Definition NewEntryAttribute (name : string) (values : list string) : EntryAttribute :=
  mkEntryAttribute name values values.

(** [entry.go:36-51] NewEntry, where the map's keys are met in the order [names] *)
Definition NewEntryFrom (names : list string) (dn : string)
    (attributes : gmap string (list string)) : Entry :=
  mkEntry dn
    (map (λ attributeName,
            NewEntryAttribute attributeName (default [] (attributes !! attributeName)))
       (GoSort.Strings names)).

(** [entry.go:36-51] NewEntry *)
Definition NewEntry (dn : string) (attributes : gmap string (list string)) : Entry :=
  NewEntryFrom (map_to_list attributes).*1 dn attributes.

(** [entry.go:100-105] AddValue *)
Definition AddValue (value : list string) (e : EntryAttribute) : EntryAttribute :=
  foldl (λ e v, mkEntryAttribute (Name e) (Values e ++ [v]) (ByteValues e ++ [v])) e value.

(** [strings.Repeat(" ", n)], which panics on a negative count. *)
Definition RepeatSpace (n : Z) : outcome string :=
  if decide (n < 0) then Panic "strings: negative Repeat count"
  else Ok (of_bytes (replicate (Z.to_nat n) 32)).

(** A [[]string] printed with ["%s"]. *)
Definition format_strings (l : list string) : string :=
  "[" +:+ String.concat " " l +:+ "]".

(** [opts.withWriter], or [os.Stdout]. *)
Definition writer_of (opt : list Option) : outcome (option iface) :=
  opts ← getGeneralOpts opt;
  Ok (match withWriter opts with INil => None | w => Some w end).

(** A newline. *)
Definition newline : string := of_bytes [10].

(** [entry.go:68-74] EntryAttribute.PrettyPrint *)
Definition EntryAttribute_PrettyPrint (indent : Z) (opt : list Option) (e : EntryAttribute)
    : outcome (option iface * string) :=
  w ← writer_of opt;
  sp ← RepeatSpace indent;
  Ok (w, sp +:+ Name e +:+ ": " +:+ format_strings (Values e) +:+ newline).

(** [entry.go:55-64] Entry.PrettyPrint *)
Definition PrettyPrint (indent : Z) (opt : list Option) (e : Entry)
    : outcome (option iface * string) :=
  w ← writer_of opt;
  sp ← RepeatSpace indent;
  lines ← mapM (EntryAttribute_PrettyPrint (go_int (indent + 2)) opt) (Attributes e);
  Ok (w, sp +:+ "DN: " +:+ DN e +:+ newline +:+ String.concat "" lines.*2).

Section Encode.
Context `{BerOps}.

(** The loop that appends a list of values to a set, in [entry.go:111-113],
    [add.go:35-37] and [modify.go:51-53]. *)
Definition appendVals (set : Packet) (vals : list string) : Packet :=
  appendAll (λ value,
    ber_NewString ClassUniversal TypePrimitive TagOctetString value "Vals") set vals.

(** [entry.go:107-116] EntryAttribute.encode *)
Definition EntryAttribute_encode (e : EntryAttribute) : Packet :=
  let seq := ber_Encode ClassUniversal TypeConstructed TagSequence VNil "Attribute" in
  let seq := AppendChild seq
    (ber_NewString ClassUniversal TypePrimitive TagOctetString (Name e) "Type") in
  let set := ber_Encode ClassUniversal TypeConstructed TagSet VNil "AttributeValue" in
  AppendChild seq (appendVals set (Values e)).
End Encode.

(** ** Properties *)

(** The two copies of an attribute's values agree. *)
Definition attribute_wf (a : EntryAttribute) : Prop := ByteValues a = Values a.

(** An entry whose attributes agree and have distinct names. *)
Definition entry_wf (e : Entry) : Prop :=
  Forall attribute_wf (Attributes e) ∧ NoDup (map Name (Attributes e)).

Lemma Values_AddValue vs a : Values (AddValue vs a) = Values a ++ vs.
Proof.
  revert a. induction vs as [|v vs IH]; intros a; simpl; [by rewrite app_nil_r|].
  unfold AddValue in *. simpl. rewrite IH. simpl. by rewrite <-app_assoc.
Qed.

Lemma ByteValues_AddValue vs a : ByteValues (AddValue vs a) = ByteValues a ++ vs.
Proof.
  revert a. induction vs as [|v vs IH]; intros a; simpl; [by rewrite app_nil_r|].
  unfold AddValue in *. simpl. rewrite IH. simpl. by rewrite <-app_assoc.
Qed.

Lemma Name_AddValue vs a : Name (AddValue vs a) = Name a.
Proof. revert a. induction vs as [|v vs IH]; intros a; [done|]. unfold AddValue in *. simpl. by rewrite IH. Qed.

Lemma attribute_wf_AddValue vs a : attribute_wf a → attribute_wf (AddValue vs a).
Proof. unfold attribute_wf. intros Ha. by rewrite ByteValues_AddValue, Values_AddValue, Ha. Qed.

Lemma list_find_map_name (f : string → EntryAttribute) names k :
  (∀ n, Name (f n) = n) → k ∈ names →
  ∃ i, list_find (λ a, Name a = k) (map f names) = Some (i, f k).
Proof.
  intros Hf. induction names as [|n names IH]; [by intros ?%elem_of_nil|].
  intros Hk. simpl. case_decide as Hn.
  - rewrite Hf in Hn. subst. eauto.
  - rewrite Hf in Hn. apply elem_of_cons in Hk as [->|Hk]; [done|].
    destruct (IH Hk) as [i ->]. simpl. eauto.
Qed.

Lemma elem_of_names (m : gmap string (list string)) k :
  k ∈ (map_to_list m).*1 ↔ is_Some (m !! k).
Proof.
  rewrite list_elem_of_fmap. split.
  - intros ([k' v] & -> & Hin%elem_of_map_to_list). by eexists.
  - intros [v Hv]. exists (k, v). split; [done|]. by apply elem_of_map_to_list.
Qed.

Lemma attributes_NewEntryFrom names dn m :
  map Name (Attributes (NewEntryFrom names dn m)) = GoSort.Strings names.
Proof. simpl. rewrite map_map. simpl. apply map_id. Qed.

Lemma GetAttributeValues_NewEntryFrom names dn m k :
  names ≡ₚ (map_to_list m).*1 →
  GetAttributeValues (NewEntryFrom names dn m) k = default [] (m !! k).
Proof.
  intros Hp. unfold GetAttributeValues, NewEntryFrom. simpl.
  set (f := λ n, NewEntryAttribute n (default [] (m !! n))).
  destruct (m !! k) as [v|] eqn:Hk.
  - destruct (list_find_map_name f (GoSort.Strings names) k) as [i ->]; [done| |].
    + rewrite GoSort.Strings_perm, Hp. apply elem_of_names. by eexists.
    + unfold f. simpl. by rewrite Hk.
  - destruct (list_find _ _) as [[i a]|] eqn:E; [|done].
    apply list_find_Some in E as (Hi & <- & _). exfalso.
    apply list_elem_of_lookup_2, list_elem_of_In, in_map_iff in Hi as (n & <- & Hn%list_elem_of_In).
    simpl in *. rewrite GoSort.Strings_perm, Hp, elem_of_names, Hk in Hn. by destruct Hn.
Qed.

(** [NewEntry] does not depend on the order in which Go iterates the map:
    whatever that order, the attributes come out in ascending order of their
    names, one per key, and reading a name back gives the map's values (none
    for an absent key). *)
Theorem NewEntry_deterministic names dn m :
  names ≡ₚ (map_to_list m).*1 →
  NewEntryFrom names dn m = NewEntry dn m ∧
  StronglySorted String.le (map Name (Attributes (NewEntryFrom names dn m))) ∧
  entry_wf (NewEntryFrom names dn m) ∧
  ∀ k, GetAttributeValues (NewEntryFrom names dn m) k = default [] (m !! k).
Proof.
  intros Hp. split; [|split; [|split]].
  - unfold NewEntry, NewEntryFrom. by rewrite (GoSort.Strings_unique _ _ Hp).
  - rewrite attributes_NewEntryFrom. apply GoSort.Strings_sorted.
  - split.
    + apply Forall_forall. intros a (n & <- & _)%list_elem_of_In%in_map_iff. done.
    + rewrite attributes_NewEntryFrom, GoSort.Strings_perm, Hp. apply NoDup_fst_map_to_list.
  - intros k. by apply GetAttributeValues_NewEntryFrom.
Qed.

Lemma NewEntry_deterministic_witness :
  NewEntryFrom ["mail"; "cn"] "cn=bob" {["cn" := ["bob"]; "mail" := ["b@x"; "b@y"]]} =
  NewEntry "cn=bob" {["cn" := ["bob"]; "mail" := ["b@x"; "b@y"]]}.
Proof.
  apply (NewEntry_deterministic ["mail"; "cn"] "cn=bob"
           {["cn" := ["bob"]; "mail" := ["b@x"; "b@y"]]}).
  vm_compute. first [reflexivity | apply Permutation_swap].
Defined.

(** [AddValue] appends the new values, in order, to both copies of an
    attribute's values and keeps the copies equal. *)
Theorem AddValue_spec vs a :
  attribute_wf a →
  attribute_wf (AddValue vs a) ∧ Name (AddValue vs a) = Name a ∧
  Values (AddValue vs a) = Values a ++ vs.
Proof.
  intros Ha. split; [by apply attribute_wf_AddValue|].
  split; [apply Name_AddValue|apply Values_AddValue].
Qed.

Lemma AddValue_spec_witness :
  Values (AddValue ["c"; "d"] (NewEntryAttribute "cn" ["a"])) = ["a"; "c"; "d"].
Proof. apply (AddValue_spec ["c"; "d"] (NewEntryAttribute "cn" ["a"])). reflexivity. Defined.
