(* ===== verification/Attribute.v ===== *)
(** The attributes of add requests and the changes of modify requests: the
    data, encoders and decoder of [add.go] and [modify.go]. *)
From stdpp Require Import base decidable option list strings gmap.
From Stdlib Require Import ZArith Lia.
From S2P Require Import Prelude GoStd Ber BerModel Options Control Packet Entry.

(** [add.go:24-29] Attribute *)
Record Attribute : Type := mkAttribute {
  Type_ : string;
  Vals : list string;
}.

(** [modify.go:33-38] PartialAttribute *)
Record PartialAttribute : Type := mkPartialAttribute {
  PartialType : string;
  PartialVals : list string;
}.

(** [modify.go:25-30] Change *)
Record Change : Type := mkChange {
  Operation : Z;
  Modification : PartialAttribute;
}.

(** [modify.go:9-14] Change operation choices *)
Definition AddAttribute : Z := 0.
Definition DeleteAttribute : Z := 1.
Definition ReplaceAttribute : Z := 2.
Definition IncrementAttribute : Z := 3.

#[export] Instance Attribute_eq_dec : EqDecision Attribute.
Proof. solve_decision. Defined.
#[export] Instance PartialAttribute_eq_dec : EqDecision PartialAttribute.
Proof. solve_decision. Defined.
#[export] Instance Change_eq_dec : EqDecision Change.
Proof. solve_decision. Defined.

Section Attribute.
Context `{BerOps}.

(** A type and a set of values in a sequence; the body that the encoders of
    [Attribute] and [PartialAttribute] share but for the description. *)
Definition encodeTyped (desc type_ : string) (vals : list string) : Packet :=
  let seq := ber_Encode ClassUniversal TypeConstructed TagSequence VNil desc in
  let seq := AppendChild seq
    (ber_NewString ClassUniversal TypePrimitive TagOctetString type_ "Type") in
  let set := ber_Encode ClassUniversal TypeConstructed TagSet VNil "AttributeValue" in
  AppendChild seq (appendVals set vals).

(** [add.go:31-40] Attribute.encode *)
Definition Attribute_encode (a : Attribute) : Packet :=
  encodeTyped "Attribute" (Type_ a) (Vals a).

(** [modify.go:47-56] PartialAttribute.encode *)
Definition PartialAttribute_encode (p : PartialAttribute) : Packet :=
  encodeTyped "PartialAttribute" (PartialType p) (PartialVals p).

(** [modify.go:40-45] Change.encode *)
Definition Change_encode (c : Change) : Packet :=
  let change := ber_Encode ClassUniversal TypeConstructed TagSequence VNil "Change" in
  let change := AppendChild change
    (ber_NewInteger ClassUniversal TypePrimitive TagEnumerated
       (VInt64 (int64 (Operation c))) "Operation") in
  AppendChild change (PartialAttribute_encode (Modification c)).

(** The loop that reads the children of a packet as octet strings, in
    [add.go:73-78] and [packet.go:469-474]. *)
Definition octetChildren (op text : string) (p : Packet) : outcome (list string) :=
  mapM (λ idx,
    wrapErr op text
      (assert p ClassUniversal TypePrimitive [withTag TagOctetString; withAssertChild idx]);;
    c ← index (Children p) idx;
    Ok (Data c)) (seq 0 (length (Children p))).

(** [add.go:42-81] decodeAttribute *)
Definition decodeAttribute (berPacket : option Packet) : outcome Attribute :=
  let op := "gldap.decodeAttribute" in
  match berPacket with
  | None => Err (invalid op "missing ber packet")
  | Some seq =>
      replaceErr op "missing/invalid attributes ber packet" ErrInvalidParameter
        (assert seq ClassUniversal TypeConstructed [withTag TagSequence]);;
      replaceErr op "missing/invalid attributes type" ErrInvalidParameter
        (assert seq ClassUniversal TypePrimitive
           [withTag TagOctetString; withAssertChild 0]);;
      type_ ← index (Children seq) 0;
      replaceErr op "missing/invalid attributes values" ErrInvalidParameter
        (assert seq ClassUniversal TypeConstructed [withTag TagSet; withAssertChild 1]);;
      valuesPacket ← index (Children seq) 1;
      vals ← octetChildren op "invalid attribute values packet" valuesPacket;
      Ok (mkAttribute (Data type_) vals)
  end.
End Attribute.

(** ** Lemmas *)

Section assert_rewrites.
Context `{BerOps}.

Lemma assert_self_Ok p cl ty t :
  has_header p cl ty t → assert p cl ty [withTag t] = Ok ().
Proof. by rewrite assert_self_iff. Qed.

Lemma assert_child_Ok p cl ty t i c :
  Children p !! i = Some c → has_header c cl ty t →
  assert p cl ty [withTag t; withAssertChild i] = Ok ().
Proof. rewrite assert_child_iff. eauto. Qed.

Lemma no_panic_assert_child {A} wrap p cl ty t i (k : Packet → outcome A) :
  (∀ m : outcome unit, no_panic m → no_panic (wrap m)) →
  (∀ u m, wrap m = Ok u → m = Ok u) →
  (∀ c, Children p !! i = Some c → no_panic (k c)) →
  no_panic (wrap (assert p cl ty [withTag t; withAssertChild i]);;
            c ← index (Children p) i; k c).
Proof.
  intros Hw Hi Hk. apply no_panic_bind; [by apply Hw, assert_no_panic|].
  intros u Hu%Hi. apply assert_child_iff in Hu as (c & Hc & _).
  rewrite (index_Some _ _ _ Hc). simpl. by apply Hk.
Qed.

Lemma no_panic_assert_replace {A} op text s p cl ty t i (k : Packet → outcome A) :
  (∀ c, Children p !! i = Some c → no_panic (k c)) →
  no_panic (replaceErr op text s (assert p cl ty [withTag t; withAssertChild i]);;
            c ← index (Children p) i; k c).
Proof.
  apply no_panic_assert_child; [by intros; apply no_panic_replaceErr|].
  by intros ?? ?%replaceErr_Ok_inv.
Qed.

Lemma octetChildren_no_panic op text p : no_panic (octetChildren op text p).
Proof.
  apply no_panic_mapM. intros idx _.
  apply no_panic_assert_child; [by intros; apply no_panic_wrapErr| |done].
  by intros ?? ?%wrapErr_Ok_inv.
Qed.

Lemma octetChildren_Ok op text p :
  Forall (λ c, has_header c ClassUniversal TypePrimitive TagOctetString) (Children p) →
  octetChildren op text p = Ok (map Data (Children p)).
Proof.
  intros Hf. apply mapM_Ok_inv, Forall2_same_length_lookup_2.
  { by rewrite length_seq, length_map. }
  intros i x y [-> Hi]%lookup_seq Hy. simpl.
  destruct (lookup_lt_is_Some_2 (Children p) i Hi) as [c Hc].
  rewrite (assert_child_Ok _ _ _ _ _ _ Hc) by apply (Forall_lookup_1 _ _ _ _ Hf Hc). simpl.
  rewrite (index_Some _ _ _ Hc). simpl.
  assert (map Data (Children p) !! i = Some (Data c)) as Hd.
  { clear -Hc. revert i Hc. induction (Children p) as [|x xs IH]; intros [|i] Hc;
      simplify_eq/=; auto. }
  by simplify_eq.
Qed.

Lemma decodeAttribute_no_panic p : no_panic (decodeAttribute p).
Proof.
  destruct p as [p|]; [|done]. simpl.
  apply no_panic_bind; [apply no_panic_replaceErr, assert_no_panic|]. intros _ _.
  apply no_panic_assert_replace. intros c0 _.
  apply no_panic_assert_replace. intros c1 _.
  apply no_panic_bind; [apply octetChildren_no_panic|done].
Qed.
End assert_rewrites.

(** ** Round trips *)

Section roundtrip.
Context `{L : BerLaws}.

Lemma via_octets w s d :
  has_header (via w (ber_NewString ClassUniversal TypePrimitive TagOctetString s d))
    ClassUniversal TypePrimitive TagOctetString ∧
  Data (via w (ber_NewString ClassUniversal TypePrimitive TagOctetString s d)) = s.
Proof. unfold has_header. by ber_simpl. Qed.

(** The set of values, as built or as read. *)
Lemma via_vals w vals d (s := via w (appendVals
    (ber_Encode ClassUniversal TypeConstructed TagSet VNil d) vals)) :
  has_header s ClassUniversal TypeConstructed TagSet ∧
  Forall (λ c, has_header c ClassUniversal TypePrimitive TagOctetString) (Children s) ∧
  map Data (Children s) = vals.
Proof.
  unfold s, appendVals. rewrite Encode_eq. set (f := λ v, _). set (b := mkPacket _ _ _ _ _ _ _).
  destruct (header_appendAll f b vals) as (H1 & H2 & H3).
  unfold has_header. rewrite ClassType_via, TagType_via, Tag_via, H1, H2, H3.
  split; [done|]. rewrite Children_via, Children_appendAll by done. simpl. split.
  - apply Forall_forall. intros c (p & <- & (v & <- & _)%in_map_iff)%list_elem_of_In%in_map_iff.
    apply via_octets.
  - rewrite !map_map. rewrite <-(map_id vals) at 2. apply map_ext. intros v. apply via_octets.
Qed.

Lemma Children_encodeTyped desc ty vals :
  Children (encodeTyped desc ty vals) =
    [ber_NewString ClassUniversal TypePrimitive TagOctetString ty "Type";
     appendVals (ber_Encode ClassUniversal TypeConstructed TagSet VNil "AttributeValue") vals].
Proof. unfold encodeTyped. by ber_simpl. Qed.

Lemma header_encodeTyped w desc ty vals :
  has_header (via w (encodeTyped desc ty vals)) ClassUniversal TypeConstructed TagSequence.
Proof. unfold has_header, encodeTyped. by ber_simpl. Qed.

Lemma Children_via_encodeTyped w desc ty vals :
  Children (via w (encodeTyped desc ty vals)) =
    [via w (ber_NewString ClassUniversal TypePrimitive TagOctetString ty "Type");
     via w (appendVals (ber_Encode ClassUniversal TypeConstructed TagSet VNil
                          "AttributeValue") vals)].
Proof.
  rewrite Children_via, Children_encodeTyped; [done|]. unfold encodeTyped. by ber_simpl.
Qed.

Lemma decodeAttribute_via w a : decodeAttribute (Some (via w (Attribute_encode a))) = Ok a.
Proof.
  destruct a as [ty vals]. unfold Attribute_encode. simpl.
  destruct (via_octets w ty "Type") as [Ht Hd].
  destruct (via_vals w vals "AttributeValue") as (Hs & Hc & Hv).
  rewrite assert_self_Ok by apply header_encodeTyped. simpl.
  erewrite assert_child_Ok by (rewrite ?Children_via_encodeTyped; done). simpl.
  rewrite Children_via_encodeTyped. simpl.
  erewrite assert_child_Ok by (rewrite ?Children_via_encodeTyped; done). simpl.
  rewrite octetChildren_Ok by done. simpl. by rewrite Hd, Hv.
Qed.

(** The encoded size of a type and values, from above. *)
Definition typed_size (ty : string) (vals : list string) : Z :=
  Z.of_nat (String.length ty) + 12 +
  sumZ (λ v, Z.of_nat (String.length v) + 6) vals.

Lemma typed_size_pos ty vals : 12 ≤ typed_size ty vals.
Proof.
  unfold typed_size. pose proof (sumZ_nonneg (λ v, Z.of_nat (String.length v) + 6) vals).
  assert (0 ≤ sumZ (λ v, Z.of_nat (String.length v) + 6) vals) by (apply H; intros; lia). lia.
Qed.

Lemma enc_encodeTyped desc ty vals k :
  typed_size ty vals ≤ k < 2 ^ 31 → enc (encodeTyped desc ty vals) k.
Proof.
  intros Hk. unfold encodeTyped, typed_size in *.
  set (sz := λ v, Z.of_nat (String.length v)).
  pose proof (sumZ_nonneg (λ v, sz v + 6) vals) as Hn.
  assert (0 ≤ sumZ (λ v, sz v + 6) vals) by (apply Hn; intros; unfold sz; lia).
  assert (0 ≤ TagSequence < 31) by (rewrite law_TagSequence; lia).
  assert (0 ≤ TagSet < 31) by (rewrite law_TagSet; lia).
  eapply (enc_AppendChild _ _ (sz ty + 6) (sumZ (λ v, sz v + 6) vals)); [| | |unfold sz in *; lia].
  - eapply (enc_AppendChild _ _ 0 (sz ty)); [apply enc_Encode; [set_solver|done]| | |unfold sz in *; lia].
    + by ber_simpl.
    + rewrite NewString_eq. apply enc_octets; unfold sz in *; lia.
  - by ber_simpl.
  - unfold appendVals.
    eapply (enc_appendAll _ _ 0 sz); [apply enc_Encode; [set_solver|done]| | | |unfold sz in *; lia].
    + by ber_simpl.
    + intros; unfold sz; lia.
    + apply Forall_forall. intros v Hv. rewrite NewString_eq. apply enc_octets; [unfold sz; lia|].
      assert (sz v ≤ sumZ (λ v, sz v + 6) vals); [|unfold sz in *; lia].
      clear -Hv. induction Hv as [v vs|v v' vs _ IH]; simpl.
      * pose proof (sumZ_nonneg (λ v, sz v + 6) vs) as Hn.
        assert (0 ≤ sumZ (λ v, sz v + 6) vs) by (apply Hn; intros; unfold sz; lia). lia.
      * unfold sz in *. lia.
Qed.
End roundtrip.

#[global] Arguments decodeAttribute {_} _ : simpl never.
