(* ===== verification/Parameters.v ===== *)
(** The parameters of each kind of request: the [...Parameters] methods of
    [packet.go].  [ldap.CompileFilter] and [ldap.DecompileFilter] belong to
    [github.com/go-ldap/ldap/v3], which the repository only calls; class
    [LdapOps] stands for them. *)
From stdpp Require Import base decidable option list strings gmap.
From Stdlib Require Import ZArith Lia.
From S2P Require Import Prelude GoStd Ber BerModel Codes Options Control Packet Entry Attribute.

(** The functions of [go-ldap] the repository calls. *)
Class LdapOps : Type := {
  CompileFilter : string → outcome Packet;
  DecompileFilter : Packet → outcome string;
}.

(** [DecompileFilter] recovers its own panics and returns an error. *)
Class LdapLaws `(LdapOps) : Prop := {
  law_DecompileFilter_no_panic p : no_panic (DecompileFilter p);
}.

(** [packet.go:142-146] modifyParameters *)
Record modifyParameters : Type := mkModifyParameters {
  modify_dn : string;
  modify_changes : list Change;
  modify_controls : list Control;
}.

(** [packet.go:308-312] addParameters *)
Record addParameters : Type := mkAddParameters {
  add_dn : string;
  add_attributes : list Attribute;
  add_controls : list Control;
}.

(** [packet.go:368-378] searchParameters *)
Record searchParameters : Type := mkSearchParameters {
  search_baseDN : string;
  search_scope : Z;
  search_derefAliases : Z;
  search_sizeLimit : Z;
  search_timeLimit : Z;
  search_typesOnly : bool;
  search_filter : string;
  search_attributes : list string;
  search_controls : list Control;
}.

Section Parameters.
Context `{BerOps} `{LdapOps}.

(** An asserted child that holds an [int64] in its value: the assertion's error
    is replaced, and a value of another type is an error of its own. *)
Definition int64Child (op missing notInt : string) (p : Packet) (tag : Z) (i : nat)
    : outcome Z :=
  replaceErr op missing ErrInvalidParameter
    (assert p ClassUniversal TypePrimitive [withTag tag; withAssertChild i]);;
  c ← index (Children p) i;
  match Value c with
  | VInt64 z => Ok z
  | _ => Err (Errorf op notInt)
  end.

(** An asserted child that is an octet string: its content. *)
Definition octetChild (op missing : string) (p : Packet) (i : nat) : outcome string :=
  replaceErr op missing ErrInvalidParameter
    (assert p ClassUniversal TypePrimitive [withTag TagOctetString; withAssertChild i]);;
  c ← index (Children p) i;
  Ok (Data c).

(** [packet.go:182-221] The body of the loop over the changes of a modify request. *)
Definition modifyChange (changePacket : Packet) : outcome Change :=
  let op := "gldap.(packet).modifyParameters" in
  replaceErr op "modify changes child packet" ErrInvalidParameter
    (assert changePacket ClassUniversal TypeConstructed [withTag TagSequence]);;
  operation ← int64Child op "modify changes child operation packet"
                "change operation is not an int64: %t" changePacket TagEnumerated 0;
  replaceErr op "change modification child packet" ErrInvalidParameter
    (assert changePacket ClassUniversal TypeConstructed
       [withTag TagSequence; withAssertChild 1]);;
  modificationPacket ← index (Children changePacket) 1;
  type_ ← octetChild op "modification type packet" modificationPacket 0;
  if decide (length (Children modificationPacket) < 2)%nat
  then Err (invalid op "missing modification values packet")
  else Ok (mkChange operation
             (mkPartialAttribute type_ (map Data (drop 1 (Children modificationPacket))))).

(** [packet.go:149-239] modifyParameters *)
Definition packet_modifyParameters (p : packet) : outcome (modifyParameters * packet) :=
  let op := "gldap.(packet).modifyParameters" in
  '(request, p) ← wrapErr op "" (requestPacket p);
  if decide (Tag request ≠ ApplicationModifyRequest)
  then Err (invalid op "not an modify request, expected tag %d and got %d")
  else
    dn ← octetChild op "modify dn packet" request 0;
    replaceErr op "modify changes packet" ErrInvalidParameter
      (assert request ClassUniversal TypeConstructed
         [withTag TagSequence; withAssertChild 1]);;
    changesPacket ← index (Children request) 1;
    changes ← mapM modifyChange (Children changesPacket);
    '(controls, p) ← requestControls op p;
    Ok (mkModifyParameters dn changes controls, p).

(** [packet.go:241-259] extendedOperationName *)
Definition extendedOperationName (p : packet) : outcome (string * packet) :=
  let op := "gldap.(Packet).simpleBindParameters" in
  '(request, p) ← wrapErr op "" (requestPacket p);
  if decide (Tag request ≠ ApplicationExtendedRequest)
  then Err (invalid op "not an extended operation request, expected tag %d and got %d")
  else
    replaceErr op "missing/invalid username packet" ErrInvalidParameter
      (assert request ClassContext TypePrimitive [withTag 0; withAssertChild 0]);;
    n ← index (Children request) 0;
    Ok (Data n, p).

(** [packet.go:264-306] simpleBindParameters *)
Definition simpleBindParameters (p : packet)
    : outcome (string * string * list Control * packet) :=
  let op := "gldap.(Packet).simpleBindParameters" in
  '(request, p) ← wrapErr op "" (requestPacket p);
  userName ← octetChild op "missing/invalid username packet" request 1;
  if decide (3 < length (Children request))%nat then Ok (userName, "", [], p)
  else
    replaceErr op "missing/invalid password packet" ErrInvalidParameter
      (assert request ClassContext TypePrimitive [withTag 0; withAssertChild 2]);;
    password ← index (Children request) 2;
    '(controls, p) ← requestControls op p;
    Ok (userName, Data password, controls, p).

(** [packet.go:315-366] addParameters *)
Definition packet_addParameters (p : packet) : outcome (addParameters * packet) :=
  let op := "gldap.(Packet).addParameters" in
  '(request, p) ← wrapErr op "" (requestPacket p);
  if decide (Tag request ≠ ApplicationAddRequest)
  then Err (invalid op "not an add request, expected tag %d and got %d")
  else
    dn ← octetChild op "missing/invalid DN" request 0;
    replaceErr op "missing/invalid attributes" ErrInvalidParameter
      (assert request ClassUniversal TypeConstructed
         [withTag TagSequence; withAssertChild 1]);;
    attributesPackets ← index (Children request) 1;
    attributes ← mapM (λ attribute,
      wrapErr op "failed to decode attribute packet" (decodeAttribute (Some attribute)))
      (Children attributesPackets);
    '(controls, p) ← requestControls op p;
    Ok (mkAddParameters dn attributes controls, p).

(** [packet.go:380-492] searchParmeters *)
Definition searchParmeters (p : packet) : outcome (searchParameters * packet) :=
  let op := "gldap.(Packet).searchParmeters" in
  '(request, p) ← wrapErr op "" (requestPacket p);
  if decide (Tag request ≠ ApplicationSearchRequest)
  then Err (invalid op "not an search request, expected tag %d and got %d")
  else
    baseDN ← octetChild op "missing/invalid baseDN" request 0;
    scope ← int64Child op "missing/invalid scope" "scope is not an int64"
              request TagEnumerated 1;
    derefAliases ← int64Child op "missing/invalid deref aliases"
                     "deref aliases is not an int64" request TagEnumerated 2;
    sizeLimit ← int64Child op "missing/invalid size limit" "size limit is not an int64"
                  request TagInteger 3;
    timeLimit ← int64Child op "missing/invalid time limit" "time limit is not an int64"
                  request TagInteger 4;
    replaceErr op "missing/invalid types only" ErrInvalidParameter
      (assert request ClassUniversal TypePrimitive [withTag TagBoolean; withAssertChild 5]);;
    typesOnlyPacket ← index (Children request) 5;
    typesOnly ← match Value typesOnlyPacket with
                | VBool b => Ok b
                | _ => Err (Errorf op "types only is not a bool")
                end;
    if decide (length (Children request) < 7)%nat
    then Err (invalid op "missing filter")
    else
      filterPacket ← index (Children request) 6;
      filter ← wrapErr op "unable to decompile filter" (DecompileFilter filterPacket);
      let searchFor := mkSearchParameters baseDN scope derefAliases sizeLimit timeLimit
                         typesOnly filter in
      if decide (length (Children request) < 8)%nat
      then Ok (searchFor [] [], p)
      else
        wrapErr op "invalid attributes"
          (assert request ClassUniversal TypeConstructed
             [withTag TagSequence; withAssertChild 7]);;
        attributesPacket ← index (Children request) 7;
        attributes ← octetChildren op "invalid attribute child packet" attributesPacket;
        '(controls, p) ← requestControls op p;
        Ok (searchFor attributes controls, p).

(** [packet.go:600-628] deleteParameters *)
Definition deleteParameters (p : packet) : outcome (string * list Control * packet) :=
  let op := "gldap.(packet).deleteDN" in
  '(request, p) ← wrapErr op "" (requestPacket p);
  if decide (Tag request ≠ ApplicationDelRequest)
  then Err (invalid op "not a delete request, expected tag %d and got %d")
  else
    '(controls, p) ← requestControls op p;
    Ok (Data request, controls, p).
End Parameters.
