(* ===== verification/Message.v ===== *)
(** Request messages: [message.go], with [AddMessage] of [add.go] and
    [ModifyMessage] of [modify.go], and the encoders of [testing.go], which
    build the packet a client sends for each of them. *)
From stdpp Require Import base decidable option list strings gmap.
From Stdlib Require Import ZArith Lia.
From S2P Require Import Prelude GoStd Ber BerModel Codes Options Control Packet Entry Attribute Parameters.

(** [message.go:11-31] Scope *)
Definition BaseObject : Z := 0.
Definition SingleLevel : Z := 1.
Definition WholeSubtree : Z := 2.

(** [message.go:34-38] AuthChoice *)
Definition SimpleAuthChoice : string := "simple".

(** [request.go:15-26] ExtendedOperationName *)
Definition ExtendedOperationDisconnection : string := "1.3.6.1.4.1.1466.2003".
Definition ExtendedOperationCancel : string := "1.3.6.1.1.8".
Definition ExtendedOperationStartTLS : string := "1.3.6.1.4.1.1466.20037".
Definition ExtendedOperationWhoAmI : string := "1.3.6.1.4.1.4203.1.11.3".
Definition ExtendedOperationGetConnectionID : string := "1.3.6.1.4.1.26027.1.6.2".
Definition ExtendedOperationPasswordModify : string := "1.3.6.1.4.1.4203.1.11.1".
Definition ExtendedOperationUnknown : string := "Unknown".

(** [message.go:68-88] SearchMessage *)
Record SearchMessage : Type := mkSearchMessage {
  search_id : Z;
  BaseDN : string;
  Scope : Z;
  DerefAliases : Z;
  TimeLimit : Z;
  SizeLimit : Z;
  TypesOnly : bool;
  Filter : string;
  SearchAttributes : list string;
  SearchControls : list Control;
}.

(** [message.go:91-101] SimpleBindMessage *)
Record SimpleBindMessage : Type := mkSimpleBindMessage {
  bind_id : Z;
  AuthChoice : string;
  UserName : string;
  Password : string;
  BindControls : list Control;
}.

(** [message.go:104-110] ExtendedOperationMessage *)
Record ExtendedOperationMessage : Type := mkExtendedOperationMessage {
  extended_id : Z;
  ExtendedName : string;
  ExtendedValue : string;
}.

(** [message.go:113-120] DeleteMessage *)
Record DeleteMessage : Type := mkDeleteMessage {
  delete_id : Z;
  DeleteDN : string;
  DeleteControls : list Control;
}.

(** [message.go:123-125] UnbindMessage *)
Record UnbindMessage : Type := mkUnbindMessage {
  unbind_id : Z;
}.

(** [add.go:13-21] AddMessage *)
Record AddMessage : Type := mkAddMessage {
  add_id : Z;
  AddDN : string;
  AddAttributes : list Attribute;
  AddControls : list Control;
}.

(** [modify.go:17-22] ModifyMessage *)
Record ModifyMessage : Type := mkModifyMessage {
  modify_id : Z;
  ModifyDN : string;
  Changes : list Change;
  ModifyControls : list Control;
}.

(** [message.go:54-57] Message, with the structs that implement it *)
Inductive Message : Type :=
| MSearch (m : SearchMessage)
| MSimpleBind (m : SimpleBindMessage)
| MExtended (m : ExtendedOperationMessage)
| MModify (m : ModifyMessage)
| MAdd (m : AddMessage)
| MDelete (m : DeleteMessage)
| MUnbind (m : UnbindMessage).

(** [message.go:60-65] GetID *)
Definition GetID (m : Message) : Z :=
  match m with
  | MSearch m => search_id m
  | MSimpleBind m => bind_id m
  | MExtended m => extended_id m
  | MModify m => modify_id m
  | MAdd m => add_id m
  | MDelete m => delete_id m
  | MUnbind m => unbind_id m
  end.

Section Message.
Context `{BerOps} `{LdapOps}.

(** [message.go:141-237] The switch of newMessage on the request's type. *)
Definition messageOf (reqType : requestType) (msgID : Z) (p : packet)
    : outcome (Message * packet) :=
  let op := "gldap.NewMessage" in
  match reqType with
  | unbindRequestType => Ok (MUnbind (mkUnbindMessage msgID), p)
  | bindRequestType =>
      '(u, pass, controls, p) ← wrapErr op "invalid bind message" (simpleBindParameters p);
      Ok (MSimpleBind (mkSimpleBindMessage msgID SimpleAuthChoice u pass controls), p)
  | searchRequestType =>
      '(s, p) ← wrapErr op "invalid search message" (searchParmeters p);
      Ok (MSearch (mkSearchMessage msgID (search_baseDN s) (search_scope s)
                     (go_int (search_derefAliases s)) (search_timeLimit s)
                     (search_sizeLimit s) (search_typesOnly s) (search_filter s)
                     (search_attributes s) (search_controls s)), p)
  | extendedRequestType =>
      '(opName, p) ← wrapErr op "" (extendedOperationName p);
      Ok (MExtended (mkExtendedOperationMessage msgID opName ""), p)
  | modifyRequestType =>
      '(m, p) ← wrapErr op "" (packet_modifyParameters p);
      Ok (MModify (mkModifyMessage msgID (modify_dn m) (modify_changes m)
                     (modify_controls m)), p)
  | addRequestType =>
      '(a, p) ← wrapErr op "" (packet_addParameters p);
      Ok (MAdd (mkAddMessage msgID (add_dn a) (add_attributes a) (add_controls a)), p)
  | deleteRequestType =>
      '(dn, controls, p) ← wrapErr op "" (deleteParameters p);
      Ok (MDelete (mkDeleteMessage msgID dn controls), p)
  | unknownRequestType =>
      Ok (MExtended (mkExtendedOperationMessage msgID ExtendedOperationUnknown ""), p)
  end.

(** [message.go:128-238] newMessage *)
Definition newMessage (p : packet) : outcome (Message * packet) :=
  let op := "gldap.NewMessage" in
  '(reqType, p) ← wrapErr op "" (packet_requestType p);
  '(msgID, p) ← wrapErr op "unable to get message id" (requestMessageID p);
  messageOf reqType msgID p.

(** ** The client's side *)

(** [testing.go:186-190] testRequestEnvelope *)
Definition testRequestEnvelope (messageID : Z) : Packet :=
  let p := ber_Encode ClassUniversal TypeConstructed TagSequence VNil "LDAP Request" in
  AppendChild p
    (ber_NewInteger ClassUniversal TypePrimitive TagInteger (VInt64 (int64 messageID))
       "MessageID").

(** [if len(controls) > 0 { envelope.AppendChild(encodeControls(controls)) }] *)
Definition appendControls (envelope : Packet) (controls : list Control) : Packet :=
  if decide (0 < length controls)%nat
  then AppendChild envelope (encodeControls controls) else envelope.

(** An octet string in the universal class. *)
Definition newOctets (s desc : string) : Packet :=
  ber_NewString ClassUniversal TypePrimitive TagOctetString s desc.

(** [testing.go:54-65] testStartTLSRequestPacket *)
Definition testStartTLSRequestPacket (messageID : Z) : packet :=
  let envelope := testRequestEnvelope messageID in
  let request := ber_Encode ClassApplication TypeConstructed ApplicationExtendedRequest
                   VNil "Start TLS" in
  let request := AppendChild request
    (ber_NewString ClassContext TypePrimitive 0 "1.3.6.1.4.1.1466.20037"
       "TLS Extended Command") in
  mkpacket (AppendChild envelope request) false.

(** [testing.go:67-98] testSearchRequestPacket *)
Definition testSearchRequestPacket (s : SearchMessage) : outcome packet :=
  let envelope := testRequestEnvelope (go_int (search_id s)) in
  let int tag z desc :=
    ber_NewInteger ClassUniversal TypePrimitive tag (VInt64 (int64 z)) desc in
  let pkt := ber_Encode ClassApplication TypeConstructed ApplicationSearchRequest
               VNil "Search Request" in
  let pkt := AppendChild pkt (newOctets (BaseDN s) "Base DN") in
  let pkt := AppendChild pkt (int TagEnumerated (Scope s) "Scope") in
  let pkt := AppendChild pkt (int TagEnumerated (DerefAliases s) "Deref Aliases") in
  let pkt := AppendChild pkt (int TagInteger (SizeLimit s) "Size Limit") in
  let pkt := AppendChild pkt (int TagInteger (TimeLimit s) "Time Limit") in
  let pkt := AppendChild pkt
    (ber_NewBoolean ClassUniversal TypePrimitive TagBoolean (TypesOnly s) "Types Only") in
  filterPacket ← CompileFilter (Filter s);
  let pkt := AppendChild pkt filterPacket in
  let attributesPacket :=
    ber_Encode ClassUniversal TypeConstructed TagSequence VNil "Attributes" in
  let attributesPacket :=
    appendAll (λ attribute, newOctets attribute "Attribute") attributesPacket
      (SearchAttributes s) in
  let pkt := AppendChild pkt attributesPacket in
  Ok (mkpacket (appendControls (AppendChild envelope pkt) (SearchControls s)) false).

(** [testing.go:100-117] testSimpleBindRequestPacket *)
Definition testSimpleBindRequestPacket (m : SimpleBindMessage) : packet :=
  let envelope := testRequestEnvelope (go_int (bind_id m)) in
  let pkt := ber_Encode ClassApplication TypeConstructed ApplicationBindRequest
               VNil "Bind Request" in
  let pkt := AppendChild pkt
    (ber_NewInteger ClassUniversal TypePrimitive TagInteger (VInt64 3) "Version") in
  let pkt := AppendChild pkt (newOctets (UserName m) "User Name") in
  let pkt := AppendChild pkt
    (ber_NewString ClassContext TypePrimitive 0 (Password m) "Password") in
  mkpacket (appendControls (AppendChild envelope pkt) (BindControls m)) false.

(** [testing.go:119-129] testUnbindRequestPacket *)
Definition testUnbindRequestPacket (m : UnbindMessage) : packet :=
  let envelope := testRequestEnvelope (go_int (unbind_id m)) in
  let pkt := ber_Encode ClassApplication TypeConstructed ApplicationUnbindRequest
               VNil "Unbind Request" in
  mkpacket (AppendChild envelope pkt) false.

(** [testing.go:131-149] testModifyRequestPacket *)
Definition testModifyRequestPacket (m : ModifyMessage) : packet :=
  let envelope := testRequestEnvelope (go_int (modify_id m)) in
  let pkt := ber_Encode ClassApplication TypeConstructed ApplicationModifyRequest
               VNil "Modify Request" in
  let pkt := AppendChild pkt (newOctets (ModifyDN m) "DN") in
  let changes := ber_Encode ClassUniversal TypeConstructed TagSequence VNil "Changes" in
  let changes := appendAll Change_encode changes (Changes m) in
  let pkt := AppendChild pkt changes in
  mkpacket (appendControls (AppendChild envelope pkt) (ModifyControls m)) false.

(** [testing.go:151-164] testDeleteRequestPacket: the DN is written after the
    packet's own data *)
Definition testDeleteRequestPacket (m : DeleteMessage) : packet :=
  let envelope := testRequestEnvelope (go_int (delete_id m)) in
  let pkt := ber_Encode ClassApplication TypeConstructed ApplicationDelRequest
               VNil "Delete Request" in
  let pkt := set_Data (Data pkt +:+ DeleteDN m) pkt in
  mkpacket (appendControls (AppendChild envelope pkt) (DeleteControls m)) false.

(** [testing.go:166-184] testAddRequestPacket *)
Definition testAddRequestPacket (m : AddMessage) : packet :=
  let envelope := testRequestEnvelope (go_int (add_id m)) in
  let pkt := ber_Encode ClassApplication TypeConstructed ApplicationAddRequest
               VNil "Add Request" in
  let pkt := AppendChild pkt (newOctets (AddDN m) "DN") in
  let attributes := ber_Encode ClassUniversal TypeConstructed TagSequence VNil "Attributes" in
  let attributes := appendAll Attribute_encode attributes (AddAttributes m) in
  let pkt := AppendChild pkt attributes in
  mkpacket (appendControls (AppendChild envelope pkt) (AddControls m)) false.
End Message.
