(* ===== verification/MessageWire.v ===== *)
(** Round trips of request messages: what [newMessage] reads from the packets
    the encoders of [testing.go] build, as built and after the wire. *)
From stdpp Require Import base decidable option list strings gmap.
From Stdlib Require Import ZArith Lia.
From S2P Require Import Prelude GoStd Ber BerModel Codes Options Control Packet Entry Attribute Parameters Message.

Section envelope.
Context `{L : BerLaws}.

(** The controls that survive the way [w]. *)
Definition controls_ok (w : bool) (cs : list Control) : Prop :=
  Forall (λ c, control_wf c ∧ (w = true → control_size c < 2 ^ 30)) cs.

(** The packet of a request [req] with message id [id], sent the way [w]. *)
Definition sent (w : bool) (id : Z) (req : Packet) (cs : list Control) : Packet :=
  via w (appendControls (AppendChild (testRequestEnvelope id) req) cs).

Lemma TagType_envelope id req cs :
  TagType (appendControls (AppendChild (testRequestEnvelope id) req) cs) = TypeConstructed.
Proof. unfold appendControls, testRequestEnvelope. case_decide; by ber_simpl. Qed.

Lemma Children_sent w id req cs :
  Children (sent w id req cs) =
    via w (ber_NewInteger ClassUniversal TypePrimitive TagInteger
             (VInt64 (int64 id)) "MessageID")
    :: via w req
    :: if decide (0 < length cs)%nat then [via w (encodeControls cs)] else [].
Proof.
  unfold sent. rewrite Children_via by apply TagType_envelope.
  unfold appendControls, testRequestEnvelope. case_decide; by ber_simpl.
Qed.

Lemma is_envelope_sent w id req cs : is_envelope (sent w id req cs).
Proof.
  split; [rewrite Children_sent; simpl; lia|].
  unfold has_header, sent. rewrite ClassType_via, TagType_via, Tag_via, TagType_envelope.
  unfold appendControls, testRequestEnvelope. case_decide; by ber_simpl.
Qed.

Lemma int64_id z : in_int 64 z → int64 z = z.
Proof. by apply wrapS_id. Qed.

Lemma go_int_id z : in_int 64 z → go_int z = z.
Proof. by apply wrapS_id. Qed.

Lemma encodeControls_eq cs :
  encodeControls cs =
    appendAll Encode (ber_Encode ClassContext TypeConstructed 0 VNil "Controls") cs.
Proof. done. Qed.

Lemma decode_sent_controls w cs :
  controls_ok w cs →
  Forall2 (λ c ctrl, ∃ c', decodeControl (Some c) = Ok (ctrl, c'))
    (Children (via w (encodeControls cs))) cs.
Proof.
  intros Hcs. rewrite encodeControls_eq, Encode_eq.
  set (b := mkPacket _ _ _ _ _ _ _). destruct (header_appendAll Encode b cs) as (_ & H2 & _).
  rewrite Children_via, Children_appendAll by done. simpl. rewrite map_map.
  induction Hcs as [|c cs [Hwf Hsz] _ IH]; simpl; constructor; [|by apply IH, header_appendAll].
  by apply (decodeControl_arrives w c).
Qed.

Lemma requestControls_sent op w id req cs b :
  controls_ok w cs →
  ∃ q, requestControls op (mkpacket (sent w id req cs) b) = Ok (cs, q).
Proof.
  intros Hcs. destruct cs as [|c cs].
  { rewrite requestControls_none; [by eauto|]. simpl. rewrite Children_sent. simpl. lia. }
  apply (requestControls_some op _ (via w (encodeControls (c :: cs)))).
  - simpl. by rewrite Children_sent.
  - rewrite ClassType_via, encodeControls_eq, Encode_eq. apply header_appendAll.
  - rewrite TagType_via, encodeControls_eq, Encode_eq. apply header_appendAll.
  - by apply decode_sent_controls.
Qed.

Lemma requestMessageID_sent w id req cs :
  in_int 64 id →
  requestMessageID (mkpacket (sent w id req cs) true) =
    Ok (id, mkpacket (sent w id req cs) true).
Proof.
  intros Hid. unfold requestMessageID, basicValidation. simpl.
  rewrite Children_sent. simpl.
  rewrite assert_self_Ok by (unfold has_header; by ber_simpl). simpl.
  rewrite int64_id, Value_via_integer by tauto. done.
Qed.

(** The request inside: well headed, and of version 3 if it is a bind. *)
Definition good_request (w : bool) (req : Packet) : Prop :=
  ClassType req = ClassApplication ∧ TagType req = TypeConstructed ∧
  (Tag req = ApplicationBindRequest → bind_version (via w req) 3).

(** A request is read when its header is one of a request. *)
Lemma requestPacket_accepted w id req cs b :
  app_request req → (Tag req = ApplicationBindRequest → bind_version (via w req) 3) →
  requestPacket (mkpacket (sent w id req cs) b) =
    Ok (via w req, mkpacket (sent w id req cs) true).
Proof.
  intros Happ Hv. apply requestPacket_Ok_iff.
  { intros _. apply is_envelope_sent. }
  simpl. split; [done|]. split; [apply is_envelope_sent|].
  split; [by rewrite Children_sent|]. rewrite Tag_via. split; [|done].
  unfold app_request. by rewrite ClassType_via, TagType_via, Tag_via.
Qed.

Lemma newMessage_accepted `{LdapOps} w id req cs t :
  app_request req → (Tag req = ApplicationBindRequest → bind_version (via w req) 3) →
  in_int 64 id → tag_requestType (Tag req) = Some t →
  newMessage (mkpacket (sent w id req cs) false) =
    messageOf t id (mkpacket (sent w id req cs) true).
Proof.
  intros Happ Hv Hid Ht. unfold newMessage.
  rewrite (packet_requestType_eq _ _ _ (requestPacket_accepted w id req cs false Happ Hv)).
  rewrite Tag_via, Ht. simpl. by rewrite requestMessageID_sent.
Qed.

Lemma good_request_app w req : good_request w req → app_request req.
Proof.
  intros (Hc & Ht & _). split; [done|]. right. rewrite Ht.
  pose proof primitive_not_constructed. done.
Qed.

Lemma requestPacket_sent w id req cs b :
  good_request w req →
  requestPacket (mkpacket (sent w id req cs) b) =
    Ok (via w req, mkpacket (sent w id req cs) true).
Proof.
  intros Hreq. apply requestPacket_accepted; [by eapply good_request_app|apply Hreq].
Qed.

Lemma newMessage_sent `{LdapOps} w id req cs t :
  good_request w req → in_int 64 id → tag_requestType (Tag req) = Some t →
  newMessage (mkpacket (sent w id req cs) false) =
    messageOf t id (mkpacket (sent w id req cs) true).
Proof.
  intros Hreq. apply newMessage_accepted; [by eapply good_request_app|apply Hreq].
Qed.
End envelope.

#[global] Arguments sent {_} _ _ _ _ : simpl never.

Section children.
Context `{L : BerLaws}.

Lemma octetChild_Ok op text p i c :
  Children p !! i = Some c → has_header c ClassUniversal TypePrimitive TagOctetString →
  octetChild op text p i = Ok (Data c).
Proof.
  intros Hc Hh. unfold octetChild. rewrite (assert_child_Ok _ _ _ _ _ _ Hc Hh). simpl.
  by rewrite (index_Some _ _ _ Hc).
Qed.

Lemma int64Child_Ok op t1 t2 p tag i c z :
  Children p !! i = Some c → has_header c ClassUniversal TypePrimitive tag →
  Value c = VInt64 z → int64Child op t1 t2 p tag i = Ok z.
Proof.
  intros Hc Hh Hz. unfold int64Child. rewrite (assert_child_Ok _ _ _ _ _ _ Hc Hh). simpl.
  rewrite (index_Some _ _ _ Hc). simpl. by rewrite Hz.
Qed.

Lemma octetChild_via op text p w i s d :
  Children p !! i = Some (via w (newOctets s d)) → octetChild op text p i = Ok s.
Proof.
  intros Hc. destruct (via_octets w s d) as [Hh Hd].
  rewrite (octetChild_Ok _ _ _ _ _ Hc Hh). f_equal. exact Hd.
Qed.

Lemma int64Child_via op t1 t2 p tag w i z d :
  Children p !! i = Some (via w (ber_NewInteger ClassUniversal TypePrimitive tag
                                   (VInt64 (int64 z)) d)) →
  tag = TagInteger ∨ tag = TagEnumerated → in_int 64 z →
  int64Child op t1 t2 p tag i = Ok z.
Proof.
  intros Hc Ht Hz. eapply int64Child_Ok; [done|unfold has_header; by ber_simpl|].
  by rewrite int64_id, Value_via_integer.
Qed.
End children.

(** ** Messages *)

Section messages.
Context `{L : BerLaws} `{LdapOps}.

(** A packet with children appended one by one, as built or as read. *)
Ltac children :=
  rewrite Children_via by (by ber_simpl); by ber_simpl.

Lemma bind_roundtrip w m :
  in_int 64 (bind_id m) → AuthChoice m = SimpleAuthChoice → controls_ok w (BindControls m) →
  ∃ q, newMessage (mkpacket (via w (pkt (testSimpleBindRequestPacket m))) false) =
       Ok (MSimpleBind m, q).
Proof.
  destruct m as [id au u pw cs]. simpl. intros Hid -> Hcs. rewrite go_int_id by done.
  set (req := AppendChild (AppendChild (AppendChild _ _) _) _).
  assert (Children (via w req) =
    [via w (ber_NewInteger ClassUniversal TypePrimitive TagInteger (VInt64 3) "Version");
     via w (newOctets u "User Name");
     via w (ber_NewString ClassContext TypePrimitive 0 pw "Password")]) as Hch
    by (unfold req; children).
  assert (good_request w req) as Hreq.
  { split; [unfold req; by ber_simpl|]. split; [unfold req; by ber_simpl|]. intros _.
    eexists. rewrite Hch. split; [done|]. split; [unfold has_header; by ber_simpl|].
    apply Value_via_integer; [done|done|by left|done]. }
  change (via w _) with (sent w id req cs).
  rewrite (newMessage_sent w id req cs bindRequestType); [|done|done|by unfold req; ber_simpl].
  destruct (requestControls_sent "gldap.(Packet).simpleBindParameters" w id req cs true Hcs)
    as [q Hq].
  simpl. unfold simpleBindParameters. rewrite requestPacket_sent by done. simpl.
  rewrite (octetChild_via _ _ _ w _ u "User Name") by by rewrite Hch. simpl.
  rewrite Hch. simpl.
  erewrite (assert_child_Ok (via w req)); [|by rewrite Hch|unfold has_header; by ber_simpl].
  simpl. rewrite Hq. simpl. rewrite Data_via. ber_simpl. eauto.
Qed.

Lemma unbind_roundtrip w m :
  in_int 64 (unbind_id m) →
  ∃ q, newMessage (mkpacket (via w (pkt (testUnbindRequestPacket m))) false) =
       Ok (MUnbind m, q).
Proof.
  destruct m as [id]. simpl. intros Hid. rewrite go_int_id by done.
  set (req := ber_Encode _ _ _ _ _). change (via w _) with (sent w id req []).
  rewrite (newMessage_sent w id req [] unbindRequestType); [by eexists| |done|].
  - split; [unfold req; by ber_simpl|]. split; [unfold req; by ber_simpl|].
    unfold req. by ber_simpl.
  - unfold req. by ber_simpl.
Qed.

Lemma startTLS_roundtrip w id :
  in_int 64 id →
  ∃ q, newMessage (mkpacket (via w (pkt (testStartTLSRequestPacket id))) false) =
       Ok (MExtended (mkExtendedOperationMessage id ExtendedOperationStartTLS ""), q).
Proof.
  intros Hid. simpl. set (req := AppendChild (ber_Encode _ _ _ _ _) _).
  assert (Children (via w req) =
    [via w (ber_NewString ClassContext TypePrimitive 0 "1.3.6.1.4.1.1466.20037"
              "TLS Extended Command")]) as Hch by (unfold req; children).
  assert (good_request w req) as Hreq.
  { split; [unfold req; by ber_simpl|]. split; [unfold req; by ber_simpl|].
    unfold req. by ber_simpl. }
  change (via w _) with (sent w id req []).
  rewrite (newMessage_sent w id req [] extendedRequestType); [|done|done|by unfold req; ber_simpl].
  simpl. unfold extendedOperationName. rewrite requestPacket_sent by done. simpl.
  rewrite decide_False by (rewrite Tag_via; unfold req; ber_simpl; tauto).
  erewrite (assert_child_Ok (via w req)); [|by rewrite Hch|unfold has_header; by ber_simpl].
  simpl. rewrite Hch. simpl. rewrite Data_via. ber_simpl. eauto.
Qed.

Lemma delete_roundtrip m :
  in_int 64 (delete_id m) → controls_ok false (DeleteControls m) →
  ∃ q, newMessage (testDeleteRequestPacket m) = Ok (MDelete m, q).
Proof.
  destruct m as [id dn cs]. simpl. intros Hid Hcs. unfold testDeleteRequestPacket. simpl.
  rewrite go_int_id by done. set (req := set_Data _ _).
  assert (good_request false req) as Hreq.
  { split; [unfold req; by ber_simpl|]. split; [unfold req; by ber_simpl|].
    unfold req. by ber_simpl. }
  change (mkpacket _ _) with (mkpacket (sent false id req cs) false).
  rewrite (newMessage_sent false id req cs deleteRequestType);
    [|done|done|by unfold req; ber_simpl].
  destruct (requestControls_sent "gldap.(packet).deleteDN" false id req cs true Hcs) as [q Hq].
  simpl. unfold deleteParameters. rewrite requestPacket_sent by done. simpl.
  rewrite decide_False by (unfold req; ber_simpl; tauto).
  rewrite Hq. simpl. unfold req. ber_simpl. rewrite app_nil_l_str. eauto.
Qed.

(** A sequence of encoded items. *)
Lemma via_items {A} w (f : A → Packet) d xs
    (s := via w (appendAll f (ber_Encode ClassUniversal TypeConstructed TagSequence VNil d) xs)) :
  has_header s ClassUniversal TypeConstructed TagSequence ∧
  Children s = map (λ x, via w (f x)) xs.
Proof.
  unfold s. rewrite Encode_eq. set (b := mkPacket _ _ _ _ _ _ _).
  destruct (header_appendAll f b xs) as (H1 & H2 & H3).
  unfold has_header. rewrite ClassType_via, TagType_via, Tag_via, H1, H2, H3.
  split; [done|]. rewrite Children_via, Children_appendAll by done. simpl. by rewrite map_map.
Qed.

Lemma mapM_map_Ok {X Y W} (f : X → Y) (g : Y → outcome W) (h : X → W) xs :
  (∀ x, x ∈ xs → g (f x) = Ok (h x)) → mapM g (map f xs) = Ok (map h xs).
Proof.
  induction xs as [|x xs IH]; intros Hg; simpl; [done|].
  rewrite Hg by constructor. simpl. rewrite IH; [done|].
  intros y Hy. apply Hg. by constructor.
Qed.

Lemma add_roundtrip w m :
  in_int 64 (add_id m) → controls_ok w (AddControls m) →
  ∃ q, newMessage (mkpacket (via w (pkt (testAddRequestPacket m))) false) = Ok (MAdd m, q).
Proof.
  destruct m as [id dn attrs cs]. simpl. intros Hid Hcs. rewrite go_int_id by done.
  set (req := AppendChild (AppendChild (ber_Encode _ _ _ _ _) _) _).
  destruct (via_items w Attribute_encode "Attributes" attrs) as [Hh Hit].
  set (items := via w _) in Hh, Hit.
  assert (Children (via w req) = [via w (newOctets dn "DN"); items]) as Hch
    by (unfold req, items; children).
  assert (good_request w req) as Hreq.
  { split; [unfold req; by ber_simpl|]. split; [unfold req; by ber_simpl|].
    unfold req. by ber_simpl. }
  change (via w _) with (sent w id req cs).
  rewrite (newMessage_sent w id req cs addRequestType); [|done|done|by unfold req; ber_simpl].
  destruct (requestControls_sent "gldap.(Packet).addParameters" w id req cs true Hcs) as [q Hq].
  simpl. unfold packet_addParameters. rewrite requestPacket_sent by done. simpl.
  rewrite decide_False by (rewrite Tag_via; unfold req; ber_simpl; tauto).
  rewrite (octetChild_via _ _ _ w _ dn "DN") by by rewrite Hch. simpl.
  erewrite (assert_child_Ok (via w req)); [|by rewrite Hch|done].
  simpl. rewrite Hch. simpl. rewrite Hit.
  rewrite (mapM_map_Ok _ _ (λ a, a)); [|intros a _; by rewrite decodeAttribute_via].
  simpl. rewrite Hq. simpl. rewrite map_id. eauto.
Qed.

(** The values of a change as [newMessage] delivers them: one string, the
    encodings of the values one after the other. *)
Definition raw_vals (vals : list string) : string :=
  foldr (λ v s, Packet_Bytes (newOctets v "Vals") +:+ s) "" vals.

Definition raw_change (c : Change) : Change :=
  mkChange (Operation c)
    (mkPartialAttribute (PartialType (Modification c))
       [raw_vals (PartialVals (Modification c))]).

Lemma Data_appendVals p vals : Data (appendVals p vals) = Data p +:+ raw_vals vals.
Proof.
  unfold appendVals, appendAll. revert p. induction vals as [|v vals IH]; intros p; simpl.
  { by rewrite app_nil_r_str. }
  rewrite IH, Data_AppendChild. unfold newOctets. by rewrite app_assoc_str.
Qed.

Lemma modifyChange_via w c :
  in_int 64 (Operation c) → modifyChange (via w (Change_encode c)) = Ok (raw_change c).
Proof.
  destruct c as [o [ty vals]]. simpl. intros Ho. unfold Change_encode. simpl.
  unfold PartialAttribute_encode. simpl.
  set (md := encodeTyped _ _ _). set (chg := AppendChild _ _).
  assert (Children (via w chg) =
    [via w (ber_NewInteger ClassUniversal TypePrimitive TagEnumerated
              (VInt64 (int64 o)) "Operation"); via w md]) as Hch
    by (unfold chg; children).
  unfold modifyChange.
  rewrite assert_self_Ok by (unfold has_header, chg; by ber_simpl). simpl.
  rewrite (int64Child_via _ _ _ _ _ w _ o "Operation"); [|by rewrite Hch|by right|done].
  simpl. erewrite (assert_child_Ok (via w chg)); [|by rewrite Hch|apply header_encodeTyped].
  simpl. rewrite Hch. simpl. unfold md.
  rewrite (octetChild_via _ _ _ w _ ty "Type") by by rewrite Children_via_encodeTyped.
  simpl. rewrite Children_via_encodeTyped. simpl.
  rewrite Data_via, Data_appendVals, Encode_eq. simpl. by rewrite app_nil_l_str.
Qed.

Lemma modify_roundtrip w m :
  in_int 64 (modify_id m) → controls_ok w (ModifyControls m) →
  Forall (λ c, in_int 64 (Operation c)) (Changes m) →
  ∃ q, newMessage (mkpacket (via w (pkt (testModifyRequestPacket m))) false) =
       Ok (MModify (mkModifyMessage (modify_id m) (ModifyDN m)
                      (map raw_change (Changes m)) (ModifyControls m)), q).
Proof.
  destruct m as [id dn chs cs]. simpl. intros Hid Hcs Hops. rewrite go_int_id by done.
  set (req := AppendChild (AppendChild (ber_Encode _ _ _ _ _) _) _).
  destruct (via_items w Change_encode "Changes" chs) as [Hh Hit].
  set (items := via w _) in Hh, Hit.
  assert (Children (via w req) = [via w (newOctets dn "DN"); items]) as Hch
    by (unfold req, items; children).
  assert (good_request w req) as Hreq.
  { split; [unfold req; by ber_simpl|]. split; [unfold req; by ber_simpl|].
    unfold req. by ber_simpl. }
  change (via w _) with (sent w id req cs).
  rewrite (newMessage_sent w id req cs modifyRequestType); [|done|done|by unfold req; ber_simpl].
  destruct (requestControls_sent "gldap.(packet).modifyParameters" w id req cs true Hcs)
    as [q Hq].
  simpl. unfold packet_modifyParameters. rewrite requestPacket_sent by done. simpl.
  rewrite decide_False by (rewrite Tag_via; unfold req; ber_simpl; tauto).
  rewrite (octetChild_via _ _ _ w _ dn "DN") by by rewrite Hch. simpl.
  erewrite (assert_child_Ok (via w req)); [|by rewrite Hch|done].
  simpl. rewrite Hch. simpl. rewrite Hit.
  rewrite (mapM_map_Ok _ _ raw_change).
  2:{ intros c Hc. apply modifyChange_via. by eapply Forall_forall in Hops. }
  simpl. rewrite Hq. simpl. eauto.
Qed.

Lemma search_roundtrip w m fp :
  in_int 64 (search_id m) → in_int 64 (Scope m) → in_int 64 (DerefAliases m) →
  in_int 64 (SizeLimit m) → in_int 64 (TimeLimit m) → controls_ok w (SearchControls m) →
  CompileFilter (Filter m) = Ok fp → DecompileFilter (via w fp) = Ok (Filter m) →
  ∃ p q, testSearchRequestPacket m = Ok p ∧
         newMessage (mkpacket (via w (pkt p)) false) = Ok (MSearch m, q).
Proof.
  destruct m as [id base scope deref tl sl types filter attrs cs]. simpl.
  intros Hid Hsc Hde Hsl Htl Hcs Hc Hd. unfold testSearchRequestPacket. simpl.
  rewrite Hc. simpl. rewrite go_int_id by done.
  set (req := AppendChild (AppendChild _ _) (appendAll _ _ _)).
  destruct (via_items w (λ a, newOctets a "Attribute") "Attributes" attrs) as [Hh Hit].
  set (items := via w _) in Hh, Hit.
  set (int tag z d := via w (ber_NewInteger ClassUniversal TypePrimitive tag
                               (VInt64 (int64 z)) d)).
  assert (Children (via w req) =
    [via w (newOctets base "Base DN"); int TagEnumerated scope "Scope";
     int TagEnumerated deref "Deref Aliases"; int TagInteger sl "Size Limit";
     int TagInteger tl "Time Limit";
     via w (ber_NewBoolean ClassUniversal TypePrimitive TagBoolean types "Types Only");
     via w fp; items]) as Hch by (unfold req, items; children).
  assert (good_request w req) as Hreq.
  { split; [unfold req; by ber_simpl|]. split; [unfold req; by ber_simpl|].
    unfold req. by ber_simpl. }
  destruct (requestControls_sent "gldap.(Packet).searchParmeters" w id req cs true Hcs)
    as [q Hq].
  eexists _, q. split; [reflexivity|]. cbn [pkt]. change (via w _) with (sent w id req cs).
  rewrite (newMessage_sent w id req cs searchRequestType); [|done|done|by unfold req; ber_simpl].
  simpl. unfold searchParmeters. rewrite requestPacket_sent by done. simpl.
  rewrite decide_False by (rewrite Tag_via; unfold req; ber_simpl; tauto).
  rewrite (octetChild_via _ _ _ w _ base "Base DN") by by rewrite Hch. simpl.
  rewrite (int64Child_via _ _ _ _ TagEnumerated w 1 scope "Scope"); [|by rewrite Hch|by right|done]. simpl.
  rewrite (int64Child_via _ _ _ _ TagEnumerated w 2 deref "Deref Aliases"); [|by rewrite Hch|by right|done].
  simpl.
  rewrite (int64Child_via _ _ _ _ TagInteger w 3 sl "Size Limit"); [|by rewrite Hch|by left|done]. simpl.
  rewrite (int64Child_via _ _ _ _ TagInteger w 4 tl "Time Limit"); [|by rewrite Hch|by left|done]. simpl.
  erewrite (assert_child_Ok (via w req) _ _ TagBoolean 5); [|by rewrite Hch|unfold has_header; by ber_simpl].
  simpl. rewrite Hch. simpl. rewrite Value_via_boolean. simpl. rewrite Hd. simpl.
  erewrite (assert_child_Ok (via w req) _ _ TagSequence 7); [|by rewrite Hch|done]. simpl.
  rewrite octetChildren_Ok.
  2:{ rewrite Hit. apply Forall_forall. intros c (a & <- & _)%list_elem_of_In%in_map_iff.
      apply via_octets. }
  simpl. rewrite Hq. simpl. rewrite Hit, map_map, go_int_id by done.
  assert (map (λ a, Data (via w (newOctets a "Attribute"))) attrs = attrs) as ->; [|done].
  rewrite <-(map_id attrs) at 2. apply map_ext. intros a. exact (proj2 (via_octets w a _)).
Qed.
End messages.

(** ** Bytes *)

Section bytes.
Context `{L : BerLaws} `{LdapOps}.

Abbreviation len s := (Z.of_nat (String.length s)).

(** The encoded size of a list of controls, from above. *)
Definition controls_size (cs : list Control) : Z := sumZ (λ c, control_size c + 306) cs.

Lemma control_size_nonneg c : 0 ≤ control_size c.
Proof. destruct c; simpl; lia. Qed.

Lemma controls_size_nonneg cs : 0 ≤ controls_size cs.
Proof. apply sumZ_nonneg. intros c. pose proof (control_size_nonneg c). lia. Qed.

Lemma sumZ_elem {A} (f : A → Z) xs x : (∀ x, 0 ≤ f x) → x ∈ xs → f x ≤ sumZ f xs.
Proof.
  intros Hf. induction 1 as [x xs|x y xs _ IH]; simpl.
  - pose proof (sumZ_nonneg f xs Hf). lia.
  - specialize (Hf y). lia.
Qed.

Lemma controls_ok_size cs :
  Forall control_wf cs → controls_size cs < 2 ^ 30 → controls_ok true cs.
Proof.
  intros Hwf Hsz. apply Forall_forall. intros c Hc.
  split; [by eapply Forall_forall in Hwf|]. intros _.
  assert (control_size c + 306 ≤ controls_size cs); [|lia].
  apply (sumZ_elem (λ c, control_size c + 306)); [|done].
  intros x. pose proof (control_size_nonneg x). lia.
Qed.

Lemma enc_encodeControls cs :
  Forall control_wf cs → controls_size cs < 2 ^ 30 →
  enc (encodeControls cs) (controls_size cs).
Proof.
  intros Hwf Hsz. rewrite encodeControls_eq.
  apply (enc_appendAll _ _ 0 (λ c, control_size c + 300)).
  - apply enc_Encode; [set_solver|done].
  - by ber_simpl.
  - intros c. pose proof (control_size_nonneg c). lia.
  - pose proof (controls_ok_size cs Hwf Hsz) as Hok.
    apply Forall_forall. intros c Hc. eapply Forall_forall in Hok as [Hc1 Hc2]; [|done].
    destruct (enc_Encode_control c Hc1 (Hc2 eq_refl)) as (n & Hn & Hle).
    by eapply enc_le.
  - unfold controls_size in *.
    assert (∀ cs, sumZ (λ x, control_size x + 300 + 6) cs = sumZ (λ c, control_size c + 306) cs)
      as -> by (induction cs0; simpl; lia). lia.
Qed.

(** The bytes of a request's envelope decode to what [via true] says. *)
Lemma envelope_decodes id req n cs :
  in_int 64 id → enc req n → 0 ≤ n → Forall control_wf cs →
  n + controls_size cs < 2 ^ 30 →
  ber_DecodePacketErr
    (Packet_Bytes (appendControls (AppendChild (testRequestEnvelope id) req) cs)) =
  Ok (sent true id req cs).
Proof.
  intros Hid Hreq Hn Hwf Hsz. pose proof (controls_size_nonneg cs).
  assert (enc (AppendChild (testRequestEnvelope id) req) (n + 20)) as He.
  { unfold testRequestEnvelope. rewrite int64_id by done.
    apply (enc_AppendChild _ _ 14 n); [| |done|lia]; [|by ber_simpl].
    apply (enc_AppendChild _ _ 0 8); [| | |lia].
    - apply enc_Encode; [set_solver|]. by rewrite law_TagSequence.
    - by ber_simpl.
    - by apply (enc_NewInteger _ _ _ _ id); [left; eauto|..]. }
  eapply (enc_decode _ (n + 20 + controls_size cs + 6)).
  unfold appendControls. case_decide; [|eapply enc_le; [done|lia]].
  eapply enc_AppendChild; [done| |apply enc_encodeControls; [done|lia]|lia].
  unfold testRequestEnvelope. by ber_simpl.
Qed.

(** A request packet built child by child. *)
Lemma enc_request g d :
  0 ≤ g < 31 → enc (ber_Encode ClassApplication TypeConstructed g VNil d) 0.
Proof. intros. apply enc_Encode; [set_solver|done]. Qed.

Lemma enc_newOctets s d n : len s ≤ n → n < 2 ^ 31 → enc (newOctets s d) n.
Proof. intros. unfold newOctets. rewrite NewString_eq. by apply enc_octets. Qed.

Lemma enc_int tag z d :
  tag = TagInteger ∨ tag = TagEnumerated → in_int 64 z →
  enc (ber_NewInteger ClassUniversal TypePrimitive tag (VInt64 (int64 z)) d) 8.
Proof. intros Ht Hz. rewrite int64_id by done. apply (enc_NewInteger _ _ _ _ z); [by left|done..]. Qed.
End bytes.

(** ** Properties *)

Section properties.
Context `{L : BerLaws} `{LdapOps}.

Abbreviation len s := (Z.of_nat (String.length s)).

(** Bounds on the bytes a request takes. *)
Definition bind_size (m : SimpleBindMessage) : Z :=
  len (UserName m) + len (Password m) + controls_size (BindControls m).
Definition add_size (m : AddMessage) : Z :=
  len (AddDN m) + sumZ (λ a, typed_size (Type_ a) (Vals a) + 6) (AddAttributes m) +
  controls_size (AddControls m).
Definition change_size (c : Change) : Z :=
  typed_size (PartialType (Modification c)) (PartialVals (Modification c)) + 20.
Definition modify_size (m : ModifyMessage) : Z :=
  len (ModifyDN m) + sumZ (λ c, change_size c + 6) (Changes m) +
  controls_size (ModifyControls m).
Definition search_size (m : SearchMessage) : Z :=
  len (BaseDN m) + sumZ (λ a, len a + 6) (SearchAttributes m) +
  controls_size (SearchControls m).

Lemma enc_attributes attrs k :
  sumZ (λ a, typed_size (Type_ a) (Vals a) + 6) attrs ≤ k < 2 ^ 31 →
  enc (appendAll Attribute_encode
         (ber_Encode ClassUniversal TypeConstructed TagSequence VNil "Attributes") attrs) k.
Proof.
  intros Hk. apply (enc_appendAll _ _ 0 (λ a, typed_size (Type_ a) (Vals a))); [| | | |lia].
  - apply enc_Encode; [set_solver|]. by rewrite law_TagSequence.
  - by ber_simpl.
  - intros a. pose proof (typed_size_pos (Type_ a) (Vals a)). lia.
  - apply Forall_forall. intros a Ha. apply enc_encodeTyped. split; [done|].
    pose proof (sumZ_elem (λ a, typed_size (Type_ a) (Vals a) + 6) attrs a) as Hle.
    simpl in Hle. assert (typed_size (Type_ a) (Vals a) + 6 ≤
      sumZ (λ a, typed_size (Type_ a) (Vals a) + 6) attrs); [|lia].
    apply Hle; [|done]. intros x. pose proof (typed_size_pos (Type_ x) (Vals x)). lia.
Qed.

Lemma enc_Change c k :
  in_int 64 (Operation c) → change_size c ≤ k < 2 ^ 31 → enc (Change_encode c) k.
Proof.
  intros Ho Hk. unfold Change_encode, change_size in *.
  set (sz := typed_size _ _) in *.
  apply (enc_AppendChild _ _ 14 sz); [|by ber_simpl|apply enc_encodeTyped; fold sz; lia|lia].
  apply (enc_AppendChild _ _ 0 8); [|by ber_simpl|apply enc_int; [by right|done]|lia].
  apply enc_Encode; [set_solver|]. by rewrite law_TagSequence.
Qed.

Lemma enc_changes chs k :
  Forall (λ c, in_int 64 (Operation c)) chs →
  sumZ (λ c, change_size c + 6) chs ≤ k < 2 ^ 31 →
  enc (appendAll Change_encode
         (ber_Encode ClassUniversal TypeConstructed TagSequence VNil "Changes") chs) k.
Proof.
  assert (∀ c, 0 ≤ change_size c) as Hpos.
  { intros c. unfold change_size.
    pose proof (typed_size_pos (PartialType (Modification c)) (PartialVals (Modification c))).
    lia. }
  intros Ho Hk. apply (enc_appendAll _ _ 0 change_size); [| |done| |lia].
  - apply enc_Encode; [set_solver|]. by rewrite law_TagSequence.
  - by ber_simpl.
  - apply Forall_forall. intros c Hc. apply enc_Change; [by eapply Forall_forall in Ho|].
    assert (change_size c + 6 ≤ sumZ (λ c, change_size c + 6) chs); [|lia].
    apply (sumZ_elem (λ c, change_size c + 6)); [|done]. intros x. specialize (Hpos x). lia.
Qed.

(** Codes of requests are tags of one octet. *)
Ltac tag_range := by vm_compute.

Lemma bind_wire m :
  in_int 64 (bind_id m) → AuthChoice m = SimpleAuthChoice →
  Forall control_wf (BindControls m) → bind_size m < 2 ^ 29 →
  ∃ p q, ber_DecodePacketErr (Packet_Bytes (pkt (testSimpleBindRequestPacket m))) = Ok p ∧
         newMessage (mkpacket p false) = Ok (MSimpleBind m, q).
Proof.
  intros Hid Hau Hwf Hsz. unfold bind_size in Hsz.
  pose proof (controls_size_nonneg (BindControls m)).
  destruct (bind_roundtrip true m Hid Hau) as [q Hq]; [apply controls_ok_size; [done|lia]|].
  eexists _, q. split; [|exact Hq]. simpl. rewrite go_int_id by done.
  apply (envelope_decodes _ _ (len (UserName m) + len (Password m) + 26)); [done| |lia|done|lia].
  apply (enc_AppendChild _ _ (len (UserName m) + 20) (len (Password m))); [|by ber_simpl| |lia].
  - apply (enc_AppendChild _ _ 14 (len (UserName m))); [|by ber_simpl|apply enc_newOctets; lia|lia].
    apply (enc_AppendChild _ _ 0 8); [apply enc_request; tag_range|by ber_simpl| |lia].
    by apply (enc_NewInteger _ _ _ _ 3); [left; eauto|..].
  - rewrite NewString_eq. apply enc_context; lia.
Qed.

(** C4. A simple bind request with well-formed controls and of a size below 2^29 survives the
    wire: the bytes a client sends for it decode to a packet from which [newMessage] reads the
    same message, credentials and controls included. *)
Theorem bind_wire_roundtrip m :
  in_int 64 (bind_id m) → AuthChoice m = SimpleAuthChoice →
  Forall control_wf (BindControls m) → bind_size m < 2 ^ 29 →
  ∃ p q, ber_DecodePacketErr (Packet_Bytes (pkt (testSimpleBindRequestPacket m))) = Ok p ∧
         newMessage (mkpacket p false) = Ok (MSimpleBind m, q).
Proof. apply bind_wire. Qed.

Lemma add_wire m :
  in_int 64 (add_id m) → Forall control_wf (AddControls m) → add_size m < 2 ^ 29 →
  ∃ p q, ber_DecodePacketErr (Packet_Bytes (pkt (testAddRequestPacket m))) = Ok p ∧
         newMessage (mkpacket p false) = Ok (MAdd m, q).
Proof.
  intros Hid Hwf Hsz. unfold add_size in Hsz.
  pose proof (controls_size_nonneg (AddControls m)).
  set (sz := sumZ _ _) in Hsz. assert (0 ≤ sz).
  { apply sumZ_nonneg. intros a. pose proof (typed_size_pos (Type_ a) (Vals a)). lia. }
  destruct (add_roundtrip true m Hid) as [q Hq]; [apply controls_ok_size; [done|lia]|].
  eexists _, q. split; [|exact Hq]. simpl. rewrite go_int_id by done.
  apply (envelope_decodes _ _ (len (AddDN m) + sz + 12)); [done| |lia|done|lia].
  apply (enc_AppendChild _ _ (len (AddDN m) + 6) sz); [|by ber_simpl|apply enc_attributes; fold sz; lia|lia].
  apply (enc_AppendChild _ _ 0 (len (AddDN m))); [apply enc_request; tag_range|by ber_simpl| |lia].
  apply enc_newOctets; lia.
Qed.

(** An add request survives the wire, with every attribute, each with its
    values in order, and its controls. *)
Theorem add_wire_roundtrip m :
  in_int 64 (add_id m) → Forall control_wf (AddControls m) → add_size m < 2 ^ 29 →
  ∃ p q, ber_DecodePacketErr (Packet_Bytes (pkt (testAddRequestPacket m))) = Ok p ∧
         newMessage (mkpacket p false) = Ok (MAdd m, q).
Proof. apply add_wire. Qed.

Lemma modify_wire m :
  in_int 64 (modify_id m) → Forall control_wf (ModifyControls m) →
  Forall (λ c, in_int 64 (Operation c)) (Changes m) → modify_size m < 2 ^ 29 →
  ∃ p q, ber_DecodePacketErr (Packet_Bytes (pkt (testModifyRequestPacket m))) = Ok p ∧
         newMessage (mkpacket p false) =
           Ok (MModify (mkModifyMessage (modify_id m) (ModifyDN m)
                          (map raw_change (Changes m)) (ModifyControls m)), q).
Proof.
  intros Hid Hwf Hops Hsz. unfold modify_size in Hsz.
  pose proof (controls_size_nonneg (ModifyControls m)).
  set (sz := sumZ _ _) in Hsz. assert (0 ≤ sz).
  { apply sumZ_nonneg. intros c. unfold change_size.
    pose proof (typed_size_pos (PartialType (Modification c)) (PartialVals (Modification c))).
    lia. }
  destruct (modify_roundtrip true m Hid) as [q Hq]; [apply controls_ok_size; [done|lia]|done|].
  eexists _, q. split; [|exact Hq]. simpl. rewrite go_int_id by done.
  apply (envelope_decodes _ _ (len (ModifyDN m) + sz + 12)); [done| |lia|done|lia].
  apply (enc_AppendChild _ _ (len (ModifyDN m) + 6) sz);
    [|by ber_simpl|apply enc_changes; [done|fold sz; lia]|lia].
  apply (enc_AppendChild _ _ 0 (len (ModifyDN m)));
    [apply enc_request; tag_range|by ber_simpl|apply enc_newOctets; lia|lia].
Qed.

(** C6. A modify request reaches [newMessage] with its id, DN, controls and the
    operation and type of each change; the values of a change arrive as one
    string, the BER encodings of the values one after the other. *)
Theorem modify_wire_roundtrip m :
  in_int 64 (modify_id m) → Forall control_wf (ModifyControls m) →
  Forall (λ c, in_int 64 (Operation c)) (Changes m) → modify_size m < 2 ^ 29 →
  ∃ p q, ber_DecodePacketErr (Packet_Bytes (pkt (testModifyRequestPacket m))) = Ok p ∧
         newMessage (mkpacket p false) =
           Ok (MModify (mkModifyMessage (modify_id m) (ModifyDN m)
                          (map raw_change (Changes m)) (ModifyControls m)), q).
Proof. apply modify_wire. Qed.

Lemma search_wire m fp :
  in_int 64 (search_id m) → in_int 64 (Scope m) → in_int 64 (DerefAliases m) →
  in_int 64 (SizeLimit m) → in_int 64 (TimeLimit m) →
  Forall control_wf (SearchControls m) → search_size m < 2 ^ 28 →
  CompileFilter (Filter m) = Ok fp → enc fp (2 ^ 28) →
  DecompileFilter (reparse fp) = Ok (Filter m) →
  ∃ sp p q, testSearchRequestPacket m = Ok sp ∧
    ber_DecodePacketErr (Packet_Bytes (pkt sp)) = Ok p ∧
    newMessage (mkpacket p false) = Ok (MSearch m, q).
Proof.
  intros Hid Hsc Hde Hsl Htl Hwf Hsz Hc He Hd. unfold search_size in Hsz.
  pose proof (controls_size_nonneg (SearchControls m)).
  set (sz := sumZ _ _) in Hsz. assert (0 ≤ sz) by (apply sumZ_nonneg; intros; lia).
  destruct (search_roundtrip true m fp) as (sp & q & Hsp & Hq);
    [done..|apply controls_ok_size; [done|lia]|done|done|].
  exists sp, (via true (pkt sp)), q. split; [done|]. split; [|exact Hq].
  unfold testSearchRequestPacket in Hsp. rewrite Hc in Hsp. simpl in Hsp. simplify_eq.
  cbn [pkt]. rewrite go_int_id by done. set (n := len (BaseDN m)) in *.
  apply (envelope_decodes _ _ (n + sz + 2 ^ 28 + 100)); [done| |lia|done|lia].
  apply (enc_AppendChild _ _ (n + 2 ^ 28 + 90) sz); [|by ber_simpl| |lia].
  2:{ apply (enc_appendAll _ _ 0 (λ a, len a)); [| |intros; lia| |fold sz; lia].
      - apply enc_Encode; [set_solver|]. by rewrite law_TagSequence.
      - by ber_simpl.
      - apply Forall_forall. intros a Ha. apply enc_newOctets; [done|].
        assert (len a + 6 ≤ sz); [|lia].
        apply (sumZ_elem (λ a, len a + 6)); [intros; lia|done]. }
  apply (enc_AppendChild _ _ (n + 84) (2 ^ 28)); [|by ber_simpl|done|lia].
  apply (enc_AppendChild _ _ (n + 70) 1); [|by ber_simpl|apply enc_NewBoolean|lia].
  apply (enc_AppendChild _ _ (n + 56) 8); [|by ber_simpl|apply enc_int; [by left|done]|lia].
  apply (enc_AppendChild _ _ (n + 42) 8); [|by ber_simpl|apply enc_int; [by left|done]|lia].
  apply (enc_AppendChild _ _ (n + 28) 8); [|by ber_simpl|apply enc_int; [by right|done]|lia].
  apply (enc_AppendChild _ _ (n + 6) 8); [|by ber_simpl|apply enc_int; [by right|done]|lia].
  apply (enc_AppendChild _ _ 0 n); [apply enc_request; tag_range|by ber_simpl| |lia].
  apply enc_newOctets; lia.
Qed.

(** C5. A search request survives the wire: base, scope, limits, attributes,
    controls and filter are read as they were sent, provided the filter
    compiles to an encodable packet that decompiles to the same filter. *)
Theorem search_wire_roundtrip m fp :
  in_int 64 (search_id m) → in_int 64 (Scope m) → in_int 64 (DerefAliases m) →
  in_int 64 (SizeLimit m) → in_int 64 (TimeLimit m) →
  Forall control_wf (SearchControls m) → search_size m < 2 ^ 28 →
  CompileFilter (Filter m) = Ok fp → enc fp (2 ^ 28) →
  DecompileFilter (reparse fp) = Ok (Filter m) →
  ∃ sp p q, testSearchRequestPacket m = Ok sp ∧
    ber_DecodePacketErr (Packet_Bytes (pkt sp)) = Ok p ∧
    newMessage (mkpacket p false) = Ok (MSearch m, q).
Proof. apply search_wire. Qed.

(** Unbind and StartTLS requests survive the wire: [newMessage] gives an
    unbind with the same id, and an extended operation with the StartTLS name. *)
Theorem unbind_startTLS_wire_roundtrip id :
  in_int 64 id →
  (∃ p q, ber_DecodePacketErr
            (Packet_Bytes (pkt (testUnbindRequestPacket (mkUnbindMessage id)))) = Ok p ∧
          newMessage (mkpacket p false) = Ok (MUnbind (mkUnbindMessage id), q)) ∧
  (∃ p q, ber_DecodePacketErr (Packet_Bytes (pkt (testStartTLSRequestPacket id))) = Ok p ∧
          newMessage (mkpacket p false) =
            Ok (MExtended (mkExtendedOperationMessage id ExtendedOperationStartTLS ""), q)).
Proof.
  intros Hid. split.
  - destruct (unbind_roundtrip true (mkUnbindMessage id) Hid) as [q Hq].
    eexists _, q. split; [|exact Hq]. simpl. rewrite go_int_id by done.
    by apply (envelope_decodes id _ 0 []); [|apply enc_request; tag_range|..].
  - destruct (startTLS_roundtrip true id Hid) as [q Hq].
    eexists _, q. split; [|exact Hq]. simpl.
    apply (envelope_decodes id _ 40 []); [done| |done|done|done].
    apply (enc_AppendChild _ _ 0 22); [apply enc_request; tag_range|by ber_simpl| |lia].
    rewrite NewString_eq. apply enc_context; [done|vm_compute; congruence|lia].
Qed.

(** A delete request as RFC 4511 has it: a primitive packet that holds the DN. *)
Definition delete_request (m : DeleteMessage) : Packet :=
  appendControls (AppendChild (testRequestEnvelope (delete_id m))
    (ber_NewString ClassApplication TypePrimitive ApplicationDelRequest (DeleteDN m) "DN"))
    (DeleteControls m).

Lemma delete_wire m :
  in_int 64 (delete_id m) → Forall control_wf (DeleteControls m) →
  len (DeleteDN m) + controls_size (DeleteControls m) < 2 ^ 29 →
  ∃ p q, ber_DecodePacketErr (Packet_Bytes (delete_request m)) = Ok p ∧
         newMessage (mkpacket p false) = Ok (MDelete m, q).
Proof.
  destruct m as [id dn cs]. unfold delete_request. simpl. intros Hid Hwf Hsz.
  pose proof (controls_size_nonneg cs).
  set (req := ber_NewString _ _ _ _ _). exists (sent true id req cs).
  assert (app_request req) as Happ.
  { unfold req. rewrite NewString_eq. split; [done|]. left. split; [done|]. by left. }
  assert (Tag req = ApplicationDelRequest) as Htag by (unfold req; by rewrite NewString_eq).
  assert (Tag req = ApplicationBindRequest → bind_version (via true req) 3) as Hb by by rewrite Htag.
  destruct (requestControls_sent "gldap.(packet).deleteDN" true id req cs true) as [q Hq].
  { apply controls_ok_size; [done|lia]. }
  exists q. split.
  - apply (envelope_decodes _ _ (len dn)); [done| |lia|done|lia].
    unfold req. rewrite NewString_eq. split; [|simpl; lia].
    constructor; [set_solver|tag_range| |simpl; lia].
    rewrite law_ClassApplication, law_ClassUniversal. done.
  - rewrite (newMessage_accepted true id req cs deleteRequestType Happ Hb Hid) by by rewrite Htag.
    assert (Data (via true req) = dn) as Hdn by (rewrite Data_via; unfold req; by rewrite NewString_eq).
    rewrite <-(Tag_via true) in Htag. cbn [messageOf]. unfold deleteParameters.
    rewrite (requestPacket_accepted true id req cs true Happ Hb). simpl in *.
    rewrite decide_False by (rewrite Htag; tauto). by rewrite Hq, Hdn.
Qed.

Lemma unbind_wire m :
  in_int 64 (unbind_id m) →
  ∃ p q, ber_DecodePacketErr (Packet_Bytes (pkt (testUnbindRequestPacket m))) = Ok p ∧
         newMessage (mkpacket p false) = Ok (MUnbind m, q).
Proof.
  intros Hid. destruct (unbind_roundtrip true m Hid) as [q Hq].
  eexists _, q. split; [|exact Hq]. simpl. rewrite go_int_id by done.
  by apply (envelope_decodes (unbind_id m) _ 0 []); [|apply enc_request; tag_range|..].
Qed.

(** A delete request is read as it was built: the DN from the content of
    the request's packet, with its controls. *)
Theorem delete_packet_roundtrip m :
  in_int 64 (delete_id m) → Forall control_wf (DeleteControls m) →
  ∃ q, newMessage (testDeleteRequestPacket m) = Ok (MDelete m, q).
Proof.
  intros Hid Hwf. apply delete_roundtrip; [done|].
  eapply Forall_impl; [exact Hwf|]. by intros c Hc.
Qed.
End properties.

(** ** Witnesses *)

(** What follows the attribute in a presence filter. *)
Definition presence : string := "=" +:+ "*" +:+ ")".

(** Presence filters as RFC 4511 encodes them: a primitive packet with context
    tag 7 that holds the attribute. *)
Definition ldap_presence : LdapOps := {|
  CompileFilter s :=
    Ok (mkPacket 128 0 7 VNil (GoStrings.TrimSuffix (GoStrings.TrimPrefix s "(") presence) [] "");
  DecompileFilter p := Ok ("(" +:+ Data p +:+ presence);
|}.

Definition bind_example : SimpleBindMessage :=
  mkSimpleBindMessage 7 SimpleAuthChoice "cn=alice" "secret" [ControlPaging 10 "c"].

Lemma bind_wire_roundtrip_witness :
  ∃ p q, @ber_DecodePacketErr ber_model (@Packet_Bytes ber_model
           (pkt (@testSimpleBindRequestPacket ber_model bind_example))) = Ok p ∧
         @newMessage ber_model ldap_presence (mkpacket p false) =
           Ok (MSimpleBind bind_example, q).
Proof.
  apply (@bind_wire_roundtrip ber_model ber_model_laws ldap_presence bind_example).
  - by vm_compute.
  - reflexivity.
  - constructor; [|constructor]. vm_compute. split; congruence.
  - by vm_compute.
Defined.

Definition add_example : AddMessage :=
  mkAddMessage 8 "cn=bob" [mkAttribute "mail" ["b@x"; "b@y"]; mkAttribute "cn" []]
    [ControlManageDsaIT true].

Lemma add_wire_roundtrip_witness :
  ∃ p q, @ber_DecodePacketErr ber_model (@Packet_Bytes ber_model
           (pkt (@testAddRequestPacket ber_model add_example))) = Ok p ∧
         @newMessage ber_model ldap_presence (mkpacket p false) = Ok (MAdd add_example, q).
Proof.
  apply (@add_wire_roundtrip ber_model ber_model_laws ldap_presence add_example).
  - by vm_compute.
  - constructor; [|constructor]. exact I.
  - by vm_compute.
Defined.

Definition modify_example : ModifyMessage :=
  mkModifyMessage 9 "cn=bob"
    [mkChange AddAttribute (mkPartialAttribute "mail" ["b@x"; "b@y"])] [].

Lemma modify_wire_roundtrip_witness :
  ∃ p q, @ber_DecodePacketErr ber_model (@Packet_Bytes ber_model
           (pkt (@testModifyRequestPacket ber_model modify_example))) = Ok p ∧
         @newMessage ber_model ldap_presence (mkpacket p false) =
           Ok (MModify (mkModifyMessage 9 "cn=bob"
             (map (@raw_change ber_model) (Changes modify_example)) []), q).
Proof.
  apply (@modify_wire_roundtrip ber_model ber_model_laws ldap_presence modify_example).
  - by vm_compute.
  - constructor.
  - constructor; [|constructor]. by vm_compute.
  - by vm_compute.
Defined.

Definition search_example : SearchMessage :=
  mkSearchMessage 10 "ou=people" WholeSubtree 0 30 100 false ("(cn" +:+ presence) ["cn"; "mail"]
    [ControlPaging 5 ""].

Lemma search_wire_roundtrip_witness :
  ∃ sp p q, @testSearchRequestPacket ber_model ldap_presence search_example = Ok sp ∧
    @ber_DecodePacketErr ber_model (@Packet_Bytes ber_model (pkt sp)) = Ok p ∧
    @newMessage ber_model ldap_presence (mkpacket p false) = Ok (MSearch search_example, q).
Proof.
  apply (@search_wire_roundtrip ber_model ber_model_laws ldap_presence search_example
           (mkPacket 128 0 7 VNil "cn" [] "")).
  - by vm_compute.
  - by vm_compute.
  - by vm_compute.
  - by vm_compute.
  - by vm_compute.
  - constructor; [|constructor]. vm_compute. split; congruence.
  - by vm_compute.
  - by vm_compute.
  - split; [|simpl; lia].
    apply (@encodable_primitive ber_model 128); [set_solver|lia|done|simpl; lia].
  - by vm_compute.
Defined.

Lemma unbind_startTLS_wire_roundtrip_witness :
  (∃ p q, @ber_DecodePacketErr ber_model (@Packet_Bytes ber_model
            (pkt (@testUnbindRequestPacket ber_model (mkUnbindMessage 3)))) = Ok p ∧
          @newMessage ber_model ldap_presence (mkpacket p false) =
            Ok (MUnbind (mkUnbindMessage 3), q)).
Proof.
  apply (@unbind_startTLS_wire_roundtrip ber_model ber_model_laws ldap_presence 3).
  by vm_compute.
Defined.

Lemma delete_packet_roundtrip_witness :
  ∃ q, @newMessage ber_model ldap_presence
         (@testDeleteRequestPacket ber_model (mkDeleteMessage 4 "cn=bob" [])) =
       Ok (MDelete (mkDeleteMessage 4 "cn=bob" []), q).
Proof.
  apply (@delete_packet_roundtrip ber_model ber_model_laws ldap_presence
           (mkDeleteMessage 4 "cn=bob" [])).
  - by vm_compute.
  - constructor.
Defined.
