(* ===== verification/MessageSafety.v ===== *)
(** What [newMessage] does on any packet at all: which message it returns, and
    the only ways it can panic. *)
From stdpp Require Import base decidable option list strings gmap.
From Stdlib Require Import ZArith Lia.
From S2P Require Import Prelude GoStd Ber BerModel Codes Options Control Packet Entry Attribute Parameters Message MessageWire.

(** The type of the request a message answers to. *)
Definition message_type (m : Message) : requestType :=
  match m with
  | MSearch _ => searchRequestType
  | MSimpleBind _ => bindRequestType
  | MExtended _ => extendedRequestType
  | MModify _ => modifyRequestType
  | MAdd _ => addRequestType
  | MDelete _ => deleteRequestType
  | MUnbind _ => unbindRequestType
  end.

Section no_panic.
Context `{BerOps} `{LL : LdapLaws}.

(** A bind request of a version other than 3, the case of [packet.go:106]. *)
Definition bad_version (p : Packet) : Prop :=
  ∃ r z, Children p !! 1%nat = Some r ∧ Tag r = ApplicationBindRequest ∧
         bind_version r z ∧ z ≠ 3 ∧ ∀ y, Value r ≠ VInt64 y.

(** A packet whose controls all decode or fail with an error. *)
Definition controls_safe (p : Packet) : Prop :=
  ∀ c, c ∈ control_children p → no_panic (decodeControl (Some c)).

Lemma requestPacket_safe p :
  packet_wf p → ¬ bad_version (pkt p) → no_panic (requestPacket p).
Proof.
  intros Hwf Hv w Hw.
  assert (∃ w, requestPacket p = Panic w) as (_ & r & z & ? & ? & ? & ? & ? & ?)%requestPacket_Panic_iff
    by eauto; [|done].
  apply Hv. exists r, z. eauto 6.
Qed.

(** Every parameter method starts with [requestPacket]. *)
Lemma no_panic_requestPacket {A} op p (k : Packet → packet → outcome A) :
  packet_wf p → ¬ bad_version (pkt p) →
  (∀ r, no_panic (k r (mkpacket (pkt p) true))) →
  no_panic ('(r, q) ← wrapErr op "" (requestPacket p); k r q).
Proof.
  intros Hwf Hv Hk. apply no_panic_bind; [by apply no_panic_wrapErr, requestPacket_safe|].
  intros [r q] Hr%wrapErr_Ok_inv. apply requestPacket_Ok_iff in Hr as (-> & _); [|done].
  apply Hk.
Qed.

Lemma octetChild_no_panic op t p i : no_panic (octetChild op t p i).
Proof. by apply no_panic_assert_replace. Qed.

Lemma int64Child_no_panic op t1 t2 p tag i : no_panic (int64Child op t1 t2 p tag i).
Proof. apply no_panic_assert_replace. intros c _. by destruct (Value c). Qed.

Lemma modifyChange_no_panic c : no_panic (modifyChange c).
Proof.
  unfold modifyChange.
  apply no_panic_bind; [apply no_panic_replaceErr, assert_no_panic|]. intros _ _.
  apply no_panic_bind; [apply int64Child_no_panic|]. intros o _.
  apply no_panic_assert_replace. intros md _.
  apply no_panic_bind; [apply octetChild_no_panic|]. intros ty _. by case_decide.
Qed.

Section params.
Variable p : packet.
Hypothesis Hwf : packet_wf p.
Hypothesis Hv : ¬ bad_version (pkt p).
Hypothesis Hc : controls_safe (pkt p).

Lemma requestControls_safe op b : no_panic (requestControls op (mkpacket (pkt p) b)).
Proof. by apply requestControls_no_panic. Qed.

Lemma simpleBindParameters_no_panic : no_panic (simpleBindParameters p).
Proof.
  apply no_panic_requestPacket; [done|done|]. intros r.
  apply no_panic_bind; [apply octetChild_no_panic|]. intros u _. case_decide; [done|].
  apply no_panic_assert_replace. intros pw _.
  apply no_panic_bind; [apply requestControls_safe|]. by intros [].
Qed.

Lemma extendedOperationName_no_panic : no_panic (extendedOperationName p).
Proof.
  apply no_panic_requestPacket; [done|done|]. intros r. case_decide; [done|].
  by apply no_panic_assert_replace.
Qed.

Lemma deleteParameters_no_panic : no_panic (deleteParameters p).
Proof.
  apply no_panic_requestPacket; [done|done|]. intros r. case_decide; [done|].
  apply no_panic_bind; [apply requestControls_safe|]. by intros [].
Qed.

Lemma modifyParameters_no_panic : no_panic (packet_modifyParameters p).
Proof.
  apply no_panic_requestPacket; [done|done|]. intros r. case_decide; [done|].
  apply no_panic_bind; [apply octetChild_no_panic|]. intros dn _.
  apply no_panic_assert_replace. intros chs _.
  apply no_panic_bind; [by apply no_panic_mapM; intros; apply modifyChange_no_panic|].
  intros changes _. apply no_panic_bind; [apply requestControls_safe|]. by intros [].
Qed.

Lemma addParameters_no_panic : no_panic (packet_addParameters p).
Proof.
  apply no_panic_requestPacket; [done|done|]. intros r. case_decide; [done|].
  apply no_panic_bind; [apply octetChild_no_panic|]. intros dn _.
  apply no_panic_assert_replace. intros attrs _.
  apply no_panic_bind.
  { apply no_panic_mapM. intros. apply no_panic_wrapErr, decodeAttribute_no_panic. }
  intros attributes _. apply no_panic_bind; [apply requestControls_safe|]. by intros [].
Qed.

Lemma searchParmeters_no_panic : no_panic (searchParmeters p).
Proof.
  apply no_panic_requestPacket; [done|done|]. intros r. case_decide; [done|].
  apply no_panic_bind; [apply octetChild_no_panic|]. intros base _.
  do 4 (apply no_panic_bind; [apply int64Child_no_panic|]; intros ? _).
  apply no_panic_assert_replace. intros types _.
  apply no_panic_bind; [by destruct (Value types)|]. intros b _. case_decide; [done|].
  apply no_panic_bind; [apply no_panic_index; lia|]. intros fp _.
  apply no_panic_bind; [apply no_panic_wrapErr, law_DecompileFilter_no_panic|]. intros f _.
  case_decide; [done|].
  apply no_panic_assert_child; [by intros; apply no_panic_wrapErr|by intros ?? ?%wrapErr_Ok_inv|].
  intros attrs _. apply no_panic_bind; [apply octetChildren_no_panic|]. intros attributes _.
  apply no_panic_bind; [apply requestControls_safe|]. by intros [].
Qed.
End params.

Lemma messageOf_no_panic t id p :
  packet_wf p → ¬ bad_version (pkt p) → controls_safe (pkt p) → no_panic (messageOf t id p).
Proof.
  intros Hwf Hv Hc. destruct t; simpl; try done;
    (apply no_panic_bind;
     [apply no_panic_wrapErr|
      intros x _; repeat match goal with y : _ * _ |- _ => destruct y end; done]).
  - by apply simpleBindParameters_no_panic.
  - by apply searchParmeters_no_panic.
  - by apply extendedOperationName_no_panic.
  - by apply modifyParameters_no_panic.
  - by apply addParameters_no_panic.
  - by apply deleteParameters_no_panic.
Qed.

Lemma fresh_wf q : packet_wf (mkpacket q false).
Proof. done. Qed.

Lemma packet_requestType_Ok_inv p t q :
  packet_wf p → packet_requestType p = Ok (t, q) →
  q = mkpacket (pkt p) true ∧ is_envelope (pkt p) ∧
  ∃ r, Children (pkt p) !! 1%nat = Some r ∧ tag_requestType (Tag r) = Some t ∧
       requestPacket p = Ok (r, q).
Proof.
  intros Hwf Ht. destruct (requestPacket p) as [[r q']| |] eqn:Hr.
  - rewrite (packet_requestType_eq _ _ _ Hr) in Ht.
    destruct (tag_requestType (Tag r)) eqn:Et; [|done]. simplify_eq.
    pose proof Hr as (-> & He & Hch & _)%requestPacket_Ok_iff; eauto 8.
  - unfold packet_requestType in Ht. by rewrite Hr in Ht.
  - unfold packet_requestType in Ht. by rewrite Hr in Ht.
Qed.

Lemma newMessage_no_panic p :
  packet_wf p → ¬ bad_version (pkt p) → controls_safe (pkt p) → no_panic (newMessage p).
Proof.
  intros Hwf Hv Hc. unfold newMessage. apply no_panic_bind.
  { apply no_panic_wrapErr. unfold packet_requestType.
    apply no_panic_requestPacket; [done|done|]. intros r. by repeat case_decide. }
  intros [t q] Ht%wrapErr_Ok_inv%packet_requestType_Ok_inv; [|done].
  destruct Ht as (-> & He & _). assert (packet_wf (mkpacket (pkt p) true)) as Hwf'
    by (intros _; exact He).
  apply no_panic_bind; [by apply no_panic_wrapErr, requestMessageID_no_panic|].
  intros [id q] Hq%wrapErr_Ok_inv%requestMessageID_Ok_inv; [|done].
  destruct Hq as (-> & _). by apply messageOf_no_panic.
Qed.
End no_panic.

(** ** What a returned message says of its packet *)

Section soundness.
Context `{BerOps} `{LdapOps}.

Lemma messageOf_type t id p m q :
  t ≠ unknownRequestType → messageOf t id p = Ok (m, q) →
  message_type m = t ∧ GetID m = id.
Proof.
  intros Ht. destruct t; simpl; try done; intros Hm; inv_ok;
    repeat match goal with y : _ * _ |- _ => destruct y end; by simplify_eq.
Qed.

Lemma newMessage_Ok_inv p m q :
  packet_wf p → newMessage p = Ok (m, q) →
  is_envelope (pkt p) ∧
  ∃ r, Children (pkt p) !! 1%nat = Some r ∧ app_request r ∧
       tag_requestType (Tag r) = Some (message_type m) ∧
       (Tag r = ApplicationBindRequest → bind_version r 3) ∧
       ∃ c, Children (pkt p) !! 0%nat = Some c ∧ Value c = VInt64 (GetID m).
Proof.
  intros Hwf Hm. unfold newMessage in Hm.
  apply bind_Ok_inv in Hm as ([t p1] & Ht%wrapErr_Ok_inv & Hm).
  apply (packet_requestType_Ok_inv _ _ _ Hwf) in Ht as (-> & He & r & Hr & Ht & Hreq).
  apply requestPacket_Ok_iff in Hreq as (_ & _ & _ & Happ & Hv); [|done].
  assert (packet_wf (mkpacket (pkt p) true)) as Hwf' by (intros _; exact He).
  apply bind_Ok_inv in Hm as ([id p2] & Hid%wrapErr_Ok_inv & Hm).
  apply (requestMessageID_Ok_inv _ _ _ Hwf') in Hid as (-> & _ & c & Hc & Hid). simpl in *.
  destruct (messageOf_type t id (mkpacket (pkt p) true) m q) as [<- <-]; [|done|].
  - intros ->. unfold tag_requestType in Ht. by repeat case_decide.
  - eauto 10.
Qed.
End soundness.

(** ** Properties *)

Section properties.
Context `{B : BerOps} `{LL : LdapLaws}.

(** C1. [newMessage] returns a message or an error on any fresh packet, however
    malformed, unless the request is a bind of a version other than 3 or
    [decodeControl] panics on one of its controls. *)
Theorem newMessage_total p :
  ¬ bad_version p → controls_safe p →
  (∃ m q, newMessage (mkpacket p false) = Ok (m, q)) ∨
  (∃ e, newMessage (mkpacket p false) = Err e).
Proof.
  intros Hv Hc.
  pose proof (newMessage_no_panic (mkpacket p false)) as Hnp.
  destruct (newMessage (mkpacket p false)) as [[m q]|e|w]; [by eauto|by eauto|].
  by destruct (Hnp ltac:(done) Hv Hc w).
Qed.

(** C2. A message that [newMessage] returns comes from an LDAP envelope: its
    id is the integer in the first child, its kind is the one of the
    application tag of the second, and a bind announces version 3. *)
Theorem newMessage_sound p m q :
  newMessage (mkpacket p false) = Ok (m, q) →
  is_envelope p ∧
  ∃ r, Children p !! 1%nat = Some r ∧ app_request r ∧
       tag_requestType (Tag r) = Some (message_type m) ∧
       (Tag r = ApplicationBindRequest → bind_version r 3) ∧
       ∃ c, Children p !! 0%nat = Some c ∧ Value c = VInt64 (GetID m).
Proof. intros Hm. by apply (newMessage_Ok_inv (mkpacket p false) m q). Qed.

(** C35. Any bind request of a version other than 3 read from the wire makes
    [newMessage] panic: the error message asserts the type of the value of the
    request packet, which a constructed packet does not have. *)
Theorem newMessage_bind_version_panics p r z :
  is_envelope p → Children p !! 1%nat = Some r → ClassType r = ClassApplication →
  TagType r = TypeConstructed → TypePrimitive ≠ TypeConstructed →
  Tag r = ApplicationBindRequest →
  Value r = VNil → bind_version r z → z ≠ 3 →
  ∃ w, newMessage (mkpacket p false) = Panic w.
Proof.
  intros He Hr Hc Ht Hne Hg Hval Hv Hz.
  assert (∃ w, requestPacket (mkpacket p false) = Panic w) as [w Hw].
  { apply requestPacket_Panic_iff; [done|]. split; [done|]. exists r, z.
    split; [done|]. split; [split; [done|right; split; congruence]|]. rewrite Hval. done. }
  exists w. unfold newMessage, packet_requestType. by rewrite Hw.
Qed.

(** A bind request with more than three children is read as a bind with an
    empty password and no controls, whatever its password and controls were. *)
Theorem bind_extra_child_drops_password p m q :
  newMessage (mkpacket p false) = Ok (MSimpleBind m, q) →
  (∃ r, Children p !! 1%nat = Some r ∧ (3 < length (Children r))%nat) →
  Password m = "" ∧ BindControls m = [].
Proof.
  intros Hm (r & Hr & Hl). unfold newMessage in Hm.
  apply bind_Ok_inv in Hm as ([t p1] & Ht%wrapErr_Ok_inv & Hm).
  apply (packet_requestType_Ok_inv _ _ _ (fresh_wf p)) in Ht as (-> & He & r' & Hr' & Ht & Hreq). simplify_eq/=.
  assert (packet_wf (mkpacket p true)) as Hwf by (intros _; exact He).
  apply bind_Ok_inv in Hm as ([id p2] & Hid%wrapErr_Ok_inv & Hm).
  apply (requestMessageID_Ok_inv _ _ _ Hwf) in Hid as (-> & _). destruct t; simpl in Hm; inv_ok;
    repeat match goal with y : _ * _ |- _ => destruct y end; simplify_eq/=.
  unfold simpleBindParameters in *. inv_ok.
  repeat match goal with y : _ * _ |- _ => destruct y end.
  match goal with H : requestPacket _ = Ok _ |- _ =>
    apply requestPacket_Ok_iff in H as (-> & _ & Hr2 & _) end; [|done].
  simplify_eq/=. inv_ok. by repeat case_decide; simplify_eq/=; [|lia].
Qed.
End properties.

(** ** Witnesses *)

(** [DecompileFilter] of presence filters never fails. *)
Lemma ldap_presence_laws : LdapLaws ldap_presence.
Proof. constructor. by intros p w. Qed.

(** A packet that is not an LDAP message. *)
(** A bind request of version 3 with a control. *)
Definition safe_bind : Packet :=
  pkt (@testSimpleBindRequestPacket ber_model
    (mkSimpleBindMessage 1 SimpleAuthChoice "cn=bob" "secret" [ControlPaging 5 "x"])).

Lemma newMessage_total_witness :
  length (Children safe_bind) = 3%nat ∧
  ((∃ m q, @newMessage ber_model ldap_presence (mkpacket safe_bind false) = Ok (m, q)) ∨
   (∃ e, @newMessage ber_model ldap_presence (mkpacket safe_bind false) = Err e)).
Proof.
  split; [by vm_compute|].
  apply (@newMessage_total ber_model ldap_presence ldap_presence_laws safe_bind).
  - intros (r & z & Hr & _ & Hv & Hz & _). vm_compute in Hr. injection Hr as <-.
    destruct Hv as (v & Hv & _ & Hz'). vm_compute in Hv. injection Hv as <-.
    injection Hz' as <-. by apply Hz.
  - intros c Hc w Hw. vm_compute in Hc. inversion Hc; subst; [vm_compute in Hw; discriminate Hw|].
    match goal with H : c ∈ [] |- _ => inversion H end.
Defined.

Lemma newMessage_sound_witness :
  ∃ m q, @newMessage ber_model ldap_presence
           (@testUnbindRequestPacket ber_model (mkUnbindMessage 3)) = Ok (m, q) ∧
         @is_envelope ber_model (pkt (@testUnbindRequestPacket ber_model (mkUnbindMessage 3))).
Proof.
  eexists _, _. split; [vm_compute; reflexivity|].
  eapply (@newMessage_sound ber_model ldap_presence). vm_compute. reflexivity.
Defined.

(** A bind request of version 2. *)
Definition bind_v2 : Packet :=
  mkPacket 0 32 16 VNil ""
    [mkPacket 0 0 2 (VInt64 1) "" [] "";
     mkPacket 64 32 0 VNil "" [mkPacket 0 0 2 (VInt64 2) "" [] ""] ""] "".

Lemma newMessage_bind_version_panics_witness :
  ∃ w, @newMessage ber_model ldap_presence (mkpacket bind_v2 false) = Panic w.
Proof.
  apply (@newMessage_bind_version_panics ber_model ldap_presence bind_v2
           (mkPacket 64 32 0 VNil "" [mkPacket 0 0 2 (VInt64 2) "" [] ""] "") 2);
    try reflexivity; try discriminate.
  - split; [simpl; lia|]. by vm_compute.
  - eexists. split; [reflexivity|]. by vm_compute.
Defined.

(** A bind request with a fourth child after the password. *)
Definition bind_extra : Packet :=
  mkPacket 0 32 16 VNil ""
    [mkPacket 0 0 2 (VInt64 1) "" [] "";
     mkPacket 64 32 0 VNil ""
       [mkPacket 0 0 2 (VInt64 3) "" [] ""; mkPacket 0 0 4 (VString "u") "u" [] "";
        mkPacket 128 0 0 VNil "secret" [] ""; mkPacket 0 0 4 (VString "x") "x" [] ""] ""] "".

Lemma bind_extra_child_drops_password_witness :
  ∃ m q, @newMessage ber_model ldap_presence (mkpacket bind_extra false) =
           Ok (MSimpleBind m, q) ∧ UserName m = "u" ∧ Password m = "".
Proof.
  eexists _, _. split; [vm_compute; reflexivity|]. split; [reflexivity|].
  eapply (@bind_extra_child_drops_password ber_model ldap_presence bind_extra).
  - vm_compute. reflexivity.
  - eexists. split; [reflexivity|]. simpl. lia.
Defined.
