(* ===== verification/MessageTypes.v ===== *)
(** The types of what [newMessage] returns: every integer of a message is one
    its Go field can hold, and a decoded control is one the library could have
    built itself. *)
From stdpp Require Import base decidable option list strings gmap.
From Stdlib Require Import ZArith Lia.
From S2P Require Import Prelude GoStd Ber BerModel Codes Options Control Packet Entry Attribute Parameters Message MessageWire MessageSafety.

(** An interface value whose integer fits its dynamic type. *)
Definition value_typed (v : goval) : Prop :=
  match v with
  | VInt64 z => in_int 64 z
  | VInt16 z => in_int 16 z
  | VInt8 z => in_int 8 z
  | _ => True
  end.

(** A packet that can exist in a Go program: so do its children. *)
Inductive typed : Packet → Prop :=
| typed_intro c t g v d cs ds :
    value_typed v → Forall typed cs → typed (mkPacket c t g v d cs ds).

Lemma typed_Value p : typed p → value_typed (Value p).
Proof. by destruct 1. Qed.
Lemma typed_Children p : typed p → Forall typed (Children p).
Proof. by destruct 1. Qed.
Lemma typed_child p i c : typed p → Children p !! i = Some c → typed c.
Proof. intros Hp Hc. by apply (Forall_lookup_1 _ _ _ _ (typed_Children p Hp) Hc). Qed.

(** The Go fields of the controls, and the values of a Behera policy: no
    error, or one of the nine codes with its text. *)
Definition behera_typed (c : beheraPasswordPolicy) : Prop :=
  in_int 64 (expire c) ∧ in_int 64 (grace c) ∧
  ((error_ c = -1 ∧ errorString c = "") ∨
   (0 <= error_ c <= 8 ∧ errorString c = map_get BeheraPasswordPolicyErrorMap (error_ c))).

Definition control_typed (c : Control) : Prop :=
  match c with
  | ControlBeheraPasswordPolicy c => behera_typed c
  | ControlVChuPasswordWarning e => in_int 64 e
  | ControlPaging size _ => in_uint 32 size
  | _ => True
  end.

(** The Go fields of the messages. *)
Definition message_typed (m : Message) : Prop :=
  in_int 64 (GetID m) ∧
  match m with
  | MSearch s =>
      in_int 64 (Scope s) ∧ in_int 64 (DerefAliases s) ∧ in_int 64 (TimeLimit s) ∧
      in_int 64 (SizeLimit s) ∧ Forall control_typed (SearchControls s)
  | MSimpleBind b => Forall control_typed (BindControls b)
  | MModify x =>
      Forall (λ ch, in_int 64 (Operation ch)) (Changes x) ∧
      Forall control_typed (ModifyControls x)
  | MAdd a => Forall control_typed (AddControls a)
  | MDelete d => Forall control_typed (DeleteControls d)
  | MExtended _ | MUnbind _ => True
  end.

Section controls.
Context `{L : BerLaws}.

Lemma decodePaging_typed v c w : decodePaging v = Ok (c, w) → control_typed c.
Proof.
  destruct v as [v|]; simpl; intros Hc; [|by inv_ok].
  inv_ok. destruct (Children _); inv_ok. apply wrapU_range. lia.
Qed.

Lemma beheraElement_typed c p c' p' :
  behera_typed c → beheraElement c p = Ok (c', p') → behera_typed c'.
Proof.
  unfold beheraElement. intros Hc He. case_decide; [|case_decide].
  - inv_ok. match goal with H : ber_ParseInt64 _ = Ok _ |- _ => apply law_ParseInt64_range in H end.
    repeat case_decide; simplify_eq; unfold behera_typed in *; simpl; tauto.
  - destruct (bytes (Data p)) as [|b [|]] eqn:Eb; inv_ok; [].
    case_decide; simplify_eq. destruct Hc as (? & ? & _). split; [done|]. split; [done|]. right.
    assert (0 <= b < 256) as Hb.
    { pose proof (bytes_range (Data p)) as Hr. rewrite Eb in Hr. by apply Forall_cons in Hr as [? _]. }
    simpl. assert (int8 b = b) as -> by (apply wrapS_id; unfold in_int; lia). split; [lia|done].
  - by simplify_eq.
Qed.

Lemma beheraElements_typed cs c c' cs' :
  behera_typed c → beheraElements c cs = Ok (c', cs') → behera_typed c'.
Proof.
  revert c cs'. induction cs as [|p cs IH]; simpl; intros c cs' Hc He; [by simplify_eq|].
  inv_ok. destruct x as [c1 p1]. inv_ok. destruct x as [c2 cs2]. simplify_eq.
  eapply IH; [|eassumption]. by eapply beheraElement_typed.
Qed.

Lemma decodeBehera_typed v c w : decodeBehera v = Ok (c, w) → control_typed c.
Proof.
  unfold decodeBehera. rewrite NewControlBehera_default. set (c0 := mkBehera _ _ _ _).
  assert (behera_typed c0) as H0 by (split_and!; [by vm_compute|by vm_compute|by left]).
  destruct v as [v|]; simpl; intros Hc; [|by inv_ok]. apply bind_Ok_inv in Hc as (v' & _ & Hc).
  destruct (Children v'); [done|]. inv_ok. destruct x as [c1 els]. simplify_eq.
  by eapply beheraElements_typed.
Qed.

Lemma decodeVChuWarning_typed v c w : decodeVChuWarning v = Ok (c, w) → control_typed c.
Proof.
  destruct v; simpl; intros Hc; inv_ok; [|by vm_compute].
  by eapply Strconv.ParseInt_range.
Qed.

Lemma decodeControl_typed p c q : decodeControl p = Ok (c, q) → control_typed c.
Proof.
  destruct p as [p|]; [|done]. unfold decodeControl. intros Hc.
  apply bind_Ok_inv in Hc as ([[[ct crit] at_] p'] & _ & Hc).
  apply bind_Ok_inv in Hc as ([c' v] & Hv & Hc). injection Hc as <- _.
  unfold decodeControlValue in Hv. repeat case_decide;
    eauto using decodePaging_typed, decodeBehera_typed, decodeVChuWarning_typed;
    simpl in Hv; try by simplify_eq.
  destruct (_ ≫= _); inv_ok; done.
Qed.

Lemma decodeControlList_typed op cs controls cs' :
  decodeControlList op cs = Ok (controls, cs') → Forall control_typed controls.
Proof.
  revert controls cs'. induction cs as [|p cs IH]; simpl; intros controls cs' Hc; [by simplify_eq|].
  inv_ok. destruct x as [c p']. inv_ok. destruct x as [cl cs1]. simplify_eq.
  constructor; [by eapply decodeControl_typed|by eapply IH].
Qed.

Lemma requestControls_typed op p controls q :
  requestControls op p = Ok (controls, q) → Forall control_typed controls.
Proof.
  unfold requestControls. intros Hc. apply bind_Ok_inv in Hc as (o & _ & Hc).
  destruct o; [|by simplify_eq]. inv_ok. destruct x as [cl cs]. simplify_eq.
  by eapply decodeControlList_typed.
Qed.
End controls.

Section messages.
Context `{L : BerLaws} `{LdapOps}.

Lemma int64Child_typed op t1 t2 p tag i z :
  typed p → int64Child op t1 t2 p tag i = Ok z → in_int 64 z.
Proof.
  unfold int64Child. intros Hp Hz. inv_ok.
  match goal with H : Children p !! _ = Some ?c |- _ =>
    pose proof (typed_Value _ (typed_child _ _ _ Hp H)) as Hc; destruct (Value c); by simplify_eq end.
Qed.

Lemma requestPacket_typed p r q :
  packet_wf p → typed (pkt p) → requestPacket p = Ok (r, q) → typed r.
Proof.
  intros Hwf Hp Hr. apply requestPacket_Ok_iff in Hr as (_ & _ & Hc & _); [|done].
  by eapply typed_child.
Qed.

Lemma modifyChange_typed p ch : typed p → modifyChange p = Ok ch → in_int 64 (Operation ch).
Proof.
  unfold modifyChange. intros Hp Hc.
  apply bind_Ok_inv in Hc as (_ & _ & Hc). apply bind_Ok_inv in Hc as (o & Ho & Hc).
  apply (int64Child_typed _ _ _ _ _ _ _ Hp) in Ho. inv_ok. case_decide; by simplify_eq.
Qed.

(** What each method of a valid packet returns. *)
Section params.
Variable p : packet.
Hypothesis Hwf : packet_wf p.
Hypothesis Hp : typed (pkt p).

Lemma bind_typed u w cs q :
  simpleBindParameters p = Ok (u, w, cs, q) → Forall control_typed cs.
Proof.
  unfold simpleBindParameters. intros H1. apply bind_Ok_inv in H1 as ([r p1] & _ & H1).
  apply bind_Ok_inv in H1 as (? & _ & H1). case_decide; [by simplify_eq|]. inv_ok.
  destruct x2 as [cs' p2]. simplify_eq. by eapply requestControls_typed.
Qed.

Lemma delete_typed dn cs q : deleteParameters p = Ok (dn, cs, q) → Forall control_typed cs.
Proof.
  unfold deleteParameters. intros H1. apply bind_Ok_inv in H1 as ([r p1] & _ & H1).
  case_decide; [done|]. inv_ok. destruct x as [cs' p2]. simplify_eq.
  by eapply requestControls_typed.
Qed.

Lemma add_typed a q : packet_addParameters p = Ok (a, q) → Forall control_typed (add_controls a).
Proof.
  unfold packet_addParameters. intros H1. apply bind_Ok_inv in H1 as ([r p1] & _ & H1).
  case_decide; [done|]. do 4 apply bind_Ok_inv in H1 as (? & _ & H1).
  apply bind_Ok_inv in H1 as ([cs p2] & Hc & H1). simplify_eq.
  by eapply requestControls_typed.
Qed.

Lemma modify_typed m q :
  packet_modifyParameters p = Ok (m, q) →
  Forall (λ ch, in_int 64 (Operation ch)) (modify_changes m) ∧
  Forall control_typed (modify_controls m).
Proof.
  unfold packet_modifyParameters. intros H1.
  apply bind_Ok_inv in H1 as ([r p1] & Hr%wrapErr_Ok_inv & H1).
  pose proof (requestPacket_typed _ _ _ Hwf Hp Hr) as Htr.
  case_decide; [done|]. do 2 apply bind_Ok_inv in H1 as (? & _ & H1).
  apply bind_Ok_inv in H1 as (chp & Hchp%index_Ok_inv & H1).
  apply bind_Ok_inv in H1 as (chs & Hchs & H1).
  apply bind_Ok_inv in H1 as ([cs p2] & Hc & H1). simplify_eq.
  split; [|by eapply requestControls_typed]. simpl.
  pose proof (typed_Children _ (typed_child _ _ _ Htr Hchp)) as Htc.
  apply mapM_Ok_inv in Hchs. induction Hchs as [|c ch l chs Hch _ IH]; [constructor|].
  apply Forall_cons in Htc as [? ?]. constructor; [by eapply modifyChange_typed|by apply IH].
Qed.

Lemma search_typed s q :
  searchParmeters p = Ok (s, q) →
  in_int 64 (search_scope s) ∧ in_int 64 (search_derefAliases s) ∧
  in_int 64 (search_sizeLimit s) ∧ in_int 64 (search_timeLimit s) ∧
  Forall control_typed (search_controls s).
Proof.
  unfold searchParmeters. intros H1.
  apply bind_Ok_inv in H1 as ([r p1] & Hr%wrapErr_Ok_inv & H1).
  pose proof (requestPacket_typed _ _ _ Hwf Hp Hr) as Htr.
  case_decide; [done|]. apply bind_Ok_inv in H1 as (? & _ & H1).
  do 4 (apply bind_Ok_inv in H1 as (? & ?%(int64Child_typed _ _ _ _ _ _ _ Htr) & H1)).
  do 3 apply bind_Ok_inv in H1 as (? & _ & H1).
  case_decide; [done|]. do 2 apply bind_Ok_inv in H1 as (? & _ & H1).
  case_decide; [by simplify_eq; split_and!|].
  do 3 apply bind_Ok_inv in H1 as (? & _ & H1).
  apply bind_Ok_inv in H1 as ([cs p2] & Hc & H1). simplify_eq.
  split_and!; try done. by eapply requestControls_typed.
Qed.

Lemma messageOf_typed t id m q :
  in_int 64 id → messageOf t id p = Ok (m, q) → message_typed m.
Proof.
  intros Hid Hm. unfold message_typed. destruct t; cbn [messageOf] in Hm.
  - by simplify_eq.
  - apply bind_Ok_inv in Hm as ([[[u w] cs] p1] & H1%wrapErr_Ok_inv & Hm). simplify_eq.
    split; [done|]. by eapply bind_typed.
  - apply bind_Ok_inv in Hm as ([s p1] & H1%wrapErr_Ok_inv & Hm). simplify_eq.
    apply search_typed in H1 as (? & ? & ? & ? & ?). simpl. split_and!; try done.
    apply wrapS_range. lia.
  - by apply bind_Ok_inv in Hm as ([s p1] & _ & Hm); simplify_eq.
  - apply bind_Ok_inv in Hm as ([s p1] & H1%wrapErr_Ok_inv & Hm). simplify_eq.
    split; [done|]. by eapply modify_typed.
  - apply bind_Ok_inv in Hm as ([s p1] & H1%wrapErr_Ok_inv & Hm). simplify_eq.
    split; [done|]. by eapply add_typed.
  - apply bind_Ok_inv in Hm as ([[dn cs] p1] & H1%wrapErr_Ok_inv & Hm). simplify_eq.
    split; [done|]. by eapply delete_typed.
  - by simplify_eq.
Qed.
End params.
End messages.

Section property.
Context `{L : BerLaws} `{LdapOps}.

(** C3. Every message [newMessage] returns is well typed: its id, and the scope,
    the limits and the change operations, are 64-bit integers as in the packet,
    and each of its controls holds what its Go fields can: a page size of 32
    bits, 64-bit times, and for a Behera policy no error or one of the nine
    error codes together with its text. *)
Theorem newMessage_typed p m q :
  typed p → newMessage (mkpacket p false) = Ok (m, q) → message_typed m.
Proof.
  intros Hp Hm. unfold newMessage in Hm.
  apply bind_Ok_inv in Hm as ([t p1] & Ht%wrapErr_Ok_inv & Hm).
  apply packet_requestType_Ok_inv in Ht as (-> & He & _); [|done].
  assert (packet_wf (mkpacket p true)) as Hwf by (intros _; exact He).
  apply bind_Ok_inv in Hm as ([id p2] & Hid%wrapErr_Ok_inv & Hm).
  apply (requestMessageID_Ok_inv _ _ _ Hwf) in Hid as (-> & _ & c & Hc & Hid).
  eapply messageOf_typed; [exact Hwf|done| |exact Hm].
  pose proof (typed_Value _ (typed_child _ _ _ Hp Hc)) as Hv. by rewrite Hid in Hv.
Qed.
End property.

(** A search with a page size of 33 bits, which is cut down to 32. *)
Definition paged_search : Packet :=
  mkPacket 0 32 16 VNil ""
    [mkPacket 0 0 2 (VInt64 7) "" [] "";
     mkPacket 64 32 3 VNil ""
       [mkPacket 0 0 4 (VString "dc=x") "dc=x" [] ""; mkPacket 0 0 10 (VInt64 2) "" [] "";
        mkPacket 0 0 10 (VInt64 0) "" [] ""; mkPacket 0 0 2 (VInt64 10) "" [] "";
        mkPacket 0 0 2 (VInt64 20) "" [] ""; mkPacket 0 0 1 (VBool false) "" [] "";
        mkPacket 128 0 7 VNil "cn" [] ""; mkPacket 0 32 16 VNil "" [] ""] "";
     mkPacket 128 32 0 VNil ""
       [mkPacket 0 32 16 VNil ""
          [mkPacket 0 0 4 (VString ControlTypePaging) "" [] "";
           mkPacket 0 0 4 VNil ""
             [mkPacket 0 32 16 VNil ""
                [mkPacket 0 0 2 (VInt64 (2 ^ 32 + 5)) "" [] "";
                 mkPacket 0 0 4 (VString "c") "c" [] ""] ""] ""] ""] ""] "".

Lemma newMessage_typed_witness :
  ∃ s q, @newMessage ber_model ldap_presence (mkpacket paged_search false) = Ok (MSearch s, q) ∧
         SearchControls s = [ControlPaging 5 "c"] ∧ message_typed (MSearch s).
Proof.
  eexists _, _. split; [vm_compute; reflexivity|]. split; [reflexivity|].
  eapply (@newMessage_typed ber_model ber_model_laws ldap_presence paged_search).
  - repeat (constructor; [by vm_compute|]).
    repeat first [apply Forall_nil_2|apply Forall_cons_2|constructor; [by vm_compute|]].
  - vm_compute. reflexivity.
Defined.
