(* ===== verification/Response.v ===== *)
(** Responses and the response writer: [response.go].

    A response is one of the five structs that implement [Response].  The
    [..._packet] functions build the BER packet of each.  [Write] appends the
    bytes of a response to the connection's [bufio.Writer] and flushes it, both
    under the connection's writer lock, so one call is one atomic step on the
    writer. *)
From stdpp Require Import base decidable option list strings gmap.
From Stdlib Require Import ZArith Lia.
From S2P Require Import Prelude GoStd Ber BerModel Codes Options Control Packet Entry Attribute.

(** [response.go:93-98] baseResponse *)
Record baseResponse : Type := mkBaseResponse {
  messageID : Z;
  code : Z;
  diagMessage : string;
  matchedDN : string;
}.

(** [response.go:101-103] SetResultCode *)
Definition SetResultCode (code : Z) (l : baseResponse) : baseResponse :=
  mkBaseResponse (messageID l) (int16 code) (diagMessage l) (matchedDN l).
(** [response.go:106-108] SetDiagnosticMessage *)
Definition SetDiagnosticMessage (msg : string) (l : baseResponse) : baseResponse :=
  mkBaseResponse (messageID l) (code l) msg (matchedDN l).
(** [response.go:111-113] SetMatchedDN *)
Definition SetMatchedDN (dn : string) (l : baseResponse) : baseResponse :=
  mkBaseResponse (messageID l) (code l) (diagMessage l) dn.

(** [response.go:116-119] ExtendedResponse *)
Record ExtendedResponse : Type := mkExtendedResponse {
  extended_base : baseResponse;
  name : string;
}.
(** [response.go:122-124] SetResponseName *)
Definition SetResponseName (n : string) (r : ExtendedResponse) : ExtendedResponse :=
  mkExtendedResponse (extended_base r) n.

(** [response.go:142-145] BindResponse *)
Record BindResponse : Type := mkBindResponse {
  bind_base : baseResponse;
  bind_controls : list Control;
}.
(** [response.go:148-150] BindResponse.SetControls *)
Definition BindResponse_SetControls (controls : list Control) (r : BindResponse)
    : BindResponse := mkBindResponse (bind_base r) controls.

(** [response.go:172-175] GeneralResponse; [response.go:249-251] ModifyResponse embeds one *)
Record GeneralResponse : Type := mkGeneralResponse {
  general_base : baseResponse;
  applicationCode : Z;
}.

(** [response.go:194-197] SearchResponseDone *)
Record SearchResponseDone : Type := mkSearchResponseDone {
  done_base : baseResponse;
  done_controls : list Control;
}.
(** [response.go:200-202] SearchResponseDone.SetControls *)
Definition SearchResponseDone_SetControls (controls : list Control) (r : SearchResponseDone)
    : SearchResponseDone := mkSearchResponseDone (done_base r) controls.

(** [response.go:222-225] SearchResponseEntry *)
Record SearchResponseEntry : Type := mkSearchResponseEntry {
  entry_base : baseResponse;
  entry : Entry;
}.
(** [response.go:228-230] SearchResponseEntry.AddAttribute *)
Definition SearchResponseEntry_AddAttribute (name : string) (values : list string)
    (r : SearchResponseEntry) : SearchResponseEntry :=
  mkSearchResponseEntry (entry_base r)
    (mkEntry (DN (entry r)) (Attributes (entry r) ++ [NewEntryAttribute name values])).

(** [response.go:89-91] Response *)
Inductive Response : Type :=
| RExtended (r : ExtendedResponse)
| RBind (r : BindResponse)
| RGeneral (r : GeneralResponse)
| RSearchDone (r : SearchResponseDone)
| RSearchEntry (r : SearchResponseEntry).

Section Response.
Context `{BerOps}.

(** [response.go:74-79] beginResponse *)
Definition beginResponse (messageID : Z) : Packet :=
  let p := ber_Encode ClassUniversal TypeConstructed TagSequence VNil "LDAP Response" in
  AppendChild p
    (ber_NewInteger ClassUniversal TypePrimitive TagInteger (VInt64 messageID) "MessageID").

(** [response.go:81-86] addOptionalResponseChildren *)
Definition addOptionalResponseChildren (bindResponse : Packet) (opt : list Option) : Packet :=
  let opts := getResponseOpts opt in
  let p := AppendChild bindResponse
    (ber_NewString ClassUniversal TypePrimitive TagOctetString (withMatchedDN opts)
       "matchedDN") in
  AppendChild p
    (ber_NewString ClassUniversal TypePrimitive TagOctetString (withDiagnosticMessage opts)
       "diagnosticMessage").

(** The result packet that every response but a search entry builds: the
    application tag, the result code, the matched DN and the diagnostic
    message. *)
Definition resultPacket (tag : Z) (desc : string) (l : baseResponse) : Packet :=
  let p := ber_Encode ClassApplication TypeConstructed tag VNil desc in
  let p := AppendChild p
    (ber_NewInteger ClassUniversal TypePrimitive TagEnumerated (VInt16 (code l))
       (map_get ResultCodeMap (uint16 (code l)))) in
  addOptionalResponseChildren p
    [WithDiagnosticMessage (diagMessage l); WithMatchedDN (matchedDN l)].

(** [if len(r.controls) > 0 { replyPacket.AppendChild(encodeControls(r.controls)) }] *)
Definition appendReplyControls (replyPacket : Packet) (controls : list Control) : Packet :=
  if decide (0 < length controls)%nat
  then AppendChild replyPacket (encodeControls controls) else replyPacket.

(** [response.go:126-139] ExtendedResponse.packet *)
Definition ExtendedResponse_packet (r : ExtendedResponse) : Packet :=
  let replyPacket := beginResponse (messageID (extended_base r)) in
  AppendChild replyPacket
    (resultPacket ApplicationExtendedResponse
       (map_get ApplicationCodeMap ApplicationExtendedResponse) (extended_base r)).

(** [response.go:152-169] BindResponse.packet *)
Definition BindResponse_packet (r : BindResponse) : Packet :=
  let replyPacket := beginResponse (messageID (bind_base r)) in
  appendReplyControls
    (AppendChild replyPacket
       (resultPacket ApplicationBindResponse
          (map_get ApplicationCodeMap ApplicationBindResponse) (bind_base r)))
    (bind_controls r).

(** [response.go:177-191] GeneralResponse.packet *)
Definition GeneralResponse_packet (r : GeneralResponse) : Packet :=
  let replyPacket := beginResponse (messageID (general_base r)) in
  AppendChild replyPacket
    (resultPacket (uint64 (applicationCode r))
       (map_get ApplicationCodeMap (uint8 (applicationCode r))) (general_base r)).

(** [response.go:204-219] SearchResponseDone.packet *)
Definition SearchResponseDone_packet (r : SearchResponseDone) : Packet :=
  let replyPacket := beginResponse (messageID (done_base r)) in
  appendReplyControls
    (AppendChild replyPacket
       (resultPacket ApplicationSearchResultDone
          (map_get ApplicationCodeMap ApplicationSearchResultDone) (done_base r)))
    (done_controls r).

(** [response.go:232-246] SearchResponseEntry.packet *)
Definition SearchResponseEntry_packet (r : SearchResponseEntry) : Packet :=
  let replyPacket := beginResponse (messageID (entry_base r)) in
  let resultPacket := ber_Encode ClassApplication TypeConstructed ApplicationSearchResultEntry
    VNil (map_get ApplicationCodeMap ApplicationSearchResultEntry) in
  let resultPacket := AppendChild resultPacket
    (ber_NewString ClassUniversal TypePrimitive TagOctetString (DN (entry r)) "DN") in
  let attributesPacket :=
    ber_Encode ClassUniversal TypeConstructed TagSequence VNil "Attributes" in
  let attributesPacket :=
    appendAll EntryAttribute_encode attributesPacket (Attributes (entry r)) in
  AppendChild replyPacket (AppendChild resultPacket attributesPacket).

(** [response.go:89-91] Response.packet *)
Definition Response_packet (r : Response) : Packet :=
  match r with
  | RExtended r => ExtendedResponse_packet r
  | RBind r => BindResponse_packet r
  | RGeneral r => GeneralResponse_packet r
  | RSearchDone r => SearchResponseDone_packet r
  | RSearchEntry r => SearchResponseEntry_packet r
  end.
End Response.

(** ** The writer *)

(** A connection seen by its writer: the bytes it accepted, and, once it is
    going down, how many more it will accept and the error it then fails with. *)
Record netWriter : Type := mkNetWriter {
  accepted : string;
  down : option (nat * error);
}.

(** [net.Conn.Write]: the number of bytes accepted of [b], all of them or the
    first ones, and the error. *)
Definition net_Write (b : string) (n : netWriter) : nat * option error * netWriter :=
  match down n with
  | None => (String.length b, None, mkNetWriter (accepted n +:+ b) None)
  | Some (k, e) =>
      if decide (String.length b ≤ k)%nat
      then (String.length b, None,
            mkNetWriter (accepted n +:+ b) (Some ((k - String.length b)%nat, e)))
      else (k, Some e, mkNetWriter (accepted n +:+ String.substring 0 k b) (Some (0%nat, e)))
  end.

(** [bufio.Writer]: a buffer in front of a connection, with a sticky error.  A
    flush that fails keeps what was not accepted in the buffer. *)
Record bufioWriter : Type := mkBufioWriter {
  wr : netWriter;
  buf : string;
  werr : option error;
}.

(** The size of the buffer [bufio.NewWriter] makes. *)
Definition bufferSize : nat := 4096.

Definition bufio_Flush (w : bufioWriter) : option error * bufioWriter :=
  match werr w with
  | Some e => (Some e, w)
  | None =>
      if decide (buf w = "") then (None, w)
      else
        let '(k, err, n) := net_Write (buf w) (wr w) in
        match err with
        | Some e => (Some e, mkBufioWriter n (GoStrings.drop_str k (buf w)) (Some e))
        | None => (None, mkBufioWriter n "" None)
        end
  end.

(** The write of [b] to an empty buffer: large writes bypass it. *)
Definition bufio_WriteEmpty (b : string) (w : bufioWriter) : option error * bufioWriter :=
  if decide (String.length b ≤ bufferSize)%nat then (None, mkBufioWriter (wr w) b None)
  else
    let '(_, err, n) := net_Write b (wr w) in
    (err, mkBufioWriter n "" err).

Definition bufio_Write (b : string) (w : bufioWriter) : option error * bufioWriter :=
  match werr w with
  | Some e => (Some e, w)
  | None =>
      if decide (String.length (buf w) + String.length b ≤ bufferSize)%nat
      then (None, mkBufioWriter (wr w) (buf w +:+ b) None)
      else if decide (buf w = "") then bufio_WriteEmpty b w
      else
        let room := (bufferSize - String.length (buf w))%nat in
        let '(err, w) := bufio_Flush
          (mkBufioWriter (wr w) (buf w +:+ String.substring 0 room b) None) in
        match err with
        | Some e => (Some e, w)
        | None => bufio_WriteEmpty (GoStrings.drop_str room b) w
        end
  end.

(** [response.go:17-23] ResponseWriter; the writer itself is shared by the
    requests of a connection and is passed along, the lock and the logger are
    addresses *)
Record ResponseWriter : Type := mkResponseWriter {
  writerMu : handle;
  rw_logger : handle;
  rw_connID : Z;
  requestID : Z;
}.

(** [response.go:25-49] newResponseWriter *)
Definition newResponseWriter (w lock logger : option handle) (connID requestID : Z)
    : outcome ResponseWriter :=
  let op := "gldap.NewResponseWriter" in
  match w, lock, logger with
  | None, _, _ => Err (invalid op "missing writer")
  | _, None, _ => Err (invalid op "missing writer lock")
  | _, _, None => Err (invalid op "missing logger")
  | Some _, Some lock, Some logger =>
      if decide (connID = 0) then Err (invalid op "missing conn ID")
      else if decide (requestID = 0) then Err (invalid op "missing request ID")
      else Ok (mkResponseWriter lock logger connID requestID)
  end.

(** [response.go:52-72] ResponseWriter.Write: the error it returns and the writer
    it leaves *)
Definition Write `{BerOps} (r : option Response) (w : bufioWriter)
    : option error * bufioWriter :=
  let op := "gldap.(ResponseWriter).Write" in
  match r with
  | None => (Some (invalid op "missing response"), w)
  | Some r =>
      let '(err, w) := bufio_Write (Packet_Bytes (Response_packet r)) w in
      match err with
      | Some e => (Some (Wrapf op "unable to write response" e), w)
      | None =>
          let '(err, w) := bufio_Flush w in
          match err with
          | Some e => (Some (Wrapf op "unable to flush write" e), w)
          | None => (None, w)
          end
      end
  end.

#[global] Arguments Write {_} _ _ : simpl never.

(** ** The writer delivers whole responses in order *)

Section writer.
Context `{BerOps}.

(** A writer between two calls of [Write] on a connection that is up. *)
Definition idle (w : bufioWriter) : Prop :=
  down (wr w) = None ∧ buf w = "" ∧ werr w = None.

Definition idle_writer (sent : string) : bufioWriter :=
  mkBufioWriter (mkNetWriter sent None) "" None.

Lemma idle_eq w : idle w → w = idle_writer (accepted (wr w)).
Proof. destruct w as [[s d] b e]. unfold idle. simpl. by intros (-> & -> & ->). Qed.

Lemma bufio_Write_Flush b s :
  ∃ w, bufio_Write b (idle_writer s) = (None, w) ∧
       bufio_Flush w = (None, idle_writer (s +:+ b)).
Proof.
  unfold bufio_Write, idle_writer, bufio_WriteEmpty. simpl.
  destruct (decide (String.length b ≤ bufferSize)%nat).
  - rewrite app_nil_l_str. eexists. split; [reflexivity|]. unfold bufio_Flush. simpl.
    case_decide; subst; [by rewrite app_nil_r_str|done].
  - eexists. split; [reflexivity|]. done.
Qed.

Lemma Write_idle r s :
  Write (Some r) (idle_writer s) =
    (None, idle_writer (s +:+ Packet_Bytes (Response_packet r))).
Proof.
  unfold Write. destruct (bufio_Write_Flush (Packet_Bytes (Response_packet r)) s)
    as (w & -> & ->). done.
Qed.

(** The calls of [Write] on one connection, in the order in which they take the
    lock: the errors they return and the writer they leave. *)
Fixpoint writes (rs : list (option Response)) (w : bufioWriter)
    : list (option error) * bufioWriter :=
  match rs with
  | [] => ([], w)
  | r :: rs =>
      let '(e, w) := Write r w in
      let '(es, w) := writes rs w in
      (e :: es, w)
  end.

(** The bytes of a sequence of responses. *)
Definition stream (rs : list Response) : string :=
  foldr (λ r s, Packet_Bytes (Response_packet r) +:+ s) "" rs.

Lemma writes_idle rs s :
  writes (map Some rs) (idle_writer s) =
    (replicate (length rs) None, idle_writer (s +:+ stream rs)).
Proof.
  revert s. induction rs as [|r rs IH]; intros s; simpl.
  - by rewrite app_nil_r_str.
  - rewrite Write_idle, IH. by rewrite app_assoc_str.
Qed.

(** A writer between two calls of [Write] that did not fail. *)
Definition healthy (w : bufioWriter) : Prop := buf w = "" ∧ werr w = None.

(** What the network accepts of a write: all, or a first part that is not all. *)
Lemma net_Write_cases b n k err n' :
  net_Write b n = (k, err, n') →
  (err = None ∧ accepted n' = accepted n +:+ b) ∨
  (is_Some err ∧ ∃ p q, b = p +:+ q ∧ q ≠ "" ∧ accepted n' = accepted n +:+ p).
Proof.
  unfold net_Write. destruct (down n) as [[j e]|]; [case_decide as Hj|]; intros [= <- <- <-]; simpl; [by left| |by left].
  right. split; [done|]. exists (String.substring 0 j b), (GoStrings.drop_str j b).
  split_and!; [by rewrite GoStrings.substring_drop| |done].
  intros Hd. apply (f_equal String.length) in Hd. rewrite GoStrings.length_drop_str in Hd. simpl in Hd. lia.
Qed.

(** A [Write] on a writer that did not fail: the whole response is accepted, or
    an error and a first part of the response. *)
Lemma Write_healthy r w e w' :
  healthy w → Write (Some r) w = (e, w') →
  (e = None ∧ healthy w' ∧ accepted (wr w') = accepted (wr w) +:+ stream [r]) ∨
  (is_Some e ∧ werr w' ≠ None ∧ ∃ p q, Packet_Bytes (Response_packet r) = p +:+ q ∧ q ≠ "" ∧
     accepted (wr w') = accepted (wr w) +:+ p).
Proof.
  destruct w as [n bf er]. intros [Hb He]. simpl in Hb, He. subst bf er.
  unfold Write, bufio_Write, bufio_WriteEmpty. simpl. set (b := Packet_Bytes _).
  rewrite app_nil_r_str. destruct (decide (String.length b ≤ bufferSize)%nat) as [Hl|Hl].
  - rewrite app_nil_l_str. unfold bufio_Flush. simpl. case_decide as Hb.
    { intros [= <- <-]. left. rewrite Hb. by rewrite app_nil_r_str. }
    destruct (net_Write b n) as [[k err] n'] eqn:En. simpl.
    destruct (net_Write_cases _ _ _ _ _ En) as [[-> Ha]|[[e' ->] (p & q & Hpq & Hq & Ha)]];
      intros [= <- <-]; simpl; [by left|]. right. split_and!; [done|done|]. by exists p, q.
  - destruct (net_Write b n) as [[k err] n'] eqn:En.
    destruct (net_Write_cases _ _ _ _ _ En) as [[-> Ha]|[[e' ->] (p & q & Hpq & Hq & Ha)]];
      simpl; intros [= <- <-]; simpl; [by left|]. right. split_and!; [done|done|]. by exists p, q.
Qed.

(** After an error every [Write] fails and changes nothing. *)
Lemma Write_failed r w : werr w ≠ None → ∃ e, Write (Some r) w = (Some e, w).
Proof.
  destruct w as [n bf [er|]]; [|done]. intros _. unfold Write, bufio_Write. simpl. eauto.
Qed.

Lemma writes_failed rs w es w' :
  werr w ≠ None → writes (map Some rs) w = (es, w') → w' = w ∧ Forall (is_Some (A := error)) es.
Proof.
  intros Hw. revert es. induction rs as [|r rs IH]; intros es; simpl; [by intros [= <- <-]|].
  destruct (Write_failed r w Hw) as [e ->]. destruct (writes (map Some rs) w) as [es1 w1].
  intros [= <- <-]. destruct (IH es1 eq_refl) as [-> Hes]. split; [done|]. by constructor; [eauto|].
Qed.

(** On a connection that is up, responses reach the network whole and in
    the order in which their [Write]s take the lock, with nothing between them
    and nothing left in the buffer, and every [Write] returns no error; this
    holds for any interleaving of the handlers of the connection's requests. *)
Theorem writes_deliver rs w es w' :
  idle w → writes (map Some rs) w = (es, w') →
  idle w' ∧ accepted (wr w') = accepted (wr w) +:+ stream rs ∧ Forall (.= None) es.
Proof.
  intros Hw. rewrite (idle_eq w Hw), writes_idle. intros [= <- <-]. simpl.
  split; [done|]. split; [done|]. by apply Forall_replicate.
Qed.

(** A failure of the network leaves at most the first part of one response: as long as no
    [Write] fails the responses are there, whole and in order; with the first that fails a
    part of its response, not all of it, may follow, and after it every [Write] returns an
    error and nothing more is sent. *)
Theorem writes_until_failure rs w es w' :
  healthy w → writes (map Some rs) w = (es, w') →
  (Forall (.= None) es ∧ accepted (wr w') = accepted (wr w) +:+ stream rs) ∨
  ∃ rs1 r rs2 p q, rs = rs1 ++ r :: rs2 ∧
    es !! length rs1 ≠ Some None ∧ Forall (.= None) (take (length rs1) es) ∧
    Forall (is_Some (A := error)) (drop (length rs1) es) ∧
    Packet_Bytes (Response_packet r) = p +:+ q ∧ q ≠ "" ∧
    accepted (wr w') = accepted (wr w) +:+ stream rs1 +:+ p.
Proof.
  revert w es. induction rs as [|r rs IH]; intros w es Hw; simpl.
  { intros [= <- <-]. left. by rewrite app_nil_r_str. }
  destruct (Write (Some r) w) as [e w1] eqn:E1. destruct (writes (map Some rs) w1) as [es1 w2] eqn:E2.
  intros [= <- <-].
  destruct (Write_healthy _ _ _ _ Hw E1) as [(-> & Hw1 & Ha)|([e' ->] & Hf & p & q & Hpq & Hq & Ha)].
  - destruct (IH _ _ Hw1 E2) as [[Hes Ha2]|(rs1 & r' & rs2 & p & q & -> & H1 & H2 & H3 & Hpq & Hq & Ha2)].
    + left. split; [by constructor|]. rewrite Ha2, Ha. simpl. by rewrite app_nil_r_str, app_assoc_str.
    + right. exists (r :: rs1), r', rs2, p, q. simpl. split_and!; try done; [by constructor|].
      rewrite Ha2, Ha. simpl. by rewrite app_nil_r_str, !app_assoc_str.
  - right. exists [], r, rs, p, q. simpl.
    destruct (writes_failed _ _ _ _ Hf E2) as [-> Hes].
    split_and!; try done. by constructor; [eauto|].
Qed.
End writer.

(** ** Witnesses *)

Definition response_example : Response :=
  RGeneral (mkGeneralResponse (mkBaseResponse 3 0 "" "") ApplicationExtendedResponse).

Lemma writes_deliver_witness :
  ∃ es w', @writes ber_model (map Some [response_example; response_example])
             (idle_writer "x") = (es, w') ∧ idle w'.
Proof.
  destruct (@writes ber_model (map Some [response_example; response_example])
              (idle_writer "x")) as [es w'] eqn:E.
  exists es, w'. split; [reflexivity|].
  eapply (@writes_deliver ber_model [response_example; response_example] (idle_writer "x")).
  - repeat split.
  - exact E.
Defined.

(** A network that accepts three more bytes. *)
Definition failing_writer : bufioWriter :=
  mkBufioWriter (mkNetWriter "x" (Some (3%nat, EExternal OtherErr "broken pipe"))) "" None.

Lemma writes_until_failure_witness :
  ∃ es w', @writes ber_model (map Some [response_example; response_example]) failing_writer =
    (es, w') ∧ Forall (is_Some (A := error)) es ∧ String.length (accepted (wr w')) = 4%nat.
Proof.
  destruct (@writes ber_model (map Some [response_example; response_example]) failing_writer)
    as [es w'] eqn:E.
  exists es, w'. split; [reflexivity|].
  destruct (@writes_until_failure ber_model [response_example; response_example] failing_writer es w')
    as [[H _]|H].
  - done.
  - exact E.
  - vm_compute in E. injection E as <- <-. by inversion H.
  - clear H. vm_compute in E. injection E as <- <-. split; [repeat constructor; eauto|done].
Defined.
