(* ===== verification/ResponseWire.v ===== *)
(** What a client reads from the bytes of a response: [readResult] and
    [readEntry] read an LDAPResult and a search result entry by RFC 4511, and
    the responses of [Response.v] are read back as they were made. *)
From stdpp Require Import base decidable option list strings gmap.
From Stdlib Require Import ZArith Lia.
From S2P Require Import Prelude GoStd Ber BerModel Codes Options Control Packet Entry Attribute Parameters Message MessageWire Response.

(** An LDAPResult, RFC 4511 4.1.9, with the envelope around it. *)
Record LDAPResult : Type := mkLDAPResult {
  res_id : Z;
  res_op : Z;
  res_code : Z;
  res_matchedDN : string;
  res_diagnostic : string;
  res_controls : list Control;
}.

Section reader.
Context `{BerOps}.

Definition readControls (rest : list Packet) : option (list Control) :=
  match rest with
  | [] => Some []
  | [ctl] =>
      match decodeControlList "client" (Children ctl) with
      | Ok (cs, _) => Some cs
      | _ => None
      end
  | _ => None
  end.

Definition readResult (p : Packet) : option LDAPResult :=
  match Children p with
  | idp :: op :: rest =>
      match Value idp, Children op with
      | VInt64 id, [c; m; d] =>
          match Value c with
          | VInt64 code =>
              if decide (ClassType op = ClassApplication ∧ TagType op = TypeConstructed)
              then cs ← readControls rest;
                   Some (mkLDAPResult id (Tag op) code (Data m) (Data d) cs)
              else None
          | _ => None
          end
      | _, _ => None
      end
  | _ => None
  end.

(** A search result entry: its id, DN and attributes. *)
Definition readEntry (p : Packet) : option (Z * string * list Attribute) :=
  match Children p with
  | [idp; op] =>
      match Value idp, Children op with
      | VInt64 id, [dn; attrs] =>
          if decide (ClassType op = ClassApplication ∧ TagType op = TypeConstructed ∧
                     Tag op = ApplicationSearchResultEntry)
          then match mapM (λ a, decodeAttribute (Some a)) (Children attrs) with
               | Ok l => Some (id, Data dn, l)
               | _ => None
               end
          else None
      | _, _ => None
      end
  | _ => None
  end.
End reader.

(** What a response says, for the responses that carry a result. *)
Definition result_of (r : Response) : option LDAPResult :=
  let res l op cs :=
    Some (mkLDAPResult (messageID l) op (code l) (matchedDN l) (diagMessage l) cs) in
  match r with
  | RExtended r => res (extended_base r) ApplicationExtendedResponse []
  | RBind r => res (bind_base r) ApplicationBindResponse (bind_controls r)
  | RGeneral r => res (general_base r) (applicationCode r) []
  | RSearchDone r => res (done_base r) ApplicationSearchResultDone (done_controls r)
  | RSearchEntry _ => None
  end.

Section reply.
Context `{L : BerLaws}.

Abbreviation len s := (Z.of_nat (String.length s)).

Lemma Children_reply w id req cs :
  Children (via w (appendReplyControls (AppendChild (beginResponse id) req) cs)) =
    via w (ber_NewInteger ClassUniversal TypePrimitive TagInteger (VInt64 id) "MessageID")
    :: via w req
    :: if decide (0 < length cs)%nat then [via w (encodeControls cs)] else [].
Proof.
  rewrite Children_via.
  - unfold appendReplyControls, beginResponse. case_decide; by ber_simpl.
  - unfold appendReplyControls, beginResponse. case_decide; by ber_simpl.
Qed.

Lemma reply_decodes id req n cs :
  in_int 64 id → enc req n → 0 ≤ n → Forall control_wf cs →
  n + controls_size cs < 2 ^ 30 →
  ber_DecodePacketErr
    (Packet_Bytes (appendReplyControls (AppendChild (beginResponse id) req) cs)) =
  Ok (via true (appendReplyControls (AppendChild (beginResponse id) req) cs)).
Proof.
  intros Hid Hreq Hn Hwf Hsz. pose proof (controls_size_nonneg cs).
  assert (enc (AppendChild (beginResponse id) req) (n + 20)) as He.
  { unfold beginResponse. apply (enc_AppendChild _ _ 14 n); [| |done|lia]; [|by ber_simpl].
    apply (enc_AppendChild _ _ 0 8); [| | |lia].
    - apply enc_Encode; [set_solver|]. by rewrite law_TagSequence.
    - by ber_simpl.
    - by apply (enc_NewInteger _ _ _ _ id); [left; eauto|..]. }
  eapply (enc_decode _ (n + 20 + controls_size cs + 6)).
  unfold appendReplyControls. case_decide; [|eapply enc_le; [done|lia]].
  eapply enc_AppendChild; [done| |apply enc_encodeControls; [done|lia]|lia].
  unfold beginResponse. by ber_simpl.
Qed.

Lemma readControls_sent w cs :
  controls_ok w cs →
  readControls (if decide (0 < length cs)%nat then [via w (encodeControls cs)] else []) =
    Some cs.
Proof.
  intros Hcs. destruct cs as [|c cs]; [done|]. simpl.
  destruct (decodeControlList_Ok "client" _ _ (decode_sent_controls w _ Hcs)) as [cs' Hd].
  by rewrite Hd.
Qed.

Lemma in_int_16_64 z : in_int 16 z → in_int 64 z.
Proof. unfold in_int. simpl. lia. Qed.

Lemma Children_resultPacket tag d l :
  in_int 16 (code l) →
  ∃ c m g, Children (via true (resultPacket tag d l)) = [c; m; g] ∧
    Value c = VInt64 (code l) ∧ Data m = matchedDN l ∧ Data g = diagMessage l.
Proof.
  intros Hc. unfold resultPacket, addOptionalResponseChildren. rewrite Children_via by by ber_simpl.
  ber_simpl. do 3 eexists. split; [reflexivity|].
  split; [|change (reparse ?p) with (via true p); by rewrite !Data_via].
  rewrite (reparse_integer _ _ _ _ _ (code l)); [done|done|done|by right|done|].
  by apply in_int_16_64.
Qed.

Lemma header_resultPacket w tag d l :
  ClassType (via w (resultPacket tag d l)) = ClassApplication ∧
  TagType (via w (resultPacket tag d l)) = TypeConstructed ∧
  Tag (via w (resultPacket tag d l)) = tag.
Proof. unfold resultPacket, addOptionalResponseChildren. by ber_simpl. Qed.

Lemma enc_resultPacket tag d l :
  0 ≤ tag < 31 → in_int 16 (code l) → len (matchedDN l) + len (diagMessage l) < 2 ^ 30 →
  enc (resultPacket tag d l) (len (matchedDN l) + len (diagMessage l) + 26).
Proof.
  intros Ht Hc Hsz. unfold resultPacket, addOptionalResponseChildren. simpl.
  apply (enc_AppendChild _ _ (len (matchedDN l) + 20) (len (diagMessage l)));
    [|by ber_simpl|apply enc_newOctets; lia|lia].
  apply (enc_AppendChild _ _ 14 (len (matchedDN l)));
    [|by ber_simpl|apply enc_newOctets; lia|lia].
  apply (enc_AppendChild _ _ 0 8); [by apply enc_request|by ber_simpl| |lia].
  apply (enc_NewInteger _ _ _ _ (code l)); [left; eauto|done|by apply in_int_16_64].
Qed.

(** A reply with a result, built from a base response, a tag and controls. *)
Lemma result_reply l tag d cs :
  in_int 64 (messageID l) → in_int 16 (code l) → 0 ≤ tag < 31 → Forall control_wf cs →
  len (matchedDN l) + len (diagMessage l) + controls_size cs < 2 ^ 29 →
  ∃ p, ber_DecodePacketErr (Packet_Bytes (appendReplyControls
         (AppendChild (beginResponse (messageID l)) (resultPacket tag d l)) cs)) = Ok p ∧
    readResult p = Some (mkLDAPResult (messageID l) tag (code l) (matchedDN l)
                           (diagMessage l) cs).
Proof.
  intros Hid Hc Ht Hwf Hsz. pose proof (controls_size_nonneg cs).
  eexists. split.
  { apply (reply_decodes _ _ (len (matchedDN l) + len (diagMessage l) + 26));
      [done|apply enc_resultPacket; [done|done|lia]|lia|done|lia]. }
  unfold readResult. rewrite Children_reply.
  rewrite Value_via_integer by tauto.
  destruct (Children_resultPacket tag d l Hc) as (c & m & g & -> & Hcv & Hm & Hg).
  destruct (header_resultPacket true tag d l) as (H1 & H2 & H3).
  rewrite Hcv, decide_True by done. rewrite H3, Hm, Hg.
  rewrite readControls_sent by (apply controls_ok_size; [done|lia]). done.
Qed.

(** The responses that fit in their integer types and in a BER length. *)
Definition response_wf (r : Response) : Prop :=
  let base l cs :=
    in_int 64 (messageID l) ∧ in_int 16 (code l) ∧ Forall control_wf cs ∧
    len (matchedDN l) + len (diagMessage l) + controls_size cs < 2 ^ 29 in
  match r with
  | RExtended r => base (extended_base r) []
  | RBind r => base (bind_base r) (bind_controls r)
  | RGeneral r => base (general_base r) [] ∧ 0 ≤ applicationCode r < 31
  | RSearchDone r => base (done_base r) (done_controls r)
  | RSearchEntry r =>
      in_int 64 (messageID (entry_base r)) ∧
      len (DN (entry r)) +
        sumZ (λ a, typed_size (Name a) (Values a) + 6) (Attributes (entry r)) < 2 ^ 29
  end.

Lemma result_read r res :
  response_wf r → result_of r = Some res →
  ∃ p, ber_DecodePacketErr (Packet_Bytes (Response_packet r)) = Ok p ∧ readResult p = Some res.
Proof.
  destruct r as [[l n]|[l cs]|[l app]|[l cs]|]; simpl; [..|done].
  - intros (? & ? & ? & ?) [= <-]. by apply (result_reply l _ _ []).
  - intros (? & ? & ? & ?) [= <-]. by apply result_reply.
  - intros ((? & ? & ? & ?) & Happ) [= <-]. unfold GeneralResponse_packet. simpl.
    assert (uint64 app = app) as -> by (apply wrapU_id; unfold in_uint; lia).
    by apply (result_reply l app _ []).
  - intros (? & ? & ? & ?) [= <-]. by apply result_reply.
Qed.

Lemma EntryAttribute_encode_eq a :
  EntryAttribute_encode a = Attribute_encode (mkAttribute (Name a) (Values a)).
Proof. done. Qed.

Lemma entry_read r :
  response_wf (RSearchEntry r) →
  ∃ p, ber_DecodePacketErr (Packet_Bytes (Response_packet (RSearchEntry r))) = Ok p ∧
    readEntry p = Some (messageID (entry_base r), DN (entry r),
                        map (λ a, mkAttribute (Name a) (Values a)) (Attributes (entry r))).
Proof.
  intros [Hid Hsz]. cbn [Response_packet]. unfold SearchResponseEntry_packet.
  set (attrs := appendAll _ _ _). set (req := AppendChild (AppendChild _ _) attrs).
  set (sz := sumZ _ _) in Hsz. assert (0 ≤ sz).
  { apply sumZ_nonneg. intros a. pose proof (typed_size_pos (Name a) (Values a)). lia. }
  eexists. split.
  { apply (reply_decodes _ req (len (DN (entry r)) + sz + 12) []); [done| |lia|done|simpl; lia].
    apply (enc_AppendChild _ _ (len (DN (entry r)) + 6) sz); [|by ber_simpl| |lia].
    - apply (enc_AppendChild _ _ 0 (len (DN (entry r))));
        [apply enc_request; by vm_compute|by ber_simpl|apply enc_newOctets; lia|lia].
    - apply (enc_appendAll _ _ 0 (λ a, typed_size (Name a) (Values a))); [| | | |fold sz; lia].
      + apply enc_Encode; [set_solver|]. by rewrite law_TagSequence.
      + by ber_simpl.
      + intros a. pose proof (typed_size_pos (Name a) (Values a)). lia.
      + apply Forall_forall. intros a Ha. apply enc_encodeTyped.
        assert (typed_size (Name a) (Values a) + 6 ≤ sz); [|lia].
        apply (sumZ_elem (λ a, typed_size (Name a) (Values a) + 6)); [|done].
        intros x. pose proof (typed_size_pos (Name x) (Values x)). lia. }
  destruct (via_items true EntryAttribute_encode "Attributes" (Attributes (entry r)))
    as [_ Hit].
  unfold readEntry. rewrite Children_reply.
  rewrite (decide_False (P := (0 < length [])%nat)) by (simpl; lia).
  rewrite Value_via_integer by tauto.
  assert (Children (via true req) =
    [via true (newOctets (DN (entry r)) "DN"); via true attrs]) as ->.
  { unfold req, newOctets. rewrite Children_via by by ber_simpl. by ber_simpl. }
  rewrite decide_True by (unfold req; by ber_simpl).
  unfold attrs. rewrite Hit.
  rewrite (mapM_map_Ok _ _ (λ a, mkAttribute (Name a) (Values a))).
  2:{ intros a _. rewrite EntryAttribute_encode_eq. apply decodeAttribute_via. }
  by rewrite Data_via; unfold newOctets; ber_simpl.
Qed.
End reply.
