(* ===== verification/Request.v ===== *)
(** Requests and the responses made from them: [request.go].

    A request points to its connection; what the methods here read of it is
    its [connID], set once by [newConn], so the request carries that number. *)
From stdpp Require Import base decidable option list strings gmap.
From Stdlib Require Import ZArith Lia.
From S2P Require Import Prelude GoStd Ber BerModel Codes Options Control Packet Entry Attribute Parameters Message MessageWire Response ResponseWire.

(** [route.go:11-41] routeOperation *)
Definition routeOperation : Type := string.
Definition undefinedRouteOperation : routeOperation := "".
Definition bindRouteOperation : routeOperation := "bind".
Definition searchRouteOperation : routeOperation := "search".
Definition extendedRouteOperation : routeOperation := "extendedOperation".
Definition modifyRouteOperation : routeOperation := "modify".
Definition addRouteOperation : routeOperation := "add".
Definition deleteRouteOperation : routeOperation := "delete".
Definition unbindRouteOperation : routeOperation := "unbind".
Definition defaultRouteOperation : routeOperation := "noRoute".

(** [request.go:29-39] Request *)
Record Request : Type := mkRequest {
  ID : Z;
  conn_connID : Z;
  message : Message;
  routeOp : routeOperation;
  extendedName : string;
}.

(** [request.go:56-76] The route operation and extended name of a message. *)
Definition message_route (m : Message) : routeOperation * string :=
  match m with
  | MSimpleBind _ => (bindRouteOperation, "")
  | MSearch _ => (searchRouteOperation, "")
  | MExtended v => (extendedRouteOperation, ExtendedName v)
  | MModify _ => (modifyRouteOperation, "")
  | MAdd _ => (addRouteOperation, "")
  | MDelete _ => (deleteRouteOperation, "")
  | MUnbind _ => (unbindRouteOperation, "")
  end.

(** [request.go:41-86] newRequest; [c] is the connection's [connID] *)
Definition newRequest `{BerOps} `{LdapOps} (id : Z) (c : option Z) (p : option packet)
    : outcome Request :=
  let op := "gldap.newRequest" in
  match c, p with
  | None, _ => Err (invalid op "missing connection")
  | _, None => Err (invalid op "missing packet")
  | Some c, Some p =>
      '(m, _) ← wrapErr op "unable to build message for request %d" (newMessage p);
      let '(routeOp, extendedName) := message_route m in
      Ok (mkRequest id c m routeOp extendedName)
  end.

(** [request.go:92-94] ConnectionID *)
Definition ConnectionID (r : Request) : Z := conn_connID r.

(** A base response to a request, with nothing set. *)
Definition emptyBase (r : Request) : baseResponse := mkBaseResponse (GetID (message r)) 0 "" "".

(** The response code of the options, if there is one, cut to 16 bits. *)
Definition withCode (opts : responseOptions) (l : baseResponse) : baseResponse :=
  match withResponseCode opts with
  | Some c => SetResultCode c l
  | None => l
  end.

(** [request.go:130-148] NewResponse *)
Definition NewResponse (r : Request) (opt : list Option) : GeneralResponse :=
  let opts := getResponseOpts opt in
  let code := default ResultUnwillingToPerform (withResponseCode opts) in
  let app := default ApplicationExtendedResponse (withApplicationCode opts) in
  mkGeneralResponse
    (mkBaseResponse (GetID (message r)) (int16 code) (withDiagnosticMessage opts)
       (withMatchedDN opts)) app.

(** [request.go:98-108] NewModifyResponse: the code is dereferenced before
    [NewResponse] can default it *)
Definition NewModifyResponse (r : Request) (opt : list Option) : outcome GeneralResponse :=
  let opts := getResponseOpts opt in
  match withResponseCode opts with
  | None => Panic "invalid memory address or nil pointer dereference"
  | Some code =>
      Ok (NewResponse r
            [WithApplicationCode ApplicationModifyResponse; WithResponseCode code;
             WithDiagnosticMessage (withDiagnosticMessage opts);
             WithMatchedDN (withMatchedDN opts)])
  end.

(** [request.go:152-164] NewExtendedResponse *)
Definition NewExtendedResponse (r : Request) (opt : list Option) : ExtendedResponse :=
  mkExtendedResponse (withCode (getResponseOpts opt) (emptyBase r)) "".

(** [request.go:168-180] NewBindResponse *)
Definition NewBindResponse (r : Request) (opt : list Option) : BindResponse :=
  mkBindResponse (withCode (getResponseOpts opt) (emptyBase r)) [].

(** [request.go:198-210] NewSearchDoneResponse *)
Definition NewSearchDoneResponse (r : Request) (opt : list Option) : SearchResponseDone :=
  mkSearchResponseDone (withCode (getResponseOpts opt) (emptyBase r)) [].

(** [request.go:225-240] NewSearchResponseEntry, where the map of attributes is
    met in the order of [attrs] *)
Definition NewSearchResponseEntryFrom (attrs : list (string * list string)) (r : Request)
    (entryDN : string) : SearchResponseEntry :=
  mkSearchResponseEntry (emptyBase r)
    (mkEntry entryDN (map (λ '(name, values), NewEntryAttribute name values) attrs)).

(** [request.go:225-240] NewSearchResponseEntry *)
Definition NewSearchResponseEntry (r : Request) (entryDN : string) (opt : list Option)
    : SearchResponseEntry :=
  NewSearchResponseEntryFrom (map_to_list (withAttributes (getResponseOpts opt))) r entryDN.

(** [request.go:184-191] GetSimpleBindMessage *)
Definition GetSimpleBindMessage (r : Request) : outcome SimpleBindMessage :=
  match message r with
  | MSimpleBind s => Ok s
  | _ => Err (invalid "gldap.(Request).GetSimpleBindMessage" "%T not a simple bind request")
  end.
(** [request.go:214-221] GetSearchMessage *)
Definition GetSearchMessage (r : Request) : outcome SearchMessage :=
  match message r with
  | MSearch m => Ok m
  | _ => Err (invalid "gldap.(Request).GetSearchMessage" "%T not a search request")
  end.
(** [request.go:244-251] GetModifyMessage *)
Definition GetModifyMessage (r : Request) : outcome ModifyMessage :=
  match message r with
  | MModify m => Ok m
  | _ => Err (invalid "gldap.(Request).GetModifyMessage" "%T not a modify request")
  end.
(** [request.go:255-262] GetAddMessage *)
Definition GetAddMessage (r : Request) : outcome AddMessage :=
  match message r with
  | MAdd m => Ok m
  | _ => Err (invalid "gldap.(Request).GetAddMessage" "%T not a add request")
  end.
(** [request.go:266-273] GetDeleteMessage *)
Definition GetDeleteMessage (r : Request) : outcome DeleteMessage :=
  match message r with
  | MDelete m => Ok m
  | _ => Err (invalid "gldap.(Request).GetDeleteMessage" "%T not a delete request")
  end.
(** [request.go:277-284] GetUnbindMessage *)
Definition GetUnbindMessage (r : Request) : outcome UnbindMessage :=
  match message r with
  | MUnbind m => Ok m
  | _ => Err (invalid "gldap.(Request).GetUnbindMessage" "%T not an unbind request")
  end.

(** ** Converting octet strings *)

(** [errors.New(text)] *)
Definition errorsNew (text : string) : error := EExternal OtherErr text.

Section ConvertString.
Context `{BerOps}.

(** [request.go:350-359] The loop over the length bytes of the long form. *)
Fixpoint readLengthBytes (n : nat) (bs : list Z) (read : nat) (length64 : Z)
    : outcome (Z * nat) :=
  match n with
  | O => Ok (length64, read)
  | S n =>
      b ← index bs read;
      readLengthBytes n bs (read + 1) (Z.lor (int64 (Z.shiftl length64 8)) b)
  end.

(** [request.go:323-373] readLength: the length, and how many bytes it took *)
Definition readLength (bs : list Z) : outcome (Z * nat) :=
  b ← index bs 0;
  if decide (b = 255) then Err (errorsNew "invalid length byte 0xff")
  else if decide (b = LengthLongFormBitmask) then Ok (LengthIndefinite, 1%nat)
  else if decide (Z.land b LengthLongFormBitmask = 0) then
    Ok (Z.land b LengthValueBitmask, 1%nat)
  else
    let lengthBytes := Z.land b LengthValueBitmask in
    if decide (lengthBytes > 8) then Err (errorsNew "long-form length overflow")
    else
      '(length64, read) ← readLengthBytes (Z.to_nat lengthBytes) bs 1 0;
      let length := go_int length64 in
      if decide (int64 length ≠ length64) then Err (errorsNew "long-form length overflow")
      else Ok (length, read).

(** [request.go:298-314] The body of the loop of ConvertString. *)
Definition convertOne (s : string) : outcome string :=
  let op := "gldap.ConvertOctetString" in
  let data := bytes s in
  tag ← index data 0;
  if decide (tag = TagOctetString ∨ tag = TagGeneralString) then
    '(_, strDataLen) ← readLength (drop 1 data);
    Ok (of_bytes (drop (1 + strDataLen) data))
  else Err (invalid op "unsupported ber encoding type %s").

(** [request.go:289-317] ConvertString *)
Definition ConvertString (octetString : list string) : outcome (list string) :=
  mapM convertOne octetString.
End ConvertString.

(** ** Lengths and octet strings *)

Lemma lor_shift acc b : 0 ≤ b < 256 → Z.lor (Z.shiftl acc 8) b = acc * 256 + b.
Proof.
  intros Hb. rewrite Z.shiftl_mul_pow2 by lia. change (2 ^ 8) with 256.
  assert (Z.land (acc * 256) b = 0) as Hl.
  { apply Z.bits_inj'. intros i Hi. rewrite Z.land_spec, Z.bits_0.
    destruct (decide (i < 8)) as [Hlt|Hge].
    - replace 256 with (2 ^ 8) by done. by rewrite Z.mul_pow2_bits_low by lia.
    - rewrite (Z.bits_above_log2 b), andb_false_r; [done|lia|].
      destruct (decide (b = 0)) as [->|]; [simpl; lia|].
      apply Z.log2_lt_pow2; [lia|]. assert (2 ^ 8 ≤ 2 ^ i) by (apply Z.pow_le_mono_r; lia).
      change (2 ^ 8) with 256 in *. lia. }
  rewrite Z.add_nocarry_lxor by done. symmetry. by apply Z.lxor_lor.
Qed.

Lemma lor_int64 x b : 0 ≤ b < 256 → Z.lor (int64 (Z.shiftl x 8)) b = int64 (x * 256 + b).
Proof.
  intros Hb. rewrite Z.shiftl_mul_pow2 by lia. change (2 ^ 8) with 256.
  assert (∃ y, int64 (x * 256) = y * 256 ∧ int64 (x * 256 + b) = y * 256 + b) as (y & -> & ->).
  { unfold int64, wrapS. exists (if decide ((x * 256) mod 2 ^ 64 < 2 ^ 63) then x mod 2 ^ 56 else x mod 2 ^ 56 - 2 ^ 56).
    assert ((x * 256) mod 2 ^ 64 = x mod 2 ^ 56 * 256) as E.
    { change (2 ^ 64) with (2 ^ 56 * 256). by rewrite Zmult_mod_distr_r. }
    pose proof (Z.mod_pos_bound x (2 ^ 56)). 
    assert ((x * 256 + b) mod 2 ^ 64 = x mod 2 ^ 56 * 256 + b) as E'.
    { rewrite Z.add_mod, E, (Z.mod_small b) by lia. apply Z.mod_small. lia. }
    rewrite E, E'. simpl Z.sub. repeat case_decide; lia. }
  rewrite <-(Z.mul_comm 256). change 256 with (2 ^ 8) at 1. rewrite Z.mul_comm, <-Z.shiftl_mul_pow2 by lia.
  rewrite lor_shift by done. lia.
Qed.

(** Wrapping early does not matter. *)
Lemma int64_mul_add x k y : int64 (int64 x * k + y) = int64 (x * k + y).
Proof.
  assert (int64 x mod 2 ^ 64 = x mod 2 ^ 64) as Hx.
  { unfold int64, wrapS. case_decide; [apply Z.mod_mod; lia|].
    rewrite <-(Z_mod_plus_full _ 1), Z.mul_1_l. replace (x mod 2 ^ 64 - 2 ^ 64 + 2 ^ 64) with (x mod 2 ^ 64) by lia.
    apply Z.mod_mod. lia. }
  unfold int64 at 1 3, wrapS.
  by rewrite Z.add_mod, Z.mul_mod, Hx, <-Z.mul_mod, <-Z.add_mod by lia.
Qed.

Section lengths.
Context `{L : BerLaws}.

(** The bytes accumulate in 64 bits. *)
Lemma readLengthBytes_wraps pre l rest acc :
  Forall (λ b, 0 ≤ b < 256) l → in_int 64 acc →
  readLengthBytes (length l) (pre ++ l ++ rest) (length pre) acc =
    Ok (int64 (acc * 256 ^ Z.of_nat (length l) + Binary.be_value l), (length pre + length l)%nat).
Proof.
  intros Hl. revert pre acc. induction Hl as [|b l Hb Hl IH]; intros pre acc Hacc.
  - simpl. do 2 f_equal; [|lia]. unfold Binary.be_value. simpl.
    rewrite Z.mul_1_r, Z.add_0_r. symmetry. by apply wrapS_id.
  - cbn [length readLengthBytes]. rewrite (index_Some _ _ b).
    2:{ rewrite lookup_app_r by lia. by rewrite Nat.sub_diag. }
    simpl mbind. rewrite lor_int64 by done. rewrite cons_middle, app_assoc.
    replace (length pre + 1)%nat with (length (pre ++ [b])) by (rewrite length_app; simpl; lia).
    rewrite IH by by apply wrapS_range. rewrite length_app, int64_mul_add. simpl length.
    do 2 f_equal; [|lia]. rewrite Binary.be_value_cons. f_equal.
    replace (Z.of_nat (S (length l))) with (1 + Z.of_nat (length l)) by lia.
    rewrite Z.pow_add_r, Z.pow_1_r by lia. lia.
Qed.

Lemma readLength_octets n rest :
  0 ≤ n < 2 ^ 31 →
  readLength (length_octets n ++ rest) = Ok (n, length (length_octets n)).
Proof.
  intros Hn. unfold readLength, length_octets.
  rewrite law_LengthLongFormBitmask, law_LengthValueBitmask. case_decide as Hs.
  - simpl mbind. rewrite (decide_False (P := n = 255)), (decide_False (P := n = 128)) by lia.
    change 127 with (Z.ones 7). change 128 with (2 ^ 7).
    rewrite decide_True.
    + rewrite Z.land_ones by lia. by rewrite Z.mod_small by (simpl; lia).
    + apply Z.bits_inj'. intros i Hi. rewrite Z.land_spec, Z.bits_0.
      rewrite Z.pow2_bits_eqb by lia. destruct (Z.eqb_spec 7 i) as [<-|]; [|by rewrite andb_false_r].
      rewrite andb_true_r. apply Z.bits_above_log2; [lia|].
      destruct (decide (n = 0)) as [->|]; [done|]. apply Z.log2_lt_pow2; simpl; lia.
  - set (k := Z.to_nat (Z.log2 n / 8 + 1)).
    assert (0 ≤ Z.log2 n / 8 < 4) as Hk.
    { split; [apply Z.div_pos; [apply Z.log2_nonneg|lia]|].
      apply Z.div_lt_upper_bound; [lia|]. apply Z.log2_lt_pow2; lia. }
    assert (n < 256 ^ Z.of_nat k) as Hnk.
    { unfold k. rewrite Z2Nat.id by lia. change 256 with (2 ^ 8).
      rewrite <-Z.pow_mul_r by lia. apply Z.log2_lt_pow2; [lia|].
      pose proof (Z.mul_succ_div_gt (Z.log2 n) 8). lia. }
    pose proof (readLengthBytes_wraps [128 + Z.of_nat k] (Binary.be_bytes k n) rest 0
      (Binary.be_bytes_range k n) ltac:(done)) as Hr.
    rewrite Binary.length_be_bytes, Binary.be_value_bytes, Z.mod_small, Z.mul_0_l, Z.add_0_l
      in Hr by lia.
    assert (int64 n = n) as Hn64 by (apply wrapS_id; [lia|]; unfold in_int; simpl; lia).
    rewrite Hn64 in Hr.
    simpl mbind. cbn [length app] in *.
    rewrite (decide_False (P := 128 + Z.of_nat k = 255)),
      (decide_False (P := 128 + Z.of_nat k = 128)) by lia.
    assert (k = 1 ∨ k = 2 ∨ k = 3 ∨ k = 4)%nat as Hcases by lia.
    assert (Z.land (128 + Z.of_nat k) 128 = 128) as ->
      by (destruct Hcases as [->|[->|[->| ->]]]; done).
    assert (Z.land (128 + Z.of_nat k) 127 = Z.of_nat k) as ->
      by (destruct Hcases as [->|[->|[->| ->]]]; done).
    rewrite (decide_False (P := 128 = 0)), (decide_False (P := Z.of_nat k > 8)) by lia.
    rewrite Nat2Z.id, Hr by lia. simpl. rewrite Binary.length_be_bytes.
    assert (go_int n = n) as -> by (apply wrapS_id; [lia|]; unfold in_int; simpl; lia).
    rewrite decide_False; [done|]. intros Hne. apply Hne.
    apply wrapS_id; [lia|]; unfold in_int; simpl; lia.
Qed.

Lemma readLength_long k l rest :
  (1 ≤ k ≤ 126)%nat → length l = k → Forall (λ b, 0 ≤ b < 256) l →
  readLength ((128 + Z.of_nat k) :: l ++ rest) =
    if decide (k ≤ 8)%nat then Ok (int64 (Binary.be_value l), S k)
    else Err (errorsNew "long-form length overflow").
Proof.
  intros Hk Hlen Hl. unfold readLength.
  rewrite law_LengthLongFormBitmask, law_LengthValueBitmask. simpl mbind.
  rewrite (decide_False (P := 128 + Z.of_nat k = 255)), (decide_False (P := 128 + Z.of_nat k = 128)) by lia.
  assert (Forall (λ x, Z.land (128 + x) 128 = 128 ∧ Z.land (128 + x) 127 = x) (seqZ 0 128)) as Hland
    by (apply (bool_decide_unpack _); by vm_compute).
  rewrite Forall_forall in Hland.
  destruct (Hland (Z.of_nat k)) as [-> ->]; [apply elem_of_seqZ; lia|].
  rewrite (decide_False (P := 128 = 0)) by lia.
  destruct (decide (k ≤ 8)%nat).
  - rewrite (decide_False (P := Z.of_nat k > 8)) by lia.
    pose proof (readLengthBytes_wraps [128 + Z.of_nat k] l rest 0 Hl ltac:(done)) as Hr.
    rewrite Hlen, Z.mul_0_l, Z.add_0_l in Hr. cbn [app length] in Hr. rewrite Nat2Z.id, Hr. simpl.
    assert (go_int (int64 (Binary.be_value l)) = int64 (Binary.be_value l)) as ->
      by (apply wrapS_id; [lia|by apply wrapS_range]).
    rewrite decide_False; [done|]. intros Hne. apply Hne. apply wrapS_id; [lia|by apply wrapS_range].
  - by rewrite (decide_True (P := Z.of_nat k > 8)) by lia.
Qed.
End lengths.

(** ** Octet strings *)

Section octets.
Context `{L : BerLaws}.

Abbreviation len s := (Z.of_nat (String.length s)).

(** An octet string followed by anything: the header goes, the rest stays. *)
Lemma convertOne_octets v d rest :
  len v < 2 ^ 31 → convertOne (Packet_Bytes (newOctets v d) +:+ rest) = Ok (v +:+ rest).
Proof.
  intros Hv. unfold newOctets. rewrite NewString_eq.
  rewrite law_Bytes by (simpl; rewrite law_TagOctetString; lia). simpl.
  rewrite law_ClassUniversal, law_TypePrimitive, law_TagOctetString. simpl.
  unfold convertOne. rewrite !app_cons_str. cbn [bytes index lookup list_lookup].
  simpl mbind. rewrite byteZ_Zbyte by lia. rewrite law_TagOctetString, decide_True by tauto.
  cbn [drop].
  rewrite !bytes_app, bytes_of_bytes by (apply length_octets_range; lia).
  rewrite <-app_assoc, drop_0, readLength_octets by lia. simpl mbind.
  rewrite drop_app_length. rewrite <-bytes_app, of_bytes_bytes. done.
Qed.

Lemma ConvertString_octets vals d :
  Forall (λ v, len v < 2 ^ 31) vals →
  ConvertString (map (λ v, Packet_Bytes (newOctets v d)) vals) = Ok vals.
Proof.
  intros Hv. unfold ConvertString. rewrite (mapM_map_Ok _ _ (λ v, v)); [by rewrite map_id|].
  intros v Hin. eapply Forall_forall in Hv; [|done].
  pose proof (convertOne_octets v d "" Hv) as Hc. by rewrite !app_nil_r_str in Hc.
Qed.

(** What [ConvertString] makes of the values of a change. *)
Lemma ConvertString_change c :
  Forall (λ v, len v < 2 ^ 31) (PartialVals (Modification c)) →
  match PartialVals (Modification c) with
  | [] => ∃ w, ConvertString (PartialVals (Modification (raw_change c))) = Panic w
  | v :: vs => ConvertString (PartialVals (Modification (raw_change c))) =
                 Ok [v +:+ raw_vals vs]
  end.
Proof.
  destruct c as [o [ty vals]]. simpl. destruct vals as [|v vs]; intros Hv; simpl.
  - by eexists.
  - inversion Hv; subst. unfold ConvertString. simpl. by rewrite convertOne_octets.
Qed.
End octets.

Lemma newRequest_Ok_inv `{BerOps} `{LdapOps} id c p r :
  newRequest id (Some c) (Some p) = Ok r →
  ID r = id ∧ ConnectionID r = c ∧ (routeOp r, extendedName r) = message_route (message r) ∧
  ∃ q, newMessage p = Ok (message r, q).
Proof.
  unfold newRequest. intros Hr. inv_ok.
  match goal with x : Message * packet |- _ => destruct x as [m q] end.
  destruct (message_route m) as [ro en] eqn:E. simplify_eq/=. eauto.
Qed.

(** ** Properties *)

Section properties.
Context `{L : BerLaws}.

Abbreviation len s := (Z.of_nat (String.length s)).

(** [readLength] inverts the BER length encoding, short and long form: on
    the length octets of [n] it returns [n] and how many octets there were. *)
Theorem readLength_decodes n rest :
  0 ≤ n < 2 ^ 31 →
  readLength (length_octets n ++ rest) = Ok (n, length (length_octets n)).
Proof. apply readLength_octets. Qed.

(** C31. A long-form length of up to eight octets is read as the 64-bit two's complement integer
    they make: the length is right up to seven octets, but eight octets of which the first has
    its top bit set give a negative length and no error (the test for an overflow compares an
    [int] of 64 bits with itself); a ninth octet is refused. *)
Theorem readLength_bounds k l rest :
  (1 ≤ k ≤ 126)%nat → length l = k → Forall (λ b, 0 ≤ b < 256) l →
  if decide (k ≤ 8)%nat then
    readLength ((128 + Z.of_nat k) :: l ++ rest) = Ok (int64 (Binary.be_value l), S k) ∧
    (Binary.be_value l < 2 ^ 63 ↔ 0 ≤ int64 (Binary.be_value l)) ∧
    ((k < 8)%nat → int64 (Binary.be_value l) = Binary.be_value l)
  else
    readLength ((128 + Z.of_nat k) :: l ++ rest) = Err (errorsNew "long-form length overflow").
Proof.
  intros Hk Hlen Hl. pose proof (Binary.be_value_range l Hl) as Hr. rewrite Hlen in Hr.
  rewrite (readLength_long k l rest Hk Hlen Hl). case_decide as H8; [|done]. split; [done|].
  assert (256 ^ Z.of_nat k ≤ 2 ^ 64) as Hp
    by (change (2 ^ 64) with (256 ^ 8); apply Z.pow_le_mono_r; lia). split.
  - unfold int64, wrapS. rewrite Z.mod_small by lia. simpl. case_decide; lia.
  - intros H7. apply wrapS_id; [lia|]. unfold in_int.
    assert (256 ^ Z.of_nat k ≤ 256 ^ 7) by (apply Z.pow_le_mono_r; lia). simpl in *. lia.
Qed.

(** [ConvertString] turns the encodings of octet strings back into the
    strings. *)
Theorem ConvertString_decodes vals d :
  Forall (λ v, len v < 2 ^ 31) vals →
  ConvertString (map (λ v, Packet_Bytes (newOctets v d)) vals) = Ok vals.
Proof. apply ConvertString_octets. Qed.

(** The values of a change of a modify request, converted with
    [ConvertString]: a single value is recovered; of several values the first
    comes back with the encodings of the others appended to it; with no value
    the conversion panics. *)
Theorem ConvertString_modify_values c :
  Forall (λ v, len v < 2 ^ 31) (PartialVals (Modification c)) →
  match PartialVals (Modification c) with
  | [] => ∃ w, ConvertString (PartialVals (Modification (raw_change c))) = Panic w
  | [v] => ConvertString (PartialVals (Modification (raw_change c))) = Ok [v]
  | v :: vs => ConvertString (PartialVals (Modification (raw_change c))) =
                 Ok [v +:+ raw_vals vs]
  end.
Proof.
  intros Hv. pose proof (ConvertString_change c Hv) as Hc.
  destruct (PartialVals (Modification c)) as [|v [|v' vs]]; [done| |done].
  rewrite Hc. simpl. by rewrite app_nil_r_str.
Qed.

(** C29. Every response that carries a result is read by a client as it was
    made: message id, application tag, result code, matched DN, diagnostic
    message and controls. *)
Theorem result_wire_roundtrip r res :
  response_wf r → result_of r = Some res →
  ∃ p, ber_DecodePacketErr (Packet_Bytes (Response_packet r)) = Ok p ∧ readResult p = Some res.
Proof. apply result_read. Qed.

(** C30. A search result entry is read by a client as it was made: message id,
    DN, and the attributes with their values in order. *)
Theorem entry_wire_roundtrip r :
  response_wf (RSearchEntry r) →
  ∃ p, ber_DecodePacketErr (Packet_Bytes (Response_packet (RSearchEntry r))) = Ok p ∧
    readEntry p = Some (messageID (entry_base r), DN (entry r),
                        map (λ a, mkAttribute (Name a) (Values a)) (Attributes (entry r))).
Proof. apply entry_read. Qed.
End properties.

(** The responses made from a request answer that request: each carries
    its message id, with the result code, diagnostic message and matched DN of
    the options (and the defaults of the source where an option is absent). *)
Theorem responses_answer_request r opt (o := getResponseOpts opt) :
  result_of (RBind (NewBindResponse r opt)) =
    Some (mkLDAPResult (GetID (message r)) ApplicationBindResponse
            (from_option int16 0 (withResponseCode o)) "" "" []) ∧
  result_of (RSearchDone (NewSearchDoneResponse r opt)) =
    Some (mkLDAPResult (GetID (message r)) ApplicationSearchResultDone
            (from_option int16 0 (withResponseCode o)) "" "" []) ∧
  result_of (RExtended (NewExtendedResponse r opt)) =
    Some (mkLDAPResult (GetID (message r)) ApplicationExtendedResponse
            (from_option int16 0 (withResponseCode o)) "" "" []) ∧
  result_of (RGeneral (NewResponse r opt)) =
    Some (mkLDAPResult (GetID (message r))
            (default ApplicationExtendedResponse (withApplicationCode o))
            (int16 (default ResultUnwillingToPerform (withResponseCode o)))
            (withMatchedDN o) (withDiagnosticMessage o) []) ∧
  (∀ c, withResponseCode o = Some c →
     ∃ m, NewModifyResponse r opt = Ok m ∧
       result_of (RGeneral m) =
         Some (mkLDAPResult (GetID (message r)) ApplicationModifyResponse (int16 c)
                 (withMatchedDN o) (withDiagnosticMessage o) [])) ∧
  (withResponseCode o = None → ∃ w, NewModifyResponse r opt = Panic w).
Proof.
  unfold NewModifyResponse. fold o.
  repeat split; simpl; fold o; unfold withCode; try (by destruct (withResponseCode o)).
  - intros c ->. eauto.
  - intros ->. eauto.
Qed.

(** A new request carries the number it was given, its connection's id and
    the message read from the packet, and is routed by the operation (and the
    extended operation's name) of that message. *)
Theorem newRequest_routes `{BerOps} `{LdapOps} id c p r :
  newRequest id (Some c) (Some p) = Ok r →
  ID r = id ∧ ConnectionID r = c ∧ (routeOp r, extendedName r) = message_route (message r) ∧
  ∃ q, newMessage p = Ok (message r, q).
Proof. apply newRequest_Ok_inv. Qed.

(** ** Witnesses *)

Lemma readLength_decodes_witness :
  @readLength ber_model (length_octets 1000 ++ [7]) = Ok (1000, 3%nat).
Proof. apply (@readLength_decodes ber_model ber_model_laws 1000 [7]). lia. Defined.

Lemma readLength_bounds_witness :
  @readLength ber_model ([136; 255; 255; 255; 255; 255; 255; 255; 254] ++ [1]) = Ok (-2, 9%nat).
Proof.
  destruct (@readLength_bounds ber_model ber_model_laws 8 [255; 255; 255; 255; 255; 255; 255; 254] [1])
    as [Hr _].
  - lia.
  - done.
  - repeat constructor; lia.
  - exact Hr.
Defined.

Lemma ConvertString_decodes_witness :
  @ConvertString ber_model
    (map (λ v, @Packet_Bytes ber_model (@newOctets ber_model v "Vals")) ["a"; ""; "bc"]) =
  Ok ["a"; ""; "bc"].
Proof.
  apply (@ConvertString_decodes ber_model ber_model_laws ["a"; ""; "bc"] "Vals").
  repeat constructor.
Defined.

Lemma ConvertString_modify_values_witness :
  @ConvertString ber_model (PartialVals (Modification (@raw_change ber_model
    (mkChange 0 (mkPartialAttribute "mail" ["a@x"; "b@y"]))))) =
  Ok ["a@x" +:+ @raw_vals ber_model ["b@y"]].
Proof.
  apply (@ConvertString_modify_values ber_model ber_model_laws
           (mkChange 0 (mkPartialAttribute "mail" ["a@x"; "b@y"]))).
  repeat constructor.
Defined.

Definition request_example : Request :=
  mkRequest 1 1 (MUnbind (mkUnbindMessage 5)) unbindRouteOperation "".

Lemma result_wire_roundtrip_witness :
  ∃ p, @ber_DecodePacketErr ber_model (@Packet_Bytes ber_model (@Response_packet ber_model
         (RBind (BindResponse_SetControls [ControlPaging 3 ""]
            (NewBindResponse request_example [WithResponseCode ResultInvalidCredentials]))))) = Ok p ∧
       @readResult ber_model p =
         Some (mkLDAPResult 5 ApplicationBindResponse 49 "" "" [ControlPaging 3 ""]).
Proof.
  apply (@result_wire_roundtrip ber_model ber_model_laws
    (RBind (BindResponse_SetControls [ControlPaging 3 ""]
       (NewBindResponse request_example [WithResponseCode ResultInvalidCredentials])))).
  - split; [by vm_compute|]. split; [by vm_compute|]. split; [|by vm_compute].
    constructor; [|constructor]. vm_compute. split; congruence.
  - by vm_compute.
Defined.

Lemma entry_wire_roundtrip_witness :
  ∃ p, @ber_DecodePacketErr ber_model (@Packet_Bytes ber_model (@Response_packet ber_model
         (RSearchEntry (SearchResponseEntry_AddAttribute "cn" ["bob"; "rob"]
            (NewSearchResponseEntry request_example "cn=bob" []))))) = Ok p ∧
       @readEntry ber_model p = Some (5, "cn=bob", [mkAttribute "cn" ["bob"; "rob"]]).
Proof.
  apply (@entry_wire_roundtrip ber_model ber_model_laws
    (SearchResponseEntry_AddAttribute "cn" ["bob"; "rob"]
       (NewSearchResponseEntry request_example "cn=bob" []))).
  split; by vm_compute.
Defined.

Lemma newRequest_routes_witness :
  ∃ r, @newRequest ber_model ldap_presence 4 (Some 2)
         (Some (@testStartTLSRequestPacket ber_model 9)) = Ok r ∧
       ID r = 4 ∧ ConnectionID r = 2 ∧ routeOp r = extendedRouteOperation.
Proof.
  destruct (@newRequest ber_model ldap_presence 4 (Some 2)
              (Some (@testStartTLSRequestPacket ber_model 9))) as [r|e|w] eqn:E;
    [|vm_compute in E; discriminate E..].
  exists r. split; [reflexivity|].
  destruct (@newRequest_routes ber_model ldap_presence 4 2 _ r E) as (H1 & H2 & _).
  split; [exact H1|]. split; [exact H2|]. vm_compute in E. injection E as <-. reflexivity.
Defined.
