(* ===== verification/Testing.v ===== *)
(** The helpers of [testing.go] other than its request encoders (Message.v): the
    controls and encoded strings tests use, and their buffer. *)
From Stdlib Require Import Ascii.
From stdpp Require Import base decidable option list strings gmap.
From Stdlib Require Import ZArith Lia.
From S2P Require Import Prelude GoStd Ber BerModel Codes Options Control Packet Entry Attribute Parameters Message Response ResponseWire Request.
Import GoStrings.

(** [require.NoError(err)] after [a, err := m]: the test ends, which is a panic here *)
Definition noError {A} (m : outcome A) : outcome A :=
  match m with
  | Ok a => Ok a
  | Err _ => Panic "testing.T failed"
  | Panic w => Panic w
  end.

(** [testing.go:42-52] freePort: [resolve] and [listen] are what the network returns, [listen]
    with the port *)
Definition freePort (resolve : outcome unit) (listen : outcome Z) : outcome Z :=
  noError resolve;; noError listen.

(** [testing.go:192-198] testControlString *)
Definition testControlString (controlType : string) (opt : list Option) : outcome Control :=
  noError (NewControlString controlType opt).
(** [testing.go:200-206] testControlManageDsaIT *)
Definition testControlManageDsaIT (opt : list Option) : outcome Control :=
  noError (NewControlManageDsaIT opt).
(** [testing.go:208-214] testControlMicrosoftNotification *)
Definition testControlMicrosoftNotification (opt : list Option) : outcome Control :=
  noError (NewControlMicrosoftNotification opt).
(** [testing.go:216-222] testControlMicrosoftServerLinkTTL *)
Definition testControlMicrosoftServerLinkTTL (opt : list Option) : outcome Control :=
  noError (NewControlMicrosoftServerLinkTTL opt).
(** [testing.go:224-230] testControlMicrosoftShowDeleted *)
Definition testControlMicrosoftShowDeleted (opt : list Option) : outcome Control :=
  noError (NewControlMicrosoftShowDeleted opt).
(** [testing.go:232-238] testControlPaging *)
Definition testControlPaging (pagingSize : Z) (opt : list Option) : outcome Control :=
  noError (NewControlPaging (uint32 pagingSize) opt).

(** [testing.go:240-244] TestWithDebug; [env] is the variable DEBUG *)
Definition TestWithDebug (env : string) : bool := bool_decide (ToLower env = "true").

Section encode.
Context `{BerOps}.

(** [testing.go:246-253] TestEncodeString *)
Definition TestEncodeString (tag : Z) (s : string) (opt : list Option) : outcome string :=
  let opts := getTestOpts opt in
  let pkt := ber_NewString ClassUniversal TypePrimitive tag s (withDescription opts) in
  dec ← noError (ber_DecodePacketErr (Packet_Bytes pkt));
  Ok (Packet_Bytes dec).
End encode.

(** [testing.go:255-266] safeBuf, testSafeBuf: what was written; the lock makes each call one
    step *)
Record safeBuf : Type := mkSafeBuf { buf : string }.
Definition testSafeBuf : safeBuf := mkSafeBuf "".
(** [testing.go:268-272] Write *)
Definition safeBuf_Write (p : string) (w : safeBuf) : (nat * option error) * safeBuf :=
  ((String.length p, None), mkSafeBuf (buf w +:+ p)).
(** [testing.go:274-278] String *)
Definition safeBuf_String (w : safeBuf) : string * safeBuf := (buf w, w).

(** Calls of concurrent users, in the order they take the lock: what is read is what was
    written before, each write whole. *)
Inductive bufCall : Type := BWrite (p : string) | BString.
Fixpoint bufRun (calls : list bufCall) (w : safeBuf) : list string * safeBuf :=
  match calls with
  | [] => ([], w)
  | BWrite p :: calls => bufRun calls (snd (safeBuf_Write p w))
  | BString :: calls =>
      let '(s, w) := safeBuf_String w in
      let '(out, w) := bufRun calls w in (s :: out, w)
  end.

Lemma bufRun_written calls w :
  buf (snd (bufRun calls w)) =
    buf w +:+ foldr (λ c s, match c with BWrite p => p +:+ s | BString => s end) "" calls.
Proof.
  revert w. induction calls as [|[p|] calls IH]; intros w; simpl; [by rewrite app_nil_r_str| |].
  - by rewrite IH, app_assoc_str.
  - specialize (IH w). by destruct (bufRun calls w).
Qed.

(** The wrappers give the controls their constructors make. *)
Lemma testControlString_spec ct opt :
  ct ≠ "" → ∃ c, testControlString ct opt = Ok c ∧ GetControlType c = ct.
Proof. intros Hc. unfold testControlString, NewControlString. rewrite decide_False by done. by eexists. Qed.

Section roundtrip.
Context `{L : BerLaws}.

(** Encoding, decoding and encoding again changes nothing. *)
Lemma TestEncodeString_bytes s opt :
  Z.of_nat (String.length s) < 2 ^ 31 →
  TestEncodeString TagOctetString s opt =
    Ok (Packet_Bytes (newOctets s (withDescription (getTestOpts opt)))).
Proof.
  intros Hs. unfold TestEncodeString. cbn zeta. rewrite NewString_eq. rewrite law_Decode.
  - simpl. f_equal. unfold newOctets. rewrite NewString_eq. unfold reparse. simpl.
    rewrite decide_False by (by rewrite law_TypeConstructed, law_TypePrimitive).
    by rewrite !law_Bytes by (simpl; rewrite law_TagOctetString; lia).
  - constructor; [by left|rewrite law_TagOctetString; lia| |done]. intros _. set_solver.
Qed.

(** What a test encodes with [TestEncodeString], [ConvertString] decodes: encoding each of
    the strings, sending it through the BER library and back, and converting the results
    gives the strings. *)
Theorem TestEncodeString_roundtrip vals opt :
  Forall (λ v, Z.of_nat (String.length v) < 2 ^ 31) vals →
  (encoded ← mapM (λ v, TestEncodeString TagOctetString v opt) vals; ConvertString encoded) = Ok vals.
Proof.
  intros Hv.
  assert (mapM (λ v, TestEncodeString TagOctetString v opt) vals =
    Ok (map (λ v, Packet_Bytes (newOctets v (withDescription (getTestOpts opt)))) vals)) as ->.
  { induction Hv as [|v vals Hv' Hv IH]; simpl; [done|]. by rewrite TestEncodeString_bytes, IH. }
  simpl. by apply ConvertString_octets.
Qed.
End roundtrip.

Lemma TestEncodeString_roundtrip_witness :
  (encoded ← mapM (λ v, @TestEncodeString ber_model (@TagOctetString ber_model) v
      [WithDescription "vals"; WithControlValue "x"]) ["a"; ""; "bc"];
   @ConvertString ber_model encoded) = Ok ["a"; ""; "bc"].
Proof.
  apply (@TestEncodeString_roundtrip ber_model ber_model_laws ["a"; ""; "bc"]).
  repeat constructor.
Defined.
