(* ===== verification/Mux.v ===== *)
(** Routes and the multiplexer: [route.go] and [mux.go].

    A handler is a function value, nil or not: [option handle].  What [serve]
    does with a request is one [action]: call a handler, write the refusal, or
    nothing (it only logs).  Each registration runs under the mux's lock, so it
    is one step. *)
From stdpp Require Import base decidable option list strings gmap.
From Stdlib Require Import ZArith Lia.
From S2P Require Import Prelude GoStd Ber BerModel Codes Options Control Packet Entry Attribute Parameters Message Response ResponseWire Request.
Import GoStrings.

(** [route.go:44] HandlerFunc *)
Definition HandlerFunc : Type := option handle.

(** [route.go:52-56] baseRoute *)
Record baseRoute : Type := mkBaseRoute {
  h : HandlerFunc;
  base_routeOp : routeOperation;
  label : string;
}.

(** [route.go:70-101] The routes, with [baseRoute] itself for the default route *)
Inductive route : Type :=
| BaseRoute (b : baseRoute)
| SearchRoute (b : baseRoute) (basedn filter : string) (scope : Z)
| SimpleBindRoute (b : baseRoute) (authChoice : string)
| UnbindRoute (b : baseRoute)
| ExtendedRoute (b : baseRoute) (extendedName : string)
| ModifyRoute (b : baseRoute)
| AddRoute (b : baseRoute)
| DeleteRoute (b : baseRoute).

(** The embedded base route. *)
Definition route_base (r : route) : baseRoute :=
  match r with
  | BaseRoute b | SearchRoute b _ _ _ | SimpleBindRoute b _ | UnbindRoute b
  | ExtendedRoute b _ | ModifyRoute b | AddRoute b | DeleteRoute b => b
  end.

(** [route.go:58-60] handler *)
Definition handler (r : route) : HandlerFunc := h (route_base r).
(** [route.go:62-64] op *)
Definition route_op (r : route) : routeOperation := base_routeOp (route_base r).

Section Match.
Context `{Folding}.

(** [route.go:171-195] searchRoute.match, after the checks of operation and type *)
Definition searchRoute_match (basedn filter : string) (scope : Z) (m : SearchMessage) : bool :=
  negb (bool_decide (basedn ≠ "") && negb (EqualFold (BaseDN m) basedn)) &&
  negb (bool_decide (filter ≠ "") && negb (EqualFold (Filter m) filter)) &&
  negb (bool_decide (scope ≠ 0) && bool_decide (Scope m ≠ scope)).

(** [route.go:142-155] simpleBindRoute.match, after the checks of operation and type *)
Definition simpleBindRoute_match (authChoice : string) (m : SimpleBindMessage) : bool :=
  bool_decide (authChoice ≠ "") && bool_decide (authChoice = AuthChoice m).

(** [route.go:66-68] baseRoute.match, which [unbindRoute] inherits *)
Definition baseRoute_match (req : option Request) : bool := false.

(** [route.go:103-195] match of the six other routes *)
Definition matches (r : route) (req : option Request) : bool :=
  match req with
  | None => false
  | Some req =>
      let same_op := bool_decide (route_op r = routeOp req) in
      match r with
      | BaseRoute _ | UnbindRoute _ => baseRoute_match (Some req)
      | DeleteRoute _ =>
          same_op && match message req with MDelete _ => true | _ => false end
      | AddRoute _ =>
          same_op && match message req with MAdd _ => true | _ => false end
      | ModifyRoute _ =>
          same_op && match message req with MModify _ => true | _ => false end
      | SimpleBindRoute _ authChoice =>
          same_op && match message req with
                     | MSimpleBind m => simpleBindRoute_match authChoice m
                     | _ => false
                     end
      | ExtendedRoute _ name =>
          same_op && bool_decide (name = extendedName req) &&
          match message req with MExtended _ => true | _ => false end
      | SearchRoute _ basedn filter scope =>
          same_op && match message req with
                     | MSearch m => searchRoute_match basedn filter scope m
                     | _ => false
                     end
      end
  end.
End Match.

(** [mux.go:14-19] Mux *)
Record Mux : Type := mkMux {
  routes : list route;
  defaultRoute : option route;
  unbindRoute : option route;
}.

(** [mux.go:22-26] NewMux *)
Definition NewMux (opt : list Option) : outcome Mux := Ok (mkMux [] None None).

(** [if fn == nil { return fmt.Errorf("%s: missing HandlerFunc: %w", ...) }] *)
Definition needHandler (op : string) (fn : HandlerFunc) : outcome unit :=
  guardErr (bool_decide (is_Some fn)) (invalid op "missing HandlerFunc").

(** [m.routes = append(m.routes, r)] *)
Definition addRoute (r : route) (m : Mux) : Mux :=
  mkMux (routes m ++ [r]) (defaultRoute m) (unbindRoute m).

(** [mux.go:30-49] Bind *)
Definition Mux_Bind (bindFn : HandlerFunc) (opt : list Option) (m : Mux) : outcome Mux :=
  needHandler "gldap.(Mux).Bind" bindFn;;
  let opts := getRouteOpts opt in
  Ok (addRoute (SimpleBindRoute (mkBaseRoute bindFn bindRouteOperation (withLabel opts))
                  SimpleAuthChoice) m).

(** [mux.go:56-74] Unbind *)
Definition Mux_Unbind (bindFn : HandlerFunc) (opt : list Option) (m : Mux) : outcome Mux :=
  needHandler "gldap.(Mux).Unbind" bindFn;;
  let opts := getRouteOpts opt in
  Ok (mkMux (routes m) (defaultRoute m)
        (Some (UnbindRoute (mkBaseRoute bindFn bindRouteOperation (withLabel opts))))).

(** [mux.go:78-98] Search *)
Definition Mux_Search (searchFn : HandlerFunc) (opt : list Option) (m : Mux) : outcome Mux :=
  needHandler "gldap.(Mux).Search" searchFn;;
  let opts := getRouteOpts opt in
  Ok (addRoute (SearchRoute (mkBaseRoute searchFn searchRouteOperation (withLabel opts))
                  (withBaseDN opts) (withFilter opts) (withScope opts)) m).

(** [mux.go:102-120] ExtendedOperation *)
Definition Mux_ExtendedOperation (operationFn : HandlerFunc) (exName : string)
    (opt : list Option) (m : Mux) : outcome Mux :=
  needHandler "gldap.(Mux).Search" operationFn;;
  let opts := getRouteOpts opt in
  Ok (addRoute (ExtendedRoute (mkBaseRoute operationFn extendedRouteOperation (withLabel opts))
                  exName) m).

(** [mux.go:124-141] Modify *)
Definition Mux_Modify (modifyFn : HandlerFunc) (opt : list Option) (m : Mux) : outcome Mux :=
  needHandler "gldap.(Mux).Modify" modifyFn;;
  let opts := getRouteOpts opt in
  Ok (addRoute (ModifyRoute (mkBaseRoute modifyFn modifyRouteOperation (withLabel opts))) m).

(** [mux.go:145-162] Add *)
Definition Mux_Add (addFn : HandlerFunc) (opt : list Option) (m : Mux) : outcome Mux :=
  needHandler "gldap.(Mux).Add" addFn;;
  let opts := getRouteOpts opt in
  Ok (addRoute (AddRoute (mkBaseRoute addFn addRouteOperation (withLabel opts))) m).

(** [mux.go:166-183] Delete *)
Definition Mux_Delete (modifyFn : HandlerFunc) (opt : list Option) (m : Mux) : outcome Mux :=
  needHandler "gldap.(Mux).Delete" modifyFn;;
  let opts := getRouteOpts opt in
  Ok (addRoute (DeleteRoute (mkBaseRoute modifyFn deleteRouteOperation (withLabel opts))) m).

(** [mux.go:187-200] DefaultRoute *)
Definition Mux_DefaultRoute (noRouteFN : HandlerFunc) (opt : list Option) (m : Mux)
    : outcome Mux :=
  needHandler "gldap.(Mux).Bind" noRouteFN;;
  Ok (mkMux (routes m) (Some (BaseRoute (mkBaseRoute noRouteFN bindRouteOperation "")))
        (unbindRoute m)).

(** What the mux does with a request. *)
Inductive action : Type :=
| CallHandler (f : handle)
| WriteResponse (r : Response)
| LogOnly.

(** [f(w, req)]: calling a nil function panics. *)
Definition call (f : HandlerFunc) : outcome action :=
  match f with
  | Some f => Ok (CallHandler f)
  | None => Panic "invalid memory address or nil pointer dereference"
  end.

(** [mux.go:203-240] serve, with a response writer; the request may be nil *)
Definition serve `{Folding} (m : Mux) (req : option Request) : outcome action :=
  match req with
  | None => Ok LogOnly
  | Some req =>
      match list_find (λ r, Is_true (matches r (Some req))) (routes m) with
      | Some (_, r) =>
          match handler r with
          | None => Ok LogOnly
          | Some f => Ok (CallHandler f)
          end
      | None =>
          match defaultRoute m with
          | Some r => call (handler r)
          | None =>
              Ok (WriteResponse (RGeneral (NewResponse req
                [WithResponseCode ResultUnwillingToPerform;
                 WithDiagnosticMessage "No matching handler found"])))
          end
      end
  end.

(** ** A mux as the registrations that built it *)

(** The calls that register handlers. *)
Inductive registration : Type :=
| RegBind (f : HandlerFunc) (opt : list Option)
| RegUnbind (f : HandlerFunc) (opt : list Option)
| RegSearch (f : HandlerFunc) (opt : list Option)
| RegExtended (f : HandlerFunc) (exName : string) (opt : list Option)
| RegModify (f : HandlerFunc) (opt : list Option)
| RegAdd (f : HandlerFunc) (opt : list Option)
| RegDelete (f : HandlerFunc) (opt : list Option)
| RegDefault (f : HandlerFunc) (opt : list Option).

Definition register (o : registration) (m : Mux) : outcome Mux :=
  match o with
  | RegBind f opt => Mux_Bind f opt m
  | RegUnbind f opt => Mux_Unbind f opt m
  | RegSearch f opt => Mux_Search f opt m
  | RegExtended f n opt => Mux_ExtendedOperation f n opt m
  | RegModify f opt => Mux_Modify f opt m
  | RegAdd f opt => Mux_Add f opt m
  | RegDelete f opt => Mux_Delete f opt m
  | RegDefault f opt => Mux_DefaultRoute f opt m
  end.

(** A mux after a sequence of calls; a call that fails leaves it alone. *)
Definition registered (os : list registration) : Mux :=
  foldl (λ m o, match register o m with Ok m => m | _ => m end) (mkMux [] None None) os.

(** The handler a registration brings. *)
Definition reg_handler (o : registration) : HandlerFunc :=
  match o with
  | RegBind f _ | RegUnbind f _ | RegSearch f _ | RegExtended f _ _ | RegModify f _
  | RegAdd f _ | RegDelete f _ | RegDefault f _ => f
  end.

(** The route a registration appends, by its handler. *)
Definition reg_route (o : registration) : option route :=
  f ← reg_handler o;
  let base op opt := mkBaseRoute (Some f) op (withLabel (getRouteOpts opt)) in
  match o with
  | RegBind _ opt => Some (SimpleBindRoute (base bindRouteOperation opt) SimpleAuthChoice)
  | RegSearch _ opt =>
      let o := getRouteOpts opt in
      Some (SearchRoute (base searchRouteOperation opt) (withBaseDN o) (withFilter o)
              (withScope o))
  | RegExtended _ n opt => Some (ExtendedRoute (base extendedRouteOperation opt) n)
  | RegModify _ opt => Some (ModifyRoute (base modifyRouteOperation opt))
  | RegAdd _ opt => Some (AddRoute (base addRouteOperation opt))
  | RegDelete _ opt => Some (DeleteRoute (base deleteRouteOperation opt))
  | RegUnbind _ _ | RegDefault _ _ => None
  end.

(** The default and unbind handlers a registration sets. *)
Definition reg_default (o : registration) : option handle :=
  match o with RegDefault f _ => f | _ => None end.
Definition reg_unbind (o : registration) : option handle :=
  match o with RegUnbind f _ => f | _ => None end.

(** The handlers of a mux are not nil. *)
Definition mux_wf (m : Mux) : Prop :=
  Forall (λ r, is_Some (handler r)) (routes m) ∧
  (∀ r, defaultRoute m = Some r → is_Some (handler r)) ∧
  (∀ r, unbindRoute m = Some r → is_Some (handler r)).

Lemma needHandler_None op : needHandler op None = Err (invalid op "missing HandlerFunc").
Proof. unfold needHandler. by rewrite bool_decide_eq_false_2 by (intros [? ?]; done). Qed.

Lemma needHandler_Some op f : needHandler op (Some f) = Ok ().
Proof. unfold needHandler. by rewrite bool_decide_eq_true_2 by by eexists. Qed.

(** What one registration does. *)
Lemma register_spec o m :
  match reg_handler o with
  | None => ∃ e, register o m = Err e ∧ errors_Is e ErrInvalidParameter = true
  | Some f =>
      ∃ m', register o m = Ok m' ∧
      routes m' = routes m ++ option_list (reg_route o) ∧
      handler <$> defaultRoute m' =
        match reg_default o with Some f => Some (Some f) | None => handler <$> defaultRoute m end ∧
      handler <$> unbindRoute m' =
        match reg_unbind o with Some f => Some (Some f) | None => handler <$> unbindRoute m end
  end.
Proof.
  destruct o as [[f|] ?|[f|] ?|[f|] ?|[f|] ? ?|[f|] ?|[f|] ?|[f|] ?|[f|] ?]; simpl;
    unfold Mux_Bind, Mux_Unbind, Mux_Search, Mux_ExtendedOperation, Mux_Modify, Mux_Add,
      Mux_Delete, Mux_DefaultRoute;
    rewrite ?needHandler_Some, ?needHandler_None; simpl;
    eexists; (split; [reflexivity|]); simpl; rewrite ?app_nil_r; done.
Qed.

Lemma registered_snoc os o :
  registered (os ++ [o]) =
    match register o (registered os) with Ok m => m | _ => registered os end.
Proof. unfold registered. by rewrite foldl_app. Qed.

Lemma reg_route_handler o r : reg_route o = Some r → handler r = reg_handler o.
Proof.
  unfold reg_route. destruct (reg_handler o) as [f|] eqn:E; [|done].
  destruct o; simpl in *; intros [= <-]; done.
Qed.

Lemma routes_registered os : routes (registered os) = omap reg_route os.
Proof.
  induction os as [|o os IH] using rev_ind; [done|].
  rewrite registered_snoc, omap_app. simpl.
  pose proof (register_spec o (registered os)) as Hs.
  destruct (reg_handler o) as [f|] eqn:Ef.
  - destruct Hs as (m' & -> & -> & _). rewrite IH. by destruct (reg_route o).
  - destruct Hs as (e & -> & _). rewrite IH.
    destruct (reg_route o) as [r|] eqn:Er; [|by rewrite app_nil_r].
    by destruct o; simplify_eq/=.
Qed.

Lemma default_registered os :
  handler <$> defaultRoute (registered os) = Some <$> last (omap reg_default os).
Proof.
  induction os as [|o os IH] using rev_ind; [done|].
  rewrite registered_snoc, omap_app. simpl.
  pose proof (register_spec o (registered os)) as Hs.
  destruct (reg_handler o) as [f|] eqn:Ef.
  - destruct Hs as (m' & -> & _ & -> & _). destruct (reg_default o); simpl.
    + by rewrite last_snoc.
    + by rewrite app_nil_r.
  - destruct Hs as (e & -> & _). rewrite IH.
    destruct (reg_default o) eqn:Er; [|by rewrite app_nil_r].
    by destruct o; simplify_eq/=.
Qed.

Lemma registered_wf os : mux_wf (registered os).
Proof.
  unfold mux_wf. split; [|split].
  - rewrite routes_registered. apply Forall_forall. intros r (o & _ & Ho)%list_elem_of_omap.
    rewrite (reg_route_handler o r Ho). by destruct o as [[]|[]|[]|[]|[]|[]|[]|[]]; simplify_eq/=.
  - intros r Hr. pose proof (default_registered os) as Hd. rewrite Hr in Hd.
    simpl in Hd. destruct (last _); simplify_eq/=. rewrite Hd. by eexists.
  - induction os as [|o os IH] using rev_ind; [done|]. intros r.
    rewrite registered_snoc. pose proof (register_spec o (registered os)) as Hs.
    destruct (reg_handler o) as [f|] eqn:Ef.
    + destruct Hs as (m' & -> & _ & _ & Hu). intros Hr. rewrite Hr in Hu. simpl in Hu.
      destruct (reg_unbind o); [simplify_eq; rewrite Hu; by eexists|].
      destruct (unbindRoute (registered os)) as [r'|] eqn:E; simplify_eq/=.
      rewrite Hu. by apply IH.
    + destruct Hs as (e & -> & _). apply IH.
Qed.

Lemma list_find_first {A} (P : A → Prop) `{∀ x, Decision (P x)} l i x :
  l !! i = Some x → P x → (∀ j y, (j < i)%nat → l !! j = Some y → ¬ P y) →
  list_find P l = Some (i, x).
Proof. intros Hi Hp Hj. apply list_find_Some. split; [done|]. split; [done|]. naive_solver. Qed.

(** ** Properties *)

Section properties.
Context `{Folding}.

(** C8. Handlers are tried in the order in which they were registered, and the
    first one whose route matches, and no other, is called. *)
Theorem serve_first_match os req i r :
  omap reg_route os !! i = Some r → matches r (Some req) = true →
  (∀ j r', (j < i)%nat → omap reg_route os !! j = Some r' → matches r' (Some req) = false) →
  ∃ f, handler r = Some f ∧ serve (registered os) (Some req) = Ok (CallHandler f).
Proof.
  intros Hi Hm Hj.
  assert (is_Some (handler r)) as [f Hf].
  { destruct (registered_wf os) as [Hwf _]. rewrite routes_registered in Hwf.
    by eapply Forall_lookup in Hwf. }
  exists f. split; [done|]. unfold serve. rewrite routes_registered.
  rewrite (list_find_first _ _ i r); [by rewrite Hf|done|by apply Is_true_true|].
  intros j r' Hlt Hr' Ht%Is_true_true. by rewrite (Hj j r') in Ht.
Qed.

(** A request no registered route matches goes to the default handler
    registered last; without one it is answered [unwillingToPerform] with the
    request's message id. *)
Theorem serve_no_match os req :
  (∀ r, r ∈ omap reg_route os → matches r (Some req) = false) →
  match last (omap reg_default os) with
  | Some f => serve (registered os) (Some req) = Ok (CallHandler f)
  | None =>
      ∃ res, serve (registered os) (Some req) = Ok (WriteResponse res) ∧
             result_of res =
               Some (mkLDAPResult (GetID (message req))
                       ApplicationExtendedResponse ResultUnwillingToPerform "Unused"
                       "No matching handler found" [])
  end.
Proof.
  intros Hm. pose proof (default_registered os) as Hd. unfold serve.
  rewrite routes_registered.
  assert (list_find (λ r, Is_true (matches r (Some req))) (omap reg_route os) = None) as ->.
  { apply list_find_None, Forall_forall. intros r Hr Ht%Is_true_true. by rewrite Hm in Ht. }
  destruct (last (omap reg_default os)) as [f|], (defaultRoute (registered os)) as [r|];
    simplify_eq/=; [by rewrite Hd|by eauto].
Qed.

(** C9. Every mux built by registrations, failed ones included, has no nil
    handler; so serving any request on it ends in exactly one action and never
    panics. *)
Theorem registered_serve_total os req :
  mux_wf (registered os) ∧ ∃ a, serve (registered os) req = Ok a.
Proof.
  split; [apply registered_wf|]. destruct (registered_wf os) as (_ & Hd & _).
  unfold serve. destruct req as [req|]; [|by eauto].
  destruct (list_find _ _) as [[i r]|]; [by destruct (handler r); eauto|].
  destruct (defaultRoute (registered os)) as [r|]; [|by eauto].
  destruct (Hd r eq_refl) as [f Hf]. rewrite Hf. simpl. eauto.
Qed.

(** A route that matches a request made by [newRequest] is of the request's
    kind: a search route needs the message's base DN, filter and scope to agree
    with those it sets, a bind route a simple bind, an extended route the same
    operation name. *)
Theorem matches_kind r req :
  (routeOp req, extendedName req) = message_route (message req) →
  matches r (Some req) = true →
  match r with
  | BaseRoute _ | UnbindRoute _ => False
  | SearchRoute _ basedn filter scope =>
      ∃ m, message req = MSearch m ∧
        (basedn = "" ∨ EqualFold (BaseDN m) basedn = true) ∧
        (filter = "" ∨ EqualFold (Filter m) filter = true) ∧
        (scope = 0 ∨ Scope m = scope)
  | SimpleBindRoute _ auth => ∃ m, message req = MSimpleBind m ∧ AuthChoice m = auth
  | ExtendedRoute _ n => ∃ m, message req = MExtended m ∧ ExtendedName m = n
  | ModifyRoute _ => ∃ m, message req = MModify m
  | AddRoute _ => ∃ m, message req = MAdd m
  | DeleteRoute _ => ∃ m, message req = MDelete m
  end.
Proof.
  intros Hreq Hm. unfold matches in Hm.
  destruct r; rewrite ?andb_true_iff, ?bool_decide_eq_true in Hm; try done;
    destruct (message req) as [m|m|m|m|m|m|m]; simplify_eq/=;
    try (by destruct Hm); eauto.
  - destruct Hm as [_ Hm]. exists m. split; [done|]. unfold searchRoute_match in Hm.
    rewrite !andb_true_iff, !negb_true_iff, !andb_false_iff, !negb_false_iff,
      !bool_decide_eq_false in Hm.
    destruct Hm as [[Ha Hb] Hc].
    destruct (decide (basedn = "")), (decide (filter = "")), (decide (scope = 0)),
      (decide (Scope m = scope)); tauto.
  - destruct Hm as [_ Hm]. unfold simpleBindRoute_match in Hm.
    rewrite andb_true_iff, !bool_decide_eq_true in Hm. destruct Hm. eauto.
  - destruct Hm as [[_ ->] _]. eauto.
Qed.

(** A search route registered with [WithScope(BaseObject)] is not limited
    to base searches: it matches exactly the requests that a route without a
    scope matches. *)
Theorem WithScope_BaseObject_ignored f opt req r :
  reg_route (RegSearch (Some f) (opt ++ [WithScope BaseObject])) = Some r →
  matches r req =
    match req with
    | Some q => bool_decide (routeOp q = searchRouteOperation) &&
        match message q with
        | MSearch m => searchRoute_match (withBaseDN (getRouteOpts opt))
                         (withFilter (getRouteOpts opt)) 0 m
        | _ => false
        end
    | None => false
    end.
Proof.
  unfold reg_route, getRouteOpts, WithScope. rewrite !applyOpts_snoc. simpl. intros [= <-].
  destruct req as [q|]; [|done]. simpl. f_equal. by apply bool_decide_ext.
Qed.
End properties.

(** ** Witnesses *)

Definition search_request : Request :=
  mkRequest 1 1
    (MSearch (mkSearchMessage 7 "OU=People" WholeSubtree 0 0 0 false "(cn=bob)" [] []))
    searchRouteOperation "".

Definition example_routes : list registration :=
  [RegBind (Some 10) []; RegSearch None []; RegSearch (Some 11) [WithBaseDN "ou=groups"];
   RegSearch (Some 12) [WithBaseDN "ou=people"; WithScope WholeSubtree];
   RegDefault (Some 13) []].

Lemma serve_first_match_witness :
  ∃ f, Some 12 = Some f ∧
       @serve ascii_folding (registered example_routes) (Some search_request) =
         Ok (CallHandler f).
Proof.
  apply (@serve_first_match ascii_folding example_routes search_request 2
           (SearchRoute (mkBaseRoute (Some 12) searchRouteOperation "") "ou=people" ""
              WholeSubtree)).
  - vm_compute. reflexivity.
  - vm_compute. reflexivity.
  - intros [|[|j]] r' Hj Hr'; [vm_compute in Hr'; injection Hr' as <-; vm_compute; reflexivity..|].
    exfalso. lia.
Defined.

Lemma serve_no_match_witness :
  @serve ascii_folding (registered [RegAdd (Some 3) []; RegDefault (Some 4) []])
    (Some search_request) = Ok (CallHandler 4).
Proof.
  apply (@serve_no_match ascii_folding [RegAdd (Some 3) []; RegDefault (Some 4) []]).
  intros r Hr. vm_compute in Hr. inversion Hr as [|? ? ? Hr']; subst; [reflexivity|inversion Hr'].
Defined.

Lemma matches_kind_witness :
  ∃ m, message search_request = MSearch m ∧
    ("ou=people" = "" ∨ @EqualFold ascii_folding (BaseDN m) "ou=people" = true) ∧
    ("" = "" ∨ @EqualFold ascii_folding (Filter m) "" = true) ∧
    (WholeSubtree = 0 ∨ Scope m = WholeSubtree).
Proof.
  apply (@matches_kind ascii_folding
           (SearchRoute (mkBaseRoute (Some 12) searchRouteOperation "") "ou=people" ""
              WholeSubtree) search_request); vm_compute; reflexivity.
Defined.

Lemma WithScope_BaseObject_ignored_witness :
  @matches ascii_folding
    (SearchRoute (mkBaseRoute (Some 5) searchRouteOperation "") "" "" 0)
    (Some search_request) = true.
Proof.
  rewrite (@WithScope_BaseObject_ignored ascii_folding 5 [] (Some search_request));
    vm_compute; reflexivity.
Defined.
