(* ===== verification/Sid.v ===== *)
(** Security identifiers: [sid.go].  A byte slice is a list of bytes; a
    [bytes.Reader] is the list of the bytes not read yet. *)
From stdpp Require Import base decidable option list strings gmap.
From Stdlib Require Import ZArith Lia.
From S2P Require Import Prelude GoStd.

(** [binary.Write] of a [[3]uint16], big endian. *)
Definition write_parts (parts : list Z) : list Z :=
  mjoin (map (Binary.be_bytes 2) parts).

(** [sid.go:13-30] SIDBytes; writing to a [bytes.Buffer] does not fail *)
Definition SIDBytes (revision identifierAuthority : Z) : outcome (list Z) :=
  let identifierAuthorityParts := [0; 0; identifierAuthority] in
  let subAuthorityCount := 0 in
  Ok (Binary.le_bytes 1 revision ++ Binary.le_bytes 1 subAuthorityCount ++
      write_parts identifierAuthorityParts).

(** [binary.Read] of [n] little-endian integers of [w] bytes from bytes already
    read. *)
Fixpoint le_words (w n : nat) (l : list Z) : list Z :=
  match n with
  | O => []
  | S n => Binary.le_value (take w l) :: le_words w n (drop w l)
  end.

(** The same, big endian. *)
Fixpoint be_words (w n : nat) (l : list Z) : list Z :=
  match n with
  | O => []
  | S n => Binary.be_value (take w l) :: be_words w n (drop w l)
  end.

(** [sid.go:33-64] SIDBytesToString *)
Definition SIDBytesToString (b : list Z) : outcome string :=
  let op := "gldap.sidBytesToString" in
  '(rev, reader) ← wrapErr op "SID %#v convert failed reading Revision" (Binary.ReadFull 1 b);
  let revision := Binary.le_value rev in
  '(cnt, reader) ← wrapErr op "SID %#v convert failed reading SubAuthorityCount"
                     (Binary.ReadFull 1 reader);
  let subAuthorityCount := Binary.le_value cnt in
  '(parts, reader) ← wrapErr op "SID %#v convert failed reading IdentifierAuthority"
                       (Binary.ReadFull 6 reader);
  let p := be_words 2 3 parts in
  let part i := default 0 (p !! i) in
  let identifierAuthority :=
    uint64 (Z.shiftl (part 0%nat) 32 + Z.shiftl (part 1%nat) 16 + part 2%nat) in
  let n := Z.to_nat subAuthorityCount in
  '(subs, reader) ← wrapErr op "SID %#v convert failed reading SubAuthority"
                      (Binary.ReadFull (4 * n) reader);
  let subAuthority := le_words 4 n subs in
  let result := "S-" +:+ Strconv.FormatInt revision +:+ "-" +:+
                Strconv.FormatInt identifierAuthority in
  Ok (foldl (λ result part, result +:+ "-" +:+ Strconv.FormatInt part) result subAuthority).

(** ** The format of a SID, MS-DTYP 2.4.2 *)

(** A SID: its revision, 48-bit identifier authority and sub-authorities. *)
Record SID : Type := mkSID {
  sid_revision : Z;
  sid_authority : Z;
  sid_sub : list Z;
}.

Definition sid_wf (s : SID) : Prop :=
  in_uint 8 (sid_revision s) ∧ in_uint 48 (sid_authority s) ∧
  Forall (in_uint 32) (sid_sub s) ∧ Z.of_nat (length (sid_sub s)) < 256.

(** Its bytes. *)
Definition sid_bytes (s : SID) : list Z :=
  [sid_revision s; Z.of_nat (length (sid_sub s))] ++
  Binary.be_bytes 6 (sid_authority s) ++
  mjoin (map (Binary.le_bytes 4) (sid_sub s)).

(** Its string. *)
Definition sid_string (s : SID) : string :=
  "S-" +:+ Strconv.FormatInt (sid_revision s) +:+ "-" +:+
  Strconv.FormatInt (sid_authority s) +:+
  foldr (λ p t, "-" +:+ Strconv.FormatInt p +:+ t) "" (sid_sub s).

(** ** Lemmas *)

Lemma ReadFull_app n (l k : list Z) :
  length l = n → Binary.ReadFull n (l ++ k) = Ok (l, k).
Proof.
  intros <-. unfold Binary.ReadFull. rewrite decide_True by (rewrite length_app; lia).
  by rewrite take_app_length, drop_app_length.
Qed.

Lemma ReadFull_cases n l :
  (n ≤ length l)%nat ∧ Binary.ReadFull n l = Ok (take n l, drop n l) ∨
  (length l < n)%nat ∧ ∃ e, Binary.ReadFull n l = Err e.
Proof.
  unfold Binary.ReadFull. case_decide; [by left|]. right. split; [lia|]. destruct l; eauto.
Qed.

Lemma length_join_le n l : length (mjoin (map (Binary.le_bytes n) l)) = (n * length l)%nat.
Proof.
  induction l as [|x l IH]; simpl; [lia|]. rewrite length_app, IH, Binary.length_le_bytes. lia.
Qed.

Lemma le_words_join w l :
  Forall (in_uint (8 * Z.of_nat w)) l →
  le_words w (length l) (mjoin (map (Binary.le_bytes w) l)) = l.
Proof.
  induction 1 as [|x l Hx _ IH]; simpl; [done|].
  rewrite take_app_length', drop_app_length' by (by rewrite Binary.length_le_bytes).
  rewrite IH, Binary.le_value_bytes. f_equal. apply Z.mod_small.
  unfold in_uint in Hx. change 256 with (2 ^ 8). by rewrite <-Z.pow_mul_r by lia.
Qed.

Lemma foldl_parts l t :
  foldl (λ result part, result +:+ "-" +:+ Strconv.FormatInt part) t l =
  t +:+ foldr (λ p t, "-" +:+ Strconv.FormatInt p +:+ t) "" l.
Proof.
  revert t. induction l as [|x l IH]; intros t; simpl; [by rewrite app_nil_r_str|].
  rewrite IH. by rewrite <-!app_assoc_str.
Qed.

(** Three big-endian 16-bit words are one 48-bit integer. *)
Lemma be_words_authority a :
  in_uint 48 a →
  let p := be_words 2 3 (Binary.be_bytes 6 a) in
  let part i := default 0 (p !! i) in
  uint64 (Z.shiftl (part 0%nat) 32 + Z.shiftl (part 1%nat) 16 + part 2%nat) = a.
Proof.
  intros Ha. pose proof (Binary.be_value_bytes 6 a) as Hv.
  rewrite Z.mod_small in Hv by exact Ha. simpl.
  rewrite !Z.shiftl_mul_pow2 by lia. unfold uint64.
  match goal with |- wrapU _ ?x = _ => assert (x = a) as -> end.
  - etransitivity; [|exact Hv]. cbn [Binary.be_bytes]. unfold Binary.be_value. cbn [foldl].
    lia.
  - apply wrapU_id. unfold in_uint in *. simpl in *. lia.
Qed.

Lemma SIDBytesToString_bytes s rest :
  sid_wf s → SIDBytesToString (sid_bytes s ++ rest) = Ok (sid_string s).
Proof.
  intros (Hr & Ha & Hs & Hn). unfold SIDBytesToString, sid_bytes. rewrite <-!app_assoc.
  change ([sid_revision s; Z.of_nat (length (sid_sub s))] ++ ?k)
    with ([sid_revision s] ++ [Z.of_nat (length (sid_sub s))] ++ k).
  rewrite ReadFull_app by done. cbn [mbind outcome_bind wrapErr].
  rewrite ReadFull_app by done. cbn [mbind outcome_bind wrapErr].
  rewrite ReadFull_app by apply Binary.length_be_bytes. cbn [mbind outcome_bind wrapErr].
  assert (∀ z, Binary.le_value [z] = z) as Hle by (intros; unfold Binary.le_value; simpl; lia).
  rewrite !Hle, Nat2Z.id.
  rewrite ReadFull_app by apply length_join_le. cbn [mbind outcome_bind wrapErr].
  pose proof (be_words_authority _ Ha) as Hauth. cbn zeta in Hauth. rewrite Hauth.
  rewrite le_words_join by done. rewrite foldl_parts. unfold sid_string.
  by rewrite <-!app_assoc_str.
Qed.

Lemma SIDBytes_bytes revision ia :
  in_uint 8 revision → in_uint 16 ia →
  SIDBytes revision ia = Ok (sid_bytes (mkSID revision ia [])).
Proof.
  intros Hr Hi. unfold in_uint in *. unfold SIDBytes, sid_bytes, write_parts.
  assert (∀ k : nat, (2 ≤ k)%nat → (ia / 256 ^ Z.of_nat k) mod 256 = 0) as Hz.
  { intros k Hk. rewrite Z.div_small; [done|]. split; [lia|].
    apply Z.lt_le_trans with (256 ^ 2); [simpl in *; lia|]. apply Z.pow_le_mono_r; lia. }
  cbn [Binary.be_bytes Binary.le_bytes map mjoin list_join app sid_authority sid_revision
       sid_sub length].
  rewrite !(Hz 5%nat), !(Hz 4%nat), !(Hz 3%nat), !(Hz 2%nat) by lia.
  by rewrite (Z.mod_small revision) by (simpl in *; lia).
Qed.

(** The bytes a SID takes: eight and four for each sub-authority. *)
Lemma SIDBytesToString_short b :
  Z.of_nat (length b) < 8 + 4 * Binary.le_value (take 1 (drop 1 b)) ∨ (length b < 8)%nat →
  ∃ e, SIDBytesToString b = Err e.
Proof.
  unfold SIDBytesToString. destruct b as [|r [|c b]]; intros Hb; [by eauto|by eauto|].
  change (r :: c :: b) with ([r] ++ [c] ++ b). rewrite ReadFull_app by done.
  cbn [mbind outcome_bind wrapErr]. rewrite ReadFull_app by done.
  cbn [mbind outcome_bind wrapErr].
  destruct (ReadFull_cases 6 b) as [[H6 ->]|[H6 [e ->]]]; [|simpl; by eauto].
  cbn [mbind outcome_bind wrapErr].
  set (n := (4 * _)%nat). destruct (ReadFull_cases n (drop 6 b)) as [[H4 ->]|[H4 [e ->]]];
    [|simpl; by eauto].
  exfalso. revert Hb. unfold n in H4. rewrite length_drop in H4. simpl in *. lia.
Qed.

(** ** Properties *)

(** C34. [SIDBytesToString] prints any well-formed SID from its bytes: revision,
    48-bit authority and every sub-authority in decimal; bytes after the SID
    are ignored. *)
Theorem SIDBytesToString_correct s rest :
  sid_wf s → SIDBytesToString (sid_bytes s ++ rest) = Ok (sid_string s).
Proof. apply SIDBytesToString_bytes. Qed.

(** [SIDBytes] and [SIDBytesToString] agree: the SID made from a revision
    and an authority prints as [S-revision-authority]; bytes too short for the
    sub-authorities they announce are an error, never a panic. *)
Theorem SIDBytes_roundtrip revision ia :
  in_uint 8 revision → in_uint 16 ia →
  (∃ b, SIDBytes revision ia = Ok b ∧
        SIDBytesToString b =
          Ok ("S-" +:+ Strconv.FormatInt revision +:+ "-" +:+ Strconv.FormatInt ia)) ∧
  ∀ b, Z.of_nat (length b) < 8 + 4 * Binary.le_value (take 1 (drop 1 b)) ∨ (length b < 8)%nat →
       ∃ e, SIDBytesToString b = Err e.
Proof.
  intros Hr Hi. split; [|apply SIDBytesToString_short].
  exists (sid_bytes (mkSID revision ia [])). split; [by apply SIDBytes_bytes|].
  rewrite <-(app_nil_r (sid_bytes _)). rewrite SIDBytesToString_bytes.
  - unfold sid_string. simpl. by rewrite app_nil_r_str.
  - unfold sid_wf, in_uint in *. simpl in *. split; [done|]. split; [lia|].
    split; [constructor|done].
Qed.

(** ** Witnesses *)

Lemma SIDBytesToString_correct_witness :
  SIDBytesToString (sid_bytes (mkSID 1 5 [21; 2127521184; 72713]) ++ [255]) =
    Ok "S-1-5-21-2127521184-72713".
Proof.
  apply (SIDBytesToString_correct (mkSID 1 5 [21; 2127521184; 72713]) [255]).
  split; [by vm_compute|]. split; [by vm_compute|]. split; [|by vm_compute].
  repeat constructor; by vm_compute.
Defined.

Lemma SIDBytes_roundtrip_witness :
  ∃ b, SIDBytes 2 22 = Ok b ∧
       SIDBytesToString b = Ok ("S-" +:+ Strconv.FormatInt 2 +:+ "-" +:+ Strconv.FormatInt 22).
Proof. apply (SIDBytes_roundtrip 2 22); by vm_compute. Defined.
