(* ===== verification/Conn.v ===== *)
(** Connections: [conn.go], with [StartTLS] of [request.go].

    [serveRequests] is a loop that reads requests and runs the handler of each
    in a goroutine of its own (StartTLS and unbind in the loop itself).  The
    state of a connection is the loop's, plus its requests in flight; [step]
    has one rule for each thing the loop, a handler's goroutine, the network or
    the deferred [close] can do next, so a sequence of steps is an interleaving
    of all of them.  What [ber.ReadPacket] returns, whether the server is
    shutting down, and what handlers do (the responses they write, whether they
    call StartTLS, return or panic) are the environment's choice.

    Every request's [ResponseWriter] keeps the [bufio.Writer] that was current
    when it was made; StartTLS replaces the connection's writer.  So the state
    has the list of all writers, the last of which is current.  The fields
    [received], [called] and [written] record what happened.

    The wait group [requestsWg] is a counter of its own: the loop adds one before
    it starts a goroutine, the goroutine takes one off as the last thing it
    does, and [close] waits for the counter, not for the goroutines.  That it
    counts the goroutines is an invariant. *)
From stdpp Require Import base decidable option list strings gmap relations.
From Stdlib Require Import ZArith Lia.
From S2P Require Import Prelude GoStd Ber BerModel Codes Options Control Packet Entry Attribute Parameters Message MessageWire MessageSafety Response ResponseWire Request Mux.
Import GoStrings.

(** [conn.go:195-206] initConn: the writers of a connection after it; [None] is a
    nil [net.Conn] *)
Definition initConn (netConn : option netWriter) (writers : list bufioWriter)
    : outcome (list bufioWriter) :=
  match netConn with
  | None => Err (invalid "gldap.(Conn).initConn" "missing net conn")
  | Some n => Ok (writers ++ [mkBufioWriter n "" None])
  end.

(** [conn.go:22-35] conn: what does not change while it serves *)
Record conn : Type := mkConn {
  connID : Z;
  logger : handle;
  router : Mux;
}.

(** [conn.go:39-67] newConn: the connection and its writers *)
Definition newConn (shutdownCtx : option handle) (id : Z) (netConn : option netWriter)
    (log : option handle) (rt : option Mux) : outcome (conn * list bufioWriter) :=
  let op := "gldap.NewConn" in
  match shutdownCtx with
  | None => Err (invalid op "missing shutdown context")
  | Some _ =>
      if decide (id = 0) then Err (invalid op "missing connection id")
      else match netConn with
      | None => Err (invalid op "missing connection")
      | Some _ =>
          match log, rt with
          | None, _ => Err (invalid op "missing logger")
          | _, None => Err (invalid op "missing router")
          | Some log, Some rt =>
              ws ← wrapErr op "" (initConn netConn []);
              Ok (mkConn id log rt, ws)
          end
      end
  end.

(** What [ber.ReadPacket] returned. *)
Definition readOutcome : Type := Packet + error.

Section Read.
Context `{BerOps} `{LdapOps}.

(** [conn.go:161-193] readPacket *)
Definition readPacket (r : readOutcome) : outcome packet :=
  let op := "gldap.readPacket" in
  match r with
  | inr err =>
      Err (Wrapf op ""
        (if Contains (ErrorText err) "invalid character for IA5String at pos 2"
         then Wrapf op "error reading ber packet for %d/%d (possible attempt to use TLS with a non-TLS server)" err
         else Wrapf op "error reading ber packet for %d/%d" err))
  | inl berPacket => wrapErr op "failed validation" (basicValidation (mkpacket berPacket false))
  end.

(** [conn.go:146-159] readRequest *)
Definition readRequest (c : conn) (requestID : Z) (r : readOutcome) : outcome Request :=
  let op := "gldap.(Conn).readRequest" in
  p ← wrapErr op "error reading packet for %d/%d" (readPacket r);
  wrapErr op "unable to create new in-memory request for %d/%d"
    (newRequest requestID (Some (connID c)) (Some p)).

(** What an iteration of the loop does after it read. *)
Inductive next : Type :=
| NPanic (why : string)
| NReturn (err : option error)
| NUnbind (r : Request)
| NSync (r : Request)
| NSpawn (r : Request).

(** [conn.go:106-142] The part of an iteration after the shutdown check. *)
Definition nextRequest (c : conn) (requestID : Z) (r : readOutcome) : next :=
  let op := "gldap.serveRequests" in
  match readRequest c requestID r with
  | Panic w => NPanic w
  | Err err =>
      if errors_Is_io err EOF || errors_Is_io err ErrUnexpectedEOF ||
         Contains (ErrorText err) "unexpected EOF"
      then NReturn None
      else NReturn (Some (Wrapf op "error reading request" err))
  | Ok r =>
      if decide (routeOp r = unbindRouteOperation) then NUnbind r
      else if decide (extendedName r = ExtendedOperationStartTLS) then NSync r
      else NSpawn r
  end.
End Read.

(** [conn.go:88-95] The notice of disconnection, made from a request built by
    hand. *)
Definition stoppingResponse (c : conn) (requestID : Z) : Response :=
  let req := mkRequest requestID (connID c) (MExtended (mkExtendedOperationMessage 0 "" ""))
               ExtendedOperationDisconnection ExtendedOperationDisconnection in
  RGeneral (NewResponse req
    [WithResponseCode ResultUnwillingToPerform; WithDiagnosticMessage "server stopping"]).

(** ** The state of a connection *)

(** A goroutine that serves a request: started, inside a handler, or back from
    [serve] with its deferred [requestsWg.Done] still to run. *)
Inductive tstatus : Type :=
| Started
| InHandler (f : handle)
| Leaving.

(** The request, the index of its writer and where it is. *)
Record thread : Type := mkThread {
  t_req : Request;
  t_writer : nat;
  t_status : tstatus;
}.

(** Where the loop is.  [MainHandler] is inside a handler called from the loop,
    which then stops or goes on. *)
Inductive phase : Type :=
| Serving
| MainHandler (t : thread) (stop : bool)
| Returned (err : option error)
| Panicked (why : string)
| Closed.

Record connState : Type := mkState {
  writers : list bufioWriter;
  lastID : Z;
  inflight : list thread;
  requestsWg : Z;
  loop : phase;
  crashed : bool;
  received : list Request;
  called : list (handle * Request);
  written : list (nat * Response);
}.

(** Updates of some fields. *)
Definition with_loop (p : phase) (s : connState) : connState :=
  mkState (writers s) (lastID s) (inflight s) (requestsWg s) p (crashed s)
    (received s) (called s) (written s).
Definition with_inflight (l : list thread) (s : connState) : connState :=
  mkState (writers s) (lastID s) l (requestsWg s) (loop s) (crashed s)
    (received s) (called s) (written s).
Definition with_requestsWg (n : Z) (s : connState) : connState :=
  mkState (writers s) (lastID s) (inflight s) n (loop s) (crashed s)
    (received s) (called s) (written s).
Definition with_called (f : handle) (r : Request) (s : connState) : connState :=
  mkState (writers s) (lastID s) (inflight s) (requestsWg s) (loop s) (crashed s) (received s)
    (called s ++ [(f, r)]) (written s).
Definition with_lastID (n : Z) (s : connState) : connState :=
  mkState (writers s) n (inflight s) (requestsWg s) (loop s) (crashed s)
    (received s) (called s) (written s).
Definition with_received (r : Request) (s : connState) : connState :=
  mkState (writers s) (lastID s) (inflight s) (requestsWg s) (loop s) (crashed s)
    (received s ++ [r]) (called s) (written s).
Definition with_writers (ws : list bufioWriter) (s : connState) : connState :=
  mkState ws (lastID s) (inflight s) (requestsWg s) (loop s) (crashed s)
    (received s) (called s) (written s).
Definition with_crash (s : connState) : connState :=
  mkState (writers s) (lastID s) (inflight s) (requestsWg s) (loop s) true
    (received s) (called s) (written s).

(** The writer a [ResponseWriter] made now would get. *)
Definition current (s : connState) : nat := pred (length (writers s)).

(** A connection that starts to serve, with its [net.Conn]. *)
Definition initState (ws : list bufioWriter) : connState :=
  mkState ws 0 [] 0 Serving false [] [] [].

Section Serve.
Context `{BerOps} `{LdapOps} `{Folding}.

(** A [Write] on the [i]-th writer; what the network accepted is recorded. *)
Definition writeOn (i : nat) (r : Response) (s : connState) : option error * connState :=
  match writers s !! i with
  | None => (None, s)
  | Some w =>
      let '(e, w) := Write (Some r) w in
      (e, mkState (<[i := w]> (writers s)) (lastID s) (inflight s) (requestsWg s) (loop s) (crashed s)
            (received s) (called s)
            (match e with None => written s ++ [(i, r)] | Some _ => written s end))
  end.

(** [conn.go:82-102] The shutdown branch; [deadline] is what [SetReadDeadline]
    returns *)
Definition stopServing (c : conn) (deadline : option error) (s : connState) : connState :=
  let op := "gldap.serveRequests" in
  let '(e, s) := writeOn (current s) (stoppingResponse c (lastID s)) s in
  match e with
  | Some e => with_loop (Returned (Some (Wrapf op "" e))) s
  | None => with_loop (Returned (option_map (Wrapf op "") deadline)) s
  end.

(** A goroutine, or the loop, inside [serve] on a request. *)
Definition serveOn (m : Mux) (r : Request) : outcome action := serve m (Some r).

(** [sync.WaitGroup]'s Add, and Done, which adds -1: a counter that becomes
    negative panics *)
Definition wg_add (delta n : Z) : outcome Z :=
  if decide (n + delta < 0) then Panic "sync: negative WaitGroup counter" else Ok (n + delta).

(** [conn.go:133-135] The default case: [requestsWg.Add(1)], then the goroutine
    is started *)
Definition spawnRequest (req : Request) (s : connState) : connState :=
  match wg_add 1 (requestsWg s) with
  | Ok n =>
      let s := with_requestsWg n s in
      with_inflight (inflight s ++ [mkThread req (current s) Started]) s
  | Err e => with_loop (Returned (Some e)) s
  | Panic w => with_loop (Panicked w) s
  end.

(** [conn.go:106-142] The iteration after the shutdown check: what the loop does
    with what it read, up to the call of a handler *)
Definition afterRead (c : conn) (r : readOutcome) (s : connState) : connState :=
  match nextRequest c (lastID s) r with
  | NPanic w => with_loop (Panicked w) s
  | NReturn err => with_loop (Returned err) s
  | NUnbind req =>
      let s := with_received req s in
      match unbindRoute (router c) with
      | None => with_loop (Returned None) s
      | Some rt =>
          match handler rt with
          | None => with_loop (Panicked "invalid memory address or nil pointer dereference") s
          | Some f =>
              with_loop (MainHandler (mkThread req (current s) (InHandler f)) true)
                (with_called f req s)
          end
      end
  | NSync req =>
      let s := with_received req s in
      match serveOn (router c) req with
      | Ok (CallHandler f) =>
          with_loop (MainHandler (mkThread req (current s) (InHandler f)) false)
            (with_called f req s)
      | Ok (WriteResponse res) => snd (writeOn (current s) res s)
      | Ok LogOnly | Err _ => s
      | Panic w => with_loop (Panicked w) s
      end
  | NSpawn req => spawnRequest req (with_received req s)
  end.

(** [conn.go:71-144] serveRequests, one iteration: the counter, the response
    writer, the shutdown check, the read *)
Definition iteration (c : conn) (shutdown : option (option error)) (r : readOutcome)
    (s : connState) : connState :=
  let op := "gldap.serveRequests" in
  let s := with_lastID (go_int (lastID s + 1)) s in
  match newResponseWriter (Some 1) (Some 1) (Some (logger c)) (connID c) (lastID s) with
  | Ok _ =>
      match shutdown with
      | Some deadline => stopServing c deadline s
      | None => afterRead c r s
      end
  | Err e => with_loop (Returned (Some (Wrapf op "" e))) s
  | Panic w => with_loop (Panicked w) s
  end.

(** ** The interleavings of a connection *)

(** The goroutine of a request, among those in flight. *)
Definition has_thread (s : connState) (l1 : list thread) (t : thread) (l2 : list thread)
    : Prop := inflight s = l1 ++ t :: l2.

(** [request.go:111-124] StartTLS after a successful handshake: the writers of
    the connection once [initConn] replaced its [net.Conn] *)
Definition startTLS (s : connState) : outcome connState :=
  ws ← wrapErr "gldap.(Message).StartTLS" "" (initConn (Some (mkNetWriter "" None)) (writers s));
  Ok (with_writers ws s).

(** A network connection that accepts [k] more bytes and then fails with [e]. *)
Definition netDown (k : nat) (e : error) (w : bufioWriter) : bufioWriter :=
  mkBufioWriter (mkNetWriter (accepted (wr w)) (Some (k, e))) (buf w) (werr w).

(** [conn.go:208-215] close: it waits for the counter of the wait group ([None]
    while it is not 0), then closes the [net.Conn]; [err] is what that returns *)
Definition conn_close (err : option error) (s : connState) : option (connState * option error) :=
  if decide (requestsWg s = 0)
  then Some (with_loop Closed s, Wrapf "gldap.(Conn).close" "error closing conn" <$> err)
  else None.

Inductive step (c : conn) : connState → connState → Prop :=
| step_iterate s shutdown r :
    crashed s = false → loop s = Serving → step c s (iteration c shutdown r s)
| step_start_call s l1 l2 req i f :
    crashed s = false → has_thread s l1 (mkThread req i Started) l2 →
    serveOn (router c) req = Ok (CallHandler f) →
    step c s (with_called f req
                (with_inflight (l1 ++ mkThread req i (InHandler f) :: l2) s))
| step_start_refuse s l1 l2 req i res :
    crashed s = false → has_thread s l1 (mkThread req i Started) l2 →
    serveOn (router c) req = Ok (WriteResponse res) →
    step c s (snd (writeOn i res (with_inflight (l1 ++ mkThread req i Leaving :: l2) s)))
| step_start_log s l1 l2 req i :
    crashed s = false → has_thread s l1 (mkThread req i Started) l2 →
    serveOn (router c) req = Ok LogOnly →
    step c s (with_inflight (l1 ++ mkThread req i Leaving :: l2) s)
| step_start_panic s l1 l2 req i w :
    crashed s = false → has_thread s l1 (mkThread req i Started) l2 →
    serveOn (router c) req = Panic w →
    step c s (with_crash s)
| step_write s l1 l2 req i f res :
    crashed s = false → has_thread s l1 (mkThread req i (InHandler f)) l2 →
    step c s (snd (writeOn i res s))
| step_startTLS s s' l1 l2 req i f :
    crashed s = false → has_thread s l1 (mkThread req i (InHandler f)) l2 →
    startTLS s = Ok s' → step c s s'
| step_return s l1 l2 req i f :
    crashed s = false → has_thread s l1 (mkThread req i (InHandler f)) l2 →
    step c s (with_inflight (l1 ++ mkThread req i Leaving :: l2) s)
| step_done s l1 l2 req i n :
    crashed s = false → has_thread s l1 (mkThread req i Leaving) l2 →
    wg_add (-1) (requestsWg s) = Ok n →
    step c s (with_requestsWg n (with_inflight (l1 ++ l2) s))
| step_done_panic s l1 l2 req i w :
    crashed s = false → has_thread s l1 (mkThread req i Leaving) l2 →
    wg_add (-1) (requestsWg s) = Panic w →
    step c s (with_crash s)
| step_panic s l1 l2 req i f :
    crashed s = false → has_thread s l1 (mkThread req i (InHandler f)) l2 →
    step c s (with_crash s)
| step_main_write s t stop res :
    crashed s = false → loop s = MainHandler t stop →
    step c s (snd (writeOn (t_writer t) res s))
| step_main_startTLS s s' t stop :
    crashed s = false → loop s = MainHandler t stop → startTLS s = Ok s' → step c s s'
| step_main_return s t stop :
    crashed s = false → loop s = MainHandler t stop →
    step c s (with_loop (if stop : bool then Returned None else Serving) s)
| step_main_panic s t stop w :
    crashed s = false → loop s = MainHandler t stop →
    step c s (with_loop (Panicked w) s)
| step_netDown s i k e w :
    crashed s = false → writers s !! i = Some w →
    step c s (with_writers (<[i := netDown k e w]> (writers s)) s)
| step_close s s' err e :
    crashed s = false →
    (∃ err, loop s = Returned err) ∨ (∃ w, loop s = Panicked w) →
    conn_close err s = Some (s', e) → step c s s'.

(** The states of a connection from its start. *)
Definition reachable (c : conn) (s : connState) : Prop :=
  rtc (step c) (initState [idle_writer ""]) s.
End Serve.

(** ** Invariants *)

Section invariants.
Context `{L : BerLaws} `{LdapOps} `{Folding}.

(** A [Write] touches one writer and the record of what was written. *)
Lemma writeOn_fields i r s (s' := snd (writeOn i r s)) :
  lastID s' = lastID s ∧ inflight s' = inflight s ∧ loop s' = loop s ∧
  crashed s' = crashed s ∧ received s' = received s ∧ called s' = called s ∧
  length (writers s') = length (writers s) ∧ requestsWg s' = requestsWg s.
Proof.
  unfold s', writeOn. destruct (writers s !! i) as [w|]; [|done].
  destruct (Write (Some r) w) as [e w']. simpl. by rewrite length_insert.
Qed.

(** *** What the network accepted *)

(** The responses written on the [i]-th writer. *)
Definition written_on (i : nat) (l : list (nat * Response)) : list Response :=
  omap (λ '(j, r), if decide (i = j) then Some r else None) l.

(** What a writer did with the responses [rs] recorded for it: the network
    accepted exactly their bytes, or after a [Write] that failed also the first
    part, not all, of the bytes of one more response. *)
Definition delivered (rs : list Response) (w : bufioWriter) : Prop :=
  (healthy w ∧ accepted (wr w) = stream rs) ∨
  (werr w ≠ None ∧ ∃ r p q, Packet_Bytes (Response_packet r) = p +:+ q ∧ q ≠ "" ∧
     accepted (wr w) = stream rs +:+ p).

Definition writer_ok (s : connState) : Prop :=
  ∀ i w, writers s !! i = Some w → delivered (written_on i (written s)) w.

Lemma stream_app l k : stream (l ++ k) = stream l +:+ stream k.
Proof.
  induction l as [|r l IH]; simpl; [by rewrite app_nil_l_str|]. by rewrite IH, app_assoc_str.
Qed.

Lemma written_on_snoc i j r l :
  written_on i (l ++ [(j, r)]) = written_on i l ++ (if decide (i = j) then [r] else []).
Proof.
  unfold written_on. rewrite omap_app. simpl. by case_decide.
Qed.

(** One [Write]: all of the response, or an error and at most a part of it. *)
Lemma Write_delivered r rs w e w' :
  delivered rs w → Write (Some r) w = (e, w') →
  (e = None ∧ delivered (rs ++ [r]) w') ∨ (is_Some e ∧ delivered rs w').
Proof.
  intros [[Hw Ha]|(Hf & Hp)] He.
  - destruct (Write_healthy _ _ _ _ Hw He) as [(-> & Hw' & Ha')|(He' & Hf & p & q & Hpq & Hq & Ha')].
    + left. split; [done|]. left. by rewrite Ha', Ha, stream_app.
    + right. split; [done|]. right. split; [done|]. exists r, p, q. by rewrite Ha', Ha.
  - destruct (Write_failed r w Hf) as [e' Hw]. rewrite Hw in He. injection He as <- <-.
    right. split; [done|]. by right.
Qed.

Lemma writer_ok_insert i w' ws' s (l := <[i := w']> (writers s)) s' :
  writer_ok s → writers s' = l → written s' = ws' → delivered (written_on i ws') w' →
  (∀ j, j ≠ i → written_on j ws' = written_on j (written s)) →
  writer_ok s'.
Proof.
  intros Hok Hws Hwr Hw Hj j w Hjw. rewrite Hws in Hjw. rewrite Hwr.
  destruct (decide (j = i)) as [->|Hne].
  - apply list_lookup_insert_Some in Hjw as [(_ & <- & _)|[Hne _]]; done.
  - rewrite Hj by done. apply (Hok j w). unfold l in Hjw.
    by rewrite list_lookup_insert_ne in Hjw.
Qed.

Lemma writeOn_writer_ok i r s : writer_ok s → writer_ok (snd (writeOn i r s)).
Proof.
  intros Hok. unfold writeOn. destruct (writers s !! i) as [w|] eqn:Hi; [|done].
  destruct (Write (Some r) w) as [e w'] eqn:He.
  destruct (Write_delivered _ _ _ _ _ (Hok i w Hi) He) as [[-> Hw']|[[e' ->] Hw']]; simpl.
  - apply (writer_ok_insert i w' (written s ++ [(i, r)]) s); [done..| |].
    + by rewrite written_on_snoc, decide_True by done.
    + intros j Hj. rewrite written_on_snoc, decide_False by done. by rewrite app_nil_r.
  - by apply (writer_ok_insert i w' (written s) s).
Qed.

Lemma writer_ok_same s s' :
  writers s' = writers s → written s' = written s → writer_ok s → writer_ok s'.
Proof. unfold writer_ok. by intros -> ->. Qed.

(** The record is about writers that exist. *)
Definition written_bound (s : connState) : Prop :=
  Forall (λ p, (p.1 < length (writers s))%nat) (written s).

Lemma writeOn_bound i r s : written_bound s → written_bound (snd (writeOn i r s)).
Proof.
  intros Hb. unfold writeOn. destruct (writers s !! i) as [w|] eqn:Hi; [|done].
  pose proof (lookup_lt_Some _ _ _ Hi) as Hlt.
  destruct (Write (Some r) w) as [e w']. unfold written_bound in *. simpl.
  rewrite length_insert. destruct e; [done|]. apply Forall_app. auto.
Qed.

Lemma written_on_fresh s : written_bound s → written_on (length (writers s)) (written s) = [].
Proof.
  unfold written_bound. generalize (length (writers s)) as n. intros n.
  induction 1 as [|[j r] l Hj _ IH]; simpl in *; [done|].
  unfold written_on in *. simpl. rewrite decide_False by lia. done.
Qed.

Lemma startTLS_eq s s' :
  startTLS s = Ok s' → s' = with_writers (writers s ++ [idle_writer ""]) s.
Proof. unfold startTLS. simpl. by intros [= <-]. Qed.

Lemma startTLS_writer_ok s s' :
  writer_ok s → written_bound s → startTLS s = Ok s' → writer_ok s' ∧ written_bound s'.
Proof.
  intros Hok Hb ->%startTLS_eq. split.
  - intros i w. simpl. intros [Hi|[Hl Hi]]%lookup_app_Some; [by apply Hok|].
    apply list_lookup_singleton_Some in Hi as [Hz <-].
    assert (i = length (writers s)) as -> by lia.
    left. by rewrite written_on_fresh.
  - unfold written_bound in *. simpl. rewrite length_app. eapply Forall_impl; [done|].
    simpl. intros. lia.
Qed.

Lemma netDown_writer_ok s i k e w :
  writer_ok s → written_bound s → writers s !! i = Some w →
  let s' := with_writers (<[i := netDown k e w]> (writers s)) s in
  writer_ok s' ∧ written_bound s'.
Proof.
  intros Hok Hb Hi s'. split.
  - apply (writer_ok_insert i (netDown k e w) (written s) s); try done. apply (Hok i w Hi).
  - unfold written_bound in *. simpl. by rewrite length_insert.
Qed.

(** The iteration changes the writers only through [writeOn]. *)
Lemma iteration_writer_ok c sh r s :
  writer_ok s ∧ written_bound s →
  writer_ok (iteration c sh r s) ∧ written_bound (iteration c sh r s).
Proof.
  intros [Hok Hb]. unfold iteration.
  destruct (newResponseWriter _ _ _ _ _); [|done|done].
  set (s1 := with_lastID _ s).
  destruct sh as [d|].
  - unfold stopServing. pose proof (writeOn_writer_ok (current s1) (stoppingResponse c (lastID s1)) s1 Hok) as H1.
    pose proof (writeOn_bound (current s1) (stoppingResponse c (lastID s1)) s1 Hb) as H2.
    destruct (writeOn _ _ s1) as [[e|] s2]; done.
  - unfold afterRead. destruct (nextRequest c (lastID s1) r) as [w|err|req|req|req]; [done|done| | |].
    3: { unfold spawnRequest. by destruct (wg_add 1 _). }
    + destruct (unbindRoute (router c)) as [rt|]; [|done]. by destruct (handler rt).
    + destruct (serveOn (router c) req) as [[f|res|]|e|w]; try done. simpl.
      split; [by apply writeOn_writer_ok|by apply writeOn_bound].
Qed.

Lemma conn_close_Some err s s' e :
  conn_close err s = Some (s', e) → requestsWg s = 0 ∧ s' = with_loop Closed s.
Proof. unfold conn_close. case_decide as Hl; [|done]. by intros [= <- _]. Qed.

Lemma wg_add_Ok delta n : 0 ≤ n + delta → wg_add delta n = Ok (n + delta).
Proof. intros ?. unfold wg_add. by rewrite decide_False by lia. Qed.

Lemma wg_add_Ok_inv delta n m : wg_add delta n = Ok m → m = n + delta.
Proof. unfold wg_add. case_decide; [done|]. by intros [= <-]. Qed.

Lemma step_writer_ok c s s' :
  step c s s' → writer_ok s ∧ written_bound s → writer_ok s' ∧ written_bound s'.
Proof.
  intros Hs [Hok Hb]. destruct Hs; try done.
  - by apply iteration_writer_ok.
  - split; [by apply writeOn_writer_ok|by apply writeOn_bound].
  - split; [by apply writeOn_writer_ok|by apply writeOn_bound].
  - by eapply startTLS_writer_ok.
  - split; [by apply writeOn_writer_ok|by apply writeOn_bound].
  - by eapply startTLS_writer_ok.
  - by apply netDown_writer_ok.
  - match goal with H : conn_close _ _ = Some _ |- _ => apply conn_close_Some in H as [? ->] end.
    done.
Qed.

(** An invariant of the step relation holds in every reachable state. *)
Lemma reachable_ind c (P : connState → Prop) :
  P (initState [idle_writer ""]) → (∀ s s', step c s s' → P s → P s') →
  ∀ s, reachable c s → P s.
Proof.
  intros Hinit Hstep s Hr. unfold reachable in Hr.
  revert Hinit. induction Hr as [x|x y z Hxy _ IH]; [done|]. intros Hx. by eapply IH, Hstep.
Qed.

Lemma reachable_writer_ok c s : reachable c s → writer_ok s ∧ written_bound s.
Proof.
  apply (reachable_ind c (λ s, writer_ok s ∧ written_bound s));
    [|by intros; eapply step_writer_ok].
  split; [|constructor]. intros i w Hi. apply list_lookup_singleton_Some in Hi as [-> <-].
  by left.
Qed.

End invariants.

(** *** Threads, requests and handler calls *)

Section goroutines.
Context {BO : BerOps} {LO : LdapOps} {FO : Folding}.

(** The requests whose goroutine has not reached a handler. *)
Definition started (l : list thread) : list Request :=
  omap (λ t, match t_status t with Started => Some (t_req t) | _ => None end) l.

Lemma started_app l k : started (l ++ k) = started l ++ started k.
Proof. apply omap_app. Qed.

(** A handler is called for a request by the mux or, for an unbind, as the
    unbind handler. *)
Definition call_ok (c : conn) (p : handle * Request) : Prop :=
  serve (router c) (Some p.2) = Ok (CallHandler p.1) ∨
  routeOp p.2 = unbindRouteOperation ∧
  ∃ rt, unbindRoute (router c) = Some rt ∧ handler rt = Some p.1.

(** The loop may still read. *)
Definition active (s : connState) : Prop :=
  loop s = Serving ∨ ∃ t, loop s = MainHandler t false.

(** The loop may still run something. *)
Definition running (s : connState) : Prop :=
  active s ∨ ∃ t, loop s = MainHandler t true.

Record conn_inv (c : conn) (s : connState) : Prop := {
  (** requests called, or about to be, were received, each once *)
  inv_calls : (map snd (called s) ++ started (inflight s)) ⊆+ received s;
  inv_call_ok : Forall (call_ok c) (called s);
  (** nothing is received after an unbind *)
  inv_unbind : active s → Forall (λ r, routeOp r ≠ unbindRouteOperation) (received s);
  inv_before_unbind : ∀ i r, received s !! i = Some r → routeOp r = unbindRouteOperation →
                        S i = length (received s);
  (** no request is forgotten: one that has a handler was given to it, or its
      goroutine is about to *)
  inv_served : ∀ r f, r ∈ received s → routeOp r ≠ unbindRouteOperation →
                 serve (router c) (Some r) = Ok (CallHandler f) →
                 (f, r) ∈ called s ∨ r ∈ started (inflight s);
  (** the wait group counts the goroutines *)
  inv_wg : requestsWg s = Z.of_nat (length (inflight s));
  inv_closed : loop s = Closed → inflight s = [];
}.

Lemma conn_inv_same c s s' :
  called s' = called s → inflight s' = inflight s → received s' = received s →
  loop s' = loop s → requestsWg s' = requestsWg s → conn_inv c s → conn_inv c s'.
Proof.
  intros H1 H2 H3 H4 H5 [Ha Hb Hc Hd Hsv Hwg He].
  constructor; unfold active in *; rewrite ?H1, ?H2, ?H3, ?H4, ?H5 in *; done.
Qed.

Lemma conn_inv_writeOn c i r s : conn_inv c s → conn_inv c (snd (writeOn i r s)).
Proof.
  destruct (writeOn_fields i r s) as (_ & ? & ? & _ & ? & ? & _ & ?). by apply conn_inv_same.
Qed.

(** A loop that stops keeps the invariant. *)
Lemma conn_inv_stop c s p :
  (∀ t, p ≠ MainHandler t false) → p ≠ Serving → p ≠ Closed →
  conn_inv c s → conn_inv c (with_loop p s).
Proof.
  intros H1 H2 H3 [Ha Hb Hc Hd Hsv Hwg He]. constructor; simpl; try done.
  intros [?|[t ?]]; simpl in *; [done|by destruct (H1 t)].
Qed.

(** What the loop does with a request that is not an unbind, [cs] being the calls and [l]
    the goroutines after it: the mux has no handler for the request, or it is
    called, or the goroutine is started that will. *)
Lemma conn_inv_received c s s' req :
  loop s = Serving → routeOp req ≠ unbindRouteOperation → conn_inv c s →
  received s' = received s ++ [req] → loop s' ≠ Closed →
  (map snd (called s') ++ started (inflight s')) ⊆+ received s ++ [req] →
  Forall (call_ok c) (called s') → requestsWg s' = Z.of_nat (length (inflight s')) →
  called s ⊆ called s' → started (inflight s) ⊆ started (inflight s') →
  (∀ f, serve (router c) (Some req) = Ok (CallHandler f) →
     (f, req) ∈ called s' ∨ req ∈ started (inflight s')) →
  conn_inv c s'.
Proof.
  intros Hl Hr [Ha Hb Hc Hd Hsv Hwg He] Er El Hs' Hok Hwg' Hcs Hst Hreq.
  specialize (Hc (or_introl Hl)).
  assert (Forall (λ r, routeOp r ≠ unbindRouteOperation) (received s')) as Hf
    by (rewrite Er; apply Forall_app; auto).
  constructor; [by rewrite Er|done|done| | |done|done].
  - intros i r Hi Hu. by eapply Forall_lookup in Hf.
  - intros r f Hin Hu Hsr. rewrite Er in Hin. apply elem_of_app in Hin as [Hin|Hin%list_elem_of_singleton];
      [|subst; by apply Hreq].
    destruct (Hsv r f Hin Hu Hsr) as [?|?]; [left; by apply Hcs|right; by apply Hst].
Qed.

(** Requests called, with one more received and called. *)
Lemma calls_snoc (cs : list (handle * Request)) (st rs : list Request) f req :
  (map snd cs ++ st) ⊆+ rs → (map snd (cs ++ [(f, req)]) ++ st) ⊆+ (rs ++ [req]).
Proof.
  intros Hs. rewrite map_app, <-app_assoc. simpl.
  rewrite <-Permutation_middle, (Permutation_app_comm rs [req]). simpl.
  by apply submseteq_skip.
Qed.

Lemma conn_inv_unbind c s req :
  loop s = Serving → routeOp req = unbindRouteOperation →
  conn_inv c s →
  (∀ p, (∀ t, p ≠ MainHandler t false) → p ≠ Serving → p ≠ Closed →
    conn_inv c (with_loop p (with_received req s)) ∧
    ∀ f rt, unbindRoute (router c) = Some rt → handler rt = Some f →
      conn_inv c (with_loop p (with_called f req (with_received req s)))).
Proof.
  intros Hl Hr [Ha Hb Hc Hd Hsv Hwg He] p H1 H2 H3. specialize (Hc (or_introl Hl)).
  assert (∀ i r, (received s ++ [req]) !! i = Some r → routeOp r = unbindRouteOperation →
            S i = length (received s ++ [req])) as Hlast.
  { intros i r Hi Hu. rewrite length_app. simpl.
    apply lookup_app_Some in Hi as [Hi|[Hi Hi']].
    - by eapply Forall_lookup in Hc; [|exact Hi].
    - apply list_lookup_singleton_Some in Hi' as [Hz _]. lia. }
  split; [|intros f rt Hu Hf]; constructor; simpl; try done.
  - by apply submseteq_inserts_r.
  - intros [?|[t ?]]; simpl in *; [done|by destruct (H1 t)].
  - intros r f Hin Hu' Hsr. apply elem_of_app in Hin as [?|Hin%list_elem_of_singleton];
      [by apply Hsv|by subst].
  - by apply calls_snoc.
  - apply Forall_app. split; [done|]. constructor; [|done]. right. simpl. eauto.
  - intros [?|[t ?]]; simpl in *; [done|by destruct (H1 t)].
  - intros r f' Hin Hu' Hsr. apply elem_of_app in Hin as [Hin|Hin%list_elem_of_singleton];
      [|by subst].
    destruct (Hsv r f' Hin Hu' Hsr) as [?|?]; [left; set_solver|by right].
Qed.

Lemma nextRequest_kind c id r :
  match nextRequest c id r with
  | NUnbind req => routeOp req = unbindRouteOperation
  | NSync req | NSpawn req => routeOp req ≠ unbindRouteOperation
  | _ => True
  end.
Proof.
  unfold nextRequest. destruct (readRequest c id r) as [req|e|w]; [|by destruct (_ || _)|done].
  by repeat case_decide.
Qed.

(** A StartTLS request, which the loop serves itself. *)
Lemma conn_inv_sync c s req :
  loop s = Serving → routeOp req ≠ unbindRouteOperation → conn_inv c s →
  conn_inv c
    (let s := with_received req s in
     match serveOn (router c) req with
     | Ok (CallHandler f) =>
         with_loop (MainHandler (mkThread req (current s) (InHandler f)) false)
           (with_called f req s)
     | Ok (WriteResponse res) => snd (writeOn (current s) res s)
     | Ok LogOnly | Err _ => s
     | Panic w => with_loop (Panicked w) s
     end).
Proof.
  intros Hl Hk Hi. pose proof Hi as [Ha Hb Hc Hd Hsv Hwg He]. cbv zeta. unfold serveOn.
  assert ((∀ f, serve (router c) (Some req) ≠ Ok (CallHandler f)) →
          conn_inv c (with_received req s)) as Hno.
  { intros Hno. eapply (conn_inv_received c s); simpl; try done.
    - by rewrite Hl.
    - by apply submseteq_inserts_r.
    - intros f Hf. by destruct (Hno f Hf). }
  destruct (serve (router c) (Some req)) as [[f|res|]|e|w] eqn:Hs.
  - eapply (conn_inv_received c s); simpl; try done.
    + by apply calls_snoc.
    + apply Forall_app. split; [done|]. constructor; [by left|done].
    + set_solver.
    + intros f' Hf. change (serve (router c) (Some req) = Ok (CallHandler f')) in Hf.
      rewrite Hs in Hf. injection Hf as ->. left. set_solver.
  - by apply conn_inv_writeOn, Hno.
  - by apply Hno.
  - by apply Hno.
  - by apply conn_inv_stop, Hno.
Qed.

Lemma conn_inv_spawn c s req :
  loop s = Serving → routeOp req ≠ unbindRouteOperation → conn_inv c s →
  conn_inv c (spawnRequest req (with_received req s)).
Proof.
  intros Hl Hk Hi. pose proof Hi as [Ha Hb Hc Hd Hsv Hwg He]. unfold spawnRequest. simpl.
  rewrite wg_add_Ok by lia. eapply (conn_inv_received c s); simpl; try done.
  - by rewrite Hl.
  - rewrite started_app, app_assoc. simpl. by apply submseteq_app.
  - rewrite length_app. simpl. lia.
  - rewrite started_app. set_solver.
  - intros f _. right. rewrite started_app. set_solver.
Qed.

Lemma conn_inv_iteration c sh r s :
  loop s = Serving → conn_inv c s → conn_inv c (iteration c sh r s).
Proof.
  intros Hl Hi. unfold iteration.
  destruct (newResponseWriter _ _ _ _ _);
    [|by apply conn_inv_stop; [..|by apply (conn_inv_same c s)]
     |by apply conn_inv_stop; [..|by apply (conn_inv_same c s)]].
  set (s1 := with_lastID _ s).
  assert (conn_inv c s1) as Hi1 by by apply (conn_inv_same c s).
  assert (loop s1 = Serving) as Hl1 by done. clearbody s1. clear s Hl Hi.
  destruct sh as [d|].
  { unfold stopServing. pose proof (conn_inv_writeOn c (current s1) (stoppingResponse c (lastID s1)) s1 Hi1) as Hw.
    destruct (writeOn _ _ s1) as [[e|] s2]; by apply conn_inv_stop. }
  unfold afterRead. pose proof (nextRequest_kind c (lastID s1) r) as Hk.
  destruct (nextRequest c (lastID s1) r) as [w|err|req|req|req];
    [by apply conn_inv_stop|by apply conn_inv_stop| |by apply conn_inv_sync|by apply conn_inv_spawn].
  destruct (unbindRoute (router c)) as [rt|] eqn:Hu;
    [|by apply (conn_inv_unbind c s1 req Hl1 Hk Hi1)].
  destruct (handler rt) as [f|] eqn:Hf; [|by apply (conn_inv_unbind c s1 req Hl1 Hk Hi1)].
  by eapply (conn_inv_unbind c s1 req Hl1 Hk Hi1); [..|exact Hu|exact Hf].
Qed.

Lemma started_thread l1 t l2 :
  started (l1 ++ t :: l2) =
    started l1 ++ (match t_status t with Started => [t_req t] | _ => [] end) ++ started l2.
Proof. rewrite started_app. f_equal. unfold started. simpl. by destruct (t_status t). Qed.

Lemma length_thread (l1 l2 : list thread) t t' : length (l1 ++ t' :: l2) = length (l1 ++ t :: l2).
Proof. rewrite !length_app. done. Qed.

Lemma conn_inv_call c s l1 l2 req i f :
  has_thread s l1 (mkThread req i Started) l2 →
  serveOn (router c) req = Ok (CallHandler f) → conn_inv c s →
  conn_inv c (with_called f req (with_inflight (l1 ++ mkThread req i (InHandler f) :: l2) s)).
Proof.
  intros Ht Hs [Ha Hb Hc Hd Hsv Hwg He]. unfold has_thread, serveOn in *.
  rewrite Ht, started_thread in Ha, Hsv. simpl in Ha, Hsv. constructor; simpl; try done.
  - rewrite started_thread, map_app. simpl. etrans; [|exact Ha].
    rewrite <-app_assoc. simpl. by rewrite <-!Permutation_middle.
  - apply Forall_app. split; [done|]. constructor; [by left|done].
  - intros r f' Hin Hu Hsr. rewrite started_thread. simpl.
    destruct (Hsv r f' Hin Hu Hsr) as [?|Hst]; [left; set_solver|].
    apply elem_of_app in Hst as [?|[Hx|?]%elem_of_cons]; [set_solver|subst r|set_solver].
    left. change (serve (router c) (Some req) = Ok (CallHandler f')) in Hsr.
    rewrite Hs in Hsr. injection Hsr as ->. set_solver.
  - rewrite Hwg, Ht. f_equal. apply length_thread.
  - intros Hl. rewrite (He Hl) in Ht. by destruct l1.
Qed.

(** A goroutine comes back from [serve]: it was in a handler, or the mux had none for it. *)
Lemma conn_inv_leave c s l1 req i st l2 :
  has_thread s l1 (mkThread req i st) l2 →
  (st = Started → ∀ f, serveOn (router c) req ≠ Ok (CallHandler f)) →
  conn_inv c s → conn_inv c (with_inflight (l1 ++ mkThread req i Leaving :: l2) s).
Proof.
  intros Ht Hst [Ha Hb Hc Hd Hsv Hwg He]. unfold has_thread, serveOn in *.
  rewrite Ht, started_thread in Ha, Hsv. simpl in Ha, Hsv. constructor; simpl; try done.
  - etrans; [|exact Ha]. rewrite started_thread. simpl. apply submseteq_app; [done|].
    apply submseteq_app; [done|]. by apply submseteq_inserts_l.
  - intros r f Hin Hu Hsr. rewrite started_thread. simpl.
    destruct (Hsv r f Hin Hu Hsr) as [?|Hx]; [by left|right].
    destruct st; [|set_solver..]. apply elem_of_app in Hx as [?|[->|?]%elem_of_cons]; [set_solver| |set_solver].
    by destruct (Hst eq_refl f).
  - rewrite Hwg, Ht. f_equal. apply length_thread.
  - intros Hl. rewrite (He Hl) in Ht. by destruct l1.
Qed.

(** A goroutine ends. *)
Lemma conn_inv_done c s l1 req i l2 n :
  has_thread s l1 (mkThread req i Leaving) l2 → wg_add (-1) (requestsWg s) = Ok n →
  conn_inv c s → conn_inv c (with_requestsWg n (with_inflight (l1 ++ l2) s)).
Proof.
  intros Ht ->%wg_add_Ok_inv [Ha Hb Hc Hd Hsv Hwg He]. unfold has_thread in Ht.
  rewrite Ht, started_thread in Ha, Hsv. simpl in Ha, Hsv.
  constructor; simpl; rewrite ?started_app; try done.
  - rewrite Hwg, Ht, !length_app. simpl. lia.
  - intros Hl. rewrite (He Hl) in Ht. by destruct l1.
Qed.

Lemma conn_inv_close c s :
  requestsWg s = 0 → conn_inv c s → conn_inv c (with_loop Closed s).
Proof.
  intros Hz [Ha Hb Hc Hd Hsv Hwg He]. constructor; simpl; try done.
  - by intros [?|[? ?]].
  - intros _. apply nil_length_inv. lia.
Qed.

Lemma conn_inv_step c s s' : step c s s' → conn_inv c s → conn_inv c s'.
Proof.
  intros Hs Hi. destruct Hs as [| | | | | | |s l1 l2 req i f Hc Ht| | | | | |s t stop Hc Hl| | |].
  - by apply conn_inv_iteration.
  - by apply conn_inv_call.
  - apply conn_inv_writeOn. eapply conn_inv_leave; [done| |done]. congruence.
  - eapply conn_inv_leave; [done| |done]. congruence.
  - by apply (conn_inv_same c s).
  - by apply conn_inv_writeOn.
  - match goal with H : startTLS _ = Ok _ |- _ => apply startTLS_eq in H as -> end.
    by apply (conn_inv_same c s).
  - by eapply conn_inv_leave; [exact Ht|..].
  - by eapply conn_inv_done.
  - by apply (conn_inv_same c s).
  - by apply (conn_inv_same c s).
  - by apply conn_inv_writeOn.
  - match goal with H : startTLS _ = Ok _ |- _ => apply startTLS_eq in H as -> end.
    by apply (conn_inv_same c s).
  - destruct stop; [by apply conn_inv_stop|].
    destruct Hi as [Ha Hb Hc' Hd Hsv Hwg He]. constructor; simpl; try done.
    intros _. apply Hc'. right. eauto.
  - by apply conn_inv_stop.
  - by apply (conn_inv_same c s).
  - match goal with H : conn_close _ _ = Some _ |- _ => apply conn_close_Some in H as [? ->] end.
    by apply conn_inv_close.
Qed.

Lemma conn_inv_reachable c s : reachable c s → conn_inv c s.
Proof.
  apply (reachable_ind c (conn_inv c)); [|by intros; eapply conn_inv_step].
  constructor; simpl; try done. by intros r f ?%elem_of_nil.
Qed.

(** *** The numbers of requests *)

Definition numbered (s : connState) : Prop :=
  Z.of_nat (length (received s)) < 2 ^ 63 - 1 →
  map ID (received s) = seqZ 1 (Z.of_nat (length (received s))) ∧
  (running s → lastID s = Z.of_nat (length (received s))).

Lemma numbered_same s s' :
  received s' = received s → lastID s' = lastID s → (running s' → running s) →
  numbered s → numbered s'.
Proof. unfold numbered. intros -> -> Hr Hn Hl. destruct (Hn Hl). eauto. Qed.

Lemma nextRequest_ID c id r :
  match nextRequest c id r with
  | NUnbind req | NSync req | NSpawn req => ID req = id
  | _ => True
  end.
Proof.
  unfold nextRequest. destruct (readRequest c id r) as [req|e|w] eqn:E; [|by destruct (_ || _)|done].
  assert (ID req = id) as Hid.
  { unfold readRequest in E. inv_ok. by eapply newRequest_Ok_inv. }
  by repeat case_decide.
Qed.

(** An iteration reads one request, numbered by the counter, or stops. *)
Lemma iteration_received c sh r s (s' := iteration c sh r s) (n := go_int (lastID s + 1)) :
  lastID s' = n ∧
  (received s' = received s ∧ ¬ running s' ∨
   ∃ req, ID req = n ∧ received s' = received s ++ [req]).
Proof.
  unfold s', iteration, running, active.
  destruct (newResponseWriter _ _ _ _ _);
    [|split; [done|left; simpl; naive_solver]|split; [done|left; simpl; naive_solver]].
  fold n. set (s1 := with_lastID n s).
  assert (lastID s1 = n ∧ received s1 = received s) as [Hn <-] by done. clearbody s1.
  destruct sh as [d|].
  { unfold stopServing. destruct (writeOn_fields (current s1) (stoppingResponse c (lastID s1)) s1)
      as (Hl & _ & _ & _ & Hr & _).
    destruct (writeOn _ _ s1) as [[e|] s2]; simpl in *; rewrite Hl, Hr;
      (split; [done|left; naive_solver]). }
  unfold afterRead. pose proof (nextRequest_ID c (lastID s1) r) as Hid.
  destruct (nextRequest c (lastID s1) r) as [w|err|req|req|req];
    [split; [done|left; simpl; naive_solver]|split; [done|left; simpl; naive_solver]|..];
    rewrite Hn in Hid.
  - destruct (unbindRoute (router c)) as [rt|]; [destruct (handler rt)|]; simpl; eauto 6.
  - destruct (serveOn (router c) req) as [[f|res|]|e|w]; simpl; eauto 6.
    set (s2 := with_received req s1).
    destruct (writeOn_fields (current s2) res s2) as (Hl & _ & _ & _ & Hr & _).
    rewrite Hl, Hr. simpl. eauto 6.
  - unfold spawnRequest. destruct (wg_add 1 _); simpl; eauto 6.
Qed.

Lemma numbered_iteration c sh r s :
  loop s = Serving → numbered s → numbered (iteration c sh r s).
Proof.
  intros Hl Hn Hlt. destruct (iteration_received c sh r s) as [Hid [[Hr Hrun]|(req & Hreq & Hr)]].
  - rewrite Hr in *. destruct (Hn Hlt) as [Hm _]. done.
  - rewrite Hr, length_app, Nat2Z.inj_add in Hlt. simpl in Hlt.
    destruct Hn as [Hm Hlast]; [lia|]. specialize (Hlast (or_introl (or_introl Hl))).
    assert (go_int (lastID s + 1) = lastID s + 1) as Hgo.
    { apply wrapS_id; [lia|]. unfold in_int. rewrite Hlast. change (64 - 1) with 63. lia. }
    rewrite Hid, Hr, map_app, length_app, Hm, Nat2Z.inj_add, seqZ_app by lia. simpl.
    rewrite Hreq, Hgo, Hlast. split; [|lia]. f_equal. unfold seqZ. simpl. f_equal. lia.
Qed.

Lemma numbered_step c s s' : step c s s' → numbered s → numbered s'.
Proof.
  intros Hs Hn. destruct Hs; try (by apply (numbered_same s)).
  - by apply numbered_iteration.
  - set (s1 := with_inflight _ s). destruct (writeOn_fields i res s1) as (? & _ & Hl & _ & ? & _).
    apply (numbered_same s); [done|done| |done]. unfold running, active. by rewrite Hl.
  - destruct (writeOn_fields i res s) as (? & _ & Hl & _ & ? & _).
    apply (numbered_same s); [done|done| |done]. unfold running, active. by rewrite Hl.
  - match goal with H : startTLS _ = Ok _ |- _ => apply startTLS_eq in H as -> end.
    by apply (numbered_same s).
  - destruct (writeOn_fields (t_writer t) res s) as (? & _ & Hl & _ & ? & _).
    apply (numbered_same s); [done|done| |done]. unfold running, active. by rewrite Hl.
  - match goal with H : startTLS _ = Ok _ |- _ => apply startTLS_eq in H as -> end.
    by apply (numbered_same s).
  - apply (numbered_same s); [done|done| |done]. intros _.
    destruct stop; [right; eauto|left; right; eauto].
  - apply (numbered_same s); [done|done| |done]. unfold running, active. simpl. naive_solver.
  - match goal with H : conn_close _ _ = Some _ |- _ => apply conn_close_Some in H as [? ->] end.
    apply (numbered_same s); [done|done| |done]. unfold running, active. simpl. naive_solver.
Qed.

Lemma numbered_reachable c s : reachable c s → numbered s.
Proof. apply (reachable_ind c numbered); [done|by intros; eapply numbered_step]. Qed.
End goroutines.

(** ** Properties *)

Section properties.
Context `{L : BerLaws} `{LdapOps} `{Folding}.

(** C10. In every interleaving, a connection numbers the requests it receives
    1, 2, 3, ... in order, calls a handler for each of them at most once, and
    the handler called is the one the mux selects (or the unbind handler, for
    an unbind). *)
Theorem conn_requests_served_once c s :
  reachable c s → Z.of_nat (length (received s)) < 2 ^ 63 - 1 →
  map ID (received s) = seqZ 1 (Z.of_nat (length (received s))) ∧
  map snd (called s) ⊆+ received s ∧ NoDup (map ID (map snd (called s))) ∧
  Forall (call_ok c) (called s).
Proof.
  intros Hr Hlt. destruct (numbered_reachable c s Hr Hlt) as [Hids _].
  destruct (conn_inv_reachable c s Hr) as [Hcalls Hok _ _ _ _ _].
  assert (map snd (called s) ⊆+ received s) as Hsub.
  { etrans; [|exact Hcalls]. by apply submseteq_inserts_r. }
  split; [done|]. split; [done|]. split; [|done].
  destruct (submseteq_Permutation _ _ Hsub) as [k Hk].
  assert (NoDup (map ID (map snd (called s) ++ k))) as Hnd.
  { rewrite <-(Permutation_map ID Hk), Hids. apply NoDup_seqZ. }
  rewrite map_app in Hnd. by apply NoDup_app in Hnd as [? _].
Qed.

(** C12. Nothing is served after an unbind: the unbind is the last request a
    connection receives, and the loop is then no longer reading. *)
Theorem conn_unbind_is_last c s i r :
  reachable c s → received s !! i = Some r → routeOp r = unbindRouteOperation →
  S i = length (received s) ∧ ¬ active s.
Proof.
  intros Hr Hi Hu. destruct (conn_inv_reachable c s Hr) as [_ _ Ha Hl _ _ _].
  split; [by eapply Hl|]. intros Hact. specialize (Ha Hact).
  by eapply Forall_lookup in Ha; [|exact Hi].
Qed.

(** C13. A connection closes exactly when its requests are done. In every interleaving the wait
    group [requestsWg], to which the loop adds one before it starts a goroutine and
    from which a goroutine takes one off when it leaves, counts the goroutines that
    were started and did not end: its [Done] never panics, and [close], which waits for the
    counter only, can go on exactly when no goroutine is left. So a closed
    connection has no request in flight, and every request that it read and that the
    mux has a handler for was given to that handler. *)
Theorem conn_close_drains c s :
  reachable c s →
  requestsWg s = Z.of_nat (length (inflight s)) ∧
  (inflight s ≠ [] → ∃ n, wg_add (-1) (requestsWg s) = Ok n) ∧
  (∀ err, is_Some (conn_close err s) ↔ inflight s = []) ∧
  (loop s = Closed → inflight s = [] ∧
     ∀ r f, r ∈ received s → routeOp r ≠ unbindRouteOperation →
       serve (router c) (Some r) = Ok (CallHandler f) → (f, r) ∈ called s).
Proof.
  intros Hr. destruct (conn_inv_reachable c s Hr) as [_ _ _ _ Hsv Hwg Hcl].
  split; [done|]. split; [|split].
  - intros Hne. eexists. apply wg_add_Ok. destruct (inflight s); [done|]. simpl in *. lia.
  - intros err. unfold conn_close. rewrite Hwg. case_decide as Hl.
    + split; [|done]. intros _. apply nil_length_inv. lia.
    + split; [by intros [? ?]|]. intros Hn. by rewrite Hn in Hl.
  - intros Hc. specialize (Hcl Hc). split; [done|]. intros r f Hin Hu Hs.
    destruct (Hsv r f Hin Hu Hs) as [?|Hx]; [done|]. rewrite Hcl in Hx. by apply elem_of_nil in Hx.
Qed.

(** C11. In every interleaving of handlers, failures of the network and StartTLS,
    each writer of a connection delivered exactly the responses whose [Write]
    returned no error, whole and in the order of the writes; only after a [Write] that
    failed because the network did can they be followed by the first part of one
    response, and by nothing else. *)
Theorem conn_delivers_responses c s i w :
  reachable c s → writers s !! i = Some w →
  ∃ part, accepted (wr w) = stream (written_on i (written s)) +:+ part ∧
    (part = "" ∨ werr w ≠ None ∧
       ∃ r rest, Packet_Bytes (Response_packet r) = part +:+ rest ∧ rest ≠ "").
Proof.
  intros Hr Hi. destruct (reachable_writer_ok c s Hr) as [Hok _].
  destruct (Hok i w Hi) as [[_ ->]|(Hf & r & p & q & Hpq & Hq & ->)].
  - exists "". rewrite app_nil_r_str. auto.
  - exists p. eauto 8.
Qed.

(** When the server is stopping, the loop's next iteration sends one notice
    of disconnection (message id 0, unwillingToPerform, "server stopping") on
    the current writer, serves nothing more and returns without an error. *)
Theorem conn_stopping_notice c r s w :
  connID c ≠ 0 → 0 ≤ lastID s < 2 ^ 63 - 1 → writers s !! current s = Some w → idle w →
  let s' := iteration c (Some None) r s in
  loop s' = Returned None ∧ received s' = received s ∧ inflight s' = inflight s ∧
  ∃ res, written s' = written s ++ [(current s, res)] ∧
         result_of res = Some (mkLDAPResult 0 ApplicationExtendedResponse
           ResultUnwillingToPerform "Unused" "server stopping" []).
Proof.
  intros Hc Hid Hw Hidle. unfold iteration.
  assert (go_int (lastID s + 1) = lastID s + 1) as Hgo.
  { apply wrapS_id; [lia|]. unfold in_int. change (64 - 1) with 63. lia. }
  rewrite Hgo. cbn [newResponseWriter lastID with_lastID].
  rewrite decide_False, decide_False by lia. unfold stopServing.
  set (s1 := with_lastID _ s). unfold writeOn.
  change (writers s1 !! current s1) with (writers s !! current s). rewrite Hw.
  rewrite (idle_eq w Hidle), Write_idle. simpl. eauto 8.
Qed.
End properties.

(** ** An interleaving with StartTLS *)

(** A search and a StartTLS request, each with a handler. *)
Definition tls_conn : conn :=
  mkConn 1 1 (registered [RegSearch (Some 1) []; RegExtended (Some 2) ExtendedOperationStartTLS []]).

Definition search_packet : Packet :=
  match @testSearchRequestPacket ber_model ldap_presence
          (mkSearchMessage 1 "ou=people" WholeSubtree 0 0 0 false ("(cn" +:+ presence) [] []) with
  | Ok p => pkt p
  | _ => mkPacket 0 0 0 VNil "" [] ""
  end.

Definition startTLS_packet : Packet := pkt (@testStartTLSRequestPacket ber_model 2).

Definition tls_step := @step ber_model ldap_presence ascii_folding tls_conn.
Definition tls_iteration (p : Packet) : connState → connState :=
  @iteration ber_model ldap_presence ascii_folding tls_conn None (inl p).

(** The search request, as the connection receives it. *)
Definition tls_search : Request :=
  mkRequest 1 1
    (MSearch (mkSearchMessage 1 "ou=people" WholeSubtree 0 0 0 false ("(cn" +:+ presence) [] []))
    searchRouteOperation "".

Definition tls_startTLS : Request :=
  mkRequest 2 1 (MExtended (mkExtendedOperationMessage 2 ExtendedOperationStartTLS ""))
    extendedRouteOperation ExtendedOperationStartTLS.

(** The run: the search is read and its handler called; StartTLS is read and
    its handler called from the loop; the handshake succeeds; the search's
    handler writes. *)
Definition tls_s1 : connState :=
  mkState [idle_writer ""] 1 [mkThread tls_search 0 Started] 1 Serving false [tls_search] [] [].
Definition tls_s2 : connState :=
  mkState [idle_writer ""] 1 [mkThread tls_search 0 (InHandler 1)] 1 Serving false [tls_search]
    [(1, tls_search)] [].
Definition tls_s3 : connState :=
  mkState [idle_writer ""] 2 [mkThread tls_search 0 (InHandler 1)] 1
    (MainHandler (mkThread tls_startTLS 0 (InHandler 2)) false) false
    [tls_search; tls_startTLS] [(1, tls_search); (2, tls_startTLS)] [].
Definition tls_s4 : connState := with_writers [idle_writer ""; idle_writer ""] tls_s3.

Lemma tls_read_search : tls_iteration search_packet (initState [idle_writer ""]) = tls_s1.
Proof. vm_compute. reflexivity. Qed.

Lemma tls_read_startTLS : tls_iteration startTLS_packet tls_s2 = tls_s3.
Proof. vm_compute. reflexivity. Qed.

Lemma tls_s2_reachable : @reachable ber_model ldap_presence ascii_folding tls_conn tls_s2.
Proof.
  eapply rtc_l; [by apply (step_iterate _ _ None (inl search_packet))|].
  fold (tls_iteration search_packet (initState [idle_writer ""])). rewrite tls_read_search.
  apply rtc_once. by apply (step_start_call _ tls_s1 [] [] tls_search 0 1); vm_compute.
Qed.

Lemma tls_s4_reachable : @reachable ber_model ldap_presence ascii_folding tls_conn tls_s4.
Proof.
  unfold reachable. etrans; [apply tls_s2_reachable|].
  eapply rtc_l; [by apply (step_iterate _ tls_s2 None (inl startTLS_packet))|].
  fold (tls_iteration startTLS_packet tls_s2). rewrite tls_read_startTLS.
  apply rtc_once. by eapply (step_main_startTLS _ tls_s3 tls_s4).
Qed.

(** What the search's handler writes. *)
Definition tls_result : Response := RSearchDone (NewSearchDoneResponse tls_search []).


(** ** Witnesses *)

Lemma conn_requests_served_once_witness :
  map ID (received tls_s4) = seqZ 1 (Z.of_nat (length (received tls_s4))) ∧
  NoDup (map ID (map snd (called tls_s4))).
Proof.
  destruct (@conn_requests_served_once ber_model ldap_presence ascii_folding
              tls_conn tls_s4 tls_s4_reachable) as (H1 & _ & H2 & _); [simpl; lia|].
  split; [exact H1|exact H2].
Defined.

(** The plaintext connection fails after three bytes of the response to the search. *)
Definition tls_s5 : connState :=
  with_writers (<[0%nat := netDown 3 (EExternal OtherErr "broken pipe") (idle_writer "")]>
    (writers tls_s4)) tls_s4.
Definition tls_s6 : connState := snd (@writeOn ber_model 0 tls_result tls_s5).

Lemma tls_s6_reachable : @reachable ber_model ldap_presence ascii_folding tls_conn tls_s6.
Proof.
  eapply rtc_r; [eapply rtc_r; [apply tls_s4_reachable|]|].
  - by apply (step_netDown _ tls_s4 0 3 (EExternal OtherErr "broken pipe") (idle_writer "")).
  - by apply (step_write _ tls_s5 [] [] tls_search 0 1 tls_result).
Qed.

Lemma conn_delivers_responses_witness :
  ∃ w part, writers tls_s6 !! 0%nat = Some w ∧ werr w ≠ None ∧
    accepted (wr w) = @stream ber_model [] +:+ part ∧ String.length part = 3%nat.
Proof.
  destruct (writers tls_s6 !! 0%nat) as [w|] eqn:Hw; [|vm_compute in Hw; discriminate Hw].
  destruct (@conn_delivers_responses ber_model ldap_presence ascii_folding tls_conn tls_s6 0 w
    tls_s6_reachable Hw) as (part & Ha & _).
  exists w, part. vm_compute in Hw. injection Hw as <-. split; [reflexivity|].
  split; [discriminate|]. split; [exact Ha|]. vm_compute in Ha. by subst part.
Defined.

(** A connection that received an unbind, and then closed. *)
Definition unbind_req : Request :=
  mkRequest 1 1 (MUnbind (mkUnbindMessage 3)) unbindRouteOperation "".
Definition unbind_s1 : connState :=
  mkState [idle_writer ""] 1 [] 0 (Returned None) false [unbind_req] [] [].
Definition unbind_s2 : connState := with_loop Closed unbind_s1.
Definition unbind_packet : Packet :=
  pkt (@testUnbindRequestPacket ber_model (mkUnbindMessage 3)).

Lemma unbind_read : tls_iteration unbind_packet (initState [idle_writer ""]) = unbind_s1.
Proof. vm_compute. reflexivity. Qed.

Lemma unbind_s2_reachable : @reachable ber_model ldap_presence ascii_folding tls_conn unbind_s2.
Proof.
  eapply rtc_l; [by apply (step_iterate _ _ None (inl unbind_packet))|].
  fold (tls_iteration unbind_packet (initState [idle_writer ""])). rewrite unbind_read.
  apply rtc_once. apply (step_close _ unbind_s1 _ None None); [done|left; by eexists|done].
Qed.

Lemma conn_unbind_is_last_witness :
  1%nat = length (received unbind_s2) ∧ ¬ active unbind_s2.
Proof.
  apply (@conn_unbind_is_last ber_model ldap_presence ascii_folding
           tls_conn unbind_s2 0 unbind_req unbind_s2_reachable); reflexivity.
Defined.

(** A connection that reads an unbind while a search is in its handler: it closes
    after the search was answered and its goroutine ended. *)
Definition drain_s1 : connState := tls_iteration unbind_packet tls_s2.
Definition drain_s2 : connState := snd (@writeOn ber_model 0 tls_result drain_s1).
Definition drain_s3 : connState := with_inflight [mkThread tls_search 0 Leaving] drain_s2.
Definition drain_s4 : connState := with_requestsWg 0 (with_inflight [] drain_s3).
Definition drain_s5 : connState := with_loop Closed drain_s4.

Lemma drain_s1_reachable : @reachable ber_model ldap_presence ascii_folding tls_conn drain_s1.
Proof.
  eapply rtc_r; [apply tls_s2_reachable|]. by apply (step_iterate _ _ None (inl unbind_packet)).
Qed.

Lemma drain_s5_reachable : @reachable ber_model ldap_presence ascii_folding tls_conn drain_s5.
Proof.
  eapply rtc_r; [eapply rtc_r; [eapply rtc_r; [eapply rtc_r; [apply drain_s1_reachable|]|]|]|].
  - by apply (step_write _ drain_s1 [] [] tls_search 0 1 tls_result); vm_compute.
  - by apply (step_return _ drain_s2 [] [] tls_search 0 1); vm_compute.
  - by apply (step_done _ drain_s3 [] [] tls_search 0 0); vm_compute.
  - apply (step_close _ drain_s4 _ None None); [by vm_compute|left; by eexists|by vm_compute].
Qed.

Lemma conn_close_drains_witness :
  inflight drain_s1 = [mkThread tls_search 0 (InHandler 1)] ∧ loop drain_s1 = Returned None ∧
  conn_close None drain_s1 = None ∧
  loop drain_s5 = Closed ∧ inflight drain_s5 = [] ∧ (1, tls_search) ∈ called drain_s5.
Proof.
  split; [by vm_compute|]. split; [by vm_compute|]. split.
  - destruct (@conn_close_drains ber_model ldap_presence ascii_folding tls_conn drain_s1
      drain_s1_reachable) as (_ & _ & Hc & _). specialize (Hc None).
    destruct (conn_close None drain_s1) as [x|]; [|reflexivity].
    destruct Hc as [Hc _]. specialize (Hc (mk_is_Some _ _ eq_refl)). vm_compute in Hc. discriminate Hc.
  - destruct (@conn_close_drains ber_model ldap_presence ascii_folding tls_conn drain_s5
      drain_s5_reachable) as (_ & _ & _ & Hd). destruct (Hd eq_refl) as [Hi Hc].
    split; [reflexivity|]. split; [exact Hi|]. apply Hc.
    + apply (list_elem_of_lookup_2 _ 0). by vm_compute.
    + discriminate.
    + by vm_compute.
Defined.

Lemma conn_stopping_notice_witness :
  loop (@iteration ber_model ldap_presence ascii_folding tls_conn (Some None)
          (inl startTLS_packet) tls_s2) = Returned None.
Proof.
  apply (@conn_stopping_notice ber_model ldap_presence ascii_folding
           tls_conn (inl startTLS_packet) tls_s2 (idle_writer "")).
  - discriminate.
  - simpl. lia.
  - reflexivity.
  - repeat split.
Defined.
