(* ===== verification/Server.v ===== *)
(** The server: [server.go].

    [Run], the goroutine of each connection and [Stop] run concurrently; [step]
    has one rule for each atomic thing one of them does next.  What happens on
    a connection is [Conn.v]'s subject; here a connection is where its
    goroutine is: serving, past [connWg.Done], closed, or past the [onClose]
    callback; what its goroutine calls before that is [serveConn].  The results
    of [net.Listen], [Accept] and [Close] are the environment's choice, within
    what a listener can return. *)
From stdpp Require Import base decidable option list strings gmap relations.
From Stdlib Require Import ZArith Lia.
From S2P Require Import Prelude GoStd Options Packet Response Mux Conn.
Import GoStrings.

(** [server.go:20-35] Server: what [NewServer] and [Router] set *)
Record Server : Type := mkServer {
  srv_router : Mux;
  srv_logger : handle;
  readTimeout : Z;
  writeTimeout : Z;
  disablePanicRecovery : bool;
  onCloseHandler : option handle;
}.

(** [server.go:44-65] NewServer; [defaultLogger] is the logger [hclog.New] makes *)
Definition NewServer (defaultLogger : handle) (opt : list Option) : outcome Server :=
  let opts := getConfigOpts opt in
  Ok (mkServer (mkMux [] None None) (default defaultLogger (withLogger opts))
        (withReadTimeout opts) (withWriteTimeout opts) (withDisablePanicRecovery opts)
        (withOnClose opts)).

(** [server.go:200-209] Router *)
Definition Router (r : option Mux) (s : Server) : outcome Server :=
  match r with
  | None => Err (invalid "gldap.(Server).HandleRoutes" "missing router")
  | Some r =>
      Ok (mkServer r (srv_logger s) (readTimeout s) (writeTimeout s)
            (disablePanicRecovery s) (onCloseHandler s))
  end.

(** ** The state of a running server *)

(** A listener is open or closed. *)
Inductive listenerState : Type := Open | ClosedListener.

(** Where a connection's goroutine is: before the deferred function, after
    [connWg.Done], after [conn.close], after the callback. *)
Inductive cphase : Type := CServing | CLeft | CClosed | CFinished.

(** Where [Run] is: not called, with a listener that may still be wrapped, at the
    top of the loop with the last [connID], blocked in [Accept], with an
    accepted connection, returned. *)
Inductive runPhase : Type :=
| RIdle
| RListening (config : option handle)
| RTop (connID : Z)
| RAccepting (connID : Z)
| RAccepted (connID : Z)
| RReturned (err : option error).

(** Where [Stop] is. *)
Inductive stopPhase : Type :=
| SIdle
| SCancel
| SWait
| SReturned (err : option error).

(** [tlsConfig] is the configuration of the TLS listener when [listener] is
    one, and [secured] are the connections such a listener accepted. *)
Record serverState : Type := mkSrv {
  listener : option listenerState;
  listenerReady : bool;
  tlsConfig : option handle;
  shutdown : bool;
  connWg : Z;
  conns : list (Z * cphase);
  secured : list Z;
  run : runPhase;
  stop : stopPhase;
  onClosed : list Z;
}.

(** A server that has not run: [shutdownCancel] is set by [NewServer]. *)
Definition initServer : serverState := mkSrv None false None false 0 [] [] RIdle SIdle [].

(** Assignments to what the goroutines share, and their moves. *)
Definition set_run (r : runPhase) (s : serverState) : serverState :=
  mkSrv (listener s) (listenerReady s) (tlsConfig s) (shutdown s) (connWg s) (conns s)
    (secured s) r (stop s) (onClosed s).
Definition set_stop (p : stopPhase) (s : serverState) : serverState :=
  mkSrv (listener s) (listenerReady s) (tlsConfig s) (shutdown s) (connWg s) (conns s)
    (secured s) (run s) p (onClosed s).
Definition set_listener (l : option listenerState) (ready : bool) (s : serverState) : serverState :=
  mkSrv l ready (tlsConfig s) (shutdown s) (connWg s) (conns s) (secured s) (run s) (stop s)
    (onClosed s).
Definition set_conns (wg : Z) (l : list (Z * cphase)) (s : serverState) : serverState :=
  mkSrv (listener s) (listenerReady s) (tlsConfig s) (shutdown s) wg l (secured s) (run s)
    (stop s) (onClosed s).

(** [server.go:159-163] Ready *)
Definition Ready (s : serverState) : bool := listenerReady s.

(** [server.go:70-81] Run until it has a listener; [l] is what [net.Listen]
    returned.  [listenerReady] is set before the error is looked at. *)
Definition listen (opt : list Option) (l : option error) (s : serverState) : serverState :=
  let op := "gldap.(Server).Run" in
  let opts := getConfigOpts opt in
  match l with
  | Some e =>
      set_run (RReturned (Some (Wrapf op "unable to listen to addr %s" e)))
        (set_listener None true s)
  | None => set_run (RListening (withTLSConfig opts)) (set_listener (Some Open) true s)
  end.

(** [server.go:82-91] The TLS listener, which closes the one it wraps. *)
Definition wrapTLS (config : option handle) (s : serverState) : serverState :=
  mkSrv (listener s) (listenerReady s)
    (match config with Some c => Some c | None => tlsConfig s end) (shutdown s) (connWg s)
    (conns s) (secured s) (RTop 0) (stop s) (onClosed s).

(** [server.go:92-99] The top of Run's loop. *)
Definition loopTop (connID : Z) (s : serverState) : serverState :=
  let connID := go_int (connID + 1) in
  set_run (if shutdown s then RReturned None else RAccepting connID) s.

(** [server.go:100-108] Accept returned an error or a connection. *)
Definition accept (connID : Z) (err : option error) (s : serverState) : serverState :=
  let op := "gldap.(Server).Run" in
  set_run
    (match err with
     | Some e =>
         if Contains (ErrorText e) "use of closed network connection" then RReturned None
         else RReturned (Some (Wrapf op "error accepting conn" e))
     | None => RAccepted connID
     end) s.

(** [server.go:109-115] The connection is made, counted and its goroutine started;
    [newConn] fails when the connection's number has wrapped to 0. *)
Definition spawn (srv : Server) (connID : Z) (s : serverState) : serverState :=
  let op := "gldap.(Server).Run" in
  match newConn (Some 1) connID (Some (mkNetWriter "" None)) (Some (srv_logger srv))
          (Some (srv_router srv)) with
  | Ok _ =>
      mkSrv (listener s) (listenerReady s) (tlsConfig s) (shutdown s) (connWg s + 1)
        (conns s ++ [(connID, CServing)])
        (match tlsConfig s with Some _ => secured s ++ [connID] | None => secured s end)
        (RTop connID) (stop s) (onClosed s)
  | Err e => set_run (RReturned (Some (Wrapf op "unable to create in-memory conn" e))) s
  | Panic _ => s
  end.

(** What the goroutine of a connection calls before its deferred function. *)
Inductive connCall : Type := SetReadDeadline | SetWriteDeadline | ServeRequests.

(** [server.go:130-154] The body of a connection's goroutine: the calls it makes,
    and the panic it dies of after its deferred functions, if any.  [rd] and
    [wd] are what the connection's deadline setters return, [served] what
    [serveRequests] does. *)
Definition serveConn (srv : Server) (rd wd : option error) (served : outcome unit)
    : list connCall * option string :=
  let serve :=
    ([ServeRequests],
     match served with
     | Panic w => if disablePanicRecovery srv then Some w else None
     | _ => None
     end) in
  let write :=
    if decide (writeTimeout srv = 0) then serve
    else match wd with
         | Some _ => ([SetWriteDeadline], None)
         | None => (SetWriteDeadline :: serve.1, serve.2)
         end in
  if decide (readTimeout srv = 0) then write
  else match rd with
       | Some _ => ([SetReadDeadline], None)
       | None => (SetReadDeadline :: write.1, write.2)
       end.

(** [server.go:116-128] The deferred function of a connection's goroutine, one
    statement at a time: [connWg.Done], [conn.close], the callback. *)
Definition leave (i : nat) (srv : Server) (s : serverState) : serverState :=
  match conns s !! i with
  | Some (k, CServing) => set_conns (connWg s - 1) (<[i := (k, CLeft)]> (conns s)) s
  | Some (k, CLeft) => set_conns (connWg s) (<[i := (k, CClosed)]> (conns s)) s
  | Some (k, CClosed) =>
      mkSrv (listener s) (listenerReady s) (tlsConfig s) (shutdown s) (connWg s)
        (<[i := (k, CFinished)]> (conns s)) (secured s) (run s) (stop s)
        (match onCloseHandler srv with
         | Some _ => onClosed s ++ [k]
         | None => onClosed s
         end)
  | _ => s
  end.

(** [server.go:166-187] Stop up to the cancellation; [err] is what the listener's
    [Close] returned. *)
Definition closeListener (err : option error) (s : serverState) : serverState :=
  let op := "gldap.(Server).Stop" in
  match listener s with
  | None => set_stop SCancel s
  | Some _ =>
      set_stop
        (match err with
         | Some e =>
             if negb (Contains (ErrorText e) "use of closed network connection")
             then SReturned (Some (Wrapf op "" e)) else SCancel
         | None => SCancel
         end) (set_listener (Some ClosedListener) (listenerReady s) s)
  end.

(** [server.go:188-191] The cancellation of the shutdown context. *)
Definition cancel (s : serverState) : serverState :=
  mkSrv (listener s) (listenerReady s) (tlsConfig s) true (connWg s) (conns s) (secured s)
    (run s) SWait (onClosed s).

(** [server.go:192-195] Stop returns when [connWg.Wait] does. *)
Definition stopped (s : serverState) : serverState := set_stop (SReturned None) s.

(** [Stop] holds the read lock of [s.mu] until it returns; [Run] takes the write
    lock to set the listener. *)
Definition unlocked (s : serverState) : Prop :=
  match stop s with SIdle | SReturned _ => True | SCancel | SWait => False end.

Inductive step (srv : Server) : serverState → serverState → Prop :=
| step_listen s opt l : run s = RIdle → unlocked s → step srv s (listen opt l s)
| step_wrap s c : run s = RListening c → (c ≠ None → unlocked s) → step srv s (wrapTLS c s)
| step_top s k : run s = RTop k → step srv s (loopTop k s)
| step_accept s k : run s = RAccepting k → listener s = Some Open → step srv s (accept k None s)
| step_accept_err s k e : run s = RAccepting k → step srv s (accept k (Some e) s)
| step_spawn s k : run s = RAccepted k → step srv s (spawn srv k s)
| step_leave s i : step srv s (leave i srv s)
| step_closeListener s err : stop s = SIdle → step srv s (closeListener err s)
| step_cancel s : stop s = SCancel → step srv s (cancel s)
| step_stopped s : stop s = SWait → connWg s = 0 → step srv s (stopped s).

Definition reachable (srv : Server) (s : serverState) : Prop :=
  rtc (step srv) initServer s.

(** ** Invariants *)

(** The connections in a phase. *)
Definition in_phase (p : cphase) (l : list (Z * cphase)) : list Z :=
  omap (λ '(k, q), match p, q with
                   | CServing, CServing | CFinished, CFinished => Some k
                   | _, _ => None
                   end) l.

(** The counter of [Run] against the number of connections made. *)
Definition run_ok (r : runPhase) (n : nat) : Prop :=
  match r with
  | RTop k => k = Z.of_nat n
  | RAccepting k | RAccepted k => k = Z.of_nat n + 1
  | RIdle | RListening _ => n = 0%nat
  | RReturned _ => True
  end.

Record server_inv (srv : Server) (s : serverState) : Prop := {
  (** the wait group counts the connections that serve *)
  inv_wg : connWg s = Z.of_nat (length (in_phase CServing (conns s)));
  (** the callback ran for the connections that finished *)
  inv_onClose : onClosed s ≡ₚ
    match onCloseHandler srv with Some _ => in_phase CFinished (conns s) | None => [] end;
  (** connections are numbered from 1 *)
  inv_ids : Z.of_nat (length (conns s)) < 2 ^ 63 - 1 →
    (conns s).*1 = seqZ 1 (Z.of_nat (length (conns s))) ∧ run_ok (run s) (length (conns s));
  (** before the loop there is no connection *)
  inv_before : match run s with RIdle | RListening _ => conns s = [] ∧ tlsConfig s = None | _ => True end;
  (** with a TLS configuration every connection is secured *)
  inv_tls : secured s = match tlsConfig s with Some _ => (conns s).*1 | None => [] end;
}.

Lemma in_phase_app p l k : in_phase p (l ++ k) = in_phase p l ++ in_phase p k.
Proof. apply omap_app. Qed.

Lemma in_phase_middle p l1 l2 k q :
  in_phase p (l1 ++ (k, q) :: l2) = in_phase p l1 ++ in_phase p [(k, q)] ++ in_phase p l2.
Proof. rewrite in_phase_app. f_equal. by rewrite <-in_phase_app. Qed.

Lemma server_inv_same srv s s' :
  connWg s' = connWg s → conns s' = conns s → onClosed s' = onClosed s →
  tlsConfig s' = tlsConfig s → secured s' = secured s →
  (match run s' with
   | RIdle | RListening _ => match run s with RIdle | RListening _ => True | _ => False end
   | _ => True end) →
  (Z.of_nat (length (conns s)) < 2 ^ 63 - 1 →
   run_ok (run s) (length (conns s)) → run_ok (run s') (length (conns s))) →
  server_inv srv s → server_inv srv s'.
Proof.
  intros H1 H2 H3 H4 H5 Hb Hr [Ha Hb' Hc Hd He]. constructor; rewrite ?H1, ?H2, ?H3, ?H4, ?H5; try done.
  - intros Hl. destruct (Hc Hl). auto.
  - by destruct (run s'), (run s).
Qed.

(** A connection's goroutine moves on. *)
Lemma server_inv_leave srv i s : server_inv srv s → server_inv srv (leave i srv s).
Proof.
  intros Hi. unfold leave. destruct (conns s !! i) as [[k q]|] eqn:E; [|done].
  destruct (list_elem_of_split_length _ _ _ E) as (l1 & l2 & Hl & ->).
  assert (∀ q', <[length l1 := (k, q')]> (conns s) = l1 ++ (k, q') :: l2) as Hins.
  { intros q'. rewrite Hl. by rewrite insert_app_r_alt, Nat.sub_diag by lia. }
  assert (match run s with RIdle | RListening _ => False | _ => True end) as Hrun.
  { pose proof (inv_before _ _ Hi) as Hd. rewrite Hl in Hd.
    destruct (run s), l1; simpl in *; naive_solver. }
  destruct q; [..|done]; destruct Hi as [Ha Hb Hc _ He]; rewrite Hl, in_phase_middle in Ha, Hb;
    rewrite Hl, fmap_app in He; rewrite Hl, fmap_app, length_app in Hc; simpl in *;
    constructor; simpl; rewrite Hins, ?fmap_app, ?in_phase_middle, ?length_app in *; simpl;
    rewrite ?length_app in *; simpl in *; try done; try lia; try by destruct (run s).
  destruct (onCloseHandler srv); [|done]. rewrite Hb.
  etrans; [apply (Permutation_app_comm _ [k])|]. simpl. apply Permutation_middle.
Qed.

Lemma server_inv_spawn srv k s :
  run s = RAccepted k → server_inv srv s → server_inv srv (spawn srv k s).
Proof.
  intros Hr Hi. unfold spawn. destruct (newConn _ _ _ _ _) eqn:E; [|by apply (server_inv_same srv s)|done].
  destruct Hi as [Ha Hb Hc _ He]. constructor; simpl; rewrite ?in_phase_app; simpl.
  - rewrite length_app, Ha. simpl. lia.
  - by rewrite app_nil_r.
  - rewrite length_app, Hr in *. simpl in *. intros Hl. destruct Hc as [Hc Hk]; [lia|].
    rewrite fmap_app, Hc, Hk, Nat2Z.inj_add, seqZ_app by lia. simpl. split; [|lia].
    f_equal. unfold seqZ. simpl. f_equal. lia.
  - done.
  - rewrite He, fmap_app. by destruct (tlsConfig s).
Qed.

Lemma server_inv_wrap srv c s :
  run s = RListening c → server_inv srv s → server_inv srv (wrapTLS c s).
Proof.
  intros Hr [Ha Hb Hc Hd He]. rewrite Hr in Hc, Hd. destruct Hd as [Hn Ht].
  constructor; simpl; rewrite ?Hn; try done.
  - by rewrite Hn in Ha.
  - by rewrite Hn in Hb.
  - rewrite He, Ht. by destruct c.
Qed.

Lemma server_inv_step srv s s' : step srv s s' → server_inv srv s → server_inv srv s'.
Proof.
  intros Hs Hi. destruct Hs as [s opt l Hr _|s c Hr _|s k Hr|s k Hr Hl|s k e Hr|s k Hr|s i|s err Hst|s Hst|s Hst Hw].
  - destruct l; apply (server_inv_same srv s); try done; simpl; by rewrite Hr.
  - by apply server_inv_wrap.
  - apply (server_inv_same srv s); try done; simpl; rewrite Hr; destruct (shutdown s); try done.
    simpl. intros Hlt ->. apply wrapS_id; [lia|]. unfold in_int. change (64 - 1) with 63. lia.
  - apply (server_inv_same srv s); try done. simpl. by rewrite Hr.
  - apply (server_inv_same srv s); try done; simpl; by destruct (Contains _ _).
  - by apply server_inv_spawn.
  - by apply server_inv_leave.
  - unfold closeListener. destruct (listener s); apply (server_inv_same srv s); try done;
      simpl; by destruct (run s).
  - apply (server_inv_same srv s); try done; simpl; by destruct (run s).
  - apply (server_inv_same srv s); try done; simpl; by destruct (run s).
Qed.

Lemma server_inv_reachable srv s : reachable srv s → server_inv srv s.
Proof.
  intros Hr. unfold reachable in Hr.
  assert (server_inv srv initServer) as Hinit by (constructor; try done; by destruct (onCloseHandler srv)).
  revert Hinit. induction Hr as [x|x y z Hxy _ IH]; [done|]. intros Hx.
  by eapply IH, server_inv_step.
Qed.

(** ** Properties *)

(** C14. In every interleaving of [Run], [Stop] and the connections, the wait
    group counts exactly the connections that still serve (so it never goes
    negative), connections are numbered 1, 2, 3, ..., and the [onClose]
    callback runs at most once for each, after it was closed. *)
Theorem server_connections_counted srv s :
  reachable srv s → Z.of_nat (length (conns s)) < 2 ^ 63 - 1 →
  connWg s = Z.of_nat (length (in_phase CServing (conns s))) ∧
  (conns s).*1 = seqZ 1 (Z.of_nat (length (conns s))) ∧
  NoDup (onClosed s) ∧ ∀ k, k ∈ onClosed s → (k, CFinished) ∈ conns s.
Proof.
  intros Hr Hl. destruct (server_inv_reachable srv s Hr) as [Ha Hb Hc _ _].
  destruct (Hc Hl) as [Hids _]. split; [done|]. split; [done|].
  assert (∀ l : list (Z * cphase), NoDup l.*1 → NoDup (in_phase CFinished l)) as Hnd.
  { induction l as [|[k q] l IH]; [done|]. simpl. intros [Hk Hn]%NoDup_cons.
    unfold in_phase in *. simpl. destruct q; try by apply IH. constructor; [|by apply IH].
    intros ([k' q] & Hin & Hq)%list_elem_of_omap. destruct q; simplify_eq.
    apply Hk, list_elem_of_fmap. by exists (k, CFinished). }
  destruct (onCloseHandler srv).
  - split.
    + rewrite Hb. apply Hnd. rewrite Hids. apply NoDup_seqZ.
    + intros k. rewrite Hb. intros ([k' q] & Hin & Hq)%list_elem_of_omap.
      by destruct q; simplify_eq.
  - rewrite Hb. split; [constructor|]. intros k. rewrite Hb. by intros ?%elem_of_nil.
Qed.

(** C16. When [Stop] returns without an error, every connection counted by then
    has left [serveRequests]. *)
Theorem server_stop_waits srv s s' :
  reachable srv s → step srv s s' → stop s ≠ SReturned None → stop s' = SReturned None →
  in_phase CServing (conns s') = [].
Proof.
  intros Hr Hs Hn Hst. pose proof (server_inv_reachable srv s Hr) as [Ha _ _ _ _].
  destruct Hs as [s opt l|s c|s k|s k|s k e|s k|s i|s err Hi|s Hi|s Hi Hw]; simpl in Hst; try done.
  - by destruct l.
  - unfold spawn in Hst. by destruct (newConn _ _ _ _ _).
  - unfold leave in Hst. by destruct (conns s !! i) as [[? []]|].
  - unfold closeListener in Hst. destruct (listener s); [|done]. simpl in Hst.
    destruct err; [|done]. by destruct (negb _).
  - simpl. rewrite Hw in Ha. by destruct (in_phase CServing (conns s)).
Qed.

(** After [Run] was given a TLS configuration. *)
Definition tls_run (c : handle) (s : serverState) : Prop :=
  match run s with
  | RIdle => False
  | RListening o => o = Some c
  | _ => tlsConfig s = Some c
  end.

Lemma tls_run_step srv c s s' : step srv s s' → tls_run c s → tls_run c s'.
Proof.
  unfold tls_run. intros Hs Ht.
  destruct Hs as [s opt l Hr|s o Hr|s k Hr|s k Hr|s k e Hr|s k Hr|s i|s err|s|s]; rewrite ?Hr in Ht; simpl.
  - done.
  - by rewrite Ht.
  - by destruct (shutdown s).
  - done.
  - by destruct (Contains _ _).
  - unfold spawn. destruct (newConn _ _ _ _ _); simpl; by rewrite ?Hr.
  - unfold leave. destruct (conns s !! i) as [[? []]|]; done.
  - unfold closeListener. by destruct (listener s).
  - done.
  - done.
Qed.

(** C15. A server that was run with a TLS configuration never serves a plaintext
    connection: whatever [Stop] and the connections do meanwhile, every
    connection it has accepted came from the TLS listener. *)
Theorem server_tls_only srv s c s' :
  reachable srv s → run s = RListening (Some c) → rtc (step srv) s s' →
  secured s' = (conns s').*1.
Proof.
  intros Hr Hc Hs. assert (tls_run c s') as Ht.
  { assert (tls_run c s) as H0 by (unfold tls_run; by rewrite Hc). clear Hr Hc.
    induction Hs as [|x y z Hxy _ IH]; [done|]. eauto using tls_run_step. }
  destruct (server_inv_reachable srv s') as [_ _ _ Hd ->]; [unfold reachable in *; by etrans|].
  unfold tls_run in Ht. destruct (run s'); try by rewrite Ht.
  - done.
  - by destruct Hd as [-> ->].
Qed.

(** The goroutine of a connection sets the deadlines that are configured before it
    serves, and serves the connection exactly when they could be set; unless panic
    recovery is disabled it never takes the process down. *)
Theorem serveConn_spec srv rd wd served :
  let '(calls, crash) := serveConn srv rd wd served in
  (ServeRequests ∈ calls ↔
     (readTimeout srv ≠ 0 → rd = None) ∧ (writeTimeout srv ≠ 0 → wd = None)) ∧
  (SetReadDeadline ∈ calls ↔ readTimeout srv ≠ 0) ∧
  calls `prefix_of` ((if decide (readTimeout srv = 0) then [] else [SetReadDeadline]) ++
                     (if decide (writeTimeout srv = 0) then [] else [SetWriteDeadline]) ++
                     [ServeRequests]) ∧
  (crash ≠ None ↔ ServeRequests ∈ calls ∧ disablePanicRecovery srv = true ∧
                  ∃ w, served = Panic w).
Proof.
  unfold serveConn.
  repeat case_decide; destruct rd, wd, served, (disablePanicRecovery srv); simpl;
    rewrite ?elem_of_cons, ?elem_of_nil; unfold prefix; naive_solver.
Qed.

(** A server that accepts one connection and stops. *)
Definition one_conn (c : cphase) (wg : Z) (l : listenerState) (sh : bool) (st : stopPhase)
    : serverState := mkSrv (Some l) true None sh wg [(1, c)] [] (RTop 1) st [].

(** The same server before its first connection. *)
Definition no_conn (r : runPhase) : serverState := mkSrv (Some Open) true None false 0 [] [] r SIdle [].

Lemma one_conn_reachable srv : reachable srv (one_conn CServing 1 Open false SIdle).
Proof.
  apply rtc_l with (no_conn (RListening None)); [exact (step_listen srv initServer [] None eq_refl I)|].
  apply rtc_l with (no_conn (RTop 0));
    [exact (step_wrap srv (no_conn (RListening None)) None eq_refl (λ _, I))|].
  apply rtc_l with (no_conn (RAccepting 1)); [exact (step_top srv (no_conn (RTop 0)) 0 eq_refl)|].
  apply rtc_l with (no_conn (RAccepted 1));
    [exact (step_accept srv (no_conn (RAccepting 1)) 1 eq_refl eq_refl)|].
  apply rtc_once. exact (step_spawn srv (no_conn (RAccepted 1)) 1 eq_refl).
Qed.

(** [Stop] waits, and the connection's goroutine has left. *)
Lemma one_conn_left srv : reachable srv (one_conn CLeft 0 ClosedListener true SWait).
Proof.
  unfold reachable. etrans; [apply one_conn_reachable|].
  apply rtc_l with (one_conn CServing 1 ClosedListener false SCancel);
    [exact (step_closeListener srv (one_conn CServing 1 Open false SIdle) None eq_refl)|].
  apply rtc_l with (one_conn CServing 1 ClosedListener true SWait);
    [exact (step_cancel srv (one_conn CServing 1 ClosedListener false SCancel) eq_refl)|].
  apply rtc_once. exact (step_leave srv (one_conn CServing 1 ClosedListener true SWait) 0).
Qed.

(** [Stop] can return, without an error, while a connection is still open:
    the goroutine calls [connWg.Done] before it closes the connection. *)
Theorem server_stop_before_close srv :
  ∃ s, reachable srv s ∧ stop s = SReturned None ∧ (1, CLeft) ∈ conns s.
Proof.
  exists (one_conn CLeft 0 ClosedListener true (SReturned None)).
  split; [|split; [done|by left]].
  eapply rtc_r; [apply one_conn_left|].
  exact (step_stopped srv (one_conn CLeft 0 ClosedListener true SWait) eq_refl eq_refl).
Qed.

(** [Ready] is true after [Run] failed to listen and returned its error. *)
Theorem server_ready_without_listener srv (e : error) :
  ∃ s e', reachable srv s ∧ Ready s = true ∧ listener s = None ∧ run s = RReturned (Some e').
Proof.
  exists (listen [] (Some e) initServer). eexists. split; [|done].
  apply rtc_once. by apply step_listen.
Qed.

(** When [Stop] comes before [Run], both return without an error and the listener
    that [Run] opened stays open. *)
Theorem server_run_after_stop_listens srv :
  ∃ s, reachable srv s ∧ run s = RReturned None ∧ stop s = SReturned None ∧
       listener s = Some Open.
Proof.
  exists (loopTop 0 (wrapTLS None (listen [] None (stopped (cancel (closeListener None initServer)))))).
  split; [|done]. unfold reachable.
  eapply rtc_l; [by apply (step_closeListener srv initServer None)|].
  eapply rtc_l; [by apply step_cancel|]. eapply rtc_l; [by apply step_stopped|].
  eapply rtc_l; [by apply (step_listen _ _ [] None)|].
  eapply rtc_l; [by apply (step_wrap _ _ None)|]. apply rtc_once. by apply step_top.
Qed.

(** ** Witnesses *)

Definition example_server : Server := mkServer (mkMux [] None None) 1 0 0 false (Some 5).

Lemma server_connections_counted_witness :
  connWg (one_conn CServing 1 Open false SIdle) = 1 ∧
  NoDup (onClosed (one_conn CServing 1 Open false SIdle)).
Proof.
  destruct (server_connections_counted example_server (one_conn CServing 1 Open false SIdle)
              (one_conn_reachable example_server)) as (H1 & _ & H2 & _); [simpl; lia|].
  split; [exact H1|exact H2].
Defined.

(** With a connection that was served and left: before it left, [Stop] could not return. *)
Lemma server_stop_waits_witness :
  in_phase CServing (conns (stopped (one_conn CLeft 0 ClosedListener true SWait))) = [] ∧
  ¬ step example_server (one_conn CServing 1 ClosedListener true SWait)
      (stopped (one_conn CServing 1 ClosedListener true SWait)).
Proof.
  split.
  - apply (server_stop_waits example_server (one_conn CLeft 0 ClosedListener true SWait)).
    + apply one_conn_left.
    + by apply step_stopped.
    + discriminate.
    + reflexivity.
  - intros Hs. assert (in_phase CServing (conns (stopped (one_conn CServing 1 ClosedListener true SWait))) = [])
      as Hn; [|vm_compute in Hn; discriminate Hn].
    apply (server_stop_waits example_server (one_conn CServing 1 ClosedListener true SWait)).
    + unfold reachable. etrans; [apply one_conn_reachable|].
      apply rtc_l with (one_conn CServing 1 ClosedListener false SCancel);
        [exact (step_closeListener _ (one_conn CServing 1 Open false SIdle) None eq_refl)|].
      apply rtc_once. exact (step_cancel _ (one_conn CServing 1 ClosedListener false SCancel) eq_refl).
    + exact Hs.
    + discriminate.
    + reflexivity.
Defined.

(** A server run with a TLS configuration, up to its first connection. *)
Definition tls_listening : serverState := listen [WithTLSConfig (Some 3)] None initServer.
Definition tls_serving : serverState :=
  spawn example_server 1 (accept 1 None (loopTop 0 (wrapTLS (Some 3) tls_listening))).

Lemma server_tls_only_witness : secured tls_serving = [1].
Proof.
  apply (server_tls_only example_server tls_listening 3 tls_serving).
  - apply rtc_once. by apply step_listen.
  - reflexivity.
  - eapply rtc_l; [by apply (step_wrap _ tls_listening (Some 3))|].
    eapply rtc_l; [by apply step_top|]. eapply rtc_l; [by apply (step_accept _ _ 1)|].
    apply rtc_once. by apply step_spawn.
Defined.
