(* ===== verification/DirOptions.v ===== *)
(** The data of the test directory: the store its entries live in, the options
    of [testdirectory/options.go] and the fixtures of [testdirectory/testing.go].

    The directory keeps [[]*gldap.Entry], compares entries by pointer and
    changes them and their attributes in place, so entries and attributes live
    in a [store] at addresses.  An address the store does not hold is a nil
    pointer.  Slices of pointers and of values are lists: no slice kept by the
    directory shares its backing array with one kept elsewhere. *)
From stdpp Require Import base decidable option list strings gmap.
From Stdlib Require Import ZArith Lia.
From S2P Require Import Prelude GoStd Ber BerModel Entry.
Import GoStrings.

(** The address of an entry or of an attribute. *)
Abbreviation addr := positive (only parsing).

(** An [Entry] as it is in memory: its attributes are pointers. *)
Record entryObj : Type := mkEntryObj {
  obj_DN : string;
  obj_Attributes : list addr;
}.

(** The entries and the attributes in memory. *)
Record store : Type := mkStore {
  entries : gmap addr entryObj;
  attributes : gmap addr EntryAttribute;
}.

Definition empty_store : store := mkStore ∅ ∅.

(** A new attribute, and new attributes for a list of values. *)
Definition new_attribute (a : EntryAttribute) (s : store) : addr * store :=
  let l := fresh (dom (attributes s)) in
  (l, mkStore (entries s) (<[l := a]> (attributes s))).
Fixpoint new_attributes (attrs : list EntryAttribute) (s : store) : list addr * store :=
  match attrs with
  | [] => ([], s)
  | a :: attrs =>
      let '(l, s) := new_attribute a s in
      let '(ls, s) := new_attributes attrs s in
      (l :: ls, s)
  end.

(** A new entry with new attributes, where the code evaluates [&Entry{...}]. *)
Definition new_entry (e : Entry) (s : store) : addr * store :=
  let '(ls, s) := new_attributes (Attributes e) s in
  let l := fresh (dom (entries s)) in
  (l, mkStore (<[l := mkEntryObj (DN e) ls]> (entries s)) (attributes s)).
Fixpoint new_entries (es : list Entry) (s : store) : list addr * store :=
  match es with
  | [] => ([], s)
  | e :: es =>
      let '(l, s) := new_entry e s in
      let '(ls, s) := new_entries es s in
      (l :: ls, s)
  end.

(** The value of the entry at an address, if it and its attributes are there. *)
Definition read_entry (s : store) (l : addr) : option Entry :=
  o ← entries s !! l;
  attrs ← mapM (λ a, attributes s !! a) (obj_Attributes o);
  Some (mkEntry (obj_DN o) attrs).

(** ** Options *)

(** [testdirectory/directory.go:25-41] DefaultUserAttr and the other defaults *)
Definition DefaultUserAttr : string := "cn".
Definition DefaultGroupAttr : string := "cn".
Definition DefaultUserDN : string := "ou=people,dc=example,dc=org".
Definition DefaultGroupDN : string := "ou=groups,dc=example,dc=org".

(** [testdirectory/options.go:76-104] Defaults; a nil slice or map is [None] *)
Record Defaults : Type := mkDefaults {
  UserAttr : string;
  GroupAttr : string;
  Users : option (list addr);
  Groups : option (list addr);
  TokenGroups : gmap string (list addr);
  UserDN : string;
  GroupDN : string;
  AllowAnonymousBind : bool;
  UPNDomain : string;
}.

(** [testdirectory/options.go:39-52] options; a logger is an address *)
Record options : Type := mkOptions {
  withPort : Z;
  withHost : string;
  withLogger : option Z;
  withNoTLS : bool;
  withMTLS : bool;
  withDisablePanicRecovery : bool;
  withDefaults : Defaults;
  withMembersOf : list string;
  withTokenGroupSIDs : list string;
  withFirst_ : bool;
}.

(** [testdirectory/options.go:15] Option *)
Definition Option : Type := option (options → options).

(** [testdirectory/options.go:54-73] defaults; the logger made there is number 1 *)
Definition defaults : options :=
  mkOptions 0 "localhost" (Some 1) false false false
    (mkDefaults DefaultUserAttr DefaultGroupAttr None None ∅ DefaultUserDN DefaultGroupDN
       false "")
    [] [] false.

(** [testdirectory/options.go:29-36] applyOpts *)
Definition applyOpts (opts : options) (opt : list Option) : options :=
  foldl (λ o f, match f with None => o | Some f => f o end) opts opt.

(** [testdirectory/options.go:18-25] getOpts *)
Definition getOpts (opt : list Option) : options := applyOpts defaults opt.

(** [if s != "" { dst = s }] *)
Definition orString (s dst : string) : string := if decide (s ≠ "") then s else dst.

(** [testdirectory/options.go:108-142] WithDefaults *)
Definition WithDefaults (defaults : option Defaults) : Option :=
  Some (λ o,
    match defaults with
    | None => o
    | Some n =>
        let d := withDefaults o in
        mkOptions (withPort o) (withHost o) (withLogger o) (withNoTLS o) (withMTLS o)
          (withDisablePanicRecovery o)
          (mkDefaults
             (orString (UserAttr n) (UserAttr d)) (orString (GroupAttr n) (GroupAttr d))
             (match Users n with Some u => Some u | None => Users d end)
             (match Groups n with Some g => Some g | None => Groups d end)
             (if decide (0 < size (TokenGroups n))%nat then TokenGroups n else TokenGroups d)
             (orString (UserDN n) (UserDN d)) (orString (GroupDN n) (GroupDN d))
             (if AllowAnonymousBind n then true else AllowAnonymousBind d)
             (orString (UPNDomain n) (UPNDomain d)))
          (withMembersOf o) (withTokenGroupSIDs o) (withFirst_ o)
    end).
(** [testdirectory/options.go:145-151] WithMTLS *)
Definition WithMTLS : Option :=
  Some (λ o, mkOptions (withPort o) (withHost o) (withLogger o) (withNoTLS o) true
    (withDisablePanicRecovery o) (withDefaults o) (withMembersOf o) (withTokenGroupSIDs o)
    (withFirst_ o)).
(** [testdirectory/options.go:154-160] WithNoTLS *)
Definition WithNoTLS : Option :=
  Some (λ o, mkOptions (withPort o) (withHost o) (withLogger o) true (withMTLS o)
    (withDisablePanicRecovery o) (withDefaults o) (withMembersOf o) (withTokenGroupSIDs o)
    (withFirst_ o)).
(** [testdirectory/options.go:163-169] WithLogger *)
Definition WithLogger (l : option Z) : Option :=
  Some (λ o, mkOptions (withPort o) (withHost o) l (withNoTLS o) (withMTLS o)
    (withDisablePanicRecovery o) (withDefaults o) (withMembersOf o) (withTokenGroupSIDs o)
    (withFirst_ o)).
(** [testdirectory/options.go:174-180] WithPort *)
Definition WithPort (port : Z) : Option :=
  Some (λ o, mkOptions port (withHost o) (withLogger o) (withNoTLS o) (withMTLS o)
    (withDisablePanicRecovery o) (withDefaults o) (withMembersOf o) (withTokenGroupSIDs o)
    (withFirst_ o)).
(** [testdirectory/options.go:183-189] WithHost *)
Definition WithHost (host : string) : Option :=
  Some (λ o, mkOptions (withPort o) (TrimSpace host) (withLogger o) (withNoTLS o) (withMTLS o)
    (withDisablePanicRecovery o) (withDefaults o) (withMembersOf o) (withTokenGroupSIDs o)
    (withFirst_ o)).
(** [testdirectory/options.go:192-198] withFirst *)
Definition withFirst : Option :=
  Some (λ o, mkOptions (withPort o) (withHost o) (withLogger o) (withNoTLS o) (withMTLS o)
    (withDisablePanicRecovery o) (withDefaults o) (withMembersOf o) (withTokenGroupSIDs o)
    true).
(** [testdirectory/options.go:202-208] WithMembersOf *)
Definition WithMembersOf (membersOf : list string) : Option :=
  Some (λ o, mkOptions (withPort o) (withHost o) (withLogger o) (withNoTLS o) (withMTLS o)
    (withDisablePanicRecovery o) (withDefaults o) membersOf (withTokenGroupSIDs o)
    (withFirst_ o)).
(** [testdirectory/options.go:212-218] WithTokenGroups *)
Definition WithTokenGroups (tokenGroupSID : list string) : Option :=
  Some (λ o, mkOptions (withPort o) (withHost o) (withLogger o) (withNoTLS o) (withMTLS o)
    (withDisablePanicRecovery o) (withDefaults o) (withMembersOf o) tokenGroupSID
    (withFirst_ o)).
(** [testdirectory/options.go:220-226] WithDisablePanicRecovery *)
Definition WithDisablePanicRecovery (disable : bool) : Option :=
  Some (λ o, mkOptions (withPort o) (withHost o) (withLogger o) (withNoTLS o) (withMTLS o)
    disable (withDefaults o) (withMembersOf o) (withTokenGroupSIDs o) (withFirst_ o)).

(** ** Fixtures *)

(** The DN of a user, in [testdirectory/testing.go:55-61] and [81-86]. *)
Definition userEntryDN (d : Defaults) (n : string) : string :=
  if decide (UPNDomain d ≠ "")
  then "userPrincipalName=" +:+ n +:+ "@" +:+ UPNDomain d +:+ "," +:+ UserDN d
  else UserAttr d +:+ "=" +:+ n +:+ "," +:+ UserDN d.

(** The DN of a group, in [testdirectory/testing.go:30] and [90]. *)
Definition groupEntryDN (d : Defaults) (n : string) : string :=
  GroupAttr d +:+ "=" +:+ n +:+ "," +:+ GroupDN d.

(** [testdirectory/testing.go:26-33] NewMemberOf *)
Definition NewMemberOf (groupNames : list string) (opt : list Option) : list string :=
  map (groupEntryDN (withDefaults (getOpts opt))) groupNames.

(** [testdirectory/testing.go:41-54] The attributes of a user. *)
Definition userAttrs (opts : options) (n : string) : gmap string (list string) :=
  let entryAttrs : gmap string (list string) :=
    {["name" := [n]; "email" := [n +:+ "@example.com"]; "password" := ["password"]]} in
  let entryAttrs :=
    if decide (0 < length (withMembersOf opts))%nat
    then <["memberOf" := withMembersOf opts]> entryAttrs else entryAttrs in
  if decide (0 < length (withTokenGroupSIDs opts))%nat
  then <["tokenGroups" := withTokenGroupSIDs opts]> entryAttrs else entryAttrs.

(** [testdirectory/testing.go:36-71] NewUsers *)
Definition NewUsers (userNames : list string) (opt : list Option) : store → list addr * store :=
  let opts := getOpts opt in
  new_entries
    (map (λ n, NewEntry (userEntryDN (withDefaults opts) n) (userAttrs opts n)) userNames).

(** [testdirectory/testing.go:74-93] NewGroup *)
Definition NewGroup (groupName : string) (memberNames : list string) (opt : list Option)
    : store → addr * store :=
  let opts := getOpts opt in
  let members := map (userEntryDN (withDefaults opts)) memberNames in
  new_entry (NewEntry (groupEntryDN (withDefaults opts) groupName) {["member" := members]}).

(** ** Lemmas on the store *)

Lemma new_attributes_spec attrs s ls s' :
  new_attributes attrs s = (ls, s') →
  entries s' = entries s ∧ attributes s ⊆ attributes s' ∧
  Forall2 (λ l a, attributes s' !! l = Some a) ls attrs ∧
  NoDup ls ∧ Forall (λ l, attributes s !! l = None) ls.
Proof.
  revert s ls. induction attrs as [|a attrs IH]; intros s ls H; simpl in H.
  { simplify_eq. repeat split; [done|constructor..]. }
  destruct (new_attributes attrs _) as [ls1 s1] eqn:E in H. simplify_eq.
  apply IH in E as (He & Hs & Hf & Hd & Hn). clear IH. simpl in *.
  set (l := fresh _) in *.
  assert (attributes s !! l = None) as Hl by (apply not_elem_of_dom, is_fresh).
  assert (attributes s' !! l = Some a) as Hl'
    by (eapply lookup_weaken; [|exact Hs]; apply lookup_insert_eq).
  repeat split.
  - done.
  - etrans; [by apply insert_subseteq|done].
  - by constructor.
  - constructor; [|done]. intros Hin.
    eapply Forall_forall in Hn; [|done]. simpl in Hn. by rewrite lookup_insert_eq in Hn.
  - constructor; [done|]. eapply Forall_impl; [done|]. simpl. intros x Hx.
    apply lookup_insert_None in Hx. tauto.
Qed.
