(* ===== verification/Directory.v ===== *)
(** The test directory: [testdirectory/directory.go].

    A handler runs on a [world]: the directory, the store of entries, the
    writer of the request's connection and the response it is preparing
    ([res]), which the deferred [w.Write(res)] sends, also when the handler
    panics.  Each handler is one step; DirThreads.v has the handlers as threads
    that interleave, and DirSequential.v relates the two.  Logging has no effect
    here. *)
From Stdlib Require Import Ascii.
From stdpp Require Import base decidable option list strings gmap.
From Stdlib Require Import ZArith Lia.
From S2P Require Import Prelude GoStd Ber BerModel Codes Options Control Packet Entry Attribute Parameters Message Response Request Mux Conn Server DirOptions.
Import GoStrings.

(** [testdirectory/directory.go:64-85] Directory; TLS configurations and the
    logger are addresses *)
Record Directory : Type := mkDirectory {
  dir_logger : option handle;
  dir_port : Z;
  dir_host : string;
  useTLS : bool;
  client : option handle;
  server : option handle;
  users : list addr;
  groups : list addr;
  tokenGroups : gmap string (list addr);
  allowAnonymousBind : bool;
  controls : list Control;
  userDN : string;
  groupDN : string;
}.

(** Directories that differ in one field. *)
Definition set_users (u : list addr) (d : Directory) : Directory :=
  mkDirectory (dir_logger d) (dir_port d) (dir_host d) (useTLS d) (client d) (server d)
    u (groups d) (tokenGroups d) (allowAnonymousBind d) (controls d) (userDN d) (groupDN d).
Definition set_groups (g : list addr) (d : Directory) : Directory :=
  mkDirectory (dir_logger d) (dir_port d) (dir_host d) (useTLS d) (client d) (server d)
    (users d) g (tokenGroups d) (allowAnonymousBind d) (controls d) (userDN d) (groupDN d).

(** [testdirectory/directory.go:837-849] Controls, SetControls *)
Definition Controls (d : Directory) : list Control := controls d.
Definition SetControls (c : list Control) (d : Directory) : Directory :=
  mkDirectory (dir_logger d) (dir_port d) (dir_host d) (useTLS d) (client d) (server d)
    (users d) (groups d) (tokenGroups d) (allowAnonymousBind d) c (userDN d) (groupDN d).
(** [testdirectory/directory.go:852-864] Users, SetUsers *)
Definition Directory_Users (d : Directory) : list addr := users d.
Definition SetUsers : list addr → Directory → Directory := set_users.
(** [testdirectory/directory.go:867-879] Groups, SetGroups *)
Definition Directory_Groups (d : Directory) : list addr := groups d.
Definition SetGroups : list addr → Directory → Directory := set_groups.
(** [testdirectory/directory.go:882-894] SetTokenGroups, TokenGroups *)
Definition SetTokenGroups (t : gmap string (list addr)) (d : Directory) : Directory :=
  mkDirectory (dir_logger d) (dir_port d) (dir_host d) (useTLS d) (client d) (server d)
    (users d) (groups d) t (allowAnonymousBind d) (controls d) (userDN d) (groupDN d).
Definition Directory_TokenGroups (d : Directory) : gmap string (list addr) := tokenGroups d.
(** [testdirectory/directory.go:897-909] AllowAnonymousBind, SetAllowAnonymousBind *)
Definition Directory_AllowAnonymousBind (d : Directory) : bool := allowAnonymousBind d.
Definition SetAllowAnonymousBind (b : bool) (d : Directory) : Directory :=
  mkDirectory (dir_logger d) (dir_port d) (dir_host d) (useTLS d) (client d) (server d)
    (users d) (groups d) (tokenGroups d) b (controls d) (userDN d) (groupDN d).
(** [testdirectory/directory.go:785-798] Port, Host *)
Definition Port (d : Directory) : Z := dir_port d.
Definition Host (d : Directory) : string := dir_host d.

(** ** Matching *)

(** [testdirectory/directory.go:719-723] One parenthesised element of a filter,
    without its stars, bars, parentheses and outer space. *)
Definition filterElement (element : string) : string :=
  let element := ReplaceAll element "*" "" in
  let element := Trim element ["|"; "("]%char in
  let element := Trim element ["("]%char in
  let element := Trim element [")"]%char in
  TrimSpace element.

(** [testdirectory/directory.go:713-729] match; the error is always nil *)
Definition match_ (filter attr : string) : bool :=
  existsb (λ element, Contains attr (filterElement element)) (Regexp.FindAllString filter).

(** ** Handlers *)

(** What a handler works on. *)
Record world (R : Type) : Type := mkWorld {
  dir : Directory;
  mem : store;
  out : bufioWriter;
  res : R;
}.
Arguments mkWorld {R} dir mem out res.
Arguments dir {R} w.
Arguments mem {R} w.
Arguments out {R} w.
Arguments res {R} w.

(** A computation of a handler: it changes the world and returns or panics. *)
Definition HM (R A : Type) : Type := world R → outcome A * world R.

#[export] Instance HM_ret R : MRet (HM R) := λ A a w, (Ok a, w).
#[export] Instance HM_bind R : MBind (HM R) := λ A B f m w,
  match m w with
  | (Ok a, w) => f a w
  | (Err e, w) => (Err e, w)
  | (Panic p, w) => (Panic p, w)
  end.

Section Handlers.
Context `{BerOps} {R : Type}.

Definition getDir : HM R Directory := λ w, (Ok (dir w), w).
Definition putDir (d : Directory) : HM R unit := λ w, (Ok (), mkWorld d (mem w) (out w) (res w)).
Definition changeRes (f : R → R) : HM R unit :=
  λ w, (Ok (), mkWorld (dir w) (mem w) (out w) (f (res w))).
Definition putMem (m : store) : HM R unit := λ w, (Ok (), mkWorld (dir w) m (out w) (res w)).
Definition changeMem {A} (f : store → A * store) : HM R A :=
  λ w, let '(a, m) := f (mem w) in (Ok a, mkWorld (dir w) m (out w) (res w)).

(** [*e] and [*a]: a nil pointer panics. *)
Definition deref (e : addr) : HM R entryObj :=
  λ w, (match entries (mem w) !! e with
        | Some o => Ok o
        | None => Panic "invalid memory address or nil pointer dereference"
        end, w).
Definition derefAttr (a : addr) : HM R EntryAttribute :=
  λ w, (match attributes (mem w) !! a with
        | Some o => Ok o
        | None => Panic "invalid memory address or nil pointer dereference"
        end, w).

(** [e.Attributes = attrs] and [*a = v] *)
Definition assignAttributes (e : addr) (attrs : list addr) : HM R unit :=
  o ← deref e;
  changeMem (λ s, ((), mkStore (<[e := mkEntryObj (obj_DN o) attrs]> (entries s)) (attributes s))).
Definition assignAttr (a : addr) (v : EntryAttribute) : HM R unit :=
  changeMem (λ s, ((), mkStore (entries s) (<[a := v]> (attributes s)))).

(** [w.Write(r)] *)
Definition write (r : Response) : HM R (option error) :=
  λ w, let '(err, o) := Write (Some r) (out w) in (Ok err, mkWorld (dir w) (mem w) o (res w)).

(** [entry.go:24-31] GetAttributeValues, on the attributes in the store *)
Fixpoint attributeValues (attribute : string) (attrs : list addr) : HM R (list string) :=
  match attrs with
  | [] => mret []
  | a :: attrs =>
      attr ← derefAttr a;
      if decide (Name attr = attribute) then mret (Values attr)
      else attributeValues attribute attrs
  end.

(** [testdirectory/directory.go:698-710] The loop of find. *)
Fixpoint findLoop (first : bool) (filter : string) (idx : nat) (l : list addr)
    (matchIndexes : list nat) (matched : list addr) : HM R (bool * list nat * list addr) :=
  match l with
  | [] =>
      mret (if decide (0 < length matched)%nat then (true, matchIndexes, matched)
            else (false, [], []))
  | e :: l =>
      o ← deref e;
      if match_ filter (obj_DN o) then
        let matched := matched ++ [e] in
        let matchIndexes := matchIndexes ++ [idx] in
        if first then mret (true, [idx], matched)
        else findLoop first filter (S idx) l matchIndexes matched
      else findLoop first filter (S idx) l matchIndexes matched
  end.

(** [testdirectory/directory.go:694-711] find *)
Definition find (filter : string) (l : list addr) (opt : list DirOptions.Option)
    : HM R (bool * list nat * list addr) :=
  findLoop (withFirst_ (getOpts opt)) filter 0 l [] [].

(** [testdirectory/directory.go:679-686] The loop over the members of a group; the
    boolean says that the function returned from within it. *)
Fixpoint membersLoop (first : bool) (filter : string) (e : addr) (members : list string)
    (matched : list addr) : bool * list addr :=
  match members with
  | [] => (false, matched)
  | m :: members =>
      if match_ filter ("member=" +:+ m) then
        let matched := matched ++ [e] in
        if first then (true, matched) else membersLoop first filter e members matched
      else membersLoop first filter e members matched
  end.

(** [testdirectory/directory.go:677-691] The loop over the groups. *)
Fixpoint findMembersLoop (first : bool) (filter : string) (l : list addr)
    (matched : list addr) : HM R (bool * list addr) :=
  match l with
  | [] => mret (if decide (0 < length matched)%nat then (true, matched) else (false, []))
  | e :: l =>
      o ← deref e;
      members ← attributeValues "member" (obj_Attributes o);
      let '(returned, matched) := membersLoop first filter e members matched in
      if returned : bool then mret (true, matched)
      else findMembersLoop first filter l matched
  end.

(** [testdirectory/directory.go:674-692] findMembers *)
Definition findMembers (filter : string) (opt : list DirOptions.Option)
    : HM R (bool * list addr) :=
  d ← getDir;
  findMembersLoop (withFirst_ (getOpts opt)) filter (groups d) [].

(** [testdirectory/directory.go:346-352] The matching users, appended. *)
Fixpoint appendMatching (filter : string) (l found : list addr) : HM R (list addr) :=
  match l with
  | [] => mret found
  | e :: l =>
      o ← deref e;
      appendMatching filter l (if match_ filter (obj_DN o) then found ++ [e] else found)
  end.

(** [testdirectory/directory.go:353-364] The matching groups that are not there yet,
    by pointer, appended; also [414-425] *)
Fixpoint appendNewMatching (filter : string) (l found : list addr) : HM R (list addr) :=
  match l with
  | [] => mret found
  | e :: l =>
      o ← deref e;
      appendNewMatching filter l
        (if match_ filter (obj_DN o) then
           if decide (e ∈ found) then found else found ++ [e]
         else found)
  end.

(** [testdirectory/directory.go:368-371] The response for an entry. *)
Definition entryResponse (r : Request) (e : addr) : HM R SearchResponseEntry :=
  o ← deref e;
  attrs ← mapM derefAttr (obj_Attributes o);
  mret (foldl (λ result attr,
          SearchResponseEntry_AddAttribute (Name attr) (Values attr) result)
        (NewSearchResponseEntry r (obj_DN o) []) attrs).

(** [testdirectory/directory.go:367-378] The entries are written one by one; false when
    a write failed.  Also [326-338], [428-439] and [479-490]. *)
Fixpoint writeEntries (r : Request) (l : list addr) : HM R bool :=
  match l with
  | [] => mret true
  | e :: l =>
      result ← entryResponse r e;
      err ← write (RSearchEntry result);
      match err with
      | Some _ => mret false
      | None => writeEntries r l
      end
  end.

(** [defer func() { _ = w.Write(res) }()] around the rest of a handler *)
Definition deferred (reply : R → Response) (body : HM R unit) : HM R unit :=
  λ w, let '(o, w) := body w in
       let '(_, w) := write (reply (res w)) w in
       (o, w).
End Handlers.

(** Run a handler with its response. *)
Definition responding {R} (r0 : R) (body : HM R unit) : HM unit unit :=
  λ w, let '(o, w) := body (mkWorld (dir w) (mem w) (out w) r0) in
       (o, mkWorld (dir w) (mem w) (out w) ()).

(** [if err != nil { log; return }] after a message getter. *)
Definition withMessage {R A} (m : outcome A) (k : A → HM R unit) : HM R unit :=
  match m with
  | Ok m => k m
  | Err _ => mret ()
  | Panic p => λ w, (Panic p, w)
  end.

(** The setters of a response's base, on each kind of response. *)
Definition onBind (f : baseResponse → baseResponse) (r : BindResponse) : BindResponse :=
  mkBindResponse (f (bind_base r)) (bind_controls r).
Definition onDone (f : baseResponse → baseResponse) (r : SearchResponseDone)
    : SearchResponseDone := mkSearchResponseDone (f (done_base r)) (done_controls r).
Definition onGeneral (f : baseResponse → baseResponse) (r : GeneralResponse)
    : GeneralResponse := mkGeneralResponse (f (general_base r)) (applicationCode r).
Definition onExtended (f : baseResponse → baseResponse) (r : ExtendedResponse)
    : ExtendedResponse := mkExtendedResponse (f (extended_base r)) (name r).

(** [fmt.Sprintf("(%s)", dn)] *)
Definition parenthesised (dn : string) : string := "(" +:+ dn +:+ ")".

(** [fmt.Sprintf("more than one match: %d entries", n)] *)
Definition moreThanOne (n : nat) : string :=
  "more than one match: " +:+ Strconv.FormatInt (Z.of_nat n) +:+ " entries".

Section Handle.
Context `{BerOps}.

(** [testdirectory/directory.go:219-234] The loop of handleBind over the users. *)
Fixpoint bindLoop (m : SimpleBindMessage) (d : Directory) (l : list addr)
    : HM BindResponse unit :=
  match l with
  | [] => mret ()
  | u :: l =>
      o ← deref u;
      if decide (obj_DN o = UserName m) then
        values ← attributeValues "password" (obj_Attributes o);
        match values with
        | v :: _ =>
            if decide (Password m = v) then
              changeRes (onBind (SetResultCode ResultSuccess));;
              if decide (controls d ≠ []) then changeRes (BindResponse_SetControls (controls d))
              else mret ()
            else bindLoop m d l
        | [] => bindLoop m d l
        end
      else bindLoop m d l
  end.

(** [testdirectory/directory.go:193-238] handleBind *)
Definition handleBind (r : Request) : HM unit unit :=
  responding (NewBindResponse r [WithResponseCode ResultInvalidCredentials])
    (deferred RBind (withMessage (GetSimpleBindMessage r) (λ m,
       if decide (AuthChoice m ≠ SimpleAuthChoice) then mret ()
       else
         d ← getDir;
         if decide (Password m = "" ∧ allowAnonymousBind d = true)
         then changeRes (onBind (SetResultCode ResultSuccess))
         else bindLoop m d (users d)))).

(** [testdirectory/directory.go:240-251] handleNotFound *)
Definition handleNotFound (r : Request) : HM unit unit :=
  write (RGeneral (NewResponse r [WithDiagnosticMessage "intentionally not handled"]));;
  mret ().

(** A double quote. *)
Definition quote : string := of_bytes [34].

(** [request.go:111-124] StartTLS: the error it returns; [handshake] is what the TLS
    handshake with a configuration returns *)
Definition StartTLS (handshake : handle → option error) (tlsconfig : option handle)
    : option error :=
  let op := "gldap.(Message).StartTLS" in
  match tlsconfig with
  | None => Some (invalid op "missing tls configuration")
  | Some c =>
      match handshake c with
      | Some e => Some (Wrapf op "handshake error" e)
      | None => None
      end
  end.

(** [testdirectory/directory.go:253-280] handleStartTLS; [Conn.startTLS] is what a
    successful StartTLS does to the connection, this handler's writer stays *)
Definition handleStartTLS (handshake : handle → option error) (r : Request) : HM unit unit :=
  let res := NewExtendedResponse r [WithResponseCode ResultSuccess] in
  let res := SetResponseName ExtendedOperationStartTLS res in
  err ← write (RExtended res);
  match err with
  | Some _ => mret ()
  | None =>
      d ← getDir;
      match StartTLS handshake (server d) with
      | Some err =>
          let res := onExtended (SetDiagnosticMessage
            ("StartTLS Handshake error : " +:+ quote +:+ ErrorText err +:+ quote)) res in
          let res := onExtended (SetResultCode ResultOperationsError) res in
          write (RExtended res);; mret ()
      | None => mret ()
      end
  end.

(** [if d.controls != nil { res.SetControls(d.controls...) }], then success *)
Definition searchDone (d : Directory) : HM SearchResponseDone unit :=
  (if decide (controls d ≠ []) then changeRes (SearchResponseDone_SetControls (controls d))
   else mret ());;
  changeRes (onDone (SetResultCode ResultSuccess)).

(** [testdirectory/directory.go:365-385] The entries found are written, then the end of
    the search; also [427-448] *)
Definition writeFound (r : Request) (d : Directory) (l : list addr)
    : HM SearchResponseDone unit :=
  if decide (0 < length l)%nat then
    ok ← writeEntries r l;
    if ok : bool then searchDone d else mret ()
  else mret ().

(** [testdirectory/directory.go:282-387] handleSearchGeneric *)
Definition handleSearchGeneric (r : Request) : HM unit unit :=
  responding (NewSearchDoneResponse r [WithResponseCode ResultNoSuchObject])
    (deferred RSearchDone (withMessage (GetSearchMessage r) (λ m,
       d ← getDir;
       let filter := if Contains (BaseDN m) (userDN d) then parenthesised (BaseDN m)
                     else Filter m in
       if bool_decide (0 < size (tokenGroups d))%nat && HasPrefix (BaseDN m) "<SID=" then
         let sid := TrimPrefix (BaseDN m) "<SID=" in
         let sid := TrimSuffix sid ">" in
         ok ← writeEntries r (default [] (tokenGroups d !! sid));
         if ok : bool then changeRes (onDone (SetResultCode ResultSuccess)) else mret ()
       else
         found ← appendMatching filter (users d) [];
         found ← appendNewMatching filter (groups d) found;
         writeFound r d found))).

(** [testdirectory/directory.go:389-450] handleSearchGroups *)
Definition handleSearchGroups (r : Request) : HM unit unit :=
  responding (NewSearchDoneResponse r [WithResponseCode ResultNoSuchObject])
    (deferred RSearchDone (withMessage (GetSearchMessage r) (λ m,
       '(_, found) ← findMembers (Filter m) [];
       d ← getDir;
       found ← appendNewMatching (Filter m) (groups d) found;
       writeFound r d found))).

(** [testdirectory/directory.go:452-502] handleSearchUsers *)
Definition handleSearchUsers (r : Request) : HM unit unit :=
  responding (NewSearchDoneResponse r [WithResponseCode ResultNoSuchObject])
    (deferred RSearchDone (withMessage (GetSearchMessage r) (λ m,
       d ← getDir;
       '(_, _, found) ← find (Filter m) (users d) [];
       if decide (length found = 0%nat) then mret ()
       else
         ok ← writeEntries r found;
         if ok : bool then searchDone d else mret ()))).

(** [testdirectory/directory.go:550-555] The last attribute of that name, and where it is. *)
Fixpoint findAttr (type_ : string) (i : nat) (attrs : list addr) (found : option (addr * nat))
    : HM GeneralResponse (option (addr * nat)) :=
  match attrs with
  | [] => mret found
  | a :: attrs =>
      attr ← derefAttr a;
      findAttr type_ (S i) attrs (if decide (Name attr = type_) then Some (a, i) else found)
  end.

(** [testdirectory/directory.go:547-577] One change.  Deleting shifts the later
    attributes down and cuts the last one; replacing only assigns a local variable. *)
Definition applyChange (e : addr) (chg : Change) : HM GeneralResponse unit :=
  o ← deref e;
  let type_ := PartialType (Modification chg) in
  let vals := PartialVals (Modification chg) in
  found ← findAttr type_ 0 (obj_Attributes o) None;
  if decide (Operation chg = AddAttribute) then
    match found with
    | Some (a, _) => attr ← derefAttr a; assignAttr a (AddValue vals attr)
    | None =>
        a ← changeMem (new_attribute (NewEntryAttribute type_ vals));
        assignAttributes e (obj_Attributes o ++ [a])
    end
  else if decide (Operation chg = DeleteAttribute) then
    match found with
    | Some (_, foundAt) =>
        assignAttributes e (take foundAt (obj_Attributes o) ++ drop (S foundAt) (obj_Attributes o))
    | None => mret ()
    end
  else mret ().

(** [testdirectory/directory.go:546-578] The changes, in order. *)
Fixpoint applyChanges (e : addr) (chgs : list Change) : HM GeneralResponse unit :=
  match chgs with
  | [] => mret ()
  | chg :: chgs => applyChange e chg;; applyChanges e chgs
  end.

(** [testdirectory/directory.go:531-579] handleModify once the entries are found *)
Definition modifyFound (m : ModifyMessage) (found : list addr) : HM GeneralResponse unit :=
  match found with
  | [] => mret ()
  | [e] =>
      o ← deref e;
      changeRes (onGeneral (SetMatchedDN (obj_DN o)));;
      applyChanges e (Changes m);;
      changeRes (onGeneral (SetResultCode ResultSuccess))
  | _ =>
      changeRes (onGeneral (SetResultCode ResultInappropriateMatching));;
      changeRes (onGeneral (SetDiagnosticMessage (moreThanOne (length found))))
  end.

(** [testdirectory/directory.go:504-581] handleModify *)
Definition handleModify (r : Request) : HM unit unit :=
  withMessage (NewModifyResponse r [WithResponseCode ResultNoSuchObject]) (λ res,
  responding res
    (deferred RGeneral (withMessage (GetModifyMessage r) (λ m,
       d ← getDir;
       '(_, _, found) ← find (parenthesised (ModifyDN m)) (users d) [];
       '(_, _, found) ←
         (if decide (length found = 0%nat) then find (ModifyDN m) (groups d) []
          else mret (true, [], found));
       modifyFound m found)))).

(** [testdirectory/directory.go:610-613] The map of the attributes of an add request. *)
Definition attributeMap (attrs : list Attribute) : gmap string (list string) :=
  foldl (λ m a, <[Type_ a := Vals a]> m) ∅ attrs.

(** [testdirectory/directory.go:583-620] handleAdd *)
Definition handleAdd (r : Request) : HM unit unit :=
  responding (NewResponse r [WithApplicationCode ApplicationAddResponse;
                             WithResponseCode ResultOperationsError])
    (deferred RGeneral (withMessage (GetAddMessage r) (λ m,
       d ← getDir;
       '(found, _, _) ← find (parenthesised (AddDN m)) (users d) [];
       if found : bool then
         changeRes (onGeneral (SetResultCode ResultEntryAlreadyExists));;
         changeRes (onGeneral (SetDiagnosticMessage ("entry exists for DN: " +:+ AddDN m)))
       else
         newEntry ← changeMem (new_entry (NewEntry (AddDN m) (attributeMap (AddAttributes m))));
         putDir (set_users (users d ++ [newEntry]) d);;
         changeRes (onGeneral (SetResultCode ResultSuccess))))).

(** [testdirectory/directory.go:622-672] handleDelete *)
Definition handleDelete (r : Request) : HM unit unit :=
  responding (NewResponse r [WithResponseCode ResultNoSuchObject;
                             WithApplicationCode ApplicationDelResponse])
    (deferred RGeneral (withMessage (GetDeleteMessage r) (λ m,
       let several (foundAt : list nat) :=
         changeRes (onGeneral (SetResultCode ResultInappropriateMatching));;
         changeRes (onGeneral (SetDiagnosticMessage (moreThanOne (length foundAt)))) in
       d ← getDir;
       '(_, foundAt, _) ← find (parenthesised (DeleteDN m)) (users d) [];
       match foundAt with
       | [i] =>
           putDir (set_users (take i (users d) ++ drop (S i) (users d)) d);;
           changeRes (onGeneral (SetResultCode ResultSuccess))
       | _ :: _ => several foundAt
       | [] =>
           '(_, foundAt, _) ← find (parenthesised (DeleteDN m)) (groups d) [];
           match foundAt with
           | [i] =>
               putDir (set_groups (take i (groups d) ++ drop (S i) (groups d)) d);;
               changeRes (onGeneral (SetResultCode ResultSuccess))
           | _ :: _ => several foundAt
           | [] => mret ()
           end
       end))).
End Handle.

(** ** Start *)

(** The handlers [Start] registers, as function values. *)
Inductive dirHandler : Type :=
| HNotFound | HBind | HStartTLS | HSearchUsers | HSearchGroups | HSearchGeneric
| HModify | HAdd | HDelete.
#[global] Instance dirHandler_eq_dec : EqDecision dirHandler.
Proof. solve_decision. Defined.

Definition handlerHandle (h : dirHandler) : handle :=
  match h with
  | HNotFound => 1 | HBind => 2 | HStartTLS => 3 | HSearchUsers => 4 | HSearchGroups => 5
  | HSearchGeneric => 6 | HModify => 7 | HAdd => 8 | HDelete => 9
  end.
Definition handlerAt (f : handle) : option dirHandler :=
  snd <$> list_find (λ h, handlerHandle h = f)
    [HNotFound; HBind; HStartTLS; HSearchUsers; HSearchGroups; HSearchGeneric; HModify; HAdd;
     HDelete].

(** The registrations of [Start], for a directory with these base DNs. *)
Definition dirRegistrations (d : Directory) : list registration :=
  let f h := Some (handlerHandle h) in
  [RegDefault (f HNotFound) [];
   RegBind (f HBind) [];
   RegExtended (f HStartTLS) ExtendedOperationStartTLS [];
   RegSearch (f HSearchUsers) [WithBaseDN (userDN d); WithLabel "Search - Users"];
   RegSearch (f HSearchGroups) [WithBaseDN (groupDN d); WithLabel "Search - Groups"];
   RegSearch (f HSearchGeneric) [WithLabel "Search - Generic"];
   RegModify (f HModify) [WithLabel "Modify"];
   RegAdd (f HAdd) [WithLabel "Add"];
   RegDelete (f HDelete) [WithLabel "Delete"]].

(** Registrations in a row, each of which must succeed. *)
Fixpoint registerAll (os : list registration) (m : Mux) : outcome Mux :=
  match os with
  | [] => Ok m
  | o :: os => m ← register o m; registerAll os m
  end.

(** [testdirectory/directory.go:93-157] Start up to the goroutine that runs the server:
    the directory, its server and the options it is run with.  The port [FreePort]
    finds, the TLS configurations [GetTLSConfig] makes and the logger [NewServer] would
    make are given. *)
Definition Start (freePort : Z) (serverTLS clientTLS serverLogger : handle)
    (opt : list DirOptions.Option) : outcome (Directory * Server * list Options.Option) :=
  let opts := getOpts opt in
  let defs := withDefaults opts in
  let port := if decide (withPort opts = 0) then freePort else withPort opts in
  let d := mkDirectory (DirOptions.withLogger opts) port (withHost opts) false None None
             (default [] (Users defs)) (default [] (Groups defs)) ∅
             (AllowAnonymousBind defs) [] (UserDN defs) (GroupDN defs) in
  let srvOpts :=
    (match DirOptions.withLogger opts with
     | Some l => [Options.WithLogger (Some l)]
     | None => []
     end) ++
    (if DirOptions.withDisablePanicRecovery opts then [Options.WithDisablePanicRecovery] else []) in
  s ← NewServer serverLogger srvOpts;
  match dir_logger d with
  | None => Panic "invalid memory address or nil pointer dereference"
  | Some _ =>
      mux ← NewMux [];
      mux ← registerAll (dirRegistrations d) mux;
      s ← Router (Some mux) s;
      let d := mkDirectory (dir_logger d) (dir_port d) (dir_host d) (negb (withNoTLS opts))
                 (Some clientTLS) (Some serverTLS) (users d) (groups d) (tokenGroups d)
                 (allowAnonymousBind d) (controls d) (userDN d) (groupDN d) in
      let connOpts := if withNoTLS opts then [] else [WithTLSConfig (server d)] in
      Ok (d, s, connOpts)
  end.

(** What the server does with a request to a directory: the mux of [Start] picks the
    handler, which runs. *)
Definition dirHandle `{BerOps} (handshake : handle → option error) (h : dirHandler)
    (r : Request) : HM unit unit :=
  match h with
  | HNotFound => handleNotFound r
  | HBind => handleBind r
  | HStartTLS => handleStartTLS handshake r
  | HSearchUsers => handleSearchUsers r
  | HSearchGroups => handleSearchGroups r
  | HSearchGeneric => handleSearchGeneric r
  | HModify => handleModify r
  | HAdd => handleAdd r
  | HDelete => handleDelete r
  end.

Definition dirServe `{BerOps} `{Folding} (handshake : handle → option error) (m : Mux)
    (r : Request) : HM unit unit :=
  λ w, match serve m (Some r) with
       | Ok (CallHandler f) =>
           match handlerAt f with
           | Some h => dirHandle handshake h r w
           | None => (Ok (), w)
           end
       | Ok (WriteResponse res) => (write res;; mret ()) w
       | Ok LogOnly => (Ok (), w)
       | Err e => (Err e, w)
       | Panic p => (Panic p, w)
       end.
