(* ===== verification/DirectorySpec.v ===== *)
(** What the test directory promises: its handlers against a specification on
    the values of its entries. *)
From Stdlib Require Import Ascii.
From stdpp Require Import base decidable option list strings gmap.
From Stdlib Require Import ZArith Lia.
From S2P Require Import Prelude GoStd Ber BerModel Codes Options Control Packet Entry Attribute Parameters Message Response ResponseWire Request Mux Conn Server DirOptions Directory.
Import GoStrings.

(** ** The store *)

(** Every attribute of an entry is there. *)
Definition store_ok (s : store) : Prop :=
  ∀ l o, entries s !! l = Some o → Forall (λ a, is_Some (attributes s !! a)) (obj_Attributes o).

(** No attribute is in two entries, or twice in one. *)
Definition unshared (s : store) : Prop :=
  (∀ l o, entries s !! l = Some o → NoDup (obj_Attributes o)) ∧
  (∀ l1 l2 o1 o2 a, entries s !! l1 = Some o1 → entries s !! l2 = Some o2 →
     a ∈ obj_Attributes o1 → a ∈ obj_Attributes o2 → l1 = l2).

(** A pointer that is not nil. *)
Definition live (s : store) (l : addr) : Prop := is_Some (entries s !! l).

(** The entry at an address. *)
Definition view (s : store) (l : addr) : Entry := default (mkEntry "" []) (read_entry s l).

(** The invariant of a directory: no pointer it follows is nil. *)
Record dir_ok (d : Directory) (s : store) : Prop := mkDirOk {
  ok_store : store_ok s;
  ok_users : Forall (live s) (users d);
  ok_groups : Forall (live s) (groups d);
  ok_tokenGroups : ∀ sid l, tokenGroups d !! sid = Some l → Forall (live s) l;
}.

Lemma mapM_lookup (m : gmap addr EntryAttribute) ls :
  Forall (λ a, is_Some (m !! a)) ls → ∃ attrs, mapM (λ a, m !! a) ls = Some attrs.
Proof.
  intros Hf. apply mapM_is_Some_2. eapply Forall_impl; [done|]. done.
Qed.

(** A live entry reads. *)
Lemma read_live s l :
  store_ok s → live s l →
  ∃ o attrs, entries s !! l = Some o ∧
    mapM (λ a, attributes s !! a) (obj_Attributes o) = Some attrs ∧
    view s l = mkEntry (obj_DN o) attrs ∧ read_entry s l = Some (view s l).
Proof.
  intros Hs [o Ho]. destruct (mapM_lookup _ _ (Hs l o Ho)) as [attrs Ha].
  exists o, attrs. unfold view, read_entry. rewrite Ho. simpl. rewrite Ha. done.
Qed.

(** Reading an entry only looks at the entry and at its attributes. *)
Lemma read_entry_frame s s' l o :
  entries s !! l = Some o → entries s' !! l = Some o →
  (∀ a, a ∈ obj_Attributes o → attributes s' !! a = attributes s !! a) →
  read_entry s' l = read_entry s l.
Proof.
  intros H1 H2 Ha. unfold read_entry. rewrite H1, H2. simpl. f_equal.
  apply Forall_mapM_ext. apply Forall_forall. auto.
Qed.

(** What a new entry does to the store. *)
Lemma new_entry_spec e s l s' :
  new_entry e s = (l, s') →
  entries s !! l = None ∧ read_entry s' l = Some e ∧ live s' l ∧
  (∀ l', live s l' → live s' l') ∧
  (store_ok s → store_ok s' ∧ ∀ l', live s l' → view s' l' = view s l') ∧
  (store_ok s → unshared s → unshared s').
Proof.
  unfold new_entry. destruct (new_attributes (Attributes e) s) as [ls s1] eqn:E.
  apply new_attributes_spec in E as (He & Hs & Hf & Hd & Hn). intros [= <- <-].
  rewrite !He. set (l := fresh _) in *.
  assert (entries s !! l = None) as Hl by (apply not_elem_of_dom, is_fresh).
  assert (∀ a o l', store_ok s → entries s !! l' = Some o → a ∈ obj_Attributes o →
    attributes s1 !! a = attributes s !! a ∧ a ∉ ls) as Hold.
  { intros a o l' Hok Ho Ha. pose proof (Hok _ _ Ho) as Hok'. rewrite Forall_forall in Hok'.
    destruct (Hok' _ Ha) as [v Hv]. split; [rewrite Hv; by eapply lookup_weaken|].
    intros Hin. rewrite Forall_forall in Hn. specialize (Hn _ Hin). simpl in Hn. congruence. }
  split; [done|]. split; [|split; [|split; [|split]]].
  - unfold read_entry. simpl. rewrite lookup_insert_eq. simpl.
    assert (mapM (λ a, attributes s1 !! a) ls = Some (Attributes e)) as ->.
    { by apply mapM_Some. } simpl. by destruct e.
  - exists (mkEntryObj (DN e) ls). apply lookup_insert_eq.
  - intros l' [o Ho]. exists o. simpl. rewrite lookup_insert_ne; [done|]. congruence.
  - intros Hok. split.
    + intros l' o Ho. simpl in Ho. apply lookup_insert_Some in Ho as [[<- <-]|[Hne Ho]]; simpl.
      * apply Forall_forall. intros a Ha.
        apply list_elem_of_lookup in Ha as [i Hi].
        destruct (Forall2_lookup_l _ _ _ _ _ Hf Hi) as (v & _ & Hv). by eexists.
      * eapply Forall_impl; [exact (Hok _ _ Ho)|]. simpl. intros a [v Hv]. exists v.
        by eapply lookup_weaken.
    + intros l' [o Ho]. unfold view. f_equal.
      apply (read_entry_frame _ _ _ o); [done|simpl; rewrite lookup_insert_ne by congruence; done|].
      intros a Ha. by eapply Hold.
  - intros Hok [U1 U2]. split; simpl.
    + intros l' o [[<- <-]|[_ Ho]]%lookup_insert_Some; [done|by eapply U1].
    + intros l1 l2 o1 o2 a [[<- <-]|[_ H1]]%lookup_insert_Some
        [[<- <-]|[_ H2]]%lookup_insert_Some A1 A2; simpl in *; try done.
      * by destruct (Hold _ _ _ Hok H2 A2).
      * by destruct (Hold _ _ _ Hok H1 A1).
      * by eapply U2.
Qed.

(** ** Reading *)

(** The entries of a list whose DN matches, and where they are. *)
Definition hits (s : store) (f : string) (l : list addr) : list addr :=
  filter (λ e, Is_true (match_ f (DN (view s e)))) l.
Fixpoint positions (s : store) (f : string) (idx : nat) (l : list addr) : list nat :=
  match l with
  | [] => []
  | e :: l =>
      if match_ f (DN (view s e)) then idx :: positions s f (S idx) l
      else positions s f (S idx) l
  end.

(** The groups found by their members: once per matching member. *)
Definition member_hits (s : store) (f : string) (l : list addr) : list addr :=
  concat (map (λ e, map (λ _, e)
    (filter (λ m, Is_true (match_ f ("member=" +:+ m))) (GetAttributeValues (view s e) "member"))) l).

(** The matching entries of [l] that are not in [found], each once, after [found]. *)
Definition add_hits (s : store) (f : string) (l found : list addr) : list addr :=
  foldl (λ acc e, if decide (e ∈ acc) then acc else acc ++ [e]) found (hits s f l).

Lemma bind_run {R A B} (m : HM R A) (f : A → HM R B) w a w' :
  m w = (Ok a, w') → (m ≫= f) w = f a w'.
Proof. intros Hm. unfold mbind, HM_bind. by rewrite Hm. Qed.

Lemma changeMem_run {R A} (f : store → A * store) (w : world R) a s :
  f (mem w) = (a, s) → changeMem f w = (Ok a, mkWorld (dir w) s (out w) (res w)).
Proof. intros Hf. unfold changeMem. by rewrite Hf. Qed.

Lemma hits_cons s f e l :
  hits s f (e :: l) = if match_ f (DN (view s e)) then e :: hits s f l else hits s f l.
Proof. unfold hits. rewrite filter_cons. by destruct (match_ _ _). Qed.

Lemma length_positions s f idx l : length (positions s f idx l) = length (hits s f l).
Proof.
  revert idx. induction l as [|e l IH]; intros idx; [done|].
  rewrite hits_cons. simpl. destruct (match_ _ _); simpl; auto.
Qed.

Section reading.
Context {R : Type} (w : world R).
Hypothesis Hs : store_ok (mem w).

Lemma deref_live e :
  live (mem w) e →
  ∃ o, deref e w = (Ok o, w) ∧ entries (mem w) !! e = Some o ∧ obj_DN o = DN (view (mem w) e).
Proof.
  intros He. destruct (read_live _ _ Hs He) as (o & attrs & Ho & _ & -> & _).
  exists o. unfold deref. by rewrite Ho.
Qed.

Lemma attributeValues_read name ls attrs dn :
  mapM (λ a, attributes (mem w) !! a) ls = Some attrs →
  attributeValues name ls w = (Ok (GetAttributeValues (mkEntry dn attrs) name), w).
Proof.
  revert attrs. induction ls as [|a ls IH]; intros attrs Hm; simpl in Hm.
  { injection Hm as <-. done. }
  destruct (attributes (mem w) !! a) as [v|] eqn:Ev; simplify_eq/=.
  destruct (mapM _ ls) as [vs|] eqn:Evs; simplify_eq/=.
  erewrite bind_run by (unfold derefAttr; rewrite Ev; done).
  injection Hm as <-.
  unfold GetAttributeValues. simpl. case_decide; [done|].
  rewrite (IH vs) by done. unfold GetAttributeValues. simpl.
  by destruct (list_find _ vs) as [[??]|].
Qed.

Lemma attributeValues_live name e o :
  entries (mem w) !! e = Some o →
  attributeValues name (obj_Attributes o) w =
    (Ok (GetAttributeValues (view (mem w) e) name), w).
Proof.
  intros Ho. destruct (read_live _ e Hs) as (o' & attrs & Ho' & Hm & -> & _); [by eexists|].
  simplify_eq. by apply attributeValues_read.
Qed.

Lemma mapM_derefAttr ls attrs :
  mapM (λ a, attributes (mem w) !! a) ls = Some attrs →
  mapM (M := HM R) derefAttr ls w = (Ok attrs, w).
Proof.
  revert attrs. induction ls as [|a ls IH]; intros attrs Hm; simpl in *; [by injection Hm as <-|].
  destruct (attributes (mem w) !! a) as [v|] eqn:Ev; simplify_eq/=.
  destruct (mapM _ ls) as [vs|] eqn:Evs; simplify_eq/=. injection Hm as <-.
  erewrite bind_run by (unfold derefAttr; rewrite Ev; done).
  erewrite bind_run by by apply IH. done.
Qed.

Lemma findLoop_spec f l idx ids ms :
  Forall (live (mem w)) l → length ids = length ms →
  findLoop false f idx l ids ms w =
    (Ok (bool_decide (0 < length (ms ++ hits (mem w) f l))%nat,
         ids ++ positions (mem w) f idx l, ms ++ hits (mem w) f l), w).
Proof.
  intros Hl. revert idx ids ms. induction Hl as [|e l He _ IH]; intros idx ids ms Hlen.
  - simpl. rewrite !app_nil_r. case_decide as Hd.
    + by rewrite bool_decide_eq_true_2.
    + rewrite bool_decide_eq_false_2 by done. destruct ms, ids; simpl in *; try lia. done.
  - cbn [findLoop]. destruct (deref_live e He) as (o & Hd & _ & Hdn).
    rewrite (bind_run _ _ _ _ _ Hd), hits_cons. cbn [positions]. rewrite Hdn.
    destruct (match_ _ _).
    + rewrite IH by (rewrite !length_app; simpl; lia). by rewrite <-!app_assoc.
    + by apply IH.
Qed.

(** [find] finds exactly the matching entries and where they are. *)
Lemma find_spec f l :
  Forall (live (mem w)) l →
  find f l [] w =
    (Ok (bool_decide (0 < length (hits (mem w) f l))%nat, positions (mem w) f 0 l,
         hits (mem w) f l), w).
Proof. intros Hl. unfold find. by rewrite findLoop_spec. Qed.

Lemma membersLoop_spec f e ms acc :
  membersLoop false f e ms acc =
    (false, acc ++ map (λ _, e) (filter (λ m, Is_true (match_ f ("member=" +:+ m))) ms)).
Proof.
  revert acc. induction ms as [|m ms IH]; intros acc; simpl; [by rewrite app_nil_r|].
  rewrite filter_cons. destruct (match_ f ("member=" +:+ m)); simpl.
  - rewrite IH, <-app_assoc. done.
  - apply IH.
Qed.

Lemma findMembersLoop_spec f l acc :
  Forall (live (mem w)) l →
  findMembersLoop false f l acc w =
    (Ok (bool_decide (0 < length (acc ++ member_hits (mem w) f l))%nat,
         acc ++ member_hits (mem w) f l), w).
Proof.
  intros Hl. revert acc. induction Hl as [|e l He _ IH]; intros acc.
  - unfold member_hits. simpl. rewrite !app_nil_r. case_decide as Hd.
    + by rewrite bool_decide_eq_true_2.
    + rewrite bool_decide_eq_false_2 by done. destruct acc; simpl in *; [done|lia].
  - cbn [findMembersLoop]. destruct (deref_live e He) as (o & Hd & Ho & _).
    rewrite (bind_run _ _ _ _ _ Hd), (bind_run _ _ _ _ _ (attributeValues_live "member" _ _ Ho)).
    rewrite membersLoop_spec, IH. unfold member_hits. cbn [map concat]. by rewrite <-!app_assoc.
Qed.

Lemma appendMatching_spec f l acc :
  Forall (live (mem w)) l → appendMatching f l acc w = (Ok (acc ++ hits (mem w) f l), w).
Proof.
  intros Hl. revert acc. induction Hl as [|e l He _ IH]; intros acc.
  - simpl. by rewrite app_nil_r.
  - cbn [appendMatching]. destruct (deref_live e He) as (o & Hd & _ & Hdn).
    rewrite (bind_run _ _ _ _ _ Hd), IH, hits_cons, Hdn.
    destruct (match_ _ _); [by rewrite <-app_assoc|done].
Qed.

Lemma appendNewMatching_spec f l acc :
  Forall (live (mem w)) l → appendNewMatching f l acc w = (Ok (add_hits (mem w) f l acc), w).
Proof.
  intros Hl. revert acc. induction Hl as [|e l He _ IH]; intros acc; [done|].
  cbn [appendNewMatching]. destruct (deref_live e He) as (o & Hd & _ & Hdn).
  rewrite (bind_run _ _ _ _ _ Hd), IH, Hdn. unfold add_hits. rewrite hits_cons.
  by destruct (match_ _ _).
Qed.
End reading.

(** ** Answers *)

(** The response for an entry. *)
Definition entry_answer (r : Request) (e : Entry) : Response :=
  RSearchEntry (mkSearchResponseEntry (emptyBase r)
    (mkEntry (DN e) (map (λ a, NewEntryAttribute (Name a) (Values a)) (Attributes e)))).

(** The end of a search. *)
Definition done_answer (r : Request) (code : Z) (c : list Control) : Response :=
  RSearchDone (mkSearchResponseDone (mkBaseResponse (GetID (message r)) code "" "") c).

(** What a search that found these entries answers. *)
Definition found_answer (r : Request) (d : Directory) (s : store) (found : list addr)
    : list Response :=
  match found with
  | [] => [done_answer r ResultNoSuchObject []]
  | _ => map (λ l, entry_answer r (view s l)) found ++ [done_answer r ResultSuccess (controls d)]
  end.

(** A directory with an idle connection on which [sent] went out. *)
Definition at_rest {R} (d : Directory) (s : store) (sent : string) (x : R) : world R :=
  mkWorld d s (idle_writer sent) x.

Lemma bind_getDir {R B} (f : Directory → HM R B) d s sent x :
  (getDir ≫= f) (at_rest d s sent x) = f d (at_rest d s sent x).
Proof. done. Qed.

Lemma mem_at_rest {R} d s sent (x : R) : mem (at_rest d s sent x) = s.
Proof. done. Qed.

Section answers.
Context `{BerOps}.

Lemma write_at_rest {R} res d s sent (x : R) :
  write res (at_rest d s sent x) = (Ok None, at_rest d s (sent +:+ stream [res]) x).
Proof. unfold write. simpl. rewrite Write_idle. simpl. by rewrite app_nil_r_str. Qed.

Lemma deferred_at_rest {R} (reply : R → Response) body w o d s sent x :
  body w = (o, at_rest d s sent x) →
  deferred reply body w = (o, at_rest d s (sent +:+ stream [reply x]) x).
Proof. intros Hb. unfold deferred. rewrite Hb. simpl res. by rewrite write_at_rest. Qed.

Lemma responding_at_rest {R} (r0 : R) reply body o d s sent d' s' sent' x :
  body (at_rest d s sent r0) = (o, at_rest d' s' sent' x) →
  responding r0 (deferred reply body) (at_rest d s sent ()) =
    (o, at_rest d' s' (sent' +:+ stream [reply x]) ()).
Proof.
  intros Hb. unfold responding. simpl.
  change (mkWorld d s (idle_writer sent) r0) with (at_rest d s sent r0).
  by rewrite (deferred_at_rest _ _ _ _ _ _ _ _ Hb).
Qed.

Lemma foldl_AddAttribute attrs b e :
  foldl (λ result attr, SearchResponseEntry_AddAttribute (Name attr) (Values attr) result)
    (mkSearchResponseEntry b e) attrs =
  mkSearchResponseEntry b
    (mkEntry (DN e)
       (Attributes e ++ map (λ a, NewEntryAttribute (Name a) (Values a)) attrs)).
Proof.
  revert e. induction attrs as [|a attrs IH]; intros e; simpl.
  - rewrite app_nil_r. by destruct e.
  - unfold SearchResponseEntry_AddAttribute at 2. simpl. rewrite IH. simpl. by rewrite <-app_assoc.
Qed.

Lemma entryResponse_run {R} r e (w : world R) :
  store_ok (mem w) → live (mem w) e →
  ∃ res, entryResponse r e w = (Ok res, w) ∧ RSearchEntry res = entry_answer r (view (mem w) e).
Proof.
  intros Hs He. destruct (read_live _ _ Hs He) as (o & attrs & Ho & Hm & Hv & _).
  eexists. split.
  - unfold entryResponse. erewrite bind_run by (unfold deref; rewrite Ho; done).
    erewrite bind_run by by apply mapM_derefAttr. reflexivity.
  - unfold NewSearchResponseEntry, NewSearchResponseEntryFrom. simpl.
    rewrite foldl_AddAttribute, Hv. done.
Qed.

Lemma writeEntries_run {R} r l d s sent (x : R) :
  store_ok s → Forall (live s) l →
  writeEntries r l (at_rest d s sent x) =
    (Ok true, at_rest d s (sent +:+ stream (map (λ l, entry_answer r (view s l)) l)) x).
Proof.
  intros Hs Hl. revert sent. induction Hl as [|e l He _ IH]; intros sent; simpl.
  { by rewrite app_nil_r_str. }
  destruct (entryResponse_run r e (at_rest d s sent x) Hs He) as (res & Hr & Ha).
  rewrite (bind_run _ _ _ _ _ Hr), (bind_run _ _ _ _ _ (write_at_rest _ _ _ _ _)).
  rewrite IH, Ha, app_assoc_str. simpl. by rewrite app_nil_r_str.
Qed.

Lemma searchDone_run d d' s sent x :
  done_controls x = [] →
  searchDone d (at_rest d' s sent x) =
    (Ok (), at_rest d' s sent
              (mkSearchResponseDone (SetResultCode ResultSuccess (done_base x)) (controls d))).
Proof.
  destruct x as [b c]. simpl. intros ->.
  unfold searchDone, mbind, HM_bind. simpl. case_decide as Hc; simpl; [done|].
  by destruct (controls d).
Qed.

Definition noSuchObject (r : Request) : SearchResponseDone :=
  NewSearchDoneResponse r [WithResponseCode ResultNoSuchObject].

(** A handler whose search found these entries. *)
Lemma search_found r d s sent found (body : HM SearchResponseDone unit) :
  store_ok s → Forall (live s) found →
  body (at_rest d s sent (noSuchObject r)) = writeFound r d found (at_rest d s sent (noSuchObject r)) →
  responding (noSuchObject r) (deferred RSearchDone body) (at_rest d s sent ()) =
    (Ok (), at_rest d s (sent +:+ stream (found_answer r d s found)) ()).
Proof.
  intros Hs Hl Hb. unfold writeFound in Hb. case_decide as Hlen.
  - rewrite (bind_run _ _ _ _ _ (writeEntries_run r found d s sent _ Hs Hl)) in Hb.
    rewrite searchDone_run in Hb by done. rewrite (responding_at_rest _ _ _ _ _ _ _ _ _ _ _ Hb).
    destruct found; [simpl in Hlen; lia|]. unfold found_answer. rewrite stream_app, app_assoc_str.
    done.
  - rewrite (responding_at_rest _ _ _ _ _ _ _ _ _ _ _ Hb).
    by destruct found; [|simpl in Hlen; lia].
Qed.

Lemma live_hits s f l : Forall (live s) l → Forall (live s) (hits s f l).
Proof. rewrite !Forall_forall. intros Hl e [_ He]%list_elem_of_filter. auto. Qed.

Lemma live_member_hits s f l : Forall (live s) l → Forall (live s) (member_hits s f l).
Proof.
  intros Hl. unfold member_hits. apply Forall_concat, Forall_map.
  eapply Forall_impl; [done|]. simpl. intros e He. apply Forall_map, Forall_forall. done.
Qed.

Lemma live_add_hits s f l found :
  Forall (live s) found → Forall (live s) l → Forall (live s) (add_hits s f l found).
Proof.
  intros Hf Hl%(live_hits s f). unfold add_hits. revert found Hf.
  induction Hl as [|e l' He _ IH]; intros found Hf; simpl; [done|].
  apply IH. case_decide; [done|]. apply Forall_app; auto.
Qed.
End answers.

(** ** Changes *)

(** Where the last attribute of a name is. *)
Fixpoint last_named (n : string) (attrs : list EntryAttribute) : option nat :=
  match attrs with
  | [] => None
  | a :: attrs =>
      match last_named n attrs with
      | Some i => Some (S i)
      | None => if decide (Name a = n) then Some 0%nat else None
      end
  end.

(** What a change does to an entry: values are added to the last attribute of
    the name or make a new one, that attribute is deleted, and any other
    operation leaves the entry alone. *)
Definition apply_change (e : Entry) (c : Change) : Entry :=
  let n := PartialType (Modification c) in
  let vals := PartialVals (Modification c) in
  let attrs := Attributes e in
  mkEntry (DN e)
    (if decide (Operation c = AddAttribute) then
       match last_named n attrs with
       | Some i => alter (AddValue vals) i attrs
       | None => attrs ++ [NewEntryAttribute n vals]
       end
     else if decide (Operation c = DeleteAttribute) then
       match last_named n attrs with
       | Some i => delete i attrs
       | None => attrs
       end
     else attrs).

(** What a change at [e] guarantees of the store. *)
Record changed (e : addr) (f : Entry → Entry) (s s' : store) : Prop := mkChanged {
  ch_ok : store_ok s';
  ch_live : ∀ l, live s l → live s' l;
  ch_DN : ∀ l, live s l → DN (view s' l) = DN (view s l);
  ch_view : unshared s → unshared s' ∧ view s' e = f (view s e) ∧
            ∀ l, live s l → l ≠ e → view s' l = view s l;
}.

Lemma last_named_lt n attrs i : last_named n attrs = Some i → (i < length attrs)%nat.
Proof.
  revert i. induction attrs as [|a attrs IH]; intros i; simpl; [done|].
  destruct (last_named n attrs) as [j|].
  - intros [= <-]. specialize (IH j eq_refl). lia.
  - case_decide; [intros [= <-]; lia|done].
Qed.

Lemma findAttr_spec (w : world GeneralResponse) n i ls attrs found :
  mapM (λ a, attributes (mem w) !! a) ls = Some attrs →
  findAttr n i ls found w =
    (Ok match last_named n attrs with
        | Some j => (λ a, (a, (i + j)%nat)) <$> ls !! j
        | None => found
        end, w).
Proof.
  revert i attrs found. induction ls as [|a ls IH]; intros i attrs found Hm; simpl in Hm.
  { by injection Hm as <-. }
  destruct (attributes (mem w) !! a) as [v|] eqn:Ev; simplify_eq/=.
  destruct (mapM _ ls) as [vs|] eqn:Evs; simplify_eq/=. injection Hm as <-.
  erewrite bind_run by (unfold derefAttr; rewrite Ev; done).
  rewrite (IH _ vs) by done. simpl. destruct (last_named n vs) as [j|] eqn:Ej; simpl.
  - by rewrite Nat.add_succ_r.
  - case_decide; [by rewrite Nat.add_0_r|done].
Qed.

(** The value of an entry, from its parts. *)
Lemma view_of s l o attrs :
  entries s !! l = Some o → mapM (λ a, attributes s !! a) (obj_Attributes o) = Some attrs →
  view s l = mkEntry (obj_DN o) attrs.
Proof. intros Ho Hm. unfold view, read_entry. rewrite Ho. simpl. by rewrite Hm. Qed.

Lemma DN_view s l o : store_ok s → entries s !! l = Some o → DN (view s l) = obj_DN o.
Proof.
  intros Hs Ho. destruct (mapM_lookup _ _ (Hs l o Ho)) as [attrs Ha].
  by rewrite (view_of _ _ _ _ Ho Ha).
Qed.

Lemma changed_refl e s : store_ok s → changed e (λ x, x) s s.
Proof. by constructor. Qed.

Lemma changed_trans e f g s1 s2 s3 :
  live s1 e → changed e f s1 s2 → changed e g s2 s3 → changed e (λ x, g (f x)) s1 s3.
Proof.
  intros He [A1 A2 A3 A4] [B1 B2 B3 B4]. constructor; [done|auto| |].
  - intros l Hl. rewrite B3 by auto. auto.
  - intros U. destruct (A4 U) as (U' & V & F). destruct (B4 U') as (U'' & V' & F').
    split; [done|]. split; [by rewrite V', V|]. intros l Hl Hne. rewrite F' by auto. auto.
Qed.

Lemma changed_ext e f g s s' : f (view s e) = g (view s e) → changed e f s s' → changed e g s s'.
Proof. intros Hfg [? ? ? A]. constructor; auto. intros U. rewrite <-Hfg. auto. Qed.

(** A new value for one attribute of the entry. *)
Lemma changed_attr s e o attrs i a v :
  store_ok s → entries s !! e = Some o → obj_Attributes o !! i = Some a →
  mapM (λ a, attributes s !! a) (obj_Attributes o) = Some attrs →
  changed e (λ x, mkEntry (DN x) (<[i := v]> attrs)) s
    (mkStore (entries s) (<[a := v]> (attributes s))).
Proof.
  intros Hs Ho Hi Hm.
  set (s' := mkStore (entries s) (<[a := v]> (attributes s))).
  assert (store_ok s') as Hs'.
  { intros l o' Ho'. eapply Forall_impl; [by apply (Hs l)|]. simpl. intros a' [v' Hv'].
    destruct (decide (a = a')) as [->|]; [rewrite lookup_insert_eq; by eexists|].
    rewrite lookup_insert_ne by done. by eexists. }
  constructor; [done|done| |].
  - intros l [o' Ho']. by rewrite (DN_view s l o'), (DN_view s' l o').
  - intros [U1 U2]. split; [done|]. split.
    + rewrite (view_of s e o attrs) by done. apply view_of; [done|].
      apply mapM_Some. apply mapM_Some in Hm. apply Forall2_same_length_lookup.
      pose proof (Forall2_length _ _ _ Hm) as Hlen. split; [by rewrite length_insert|].
      intros j a' v' Ha' Hv'. simpl. destruct (decide (i = j)) as [->|Hne].
      * rewrite list_lookup_insert_eq in Hv' by (rewrite <-Hlen; by eapply lookup_lt_Some).
        simplify_eq. apply lookup_insert_eq.
      * rewrite list_lookup_insert_ne in Hv' by done. rewrite lookup_insert_ne.
        -- by eapply Forall2_lookup_lr in Hm.
        -- intros ->. apply Hne. by eapply NoDup_lookup; [by eapply U1|..].
    + intros l [o' Ho'] Hne. unfold view. f_equal. apply (read_entry_frame _ _ _ o'); [done..|].
      intros a' Ha'. simpl. rewrite lookup_insert_ne; [done|]. intros ->. apply Hne.
      eapply U2; [done..|]. by eapply list_elem_of_lookup_2.
Qed.

(** A new list of attributes for the entry, among those it had and [extra] that
    no entry has. *)
Lemma changed_list s s1 e o attrs ls :
  store_ok s → entries s !! e = Some o → entries s1 = entries s →
  attributes s ⊆ attributes s1 → (unshared s → NoDup ls) →
  mapM (λ a, attributes s1 !! a) ls = Some attrs →
  (∀ a, a ∈ ls → a ∈ obj_Attributes o ∨ attributes s !! a = None) →
  changed e (λ x, mkEntry (DN x) attrs) s
    (mkStore (<[e := mkEntryObj (obj_DN o) ls]> (entries s1)) (attributes s1)).
Proof.
  intros Hs Ho He Hsub Hnd Hm Hfrom. rewrite He.
  set (s' := mkStore _ _).
  assert (∀ l o', entries s !! l = Some o' → ∀ a, a ∈ obj_Attributes o' →
    is_Some (attributes s !! a) ∧ attributes s1 !! a = attributes s !! a) as Hkeep.
  { intros l o' Ho' a Ha. pose proof (Hs l o' Ho') as Hf. rewrite Forall_forall in Hf.
    destruct (Hf a Ha) as [v Hv]. rewrite Hv. split; [by eexists|]. by eapply lookup_weaken. }
  assert (store_ok s') as Hs'.
  { intros l o' Ho'. simpl in Ho'. apply lookup_insert_Some in Ho' as [[<- <-]|[_ Ho']]; simpl.
    - apply mapM_Some in Hm. apply Forall_forall. intros a [i Hi]%list_elem_of_lookup.
      destruct (Forall2_lookup_l _ _ _ _ _ Hm Hi) as (v & _ & Hv). by eexists.
    - apply Forall_forall. intros a Ha. destruct (Hkeep _ _ Ho' a Ha) as [? ->]. done. }
  constructor; [done| | |].
  - intros l [o' Ho']. unfold live. simpl. destruct (decide (e = l)) as [->|].
    + rewrite lookup_insert_eq. by eexists.
    + rewrite lookup_insert_ne by done. by eexists.
  - intros l [o' Ho']. rewrite (DN_view s l o') by done. destruct (decide (e = l)) as [->|].
    + simplify_eq. rewrite (DN_view s' l (mkEntryObj (obj_DN o) ls)); [done|done|].
      simpl. apply lookup_insert_eq.
    + apply DN_view; [done|]. simpl. by rewrite lookup_insert_ne.
  - intros [U1 U2]. assert (NoDup ls) as Hls by by apply Hnd.
    split; [split|split].
    + intros l o' Ho'. simpl in Ho'.
      apply lookup_insert_Some in Ho' as [[<- <-]|[_ Ho']]; [done|by eapply U1].
    + intros l1 l2 o1 o2 a H1 H2 A1 A2. simpl in H1, H2.
      apply lookup_insert_Some in H1 as [[<- <-]|[Hn1 H1]], H2 as [[<- <-]|[Hn2 H2]];
        simpl in *; try done.
      * destruct (Hfrom a A1) as [Hin|Hn]; [by eapply U2|].
        destruct (Hkeep _ _ H2 a A2) as [[? ?] _]. congruence.
      * destruct (Hfrom a A2) as [Hin|Hn]; [by eapply U2|].
        destruct (Hkeep _ _ H1 a A1) as [[? ?] _]. congruence.
      * by eapply U2.
    + rewrite (DN_view s e o) by done.
      apply (view_of s' e (mkEntryObj (obj_DN o) ls)); [apply lookup_insert_eq|done].
    + intros l [o' Ho'] Hne. unfold view. f_equal. apply (read_entry_frame _ _ _ o'); [done| |].
      * simpl. by rewrite lookup_insert_ne.
      * intros a Ha. by eapply Hkeep.
Qed.

Lemma take_drop_delete {A} i (l : list A) : take i l ++ drop (S i) l = delete i l.
Proof. by rewrite delete_take_drop. Qed.

Lemma Forall2_delete {A B} (P : A → B → Prop) l k i :
  Forall2 P l k → Forall2 P (delete i l) (delete i k).
Proof.
  intros HP. rewrite !delete_take_drop. apply Forall2_app; [by apply Forall2_take|by apply Forall2_drop].
Qed.

Lemma NoDup_delete_at {A} i (l : list A) : NoDup l → NoDup (delete i l).
Proof. intros Hl. eapply sublist_NoDup; [done|]. apply sublist_delete. Qed.

(** The three ways in which a change touches the store. *)
Section change_store.
Context (s : store) (e : addr) (o : entryObj) (attrs : list EntryAttribute).
Hypothesis Hs : store_ok s.
Hypothesis Ho : entries s !! e = Some o.
Hypothesis Hm : mapM (λ a, attributes s !! a) (obj_Attributes o) = Some attrs.

Lemma attribute_at i :
  (i < length attrs)%nat →
  ∃ a v, obj_Attributes o !! i = Some a ∧ attrs !! i = Some v ∧ attributes s !! a = Some v.
Proof.
  intros [v Hvi]%lookup_lt_is_Some_2. pose proof Hm as Hf. apply mapM_Some in Hf.
  destruct (Forall2_lookup_r _ _ _ _ _ Hf Hvi) as (a & Hai & Hav). eauto.
Qed.

Lemma change_values i a v vals :
  obj_Attributes o !! i = Some a → attrs !! i = Some v →
  changed e (λ x, mkEntry (DN x) (alter (AddValue vals) i attrs)) s
    (mkStore (entries s) (<[a := AddValue vals v]> (attributes s))).
Proof.
  intros Hai Hvi. eapply changed_ext; [|by eapply changed_attr].
  simpl. f_equal. symmetry. apply list_eq. intros j. destruct (decide (i = j)) as [->|].
  - rewrite list_lookup_alter_eq, list_lookup_insert_eq, Hvi; [done|by eapply lookup_lt_Some].
  - by rewrite list_lookup_alter_ne, list_lookup_insert_ne.
Qed.

Lemma change_new v a s1 :
  new_attribute v s = (a, s1) →
  entries s1 = entries s ∧
  changed e (λ x, mkEntry (DN x) (attrs ++ [v])) s
    (mkStore (<[e := mkEntryObj (obj_DN o) (obj_Attributes o ++ [a])]> (entries s1))
       (attributes s1)).
Proof.
  intros Ea. pose proof (new_attributes_spec [v] s [a] s1) as Hn.
  cbn [new_attributes] in Hn. rewrite Ea in Hn.
  destruct (Hn eq_refl) as (He1 & Hsub & Hf & _ & Hnone). clear Hn. split; [done|].
  apply Forall2_cons in Hf as [Hf _]. apply Forall_cons in Hnone as [Hnone _].
  apply changed_list; [done..| | |].
  - intros [U1 _]. apply NoDup_app. split; [by eapply U1|]. split; [|apply NoDup_singleton].
    intros a' Ha' ->%list_elem_of_singleton. pose proof (Hs _ _ Ho) as Hf'.
    rewrite Forall_forall in Hf'. destruct (Hf' a Ha'). congruence.
  - apply mapM_Some. apply Forall2_app; [|by constructor]. apply mapM_Some in Hm.
    eapply Forall2_impl; [done|]. simpl. intros. by eapply lookup_weaken.
  - intros a' [?| ->%list_elem_of_singleton]%elem_of_app; auto.
Qed.

Lemma change_delete i :
  changed e (λ x, mkEntry (DN x) (delete i attrs)) s
    (mkStore (<[e := mkEntryObj (obj_DN o) (delete i (obj_Attributes o))]> (entries s))
       (attributes s)).
Proof.
  apply changed_list; [done..| | |].
  - intros [U1 _]. apply NoDup_delete_at. by eapply U1.
  - apply mapM_Some. apply mapM_Some in Hm. by apply Forall2_delete.
  - intros a' Ha'. left. eapply elem_of_sublist; [done|]. apply sublist_delete.
Qed.
End change_store.

(** One change of the code is one change of the specification. *)
Lemma applyChange_run e c d s sent x :
  store_ok s → live s e →
  ∃ s', applyChange e c (at_rest d s sent x) = (Ok (), at_rest d s' sent x) ∧
        changed e (λ v, apply_change v c) s s'.
Proof.
  intros Hs He. destruct (read_live _ _ Hs He) as (o & attrs & Ho & Hm & Hv & _).
  assert (DN (view s e) = obj_DN o) as Hdn by by rewrite Hv.
  assert (∀ s', changed e (λ x, mkEntry (DN x) (Attributes
    (apply_change (mkEntry (obj_DN o) attrs) c))) s s' → changed e (λ v, apply_change v c) s s')
    as Hch by (intros s'; apply changed_ext; by rewrite Hv).
  unfold applyChange. erewrite bind_run by (unfold deref; simpl; rewrite Ho; done).
  erewrite bind_run by by apply findAttr_spec.
  unfold apply_change in Hch at 1. cbn [Attributes] in Hch.
  case_decide as Ha; [|case_decide as Hd].
  - destruct (last_named _ attrs) as [i|] eqn:Ei.
    + apply last_named_lt in Ei. destruct (attribute_at s o attrs Hm i Ei) as (a & v & Hai & Hvi & Hav).
      rewrite Hai. simpl. erewrite bind_run by (unfold derefAttr; simpl; rewrite Hav; done).
      eexists. split; [reflexivity|]. by apply Hch, (change_values s e o).
    + destruct (new_attribute (NewEntryAttribute (PartialType (Modification c))
        (PartialVals (Modification c))) s) as [a s1] eqn:Ea.
      destruct (change_new s e o attrs Hs Ho Hm _ _ _ Ea) as [He1 C].
      erewrite bind_run by (eapply changeMem_run; exact Ea).
      unfold assignAttributes. erewrite bind_run by (unfold deref; simpl; rewrite He1, Ho; done).
      eexists. split; [reflexivity|]. by apply Hch.
  - destruct (last_named _ attrs) as [i|] eqn:Ei.
    + apply last_named_lt in Ei. destruct (attribute_at s o attrs Hm i Ei) as (a & v & Hai & _).
      rewrite Hai. simpl. unfold assignAttributes.
      erewrite bind_run by (unfold deref; simpl; rewrite Ho; done).
      eexists. split; [reflexivity|]. simpl. rewrite take_drop_delete. by apply Hch, change_delete.
    + exists s. split; [done|]. apply Hch. eapply changed_ext; [|by apply changed_refl]. by rewrite Hv.
  - exists s. split; [done|]. apply Hch. eapply changed_ext; [|by apply changed_refl]. by rewrite Hv.
Qed.

Lemma applyChanges_run e cs d s sent x :
  store_ok s → live s e →
  ∃ s', applyChanges e cs (at_rest d s sent x) = (Ok (), at_rest d s' sent x) ∧
        changed e (λ v, foldl apply_change v cs) s s'.
Proof.
  revert s. induction cs as [|c cs IH]; intros s Hs He.
  { exists s. split; [done|]. by apply changed_refl. }
  destruct (applyChange_run e c d s sent x Hs He) as (s1 & H1 & C1).
  destruct (IH s1) as (s2 & H2 & C2); [by apply C1..|].
  exists s2. split; [|by apply (changed_trans _ _ _ _ _ _ He C1 C2)].
  cbn [applyChanges]. by rewrite (bind_run _ _ _ _ _ H1).
Qed.
