(* ===== verification/DirectoryProps.v ===== *)
(** The handlers of the test directory, run on a connection that is up: what
    each of them answers and leaves behind, and the properties that follow. *)
From Stdlib Require Import Ascii.
From stdpp Require Import base decidable option list strings gmap.
From Stdlib Require Import ZArith Lia.
From S2P Require Import Prelude GoStd Ber BerModel Codes Options Control Packet Entry Attribute Parameters Message Response ResponseWire Request Mux Conn Server DirOptions Directory DirectorySpec.
Import GoStrings.

(** ** The specification of a bind *)

(** The user has the DN of the request and its first password is the one given. *)
Definition bind_user (s : store) (m : SimpleBindMessage) (u : addr) : bool :=
  bool_decide (DN (view s u) = UserName m ∧
               head (GetAttributeValues (view s u) "password") = Some (Password m)).

Definition bind_answer (r : Request) (d : Directory) (s : store) (m : SimpleBindMessage)
    : BindResponse :=
  let answer code c := mkBindResponse (mkBaseResponse (GetID (message r)) code "" "") c in
  if decide (AuthChoice m ≠ SimpleAuthChoice) then answer ResultInvalidCredentials []
  else if decide (Password m = "" ∧ allowAnonymousBind d = true) then answer ResultSuccess []
  else if existsb (bind_user s m) (users d) then answer ResultSuccess (controls d)
  else answer ResultInvalidCredentials [].

Section run.
Context `{BerOps}.

Lemma bindLoop_run d s sent m l (c0 : baseResponse) :
  store_ok s → Forall (live s) l →
  bindLoop m d l (at_rest d s sent (mkBindResponse c0 [])) =
    (Ok (), at_rest d s sent
       (if existsb (bind_user s m) l
        then mkBindResponse (SetResultCode ResultSuccess c0) (controls d)
        else mkBindResponse c0 [])).
Proof.
  intros Hs Hl. induction Hl as [|u l Hu _ IH]; [done|].
  cbn [bindLoop existsb]. set (w := at_rest _ _ _ _).
  destruct (deref_live w Hs u Hu) as (o & Hd & Ho & Hdn).
  change (mem w) with s in Hdn. rewrite (bind_run _ _ _ _ _ Hd). unfold bind_user at 1. rewrite <-Hdn.
  case_decide as Heq; [|by rewrite bool_decide_eq_false_2 by tauto].
  rewrite (bind_run _ _ _ _ _ (attributeValues_live w Hs "password" u o Ho)).
  change (mem w) with s.
  destruct (GetAttributeValues (view s u) "password") as [|v vs]; simpl.
  { rewrite bool_decide_eq_false_2 by (intros [_ ?]; done). done. }
  case_decide as Hp.
  - rewrite bool_decide_eq_true_2 by (by rewrite Hp). simpl.
    unfold mbind, HM_bind. simpl. case_decide as Hc; [done|]. simpl.
    by destruct (controls d).
  - rewrite bool_decide_eq_false_2 by (intros [_ [= ?]]; congruence). done.
Qed.

Lemma handleBind_run r d s sent m :
  dir_ok d s → message r = MSimpleBind m →
  handleBind r (at_rest d s sent ()) =
    (Ok (), at_rest d s (sent +:+ stream [RBind (bind_answer r d s m)]) ()).
Proof.
  intros Hd Hm. unfold handleBind. eapply responding_at_rest.
  unfold GetSimpleBindMessage. rewrite Hm. cbn [withMessage].
  unfold bind_answer. case_decide as Ha; [done|].
  rewrite bind_getDir.
  case_decide as Hp; [done|].
  unfold NewBindResponse. rewrite bindLoop_run by apply Hd.
  by destruct (existsb _ _).
Qed.

(** ** Searches *)

Lemma handleSearchUsers_run r d s sent m :
  dir_ok d s → message r = MSearch m →
  handleSearchUsers r (at_rest d s sent ()) =
    (Ok (), at_rest d s
       (sent +:+ stream (found_answer r d s (hits s (Filter m) (users d)))) ()).
Proof.
  intros Hd Hm. unfold handleSearchUsers. apply search_found; [apply Hd|apply live_hits, Hd|].
  unfold GetSearchMessage. rewrite Hm. cbn [withMessage]. fold (noSuchObject r).
  rewrite bind_getDir.
  erewrite bind_run by (apply find_spec; apply Hd).
  rewrite mem_at_rest. unfold writeFound.
  destruct (hits s (Filter m) (users d)) as [|e l]; [done|].
  rewrite decide_False by done. rewrite decide_True by (simpl; lia). done.
Qed.

Lemma handleSearchGroups_run r d s sent m :
  dir_ok d s → message r = MSearch m →
  handleSearchGroups r (at_rest d s sent ()) =
    (Ok (), at_rest d s
       (sent +:+ stream (found_answer r d s
          (add_hits s (Filter m) (groups d) (member_hits s (Filter m) (groups d))))) ()).
Proof.
  intros Hd Hm. pose proof (ok_groups _ _ Hd) as Hg. pose proof (ok_store _ _ Hd) as Hs.
  unfold handleSearchGroups. apply search_found; [done| |].
  { apply live_add_hits; [by apply live_member_hits|done]. }
  unfold GetSearchMessage. rewrite Hm. cbn [withMessage]. fold (noSuchObject r).
  unfold findMembers.
  rewrite (bind_run _ _ _ (bool_decide (0 < length (member_hits s (Filter m) (groups d)))%nat,
    member_hits s (Filter m) (groups d)) (at_rest d s sent (noSuchObject r))).
  2:{ rewrite bind_getDir. by rewrite findMembersLoop_spec. }
  rewrite bind_getDir.
  by erewrite bind_run by by apply appendNewMatching_spec.
Qed.

(** The filter of a generic search: the base DN when it is under the users. *)
Definition generic_filter (d : Directory) (m : SearchMessage) : string :=
  if Contains (BaseDN m) (userDN d) then parenthesised (BaseDN m) else Filter m.

(** The search is for the token groups of a SID. *)
Definition sid_search (d : Directory) (m : SearchMessage) : bool :=
  bool_decide (0 < size (tokenGroups d))%nat && HasPrefix (BaseDN m) "<SID=".

Definition sid_entries (d : Directory) (m : SearchMessage) : list addr :=
  default [] (tokenGroups d !! TrimSuffix (TrimPrefix (BaseDN m) "<SID=") ">").

Definition generic_answer (r : Request) (d : Directory) (s : store) (m : SearchMessage)
    : list Response :=
  if sid_search d m then
    map (λ l, entry_answer r (view s l)) (sid_entries d m) ++ [done_answer r ResultSuccess []]
  else
    found_answer r d s
      (add_hits s (generic_filter d m) (groups d) (hits s (generic_filter d m) (users d))).

Lemma handleSearchGeneric_run r d s sent m :
  dir_ok d s → message r = MSearch m →
  handleSearchGeneric r (at_rest d s sent ()) =
    (Ok (), at_rest d s (sent +:+ stream (generic_answer r d s m)) ()).
Proof.
  intros Hd Hm. pose proof (ok_groups _ _ Hd) as Hg. pose proof (ok_store _ _ Hd) as Hs.
  pose proof (ok_users _ _ Hd) as Hu.
  unfold handleSearchGeneric, GetSearchMessage, generic_answer. rewrite Hm. cbn [withMessage].
  destruct (sid_search d m) eqn:Esid.
  - rewrite stream_app, app_assoc_str. unfold done_answer. eapply responding_at_rest.
    rewrite bind_getDir. unfold sid_search in Esid. rewrite Esid.
    fold (sid_entries d m). erewrite bind_run.
    2:{ apply writeEntries_run; [done|]. unfold sid_entries.
        destruct (tokenGroups d !! _) as [l|] eqn:El; [by eapply Hd|constructor]. }
    done.
  - apply search_found; [done|by apply live_add_hits; [apply live_hits|]|].
    rewrite bind_getDir. unfold sid_search in Esid. rewrite Esid.
    fold (generic_filter d m).
    erewrite bind_run by by apply appendMatching_spec.
    by erewrite bind_run by by apply appendNewMatching_spec.
Qed.

(** ** Updates *)

Definition general_answer (r : Request) (app code : Z) (matched diag : string) : Response :=
  RGeneral (mkGeneralResponse (mkBaseResponse (GetID (message r)) code diag matched) app).

(** A [find] in the middle of a handler. *)
Lemma bind_find {R B} f l (k : bool * list nat * list addr → HM R B) d s sent x :
  store_ok s → Forall (live s) l →
  (find f l [] ≫= k) (at_rest d s sent x) =
    k (bool_decide (0 < length (hits s f l))%nat, positions s f 0 l, hits s f l)
      (at_rest d s sent x).
Proof. intros Hs Hl. by erewrite bind_run by by apply find_spec. Qed.

Lemma handleAdd_exists r d s sent m :
  dir_ok d s → message r = MAdd m → hits s (parenthesised (AddDN m)) (users d) ≠ [] →
  handleAdd r (at_rest d s sent ()) =
    (Ok (), at_rest d s (sent +:+ stream
       [general_answer r ApplicationAddResponse ResultEntryAlreadyExists "Unused"
          ("entry exists for DN: " +:+ AddDN m)]) ()).
Proof.
  intros Hd Hm Hh. unfold handleAdd, general_answer. eapply responding_at_rest.
  unfold GetAddMessage. rewrite Hm. cbn [withMessage].
  rewrite bind_getDir, bind_find by apply Hd.
  rewrite bool_decide_eq_true_2; [by rewrite <-Hm|].
  destruct (hits _ _ _); [done|simpl; lia].
Qed.

Lemma handleAdd_new r d s sent m l s' :
  dir_ok d s → message r = MAdd m → hits s (parenthesised (AddDN m)) (users d) = [] →
  new_entry (NewEntry (AddDN m) (attributeMap (AddAttributes m))) s = (l, s') →
  handleAdd r (at_rest d s sent ()) =
    (Ok (), at_rest (set_users (users d ++ [l]) d) s' (sent +:+ stream
       [general_answer r ApplicationAddResponse ResultSuccess "Unused" "Unused"]) ()).
Proof.
  intros Hd Hm Hh Hn. unfold handleAdd, general_answer. eapply responding_at_rest.
  unfold GetAddMessage. rewrite Hm. cbn [withMessage].
  rewrite bind_getDir, bind_find by apply Hd. rewrite Hh.
  rewrite bool_decide_eq_false_2 by (simpl; lia).
  rewrite (bind_run _ _ _ _ _ (changeMem_run _ (at_rest d s sent _) _ _ Hn)).
  by rewrite <-Hm.
Qed.

(** What a delete does to the directory, and its result code and diagnostic. *)
Definition delete_outcome (d : Directory) (s : store) (f : string) : Directory * Z * string :=
  match positions s f 0 (users d), positions s f 0 (groups d) with
  | [i], _ => (set_users (delete i (users d)) d, ResultSuccess, "Unused")
  | (_ :: _) as l, _ => (d, ResultInappropriateMatching, moreThanOne (length l))
  | [], [i] => (set_groups (delete i (groups d)) d, ResultSuccess, "Unused")
  | [], (_ :: _) as l => (d, ResultInappropriateMatching, moreThanOne (length l))
  | [], [] => (d, ResultNoSuchObject, "Unused")
  end.

Lemma handleDelete_run r d s sent m d' code diag :
  dir_ok d s → message r = MDelete m →
  delete_outcome d s (parenthesised (DeleteDN m)) = (d', code, diag) →
  handleDelete r (at_rest d s sent ()) =
    (Ok (), at_rest d' s
       (sent +:+ stream [general_answer r ApplicationDelResponse code "Unused" diag]) ()).
Proof.
  intros Hd Hm Ho. unfold handleDelete, general_answer. eapply responding_at_rest.
  unfold GetDeleteMessage. rewrite Hm. cbn [withMessage].
  rewrite bind_getDir, bind_find by apply Hd. unfold delete_outcome in Ho.
  destruct (positions s _ 0 (users d)) as [|i [|j l]]; simplify_eq.
  - rewrite bind_find by apply Hd.
    destruct (positions s _ 0 (groups d)) as [|i [|j l]]; simplify_eq; rewrite <-Hm.
    + done.
    + by rewrite <-take_drop_delete.
    + done.
  - rewrite <-Hm. by rewrite <-take_drop_delete.
  - by rewrite <-Hm.
Qed.

(** The entries a modify request is for. *)
Definition modify_targets (d : Directory) (s : store) (dn : string) : list addr :=
  match hits s (parenthesised dn) (users d) with
  | [] => hits s dn (groups d)
  | l => l
  end.

Lemma live_modify_targets d s dn : dir_ok d s → Forall (live s) (modify_targets d s dn).
Proof.
  intros Hd. unfold modify_targets.
  pose proof (live_hits s (parenthesised dn) _ (ok_users _ _ Hd)) as Hu.
  destruct (hits s (parenthesised dn) (users d)); [apply live_hits, Hd|done].
Qed.

Lemma handleModify_found r d s sent m o s' x :
  dir_ok d s → message r = MModify m →
  modifyFound m (modify_targets d s (ModifyDN m)) (at_rest d s sent
    (NewResponse r [WithApplicationCode ApplicationModifyResponse;
       WithResponseCode ResultNoSuchObject; WithDiagnosticMessage "Unused";
       WithMatchedDN "Unused"])) = (o, at_rest d s' sent x) →
  handleModify r (at_rest d s sent ()) = (o, at_rest d s' (sent +:+ stream [RGeneral x]) ()).
Proof.
  intros Hd Hm Hb. unfold handleModify. cbn [withMessage]. apply responding_at_rest.
  unfold GetModifyMessage. rewrite Hm. cbn [withMessage].
  rewrite bind_getDir, bind_find by apply Hd. unfold modify_targets in Hb.
  destruct (hits s (parenthesised (ModifyDN m)) (users d)) as [|e l].
  - rewrite decide_True by done. by rewrite bind_find by apply Hd.
  - rewrite decide_False by done. exact Hb.
Qed.

(** The result of a modify request: its code, matched DN and diagnostic message. *)
Definition modify_reply (s : store) (targets : list addr) : Z * string * string :=
  match targets with
  | [] => (ResultNoSuchObject, "Unused", "Unused")
  | [e] => (ResultSuccess, DN (view s e), "Unused")
  | l => (ResultInappropriateMatching, "Unused", moreThanOne (length l))
  end.

Lemma handleModify_exact r d s sent m :
  dir_ok d s → message r = MModify m →
  let ts := modify_targets d s (ModifyDN m) in
  let '(code, matched, diag) := modify_reply s ts in
  ∃ s',
    handleModify r (at_rest d s sent ()) =
      (Ok (), at_rest d s'
         (sent +:+ stream [general_answer r ApplicationModifyResponse code matched diag]) ()) ∧
    match ts with
    | [e] => live s e ∧ changed e (λ v, foldl apply_change v (Changes m)) s s'
    | _ => s' = s
    end.
Proof.
  intros Hd Hm ts.
  set (r0 := NewResponse r [WithApplicationCode ApplicationModifyResponse;
    WithResponseCode ResultNoSuchObject; WithDiagnosticMessage "Unused"; WithMatchedDN "Unused"]).
  assert (Forall (live s) ts) as Hts by by apply live_modify_targets.
  assert (∀ o s' x, modifyFound m ts (at_rest d s sent r0) = (o, at_rest d s' sent x) →
    handleModify r (at_rest d s sent ()) = (o, at_rest d s' (sent +:+ stream [RGeneral x]) ()))
    as Hrun by (intros; by eapply handleModify_found).
  destruct ts as [|e [|e2 l]]; simpl.
  - exists s. split; [apply Hrun; reflexivity|done].
  - apply Forall_cons in Hts as [He _]. pose proof (ok_store _ _ Hd) as Hs.
    destruct (deref_live (at_rest d s sent r0) Hs e He) as (o & Ho & _ & Hdn).
    set (r1 := onGeneral (SetMatchedDN (obj_DN o)) r0).
    destruct (applyChanges_run e (Changes m) d s sent r1 Hs He) as (s' & Hc & C).
    exists s'. split; [|done]. simpl in Hdn. rewrite <-Hdn. apply Hrun. unfold modifyFound.
    rewrite (bind_run _ _ _ _ _ Ho).
    rewrite (bind_run (changeRes _) _ _ () (at_rest d s sent r1)) by done.
    by rewrite (bind_run _ _ _ _ _ Hc).
  - exists s. split; [apply Hrun; reflexivity|done].
Qed.

Lemma handleModify_run r d s sent m :
  dir_ok d s → message r = MModify m →
  ∃ s' code matched diag,
    handleModify r (at_rest d s sent ()) =
      (Ok (), at_rest d s'
         (sent +:+ stream [general_answer r ApplicationModifyResponse code matched diag]) ()) ∧
    match modify_targets d s (ModifyDN m) with
    | [] => s' = s ∧ code = ResultNoSuchObject
    | [e] => code = ResultSuccess ∧ matched = DN (view s e) ∧ live s e ∧
             changed e (λ v, foldl apply_change v (Changes m)) s s'
    | _ => s' = s ∧ code = ResultInappropriateMatching
    end.
Proof.
  intros Hd Hm. pose proof (handleModify_exact r d s sent m Hd Hm) as Hx. cbv zeta in Hx.
  destruct (modify_targets d s (ModifyDN m)) as [|e [|e2 l]]; simpl in Hx;
    destruct Hx as (s' & Hr & Hc); eexists s', _, _, _; (split; [exact Hr|tauto]).
Qed.
End run.

(** ** Every handler answers *)

(** The operation of the response that ends a handler's answer. *)
Definition handler_op (h : dirHandler) : Z :=
  match h with
  | HNotFound | HStartTLS => ApplicationExtendedResponse
  | HBind => ApplicationBindResponse
  | HSearchUsers | HSearchGroups | HSearchGeneric => ApplicationSearchResultDone
  | HModify => ApplicationModifyResponse
  | HAdd => ApplicationAddResponse
  | HDelete => ApplicationDelResponse
  end.

(** An answer to a request: entries, then one result of the operation, all with
    the id of the request. *)
Definition answer (r : Request) (op : Z) (rs : list Response) : Prop :=
  ∃ es final res, rs = map (entry_answer r) es ++ [final] ∧ result_of final = Some res ∧
    res_id res = GetID (message r) ∧ res_op res = op.

(** What the StartTLS handler writes. *)
Definition startTLS_reply (r : Request) (code : Z) (diag : string) : Response :=
  RExtended (mkExtendedResponse (mkBaseResponse (GetID (message r)) code diag "")
    ExtendedOperationStartTLS).

(** All that the handler [h] writes for a request, [tls] being the error of a
    handshake: one answer, except that a StartTLS whose handshake fails is
    answered twice, with success and then with an operations error. *)
Definition complete_answer (tls : option error) (h : dirHandler) (r : Request)
    (rs : list Response) : Prop :=
  match h, tls with
  | HStartTLS, Some e =>
      rs = [startTLS_reply r ResultSuccess "";
            startTLS_reply r ResultOperationsError
              ("StartTLS Handshake error : " +:+ quote +:+ ErrorText e +:+ quote)]
  | _, _ => answer r (handler_op h) rs
  end.

Lemma answer_complete tls h r rs :
  answer r (handler_op h) rs → h ≠ HStartTLS ∨ tls = None → complete_answer tls h r rs.
Proof. intros Ha [Hh| ->]; by destruct h, tls || destruct h. Qed.

Lemma answer_one r op x :
  res_id <$> result_of x = Some (GetID (message r)) → res_op <$> result_of x = Some op →
  answer r op [x].
Proof.
  intros Hi Ho. destruct (result_of x) as [res|] eqn:E; simplify_eq/=. by exists [], x, res.
Qed.

Lemma answer_found r d s found :
  answer r ApplicationSearchResultDone (found_answer r d s found).
Proof.
  destruct found as [|e l]; [by apply answer_one|].
  exists (map (view s) (e :: l)), (done_answer r ResultSuccess (controls d)).
  eexists. split; [|done]. unfold found_answer. by rewrite map_map.
Qed.

Lemma answer_generic r d s m :
  answer r ApplicationSearchResultDone (generic_answer r d s m).
Proof.
  unfold generic_answer. destruct (sid_search d m); [|apply answer_found].
  eexists (map (view s) (sid_entries d m)), _, _. split; [by rewrite map_map|done].
Qed.

Lemma dir_ok_store d s s' :
  dir_ok d s → store_ok s' → (∀ l, live s l → live s' l) → dir_ok d s'.
Proof.
  intros [_ Hu Hg Ht] Hs Hl. constructor; [done|by eapply Forall_impl..|].
  intros sid l Hin. eapply Forall_impl; [by eapply Ht|done].
Qed.

Lemma dir_ok_users d s u : dir_ok d s → Forall (live s) u → dir_ok (set_users u d) s.
Proof. intros [? ? ? ?] ?. by constructor. Qed.

Lemma dir_ok_groups d s g : dir_ok d s → Forall (live s) g → dir_ok (set_groups g d) s.
Proof. intros [? ? ? ?] ?. by constructor. Qed.

(** A directory with a new entry among its users. *)
Lemma dir_ok_add d s e l s' :
  dir_ok d s → new_entry e s = (l, s') →
  dir_ok (set_users (users d ++ [l]) d) s' ∧ view s' l = e ∧
  (∀ u, live s u → view s' u = view s u) ∧ (unshared s → unshared s').
Proof.
  intros Hd Hn. apply new_entry_spec in Hn as (_ & Hr & Hl & Hlive & Hok & Hun).
  destruct (Hok (ok_store _ _ Hd)) as [Hs' Hv].
  pose proof (dir_ok_store d s s' Hd Hs' Hlive) as Hd'. split_and!; [| |done|].
  - apply dir_ok_users; [done|]. apply Forall_app. split; [apply Hd'|auto].
  - unfold view. by rewrite Hr.
  - apply Hun, Hd.
Qed.

Lemma delete_outcome_ok d s f d' code diag :
  dir_ok d s → delete_outcome d s f = (d', code, diag) →
  dir_ok d' s ∧ server d' = server d ∧ userDN d' = userDN d ∧ groupDN d' = groupDN d.
Proof.
  intros Hd. pose proof (ok_users _ _ Hd) as Hu. pose proof (ok_groups _ _ Hd) as Hg.
  unfold delete_outcome.
  destruct (positions s f 0 (users d)) as [|i [|j l]]; [destruct (positions s f 0 (groups d)) as [|i [|j l]]|..];
    intros ?; simplify_eq; split_and!; try done;
    [apply dir_ok_groups|apply dir_ok_users]; auto using Forall_delete.
Qed.

(** What a handler leaves behind. *)
Record kept (d d' : Directory) (s s' : store) : Prop := mkKept {
  kept_ok : dir_ok d' s';
  kept_server : server d' = server d;
  kept_userDN : userDN d' = userDN d;
  kept_groupDN : groupDN d' = groupDN d;
  kept_unshared : unshared s → unshared s';
}.

Lemma kept_same d s : dir_ok d s → kept d d s s.
Proof. by constructor. Qed.

Section answers.
Context `{BerOps}.

(** A handler that got a request of another kind. *)
Lemma responding_other {R A} (r0 : R) reply e (k : A → HM R unit) d s sent :
  responding r0 (deferred reply (withMessage (Err e) k)) (at_rest d s sent ()) =
    (Ok (), at_rest d s (sent +:+ stream [reply r0]) ()).
Proof. by apply responding_at_rest. Qed.

(** The handler ran, answered and kept the directory. *)
Definition handled (h : dirHandler) (r : Request) (run : HM unit unit) (d : Directory)
    (s : store) (sent : string) : Prop :=
  ∃ d' s' rs, run (at_rest d s sent ()) = (Ok (), at_rest d' s' (sent +:+ stream rs) ()) ∧
    kept d d' s s' ∧ answer r (handler_op h) rs.

(** The same, when the handler may be the one of StartTLS. *)
Definition handled_tls (tls : option error) (h : dirHandler) (r : Request) (run : HM unit unit)
    (d : Directory) (s : store) (sent : string) : Prop :=
  ∃ d' s' rs, run (at_rest d s sent ()) = (Ok (), at_rest d' s' (sent +:+ stream rs) ()) ∧
    kept d d' s s' ∧ complete_answer tls h r rs.

Lemma handled_same h r run d s sent rs :
  dir_ok d s → run (at_rest d s sent ()) = (Ok (), at_rest d s (sent +:+ stream rs) ()) →
  answer r (handler_op h) rs → handled h r run d s sent.
Proof. intros Hd Hr Ha. exists d, s, rs. auto using kept_same. Qed.

Lemma handled_add r d s sent : dir_ok d s → handled HAdd r (handleAdd r) d s sent.
Proof.
  intros Hd. destruct (message r) as [?|?|?|?|m|?|?] eqn:Hm;
    try (eapply handled_same; [done|unfold handleAdd, GetAddMessage; rewrite Hm; apply responding_other|
         by apply answer_one]).
  destruct (decide (hits s (parenthesised (AddDN m)) (users d) = [])) as [Hh|Hh].
  - destruct (new_entry (NewEntry (AddDN m) (attributeMap (AddAttributes m))) s) as [l s'] eqn:Hn.
    eexists _, s', _. split; [by eapply handleAdd_new|]. split; [|by apply answer_one].
    destruct (dir_ok_add _ _ _ _ _ Hd Hn) as (? & _ & _ & ?). by constructor.
  - eapply handled_same; [done|by apply handleAdd_exists|by apply answer_one].
Qed.

Lemma handled_delete r d s sent : dir_ok d s → handled HDelete r (handleDelete r) d s sent.
Proof.
  intros Hd. destruct (message r) as [?|?|?|?|?|m|?] eqn:Hm;
    try (eapply handled_same; [done|unfold handleDelete, GetDeleteMessage; rewrite Hm;
         apply responding_other|by apply answer_one]).
  destruct (delete_outcome d s (parenthesised (DeleteDN m))) as [[d' code] diag] eqn:Ho.
  eexists d', s, _. split; [by eapply handleDelete_run|]. split; [|by apply answer_one].
  by destruct (delete_outcome_ok _ _ _ _ _ _ Hd Ho) as (? & ? & ? & ?).
Qed.

Lemma handled_modify r d s sent : dir_ok d s → handled HModify r (handleModify r) d s sent.
Proof.
  intros Hd. destruct (message r) as [?|?|?|m|?|?|?] eqn:Hm;
    try (eapply handled_same; [done|unfold handleModify, GetModifyMessage; rewrite Hm;
         apply responding_other|by apply answer_one]).
  destruct (handleModify_run r d s sent m Hd Hm) as (s' & code & matched & diag & Hr & Hc).
  eexists d, s', _. split; [done|]. split; [|by apply answer_one].
  destruct (modify_targets d s (ModifyDN m)) as [|e [|e2 l]].
  - destruct Hc as [-> _]. by apply kept_same.
  - destruct Hc as (_ & _ & _ & C). constructor; [|done..|by intros U; apply C].
    eapply dir_ok_store; [done|apply C..].
  - destruct Hc as [-> _]. by apply kept_same.
Qed.

(** Every handler but the one of StartTLS answers the request it is given once, whatever its
    kind. *)
Lemma dirHandle_handled handshake h r d s sent :
  dir_ok d s → h ≠ HStartTLS → handled h r (dirHandle handshake h r) d s sent.
Proof.
  intros Hd Htls. destruct h; [| |done|..]; simpl.
  - eapply handled_same; [done| |].
    + unfold handleNotFound. by rewrite (bind_run _ _ _ _ _ (write_at_rest _ _ _ _ _)).
    + by apply answer_one.
  - destruct (message r) as [?|m|?|?|?|?|?] eqn:Hm;
      try (eapply handled_same; [done|unfold handleBind, GetSimpleBindMessage; rewrite Hm;
           apply responding_other|by apply answer_one]).
    eapply handled_same; [done|by apply handleBind_run|].
    apply answer_one; unfold bind_answer; repeat case_decide; by try destruct (existsb _ _).
  - destruct (message r) as [m|?|?|?|?|?|?] eqn:Hm;
      try (eapply handled_same; [done|unfold handleSearchUsers, GetSearchMessage; rewrite Hm;
           apply responding_other|by apply answer_one]).
    eapply handled_same; [done|by apply handleSearchUsers_run|apply answer_found].
  - destruct (message r) as [m|?|?|?|?|?|?] eqn:Hm;
      try (eapply handled_same; [done|unfold handleSearchGroups, GetSearchMessage; rewrite Hm;
           apply responding_other|by apply answer_one]).
    eapply handled_same; [done|by apply handleSearchGroups_run|apply answer_found].
  - destruct (message r) as [m|?|?|?|?|?|?] eqn:Hm;
      try (eapply handled_same; [done|unfold handleSearchGeneric, GetSearchMessage; rewrite Hm;
           apply responding_other|by apply answer_one]).
    eapply handled_same; [done|by apply handleSearchGeneric_run|apply answer_generic].
  - by apply handled_modify.
  - by apply handled_add.
  - by apply handled_delete.
Qed.
(** Every handler answers; StartTLS twice when its handshake fails. *)
Lemma dirHandle_complete handshake h r d s sent :
  dir_ok d s →
  handled_tls (StartTLS handshake (server d)) h r (dirHandle handshake h r) d s sent.
Proof.
  intros Hd. destruct (decide (h = HStartTLS)) as [->|Hh].
  - exists d, s. simpl. unfold handleStartTLS. rewrite (bind_run _ _ _ _ _ (write_at_rest _ _ _ _ _)).
    rewrite bind_getDir. destruct (StartTLS handshake (server d)) as [e|].
    + rewrite (bind_run _ _ _ _ _ (write_at_rest _ _ _ _ _)). eexists.
      split; [by rewrite <-app_assoc_str, <-stream_app|]. by split; [apply kept_same|].
    + eexists. split; [done|]. split; [by apply kept_same|]. by apply answer_one.
  - destruct (dirHandle_handled handshake h r d s sent Hd Hh) as (d' & s' & rs & ? & ? & ?).
    exists d', s', rs. auto using answer_complete.
Qed.
End answers.
