(* ===== verification/DirectoryMain.v ===== *)
(** The test directory as a whole: how [Start] routes requests, what a sequence
    of requests is answered, and what adding, binding, modifying and deleting
    do to each other. *)
From Stdlib Require Import Ascii.
From stdpp Require Import base decidable option list strings gmap.
From Stdlib Require Import ZArith Lia.
From S2P Require Import Prelude GoStd Ber BerModel Codes Options Control Packet Entry Attribute Parameters Message Response ResponseWire Request Mux Conn Server DirOptions Directory DirectorySpec DirectoryProps.
Import GoStrings.

(** ** Matching *)

(** A text that is matched literally once it is in parentheses. *)
Definition plain (d : string) : bool :=
  Regexp.lacks "(" d && Regexp.lacks ")" d && Regexp.lacks "*" d && Regexp.lacks "|" d &&
  Regexp.lacks "010" d && bool_decide (TrimSpace d = d).

Lemma lacks_app c s t : Regexp.lacks c (s +:+ t) = Regexp.lacks c s && Regexp.lacks c t.
Proof.
  induction s as [|a s IH]; [done|]. rewrite app_cons_str. simpl. by rewrite IH, andb_assoc.
Qed.

Lemma ReplaceAll_lacks c new s : Regexp.lacks c s = true → ReplaceAll s c new = s.
Proof.
  induction s as [|a s IH]; simpl; [done|]. rewrite andb_true_iff, bool_decide_eq_true.
  intros [? ?]. rewrite decide_False by done. by rewrite IH.
Qed.

Lemma TrimLeft_lacks s cs t :
  Forall (λ c, Regexp.lacks c s = true) cs → s ≠ "" ∨ TrimLeft t cs = t →
  TrimLeft (s +:+ t) cs = s +:+ t.
Proof.
  intros Hc Hs. destruct s as [|a s]; [by destruct Hs|].
  rewrite app_cons_str. simpl. rewrite decide_False; [done|]. intros Hin.
  rewrite Forall_forall in Hc. specialize (Hc a Hin). simpl in Hc.
  by rewrite bool_decide_eq_false_2 in Hc by tauto.
Qed.

Lemma rev_app_acc s t : String.rev_app s t = String.rev s +:+ t.
Proof.
  unfold String.rev. revert t. induction s as [|a s IH]; intros t; [done|].
  simpl. rewrite (IH (String a t)), (IH (String a "")), <-app_assoc_str. done.
Qed.

Lemma rev_cons_str a s : String.rev (String a s) = String.rev s +:+ String a "".
Proof. unfold String.rev at 1. simpl. apply rev_app_acc. Qed.

Lemma rev_app_str s t : String.rev (s +:+ t) = String.rev t +:+ String.rev s.
Proof.
  induction s as [|a s IH].
  - simpl. by rewrite app_nil_r_str.
  - rewrite app_cons_str, !rev_cons_str, IH. by rewrite app_assoc_str.
Qed.

Lemma rev_involutive_str s : String.rev (String.rev s) = s.
Proof. induction s as [|a s IH]; [done|]. by rewrite rev_cons_str, rev_app_str, IH. Qed.

Lemma lacks_rev c s : Regexp.lacks c (String.rev s) = Regexp.lacks c s.
Proof.
  induction s as [|a s IH]; [done|]. rewrite rev_cons_str, lacks_app, IH. simpl.
  by rewrite andb_true_r, andb_comm.
Qed.

Lemma TrimRight_lacks s cs t :
  Forall (λ c, Regexp.lacks c t = true) cs → t ≠ "" ∨ TrimRight s cs = s →
  TrimRight (s +:+ t) cs = s +:+ t.
Proof.
  intros Hc Ht. unfold TrimRight in *. rewrite rev_app_str, TrimLeft_lacks.
  - by rewrite rev_app_str, !rev_involutive_str.
  - eapply Forall_impl; [done|]. simpl. intros c. by rewrite lacks_rev.
  - destruct Ht as [Ht|Ht]; [left|right].
    + intros He. apply Ht. by rewrite <-(rev_involutive_str t), He.
    + by rewrite <-(rev_involutive_str (TrimLeft _ _)), Ht.
Qed.

Lemma Trim_id s cs : Forall (λ c, Regexp.lacks c s = true) cs → Trim s cs = s.
Proof.
  intros Hc. unfold Trim. pose proof (TrimLeft_lacks s cs "" Hc) as Hl.
  pose proof (TrimRight_lacks "" cs s Hc) as Hr.
  rewrite app_nil_r_str in Hl. rewrite app_nil_l_str in Hr.
  rewrite Hl, Hr; auto.
Qed.

(** A plain text in parentheses comes out as it was. *)
Lemma filterElement_plain d : plain d = true → filterElement ("(" +:+ d +:+ ")") = d.
Proof.
  unfold plain. rewrite !andb_true_iff, bool_decide_eq_true.
  intros [[[[[H1 H2] H3] H4] H5] H6]. unfold filterElement.
  rewrite ReplaceAll_lacks by by rewrite !lacks_app, H3.
  assert (Trim ("(" +:+ d +:+ ")") ["|"; "("]%char = d +:+ ")") as ->.
  { unfold Trim. rewrite app_cons_str. cbn [TrimLeft]. rewrite decide_True by set_solver.
    rewrite app_nil_l_str, TrimLeft_lacks by (auto; by repeat constructor).
    apply TrimRight_lacks; [by repeat constructor|by left]. }
  rewrite (Trim_id (d +:+ ")") ["("]%char) by (constructor; [by rewrite lacks_app, H1|done]).
  assert (Trim (d +:+ ")") [")"]%char = d) as ->; [|done].
  unfold Trim. destruct (decide (d = "")) as [->|Hd]; [done|].
  rewrite TrimLeft_lacks by (auto; by repeat constructor).
  unfold TrimRight. rewrite rev_app_str. change (String.rev ")") with ")".
  rewrite app_cons_str. cbn [TrimLeft]. rewrite decide_True by set_solver. rewrite app_nil_l_str.
  pose proof (TrimLeft_lacks (String.rev d) [")"]%char "") as Ht. rewrite app_nil_r_str in Ht.
  rewrite Ht, rev_involutive_str; [done| |by right]. constructor; [by rewrite lacks_rev|done].
Qed.

Lemma match_plain d attr : plain d = true → match_ (parenthesised d) attr = Contains attr d.
Proof.
  intros Hd. unfold match_, parenthesised. rewrite Regexp.FindAllString_single.
  - cbn [existsb]. by rewrite filterElement_plain, orb_false_r.
  - unfold plain in Hd. rewrite !andb_true_iff in Hd. tauto.
  - unfold plain in Hd. rewrite !andb_true_iff in Hd. tauto.
Qed.

(** A filter without an opening parenthesis matches nothing. *)
Lemma match_none f attr : Regexp.lacks "(" f = true → match_ f attr = false.
Proof. intros Hf. unfold match_. by rewrite Regexp.FindAllString_none. Qed.

(** ** Start and its routes *)

Lemma registerAll_dir d :
  registerAll (dirRegistrations d) (mkMux [] None None) = Ok (registered (dirRegistrations d)).
Proof. reflexivity. Qed.

(** What [Start] makes. *)
Lemma Start_spec freePort st ct sl opt d srv co :
  Start freePort st ct sl opt = Ok (d, srv, co) →
  srv_router srv = registered (dirRegistrations d) ∧ server d = Some st ∧
  users d = default [] (Users (withDefaults (getOpts opt))) ∧
  groups d = default [] (Groups (withDefaults (getOpts opt))) ∧
  tokenGroups d = ∅ ∧ userDN d = UserDN (withDefaults (getOpts opt)) ∧
  allowAnonymousBind d = AllowAnonymousBind (withDefaults (getOpts opt)).
Proof.
  unfold Start. cbn [NewServer mbind outcome_bind dir_logger].
  destruct (DirOptions.withLogger (getOpts opt)) as [l|]; [|done].
  cbn [NewMux mbind outcome_bind]. rewrite registerAll_dir. cbn [mbind outcome_bind Router].
  intros [= <- <- <-]. done.
Qed.

(** The handler for a request to a directory. *)
Definition routed `{Folding} (d : Directory) (r : Request) : dirHandler :=
  match message r with
  | MSimpleBind m => if decide (AuthChoice m = SimpleAuthChoice) then HBind else HNotFound
  | MExtended m =>
      if decide (ExtendedName m = ExtendedOperationStartTLS) then HStartTLS else HNotFound
  | MSearch m =>
      if bool_decide (userDN d = "") || EqualFold (BaseDN m) (userDN d) then HSearchUsers
      else if bool_decide (groupDN d = "") || EqualFold (BaseDN m) (groupDN d) then HSearchGroups
      else HSearchGeneric
  | MModify _ => HModify
  | MAdd _ => HAdd
  | MDelete _ => HDelete
  | MUnbind _ => HNotFound
  end.

(** A request whose route is its message's, as [newRequest] makes them. *)
Definition request_ok (r : Request) : Prop :=
  (routeOp r, extendedName r) = message_route (message r).

Lemma list_find_cons_bool {A} (f : A → bool) x l :
  list_find (λ a, Is_true (f a)) (x :: l) =
    if f x then Some (0%nat, x) else prod_map S id <$> list_find (λ a, Is_true (f a)) l.
Proof. simpl. destruct (f x) eqn:E; case_decide as Hd; naive_solver. Qed.

Lemma searchRoute_match_base `{Folding} dn m :
  searchRoute_match dn "" 0 m = bool_decide (dn = "") || EqualFold (BaseDN m) dn.
Proof.
  unfold searchRoute_match.
  rewrite (bool_decide_eq_false_2 ("" ≠ "")), (bool_decide_eq_false_2 (0 ≠ 0)) by congruence.
  simpl. rewrite !andb_true_r. destruct (decide (dn = "")) as [->|Hd].
  - by rewrite bool_decide_eq_false_2 by congruence.
  - rewrite (bool_decide_eq_true_2 (dn ≠ "")), (bool_decide_eq_false_2 (dn = "")) by done.
    simpl. by rewrite negb_involutive.
Qed.

(** The routes of a directory, in order, and what each matches. *)
Lemma routes_dir d :
  routes (registered (dirRegistrations d)) =
    [SimpleBindRoute (mkBaseRoute (Some 2) bindRouteOperation "") SimpleAuthChoice;
     ExtendedRoute (mkBaseRoute (Some 3) extendedRouteOperation "") ExtendedOperationStartTLS;
     SearchRoute (mkBaseRoute (Some 4) searchRouteOperation "Search - Users") (userDN d) "" 0;
     SearchRoute (mkBaseRoute (Some 5) searchRouteOperation "Search - Groups") (groupDN d) "" 0;
     SearchRoute (mkBaseRoute (Some 6) searchRouteOperation "Search - Generic") "" "" 0;
     ModifyRoute (mkBaseRoute (Some 7) modifyRouteOperation "Modify");
     AddRoute (mkBaseRoute (Some 8) addRouteOperation "Add");
     DeleteRoute (mkBaseRoute (Some 9) deleteRouteOperation "Delete")].
Proof. reflexivity. Qed.

Lemma serve_dir `{Folding} d r :
  request_ok r →
  serve (registered (dirRegistrations d)) (Some r) =
    Ok (CallHandler (handlerHandle (routed d r))).
Proof.
  destruct r as [id c m op ext]. unfold request_ok, serve, routed. simpl message.
  rewrite routes_dir, !list_find_cons_bool.
  destruct m as [m|m|m|m|m|m|m]; cbn [message_route routeOp extendedName message];
    intros [= -> ->]; cbn [matches route_op route_base base_routeOp routeOp extendedName message];
    try done.
  - rewrite !searchRoute_match_base.
    destruct (_ || EqualFold (BaseDN m) (userDN d)); [done|].
    by destruct (_ || EqualFold (BaseDN m) (groupDN d)).
  - unfold simpleBindRoute_match. case_decide as Ha.
    + by rewrite Ha.
    + rewrite (bool_decide_eq_false_2 (SimpleAuthChoice = AuthChoice m)) by congruence. done.
  - case_decide as Ha.
    + by rewrite Ha.
    + rewrite (bool_decide_eq_false_2 (ExtendedOperationStartTLS = ExtendedName m)) by congruence.
      done.
Qed.

Lemma handlerAt_handle h : handlerAt (handlerHandle h) = Some h.
Proof. by destruct h. Qed.

(** The mux only looks at the base DNs of the directory. *)
Lemma dirRegistrations_ext d d' :
  userDN d' = userDN d → groupDN d' = groupDN d → dirRegistrations d' = dirRegistrations d.
Proof. unfold dirRegistrations. by intros -> ->. Qed.

(** ** A sequence of requests *)

Section serving.
Context `{BerOps} `{Folding}.

(** Requests served one after the other by a started directory. *)
Fixpoint serveAll (handshake : handle → option error) (m : Mux) (rs : list Request)
    : HM unit unit :=
  match rs with
  | [] => mret ()
  | r :: rs => dirServe handshake m r;; serveAll handshake m rs
  end.

Lemma dirServe_handled handshake d0 d s sent r :
  dir_ok d s → userDN d = userDN d0 → groupDN d = groupDN d0 → request_ok r →
  handled_tls (StartTLS handshake (server d)) (routed d r) r
    (dirServe handshake (registered (dirRegistrations d0)) r) d s sent.
Proof.
  intros Hd Hu Hg Hr. unfold handled_tls, dirServe.
  rewrite (dirRegistrations_ext d d0) by congruence.
  rewrite (serve_dir d r Hr), handlerAt_handle.
  by apply dirHandle_complete.
Qed.

Lemma serveAll_answers handshake d0 d s sent rs :
  dir_ok d s → userDN d = userDN d0 → groupDN d = groupDN d0 → Forall request_ok rs →
  ∃ d' s' as_,
    serveAll handshake (registered (dirRegistrations d0)) rs (at_rest d s sent ()) =
      (Ok (), at_rest d' s' (sent +:+ stream (concat as_)) ()) ∧
    kept d d' s s' ∧
    Forall2 (λ r a, complete_answer (StartTLS handshake (server d)) (routed d r) r a) rs as_.
Proof.
  intros Hd Hu Hg Hrs. revert d s sent Hd Hu Hg.
  induction Hrs as [|r rs Hr _ IH]; intros d s sent Hd Hu Hg.
  { exists d, s, []. simpl. rewrite app_nil_r_str. auto using kept_same. }
  destruct (dirServe_handled handshake d0 d s sent r) as (d1 & s1 & a & Hrun & K & Ha); [done..|].
  destruct K as [K1 K2 K3 K4 K5].
  destruct (IH d1 s1 (sent +:+ stream a)) as (d2 & s2 & as_ & Hrun2 & K & Has);
    [done|congruence..|].
  exists d2, s2, (a :: as_). split; [|split].
  - cbn [serveAll]. rewrite (bind_run _ _ _ _ _ Hrun), Hrun2. simpl concat.
    by rewrite stream_app, app_assoc_str.
  - destruct K as [L1 L2 L3 L4 L5]. constructor; [done|congruence..|auto].
  - constructor; [done|]. eapply Forall2_impl; [done|]. simpl. intros r' a'.
    unfold routed. by rewrite K2, K3, K4.
Qed.
End serving.

(** ** Lemmas for the updates *)

Lemma positions_ext s s' f i l :
  (∀ e, e ∈ l → view s' e = view s e) → positions s' f i l = positions s f i l.
Proof.
  revert i. induction l as [|e l IH]; intros i Hv; [done|]. simpl.
  rewrite (Hv e) by constructor. rewrite IH; [done|]. intros. apply Hv. by constructor.
Qed.

Lemma positions_app s f i l k :
  positions s f i (l ++ k) = positions s f i l ++ positions s f (i + length l) k.
Proof.
  revert i. induction l as [|e l IH]; intros i; simpl; [by rewrite Nat.add_0_r|].
  rewrite IH, <-Nat.add_succ_comm. by destruct (match_ _ _).
Qed.

Lemma positions_nil s f i l : hits s f l = [] → positions s f i l = [].
Proof. intros Hh. apply length_zero_iff_nil. by rewrite length_positions, Hh. Qed.

Lemma hits_plain s f l :
  plain f = true →
  hits s (parenthesised f) l = filter (λ e, Is_true (Contains (DN (view s e)) f)) l.
Proof.
  intros Hf. induction l as [|e l IH]; [done|]. rewrite hits_cons, filter_cons, IH.
  rewrite match_plain by done. by destruct (Contains _ f).
Qed.

Lemma hits_none s f l : Regexp.lacks "(" f = true → hits s f l = [].
Proof.
  intros Hf. induction l as [|e l IH]; [done|]. by rewrite hits_cons, match_none.
Qed.

(** New entries, all of them. *)
Lemma new_entries_spec es s ls s' :
  new_entries es s = (ls, s') → store_ok s →
  store_ok s' ∧ (unshared s → unshared s') ∧
  (∀ l, live s l → live s' l ∧ view s' l = view s l) ∧
  Forall2 (λ l e, live s' l ∧ view s' l = e) ls es.
Proof.
  revert s ls. induction es as [|e es IH]; intros s ls; simpl.
  { intros [= <- <-] ?. split_and!; auto. }
  destruct (new_entry e s) as [l s1] eqn:E1. destruct (new_entries es s1) as [ls1 s2] eqn:E2.
  intros [= <- <-] Hs. apply new_entry_spec in E1 as (_ & Hr & Hl & Hlive & Hok & Hun).
  destruct (Hok Hs) as [Hs1 Hv1]. destruct (IH _ _ E2 Hs1) as (Hs2 & Hun2 & Hk & Hf).
  split; [done|]. split; [auto|]. split.
  - intros l' Hl'. destruct (Hk l' (Hlive _ Hl')) as [? Hv]. by rewrite Hv, Hv1.
  - constructor; [|done]. destruct (Hk l Hl) as [? ->]. split; [done|].
    unfold view. by rewrite Hr.
Qed.

Lemma attributeMap_password attrs p ps (m := attributeMap attrs) dn :
  m !! "password" = Some (p :: ps) →
  head (GetAttributeValues (NewEntry dn m) "password") = Some p.
Proof.
  intros Hp. unfold NewEntry. rewrite GetAttributeValues_NewEntryFrom by done. by rewrite Hp.
Qed.

Lemma bind_answer_user r d s m u :
  AuthChoice m = SimpleAuthChoice → u ∈ users d → DN (view s u) = UserName m →
  head (GetAttributeValues (view s u) "password") = Some (Password m) →
  code (bind_base (bind_answer r d s m)) = ResultSuccess.
Proof.
  intros Ha Hu Hdn Hp. unfold bind_answer. rewrite decide_False by congruence.
  case_decide; [done|]. assert (existsb (bind_user s m) (users d) = true) as ->; [|done].
  apply existsb_exists. exists u. split; [by apply list_elem_of_In|].
  unfold bind_user. by apply bool_decide_eq_true_2.
Qed.

Lemma bind_answer_code r d s m :
  code (bind_base (bind_answer r d s m)) =
    (if decide (AuthChoice m = SimpleAuthChoice ∧
                ((Password m = "" ∧ allowAnonymousBind d = true) ∨
                 Exists (λ u, DN (view s u) = UserName m ∧
                    head (GetAttributeValues (view s u) "password") = Some (Password m)) (users d)))
     then ResultSuccess else ResultInvalidCredentials).
Proof.
  assert (existsb (bind_user s m) (users d) = true ↔
    Exists (λ u, DN (view s u) = UserName m ∧
      head (GetAttributeValues (view s u) "password") = Some (Password m)) (users d)) as He.
  { rewrite existsb_exists, Exists_exists. unfold bind_user.
    split; intros (u & Hu & Hb); exists u; rewrite list_elem_of_In in *;
      [by apply bool_decide_eq_true_1 in Hb|by rewrite bool_decide_eq_true_2]. }
  unfold bind_answer. case_decide as Ha; [by rewrite decide_False by tauto|].
  case_decide as Hp; [by rewrite decide_True by tauto|].
  destruct (existsb _ _); [rewrite decide_True by tauto; done|].
  rewrite decide_False; [done|]. intros [_ [?|Hx]]; [tauto|]. by apply He in Hx.
Qed.

(** ** Properties *)

Section properties.
Context `{BerOps} `{Folding}.


(** C27. [Start] routes each request to the handler of its kind: searches at the
    users' base DN to the users, at the groups' to the groups and elsewhere to
    the generic search; simple binds, StartTLS, modify, add and delete to
    theirs; everything else to the handler that refuses it. *)
Theorem directory_routes freePort st ct sl opt d srv co r :
  Start freePort st ct sl opt = Ok (d, srv, co) → request_ok r →
  serve (srv_router srv) (Some r) = Ok (CallHandler (handlerHandle (routed d r))).
Proof. intros (-> & _)%Start_spec. apply serve_dir. Qed.

(** A simple bind gets one response, with its message id: success exactly
    when an anonymous bind (no password) is allowed or some user has the DN of
    the request and the given password as its first password value, and
    invalid credentials otherwise. *)
Theorem bind_authenticates r d s sent m :
  dir_ok d s → message r = MSimpleBind m →
  ∃ b, handleBind r (at_rest d s sent ()) =
         (Ok (), at_rest d s (sent +:+ stream [RBind b]) ()) ∧
       messageID (bind_base b) = GetID (message r) ∧
       code (bind_base b) =
         (if decide (AuthChoice m = SimpleAuthChoice ∧
                     ((Password m = "" ∧ allowAnonymousBind d = true) ∨
                      Exists (λ u, DN (view s u) = UserName m ∧
                        head (GetAttributeValues (view s u) "password") = Some (Password m))
                        (users d)))
          then ResultSuccess else ResultInvalidCredentials).
Proof.
  intros Hd Hm. exists (bind_answer r d s m). split; [by apply handleBind_run|].
  split; [|apply bind_answer_code]. unfold bind_answer. repeat case_decide; try done.
  by destruct (existsb _ _).
Qed.

(** A search of the users with a filter [(f)], [f] without special
    characters, returns exactly the users whose DN contains [f], in the
    directory's order and with all their attributes, then success; no such
    object when there is none. *)
Theorem search_users_exact r d s sent m f :
  dir_ok d s → message r = MSearch m → Filter m = parenthesised f → plain f = true →
  handleSearchUsers r (at_rest d s sent ()) =
    (Ok (), at_rest d s (sent +:+ stream
       (let found := filter (λ u, Is_true (Contains (DN (view s u)) f)) (users d) in
        map (λ u, entry_answer r (view s u)) found ++
        [if decide (found = []) then done_answer r ResultNoSuchObject []
         else done_answer r ResultSuccess (controls d)])) ()).
Proof.
  intros Hd Hm Hf Hp. rewrite (handleSearchUsers_run r d s sent m) by done.
  rewrite Hf, hits_plain by done. cbv zeta. by destruct (filter _ (users d)).
Qed.

(** C28. An entry that was added can bind: after an add of an entry that is not
    there yet, a simple bind with its DN and its first password value
    succeeds. *)
Theorem add_then_bind ra rb d s sent m b p ps :
  dir_ok d s → message ra = MAdd m → message rb = MSimpleBind b →
  hits s (parenthesised (AddDN m)) (users d) = [] →
  attributeMap (AddAttributes m) !! "password" = Some (p :: ps) →
  AuthChoice b = SimpleAuthChoice → UserName b = AddDN m → Password b = p →
  ∃ d' s' x,
    (handleAdd ra;; handleBind rb) (at_rest d s sent ()) =
      (Ok (), at_rest d' s' (sent +:+ stream
         [general_answer ra ApplicationAddResponse ResultSuccess "Unused" "Unused"; RBind x]) ()) ∧
    code (bind_base x) = ResultSuccess.
Proof.
  intros Hd Hma Hmb Hh Hp Ha Hn Hpw. set (e := NewEntry (AddDN m) (attributeMap (AddAttributes m))).
  destruct (new_entry e s) as [l s'] eqn:E.
  pose proof (handleAdd_new ra d s sent m l s' Hd Hma Hh E) as Hrun.
  destruct (dir_ok_add _ _ _ _ _ Hd E) as (Hd' & Hv & _).
  set (d' := set_users (users d ++ [l]) d) in *.
  exists d', s', (bind_answer rb d' s' b). split.
  - rewrite (bind_run _ _ _ _ _ Hrun), (handleBind_run rb d' s' _ b) by done.
    rewrite <-app_assoc_str, <-stream_app. done.
  - apply (bind_answer_user _ _ _ _ l); [done|simpl; set_solver|by rewrite Hv|].
    rewrite Hv, Hpw. by apply (attributeMap_password _ _ ps).
Qed.

(** A delete undoes an add: after an add of an entry with a plain DN that
    no user matches, a delete of that DN succeeds and leaves the users as they
    were, with their values. *)
Theorem add_then_delete ra rd d s sent m x :
  dir_ok d s → message ra = MAdd m → message rd = MDelete x →
  DeleteDN x = AddDN m → plain (AddDN m) = true →
  hits s (parenthesised (AddDN m)) (users d) = [] →
  ∃ d' s',
    (handleAdd ra;; handleDelete rd) (at_rest d s sent ()) =
      (Ok (), at_rest d' s' (sent +:+ stream
         [general_answer ra ApplicationAddResponse ResultSuccess "Unused" "Unused";
          general_answer rd ApplicationDelResponse ResultSuccess "Unused" "Unused"]) ()) ∧
    users d' = users d ∧ groups d' = groups d ∧ map (view s') (users d) = map (view s) (users d).
Proof.
  intros Hd Hma Hmd Hx Hpl Hh. set (e := NewEntry (AddDN m) (attributeMap (AddAttributes m))).
  destruct (new_entry e s) as [l s'] eqn:E.
  pose proof (handleAdd_new ra d s sent m l s' Hd Hma Hh E) as Hrun.
  destruct (dir_ok_add _ _ _ _ _ Hd E) as (Hd' & Hl & Hview & _).
  assert (∀ u, u ∈ users d → view s' u = view s u) as Hv.
  { pose proof (ok_users _ _ Hd) as Hu. rewrite Forall_forall in Hu. auto. }
  set (d' := set_users (users d ++ [l]) d) in *.
  assert (positions s' (parenthesised (DeleteDN x)) 0 (users d') = [length (users d)]) as Hpos.
  { rewrite Hx. simpl. rewrite positions_app, (positions_ext s s'), positions_nil by done. simpl.
    rewrite Hl, match_plain by done. simpl. by rewrite Contains_refl. }
  eexists _, s'. split; [|split; [|split]].
  - rewrite (bind_run _ _ _ _ _ Hrun). erewrite handleDelete_run; [|done..|].
    2:{ unfold delete_outcome. rewrite Hpos. done. }
    rewrite <-app_assoc_str, <-stream_app. done.
  - simpl. rewrite delete_take_drop, take_app_length, drop_ge by (rewrite length_app; simpl; lia).
    by rewrite app_nil_r.
  - done.
  - apply map_ext_in. intros u Hu. apply Hv. by apply list_elem_of_In.
Qed.

(** A modify request whose DN matches one entry carries out the changes on
    that entry, in order, as [apply_change] says, leaves every other entry
    alone, and answers success with the entry's DN; here no attribute is shared
    between entries, which the directory preserves. *)
Theorem modify_refines r d s sent m e :
  dir_ok d s → unshared s → message r = MModify m →
  modify_targets d s (ModifyDN m) = [e] →
  ∃ s' diag,
    handleModify r (at_rest d s sent ()) =
      (Ok (), at_rest d s' (sent +:+ stream
         [general_answer r ApplicationModifyResponse ResultSuccess (DN (view s e)) diag]) ()) ∧
    view s' e = foldl apply_change (view s e) (Changes m) ∧
    (∀ l, live s l → l ≠ e → view s' l = view s l) ∧ dir_ok d s' ∧ unshared s'.
Proof.
  intros Hd Hun Hm Ht.
  destruct (handleModify_run r d s sent m Hd Hm) as (s' & code & matched & diag & Hr & Hc).
  rewrite Ht in Hc. destruct Hc as (-> & -> & _ & C). destruct (ch_view _ _ _ _ C Hun) as (? & ? & ?).
  exists s', diag. split_and!; [done..| |done]. eapply dir_ok_store; [done|apply C..].
Qed.

(** C37. Replacing does not replace: a modify request that finds exactly one entry and whose
    changes are all replacements answers success and leaves every entry as it was. *)
Theorem modify_replace_ignored r d s sent m e :
  dir_ok d s → unshared s → message r = MModify m →
  modify_targets d s (ModifyDN m) = [e] →
  Forall (λ c, Operation c = ReplaceAttribute) (Changes m) →
  ∃ s' diag,
    handleModify r (at_rest d s sent ()) =
      (Ok (), at_rest d s' (sent +:+ stream
         [general_answer r ApplicationModifyResponse ResultSuccess (DN (view s e)) diag]) ()) ∧
    ∀ l, live s l → view s' l = view s l.
Proof.
  intros Hd Hun Hm Ht Hall.
  destruct (handleModify_run r d s sent m Hd Hm) as (s' & code & matched & diag & Hr & Hc).
  rewrite Ht in Hc. destruct Hc as (-> & -> & _ & C). destruct (ch_view _ _ _ _ C Hun) as (_ & Hv & Hf).
  exists s', diag. split; [done|]. intros l Hl. destruct (decide (l = e)) as [->|]; [|by apply Hf].
  rewrite Hv. generalize (view s e). clear -Hall.
  induction Hall as [|c cs Hc _ IH]; intros v; [done|]. simpl. rewrite IH.
  unfold apply_change. rewrite Hc. by destruct v.
Qed.

(** Groups cannot be modified: the second lookup of a modify request does
    not put the DN in parentheses, and a filter without them matches nothing,
    so a DN that no user matches is answered with no such object, whatever the
    groups. *)
Theorem modify_group_not_found r d s sent m :
  dir_ok d s → message r = MModify m → Regexp.lacks "(" (ModifyDN m) = true →
  hits s (parenthesised (ModifyDN m)) (users d) = [] →
  ∃ matched diag,
    handleModify r (at_rest d s sent ()) =
      (Ok (), at_rest d s (sent +:+ stream
         [general_answer r ApplicationModifyResponse ResultNoSuchObject matched diag]) ()).
Proof.
  intros Hd Hm Hl Hh.
  destruct (handleModify_run r d s sent m Hd Hm) as (s' & code & matched & diag & Hr & Hc).
  unfold modify_targets in Hc. rewrite Hh, hits_none in Hc by done. destruct Hc as [-> ->]. eauto.
Qed.

(** A StartTLS whose handshake fails is answered twice with the same
    message id: success, before the handshake, and then an operations error. *)
Theorem startTLS_failure_answers_twice handshake r d s sent c e :
  server d = Some c → handshake c = Some e →
  ∃ x y,
    handleStartTLS handshake r (at_rest d s sent ()) =
      (Ok (), at_rest d s (sent +:+ stream [RExtended x; RExtended y]) ()) ∧
    messageID (extended_base x) = GetID (message r) ∧
    code (extended_base x) = ResultSuccess ∧
    messageID (extended_base y) = GetID (message r) ∧
    code (extended_base y) = ResultOperationsError.
Proof.
  intros Hs He. eexists _, _. split.
  - unfold handleStartTLS. rewrite (bind_run _ _ _ _ _ (write_at_rest _ _ _ _ _)).
    rewrite bind_getDir, Hs. unfold StartTLS. rewrite He.
    rewrite (bind_run _ _ _ _ _ (write_at_rest _ _ _ _ _)).
    by rewrite <-app_assoc_str, <-stream_app.
  - done.
Qed.

(** The users that [NewUsers] makes can log in: in a directory with these
    users, a simple bind with the DN made from a name and the password
    [password] succeeds. *)
Theorem new_users_bind names opt s0 d s sent r m n :
  store_ok s0 → NewUsers names opt s0 = (users d, s) → dir_ok d s →
  message r = MSimpleBind m → n ∈ names → AuthChoice m = SimpleAuthChoice →
  UserName m = userEntryDN (withDefaults (getOpts opt)) n → Password m = "password" →
  ∃ b, handleBind r (at_rest d s sent ()) =
         (Ok (), at_rest d s (sent +:+ stream [RBind b]) ()) ∧
       code (bind_base b) = ResultSuccess.
Proof.
  intros Hs0 Hnew Hd Hm Hn Ha Hu Hp. exists (bind_answer r d s m).
  split; [by apply handleBind_run|].
  destruct (new_entries_spec _ _ _ _ Hnew Hs0) as (_ & _ & _ & Hf).
  apply list_elem_of_lookup in Hn as [i Hi].
  destruct (Forall2_lookup_r _ _ _ i (NewEntry (userEntryDN (withDefaults (getOpts opt)) n)
    (userAttrs (getOpts opt) n)) Hf) as (u & Hui & _ & Hv).
  { by rewrite list_lookup_fmap, Hi. }
  apply (bind_answer_user _ _ _ _ u); [done|by eapply list_elem_of_lookup_2|by rewrite Hv|].
  rewrite Hv, Hp. unfold NewEntry. rewrite GetAttributeValues_NewEntryFrom by done.
  unfold userAttrs. repeat case_decide; by simplify_map_eq.
Qed.
End properties.

(** [Start] ignores the token groups of its defaults, and panics when the
    logger option is nil although it tests for that; otherwise it makes a
    directory with the users and groups of the defaults. *)
Theorem start_token_groups freePort st ct sl opt :
  match DirOptions.withLogger (getOpts opt) with
  | None => ∃ w, Start freePort st ct sl opt = Panic w
  | Some _ =>
      ∃ d srv co, Start freePort st ct sl opt = Ok (d, srv, co) ∧ tokenGroups d = ∅ ∧
        users d = default [] (Users (withDefaults (getOpts opt))) ∧
        groups d = default [] (Groups (withDefaults (getOpts opt)))
  end.
Proof.
  destruct (DirOptions.withLogger (getOpts opt)) as [l|] eqn:El.
  - destruct (Start freePort st ct sl opt) as [[[d srv] co]|e|w] eqn:E.
    + exists d, srv, co. by destruct (Start_spec _ _ _ _ _ _ _ _ E) as (_ & _ & ? & ? & ? & _).
    + unfold Start in E. rewrite El in E. discriminate E.
    + unfold Start in E. rewrite El in E. discriminate E.
  - eexists. unfold Start. rewrite El. reflexivity.
Qed.

(** ** Witnesses *)

(** A directory with two users, as a test would make it. *)
Definition example_users : list addr * store := NewUsers ["alice"; "bob"] [] empty_store.
Definition example_store : store := snd example_users.
Definition example_dir : Directory :=
  mkDirectory (Some 1) 389 "localhost" true (Some 3) (Some 2) (fst example_users) [] ∅ false []
    DefaultUserDN DefaultGroupDN.
Definition example_request (m : Message) : Request :=
  mkRequest 1 1 m (fst (message_route m)) (snd (message_route m)).
Definition bob_dn : string := "cn=bob,ou=people,dc=example,dc=org".
Definition eve_dn : string := "cn=eve,ou=people,dc=example,dc=org".
Definition add_eve : Message :=
  MAdd (mkAddMessage 7 eve_dn [mkAttribute "password" ["secret"]] []).
Definition modify_bob (op : Z) : Message :=
  MModify (mkModifyMessage 8 bob_dn [mkChange op (mkPartialAttribute "email" ["b@x"])] []).
Definition bind_as (dn p : string) : Message :=
  MSimpleBind (mkSimpleBindMessage 9 SimpleAuthChoice dn p []).

Lemma empty_store_ok : store_ok empty_store ∧ unshared empty_store.
Proof.
  unfold store_ok, unshared, empty_store. simpl. split; [|split]; intros; by simplify_map_eq.
Qed.

Lemma example_ok :
  dir_ok example_dir example_store ∧ unshared example_store ∧
  Forall (live example_store) (users example_dir).
Proof.
  destruct empty_store_ok as [H1 H2].
  destruct (new_entries_spec _ empty_store (fst example_users) example_store
    (surjective_pairing example_users) H1) as (Hs & Hu & _ & Hf).
  assert (Forall (live example_store) (users example_dir)) as Hl.
  { apply Forall_forall. intros l [i Hi]%list_elem_of_lookup.
    by destruct (Forall2_lookup_l _ _ _ _ _ Hf Hi) as (e & _ & ? & _). }
  split; [|auto]. constructor; [done|done|constructor|].
  intros sid l Hin. simpl in Hin. by rewrite lookup_empty in Hin.
Qed.

Definition example_opts : list DirOptions.Option :=
  [WithDefaults (Some (mkDefaults "" "" (Some (fst example_users)) None ∅ "" "" false ""))].
Definition started : outcome (Directory * Server * list Options.Option) :=
  Start 389 2 3 1 example_opts.

(** A StartTLS whose handshake fails is among the requests. *)
Definition example_messages : list Message :=
  [add_eve; bind_as eve_dn "secret"; MExtended (mkExtendedOperationMessage 3 ExtendedOperationStartTLS "");
   modify_bob 0; MUnbind (mkUnbindMessage 3)].


Lemma directory_routes_witness :
  ∃ d srv co, started = Ok (d, srv, co) ∧
    @serve ascii_folding (srv_router srv) (Some (example_request add_eve)) =
      Ok (CallHandler (handlerHandle HAdd)).
Proof.
  destruct started as [[[d srv] co]|e|w] eqn:E; [|vm_compute in E; discriminate E..].
  exists d, srv, co. split; [done|].
  apply (@directory_routes ascii_folding 389 2 3 1 example_opts d srv co (example_request add_eve) E). done.
Defined.

Lemma bind_authenticates_witness :
  ∃ b, @handleBind ber_model (example_request (bind_as bob_dn "wrong"))
         (at_rest example_dir example_store "" ()) =
         (Ok (), at_rest example_dir example_store ("" +:+ @stream ber_model [RBind b]) ()) ∧
       code (bind_base b) = ResultInvalidCredentials.
Proof.
  destruct (@bind_authenticates ber_model (example_request (bind_as bob_dn "wrong"))
    example_dir example_store "" (mkSimpleBindMessage 9 SimpleAuthChoice bob_dn "wrong" []))
    as (b & Hr & _ & Hc); [apply example_ok|reflexivity|].
  exists b. split; [exact Hr|]. rewrite Hc. vm_compute. reflexivity.
Defined.

Lemma search_users_exact_witness :
  ∃ sent, @handleSearchUsers ber_model
            (example_request (MSearch (mkSearchMessage 4 DefaultUserDN 2 0 0 0 false "(cn=bob)" [] [])))
            (at_rest example_dir example_store "" ()) =
            (Ok (), at_rest example_dir example_store sent ()).
Proof.
  eexists. apply (@search_users_exact ber_model _ example_dir example_store ""
    (mkSearchMessage 4 DefaultUserDN 2 0 0 0 false "(cn=bob)" [] []) "cn=bob");
    [apply example_ok|reflexivity|reflexivity|vm_compute; reflexivity].
Defined.

Lemma add_then_bind_witness :
  ∃ d' s' x,
    (@handleAdd ber_model (example_request add_eve);;
     @handleBind ber_model (example_request (bind_as eve_dn "secret")))
      (at_rest example_dir example_store "" ()) =
      (Ok (), at_rest d' s' ("" +:+ @stream ber_model
         [general_answer (example_request add_eve) ApplicationAddResponse ResultSuccess
            "Unused" "Unused"; RBind x]) ()) ∧
    code (bind_base x) = ResultSuccess.
Proof.
  apply (@add_then_bind ber_model (example_request add_eve)
    (example_request (bind_as eve_dn "secret")) example_dir example_store ""
    (mkAddMessage 7 eve_dn [mkAttribute "password" ["secret"]] [])
    (mkSimpleBindMessage 9 SimpleAuthChoice eve_dn "secret" []) "secret" []);
    [apply example_ok|reflexivity|reflexivity|vm_compute; reflexivity..].
Defined.

Lemma add_then_delete_witness :
  ∃ d' s',
    (@handleAdd ber_model (example_request add_eve);;
     @handleDelete ber_model (example_request (MDelete (mkDeleteMessage 8 eve_dn []))))
      (at_rest example_dir example_store "" ()) =
      (Ok (), at_rest d' s' ("" +:+ @stream ber_model
         [general_answer (example_request add_eve) ApplicationAddResponse ResultSuccess
            "Unused" "Unused";
          general_answer (example_request (MDelete (mkDeleteMessage 8 eve_dn [])))
            ApplicationDelResponse ResultSuccess "Unused" "Unused"]) ()) ∧
    users d' = users example_dir.
Proof.
  destruct (@add_then_delete ber_model (example_request add_eve)
    (example_request (MDelete (mkDeleteMessage 8 eve_dn []))) example_dir example_store ""
    (mkAddMessage 7 eve_dn [mkAttribute "password" ["secret"]] []) (mkDeleteMessage 8 eve_dn []))
    as (d' & s' & Hr & Hu & _);
    [apply example_ok|reflexivity|reflexivity|reflexivity|vm_compute; reflexivity..|].
  exists d', s'. split; [exact Hr|exact Hu].
Defined.

Lemma modify_refines_witness :
  ∃ e s' diag, modify_targets example_dir example_store bob_dn = [e] ∧
    @handleModify ber_model (example_request (modify_bob AddAttribute))
      (at_rest example_dir example_store "" ()) =
      (Ok (), at_rest example_dir s' ("" +:+ @stream ber_model
         [general_answer (example_request (modify_bob AddAttribute)) ApplicationModifyResponse
            ResultSuccess bob_dn diag]) ()) ∧
    GetAttributeValues (view s' e) "email" = ["bob@example.com"; "b@x"].
Proof.
  destruct (modify_targets example_dir example_store bob_dn) as [|e [|e2 l]] eqn:E;
    [vm_compute in E; discriminate E| |vm_compute in E; discriminate E].
  assert (e = 2%positive) as -> by (vm_compute in E; congruence).
  destruct (@modify_refines ber_model (example_request (modify_bob AddAttribute)) example_dir
    example_store "" (mkModifyMessage 8 bob_dn
      [mkChange AddAttribute (mkPartialAttribute "email" ["b@x"])] []) 2%positive)
    as (s' & diag & Hr & Hv & _); [apply example_ok|apply example_ok|reflexivity|exact E|].
  exists 2%positive, s', diag. split; [reflexivity|]. split; [exact Hr|].
  rewrite Hv. vm_compute. reflexivity.
Defined.

Lemma modify_replace_ignored_witness :
  ∃ e s' diag, modify_targets example_dir example_store bob_dn = [e] ∧
    @handleModify ber_model (example_request (modify_bob ReplaceAttribute))
      (at_rest example_dir example_store "" ()) =
      (Ok (), at_rest example_dir s' ("" +:+ @stream ber_model
         [general_answer (example_request (modify_bob ReplaceAttribute)) ApplicationModifyResponse
            ResultSuccess (DN (view example_store e)) diag]) ()).
Proof.
  destruct (modify_targets example_dir example_store bob_dn) as [|e [|e2 l]] eqn:E;
    [vm_compute in E; discriminate E| |vm_compute in E; discriminate E].
  destruct (@modify_replace_ignored ber_model (example_request (modify_bob ReplaceAttribute))
    example_dir example_store "" (mkModifyMessage 8 bob_dn
      [mkChange ReplaceAttribute (mkPartialAttribute "email" ["b@x"])] []) e)
    as (s' & diag & Hr & _);
    [apply example_ok|apply example_ok|reflexivity|exact E|by repeat constructor|].
  exists e, s', diag. split; [reflexivity|exact Hr].
Defined.

Lemma modify_group_not_found_witness :
  ∃ matched diag,
    @handleModify ber_model
      (example_request (MModify (mkModifyMessage 8 "cn=admins,ou=groups,dc=example,dc=org" [] [])))
      (at_rest example_dir example_store "" ()) =
      (Ok (), at_rest example_dir example_store ("" +:+ @stream ber_model
         [general_answer (example_request
            (MModify (mkModifyMessage 8 "cn=admins,ou=groups,dc=example,dc=org" [] [])))
            ApplicationModifyResponse ResultNoSuchObject matched diag]) ()).
Proof.
  apply (@modify_group_not_found ber_model _ example_dir example_store ""
    (mkModifyMessage 8 "cn=admins,ou=groups,dc=example,dc=org" [] []));
    [apply example_ok|reflexivity|vm_compute; reflexivity..].
Defined.

Lemma startTLS_failure_answers_twice_witness :
  ∃ x y,
    @handleStartTLS ber_model (λ _, Some (errorsNew "bad certificate"))
      (example_request (MExtended (mkExtendedOperationMessage 3 ExtendedOperationStartTLS "")))
      (at_rest example_dir example_store "" ()) =
      (Ok (), at_rest example_dir example_store
                ("" +:+ @stream ber_model [RExtended x; RExtended y]) ()).
Proof.
  destruct (@startTLS_failure_answers_twice ber_model (λ _, Some (errorsNew "bad certificate"))
    (example_request (MExtended (mkExtendedOperationMessage 3 ExtendedOperationStartTLS "")))
    example_dir example_store "" 2
    (errorsNew "bad certificate")) as (x & y & Hr & _); [reflexivity|reflexivity|].
  exists x, y. exact Hr.
Defined.

Lemma new_users_bind_witness :
  ∃ b, @handleBind ber_model (example_request (bind_as bob_dn "password"))
         (at_rest example_dir example_store "" ()) =
         (Ok (), at_rest example_dir example_store ("" +:+ @stream ber_model [RBind b]) ()) ∧
       code (bind_base b) = ResultSuccess.
Proof.
  apply (@new_users_bind ber_model ["alice"; "bob"] [] empty_store example_dir example_store ""
    _ (mkSimpleBindMessage 9 SimpleAuthChoice bob_dn "password" []) "bob");
    [apply empty_store_ok|apply surjective_pairing|apply example_ok|reflexivity|set_solver|
     reflexivity|reflexivity|reflexivity].
Defined.
