(* ===== verification/DirDatabase.v ===== *)
(** The test directory as a database of values, and the refinement of it.

    [database] has what a client can observe of a directory: the values of its
    users, groups and token groups and its settings, without pointers, store,
    indices or responses under construction.  [db_step] says what a request
    does to it and what is answered; DirRefines.v shows that the handlers do
    exactly that. *)
From Stdlib Require Import Ascii.
From stdpp Require Import base decidable option list strings gmap.
From Stdlib Require Import ZArith Lia.
From S2P Require Import Prelude GoStd Ber BerModel Codes Options Control Packet Entry Attribute Parameters Message Response Request Mux DirOptions Directory DirectorySpec DirectoryProps DirectoryMain.
Import GoStrings.

Record database : Type := mkDatabase {
  db_users : list Entry;
  db_groups : list Entry;
  db_tokenGroups : gmap string (list Entry);
  db_anonymous : bool;
  db_controls : list Control;
  db_userDN : string;
  db_groupDN : string;
}.

Definition with_users (u : list Entry) (db : database) : database :=
  mkDatabase u (db_groups db) (db_tokenGroups db) (db_anonymous db) (db_controls db)
    (db_userDN db) (db_groupDN db).
Definition with_groups (g : list Entry) (db : database) : database :=
  mkDatabase (db_users db) g (db_tokenGroups db) (db_anonymous db) (db_controls db)
    (db_userDN db) (db_groupDN db).

(** ** Looking up *)

(** The entries whose DN matches a filter. *)
Definition matching (f : string) (es : list Entry) : list Entry :=
  filter (λ e, Is_true (match_ f (DN e))) es.

(** The members of a group that match a filter. *)
Definition members (f : string) (e : Entry) : list string :=
  filter (λ m, Is_true (match_ f ("member=" +:+ m))) (GetAttributeValues e "member").

(** A search of the groups: those with matching members, once for each of them,
    then those that only match by their DN. *)
Definition matching_groups (f : string) (es : list Entry) : list Entry :=
  concat (map (λ e, map (λ _, e) (members f e)) es) ++
  filter (λ e, members f e = []) (matching f es).

(** ** Requests *)

Section requests.
Context `{Folding}.

(** What a search answers that found [es]. *)
Definition db_found (r : Request) (db : database) (es : list Entry) : list Response :=
  match es with
  | [] => [done_answer r ResultNoSuchObject []]
  | _ => map (entry_answer r) es ++ [done_answer r ResultSuccess (db_controls db)]
  end.

(** A search at the base DN of the users looks at the users, at that of the
    groups at the groups and elsewhere at both; a base [<SID=...>] asks for
    token groups when there are any. *)
Definition db_search (r : Request) (db : database) (m : SearchMessage) : list Response :=
  if bool_decide (db_userDN db = "") || EqualFold (BaseDN m) (db_userDN db) then
    db_found r db (matching (Filter m) (db_users db))
  else if bool_decide (db_groupDN db = "") || EqualFold (BaseDN m) (db_groupDN db) then
    db_found r db (matching_groups (Filter m) (db_groups db))
  else if bool_decide (0 < size (db_tokenGroups db))%nat && HasPrefix (BaseDN m) "<SID=" then
    let sid := TrimSuffix (TrimPrefix (BaseDN m) "<SID=") ">" in
    map (entry_answer r) (default [] (db_tokenGroups db !! sid)) ++ [done_answer r ResultSuccess []]
  else
    let f := if Contains (BaseDN m) (db_userDN db) then parenthesised (BaseDN m) else Filter m in
    db_found r db (matching f (db_users db) ++ matching f (db_groups db)).

(** A user authenticates with its DN and its first password. *)
Definition authenticates (m : SimpleBindMessage) (e : Entry) : bool :=
  bool_decide (DN e = UserName m ∧ head (GetAttributeValues e "password") = Some (Password m)).

Definition db_bind (r : Request) (db : database) (m : SimpleBindMessage) : Response :=
  let reply code c := RBind (mkBindResponse (mkBaseResponse (GetID (message r)) code "" "") c) in
  if decide (Password m = "" ∧ db_anonymous db = true) then reply ResultSuccess []
  else if existsb (authenticates m) (db_users db) then reply ResultSuccess (db_controls db)
  else reply ResultInvalidCredentials [].

(** An entry is added to the users unless a user matches its DN. *)
Definition db_add (r : Request) (db : database) (m : AddMessage) : database * Response :=
  let reply := general_answer r ApplicationAddResponse in
  match matching (parenthesised (AddDN m)) (db_users db) with
  | [] => (with_users (db_users db ++ [NewEntry (AddDN m) (attributeMap (AddAttributes m))]) db,
           reply ResultSuccess "Unused" "Unused")
  | _ => (db, reply ResultEntryAlreadyExists "Unused" ("entry exists for DN: " +:+ AddDN m))
  end.

(** The entries without those that match. *)
Definition removed (f : string) (es : list Entry) : list Entry :=
  filter (λ e, ¬ Is_true (match_ f (DN e))) es.

(** The only user that matches is deleted, or the only group if no user does. *)
Definition db_delete (r : Request) (db : database) (m : DeleteMessage) : database * Response :=
  let f := parenthesised (DeleteDN m) in
  let reply := general_answer r ApplicationDelResponse in
  match matching f (db_users db), matching f (db_groups db) with
  | [_], _ => (with_users (removed f (db_users db)) db, reply ResultSuccess "Unused" "Unused")
  | (_ :: _) as l, _ => (db, reply ResultInappropriateMatching "Unused" (moreThanOne (length l)))
  | [], [_] => (with_groups (removed f (db_groups db)) db, reply ResultSuccess "Unused" "Unused")
  | [], (_ :: _) as l =>
      (db, reply ResultInappropriateMatching "Unused" (moreThanOne (length l)))
  | [], [] => (db, reply ResultNoSuchObject "Unused" "Unused")
  end.

(** The changes carried out on the entries that match. *)
Definition changed_entries (f : string) (cs : list Change) (es : list Entry) : list Entry :=
  map (λ e, if match_ f (DN e) then foldl apply_change e cs else e) es.

(** The only user that matches is changed, or if no user does the only group
    that matches the DN as a filter. *)
Definition db_modify (r : Request) (db : database) (m : ModifyMessage) : database * Response :=
  let f := parenthesised (ModifyDN m) in
  let reply := general_answer r ApplicationModifyResponse in
  match matching f (db_users db), matching (ModifyDN m) (db_groups db) with
  | [e], _ => (with_users (changed_entries f (Changes m) (db_users db)) db,
               reply ResultSuccess (DN e) "Unused")
  | (_ :: _) as l, _ => (db, reply ResultInappropriateMatching "Unused" (moreThanOne (length l)))
  | [], [e] => (with_groups (changed_entries (ModifyDN m) (Changes m) (db_groups db)) db,
                reply ResultSuccess (DN e) "Unused")
  | [], (_ :: _) as l =>
      (db, reply ResultInappropriateMatching "Unused" (moreThanOne (length l)))
  | [], [] => (db, reply ResultNoSuchObject "Unused" "Unused")
  end.

(** StartTLS answers success before the handshake and, when that fails, a second time. *)
Definition db_startTLS (r : Request) (tls : option error) : list Response :=
  let reply code diag :=
    RExtended (mkExtendedResponse (mkBaseResponse (GetID (message r)) code diag "")
      ExtendedOperationStartTLS) in
  reply ResultSuccess "" ::
  match tls with
  | None => []
  | Some e => [reply ResultOperationsError
                 ("StartTLS Handshake error : " +:+ quote +:+ ErrorText e +:+ quote)]
  end.

(** Any other request is refused. *)
Definition db_refuse (r : Request) : Response :=
  general_answer r ApplicationExtendedResponse ResultUnwillingToPerform "Unused"
    "intentionally not handled".

(** One request; [tls] is the error of a StartTLS. *)
Definition db_step (tls : option error) (db : database) (r : Request) : database * list Response :=
  let one '(db, x) := (db, [x]) in
  match message r with
  | MSimpleBind m =>
      (db, [if decide (AuthChoice m = SimpleAuthChoice) then db_bind r db m else db_refuse r])
  | MSearch m => (db, db_search r db m)
  | MModify m => one (db_modify r db m)
  | MAdd m => one (db_add r db m)
  | MDelete m => one (db_delete r db m)
  | MExtended m =>
      (db, if decide (ExtendedName m = ExtendedOperationStartTLS) then db_startTLS r tls
           else [db_refuse r])
  | MUnbind _ => (db, [db_refuse r])
  end.

(** Requests one after the other: the database at the end, and the answers to each. *)
Fixpoint db_run (tls : option error) (db : database) (rs : list Request)
    : database * list (list Response) :=
  match rs with
  | [] => (db, [])
  | r :: rs =>
      let '(db, a) := db_step tls db r in
      let '(db, as_) := db_run tls db rs in
      (db, a :: as_)
  end.
End requests.
