(* ===== verification/DirRefines.v ===== *)
(** The handlers of the test directory refine the database of DirDatabase.v. *)
From Stdlib Require Import Ascii.
From stdpp Require Import base decidable option list strings gmap.
From Stdlib Require Import ZArith Lia.
From S2P Require Import Prelude GoStd Ber BerModel Codes Options Control Packet Entry Attribute Parameters Message Response Request Mux Conn Server DirOptions Directory DirectorySpec DirectoryProps DirectoryMain DirDatabase.
Import GoStrings.

(** ** The abstraction *)

(** The database a directory in a store stands for. *)
Definition db_of (d : Directory) (s : store) : database :=
  mkDatabase (map (view s) (users d)) (map (view s) (groups d))
    (map (view s) <$> tokenGroups d) (allowAnonymousBind d) (controls d) (userDN d) (groupDN d).

(** No entry is in the directory twice, and no attribute in two entries. *)
Record separate (d : Directory) (s : store) : Prop := mkSeparate {
  sep_unshared : unshared s;
  sep_entries : NoDup (users d ++ groups d);
  sep_tokens : ∀ sid l e, tokenGroups d !! sid = Some l → e ∈ l → e ∉ users d ++ groups d;
}.

(** ** Looking up *)

Lemma map_hits s f l : map (view s) (hits s f l) = matching f (map (view s) l).
Proof.
  induction l as [|e l IH]; [done|]. rewrite hits_cons. unfold matching in *. cbn [map].
  rewrite filter_cons. destruct (match_ f (DN (view s e))); simpl; [by rewrite IH|done].
Qed.

Lemma map_member_hits s f l :
  map (view s) (member_hits s f l) =
  concat (map (λ e, map (λ _, e) (members f e)) (map (view s) l)).
Proof.
  unfold member_hits, members. rewrite concat_map, !map_map. f_equal.
  apply map_ext. intros e. by rewrite map_map.
Qed.

Lemma elem_of_member_hits s f l e :
  e ∈ member_hits s f l ↔ e ∈ l ∧ members f (view s e) ≠ [].
Proof.
  unfold member_hits. rewrite list_elem_of_In, in_concat. split.
  - intros (x & (e' & <- & He')%in_map_iff & (m & -> & Hm)%in_map_iff).
    split; [by apply list_elem_of_In|]. unfold members. by destruct (filter _ _).
  - intros [He Hm]. eexists. split; [apply in_map; by apply list_elem_of_In|].
    unfold members in Hm. destruct (filter _ _) as [|m ms]; [done|]. by left.
Qed.

Lemma filter_ext_in {A} (P Q : A → Prop) `{!∀ x, Decision (P x), !∀ x, Decision (Q x)} (l : list A) :
  (∀ x, x ∈ l → P x ↔ Q x) → filter P l = filter Q l.
Proof.
  induction l as [|x l IH]; intros Hpq; [done|]. rewrite !filter_cons, IH.
  - destruct (Hpq x); [by left|]. repeat case_decide; tauto.
  - intros y Hy. apply Hpq. by right.
Qed.

Lemma filter_all {A} (P : A → Prop) `{!∀ x, Decision (P x)} (l : list A) :
  (∀ x, x ∈ l → P x) → filter P l = l.
Proof.
  induction l as [|x l IH]; intros HP; [done|]. rewrite filter_cons, decide_True, IH; [done| |].
  - intros y Hy. apply HP. by right.
  - apply HP. by left.
Qed.

(** Entries that are all different are appended unless they are there. *)
Lemma foldl_append_new (l found : list addr) :
  NoDup l →
  foldl (λ acc e, if decide (e ∈ acc) then acc else acc ++ [e]) found l =
  found ++ filter (λ e, e ∉ found) l.
Proof.
  revert found. induction l as [|e l IH]; intros found Hl; [by rewrite app_nil_r|].
  apply NoDup_cons in Hl as [He Hl]. cbn [foldl]. rewrite IH, filter_cons by done.
  case_decide as Hin.
  - by rewrite decide_False by tauto.
  - rewrite decide_True by done. rewrite <-app_assoc. do 2 f_equal.
    apply filter_ext_in. intros x Hx. rewrite elem_of_app, list_elem_of_singleton.
    assert (x ≠ e) by (intros ->; done). tauto.
Qed.

(** The matching entries of different entries are different. *)
Lemma NoDup_hits s f l : NoDup l → NoDup (hits s f l).
Proof. apply NoDup_filter. Qed.

Lemma elem_of_hits s f l e : e ∈ hits s f l → e ∈ l.
Proof. by intros [_ ?]%list_elem_of_filter. Qed.

(** Filtering entries by what they hold. *)
Lemma map_filter_view s (P : Entry → Prop) `{!∀ x, Decision (P x)} l :
  map (view s) (filter (λ e, P (view s e)) l) = filter P (map (view s) l).
Proof.
  induction l as [|e l IH]; [done|]. cbn [map]. rewrite !filter_cons.
  case_decide; cbn [map]; by rewrite IH.
Qed.

Lemma map_group_hits s f l :
  NoDup l →
  map (view s) (add_hits s f l (member_hits s f l)) = matching_groups f (map (view s) l).
Proof.
  intros Hl. unfold add_hits. rewrite foldl_append_new by by apply NoDup_hits.
  rewrite map_app, map_member_hits. unfold matching_groups. f_equal.
  rewrite <-map_hits, <-map_filter_view. f_equal. apply filter_ext_in.
  intros e He%elem_of_hits. rewrite elem_of_member_hits. destruct (members f (view s e)); naive_solver.
Qed.

Lemma map_generic_hits s f u g :
  NoDup (u ++ g) →
  map (view s) (add_hits s f g (hits s f u)) =
  matching f (map (view s) u) ++ matching f (map (view s) g).
Proof.
  intros (Hu & Hd & Hg)%NoDup_app. unfold add_hits.
  rewrite foldl_append_new, map_app, map_hits by by apply NoDup_hits. f_equal.
  rewrite filter_all; [apply map_hits|]. intros e He Hin. apply elem_of_hits in He, Hin. by apply (Hd e).
Qed.

Lemma existsb_bind_user s m l :
  existsb (bind_user s m) l = existsb (authenticates m) (map (view s) l).
Proof. induction l as [|u l IH]; [done|]. cbn [map existsb]. by rewrite IH. Qed.

(** ** Updating *)

Lemma removed_one s f k l j :
  positions s f k l = [j] →
  ∃ i, j = (k + i)%nat ∧ removed f (map (view s) l) = map (view s) (delete i l).
Proof.
  revert k. induction l as [|e l IH]; intros k Hp; [done|]. cbn [positions map] in *.
  unfold removed in *. rewrite filter_cons. destruct (match_ f (DN (view s e))) eqn:Em.
  - injection Hp as <- Hp. exists 0%nat. split; [lia|]. rewrite decide_False by (simpl; tauto).
    simpl. apply filter_all. intros x (y & -> & Hy)%list_elem_of_fmap Hx.
    assert (y ∈ hits s f l) as Hin by by apply list_elem_of_filter.
    assert (length (hits s f l) = 0)%nat by (rewrite <-(length_positions s f (S k)), Hp; done).
    by destruct (hits s f l); [apply elem_of_nil in Hin|].
  - rewrite decide_True by (simpl; tauto). destruct (IH _ Hp) as (i & -> & Hi).
    exists (S i). split; [lia|]. simpl. by rewrite Hi.
Qed.

Lemma map_view_same s s' l :
  (∀ e, e ∈ l → view s' e = view s e) → map (view s') l = map (view s) l.
Proof. intros Hv. apply map_ext_in. intros e He. by apply Hv, list_elem_of_In. Qed.

(** Where the only matching entry is. *)
Lemma position_hit s f l i e : positions s f 0 l = [i] → hits s f l = [e] → l !! i = Some e.
Proof.
  assert (∀ k, positions s f k l = [i] → hits s f l = [e] → ∃ j, i = (k + j)%nat ∧ l !! j = Some e)
    as Hx; [|intros Hp Hh; by destruct (Hx 0%nat Hp Hh) as (j & -> & ?)].
  induction l as [|x l IH]; intros k Hp Hh; [done|]. rewrite hits_cons in Hh. simpl in Hp.
  destruct (match_ f (DN (view s x))).
  - injection Hp as <- _. injection Hh as <- _. exists 0%nat. split; [lia|done].
  - destruct (IH _ Hp Hh) as (j & -> & Hj). exists (S j). split; [lia|done].
Qed.

(** The only matching entry is changed. *)
Lemma changed_one s s' f cs e l :
  NoDup l → hits s f l = [e] → view s' e = foldl apply_change (view s e) cs →
  (∀ x, x ∈ l → x ≠ e → view s' x = view s x) →
  map (view s') l = changed_entries f cs (map (view s) l).
Proof.
  intros Hn Hh He Hx. unfold changed_entries. rewrite map_map. apply map_ext_in.
  intros x Hin%list_elem_of_In. destruct (decide (x = e)) as [->|Hne].
  - assert (e ∈ hits s f l) as [Hm _]%list_elem_of_filter by (rewrite Hh; by left).
    destruct (match_ f (DN (view s e))); [done|by destruct Hm].
  - rewrite Hx by done. destruct (match_ f (DN (view s x))) eqn:Em; [|done].
    assert (x ∈ hits s f l) as Hxh by (apply list_elem_of_filter; by rewrite Em).
    rewrite Hh in Hxh. by apply list_elem_of_singleton in Hxh.
Qed.

Lemma matching_hits s f l :
  match matching f (map (view s) l) with
  | [] => hits s f l = [] ∧ positions s f 0 l = []
  | [v] => ∃ e i, hits s f l = [e] ∧ v = view s e ∧ positions s f 0 l = [i] ∧
                  removed f (map (view s) l) = map (view s) (delete i l)
  | vs => length (hits s f l) = length vs ∧ ∃ i j k, positions s f 0 l = i :: j :: k
  end.
Proof.
  rewrite <-map_hits. pose proof (length_positions s f 0 l) as Hlen.
  destruct (hits s f l) as [|e [|e2 h]]; simpl in *.
  - by destruct (positions s f 0 l).
  - destruct (positions s f 0 l) as [|i [|]] eqn:Hp; try done.
    destruct (removed_one s f 0 l i Hp) as (i' & -> & Hr). exists e, i'. by rewrite Hr.
  - rewrite length_map. split; [done|].
    destruct (positions s f 0 l) as [|i [|j k]]; try done. by exists i, j, k.
Qed.

(** ** Every request *)

Section refinement.
Context `{BerOps} `{Folding}.

(** What a handler has to do for a request, after which only the entries of the
    directory may have changed. *)
Definition refined (tls : option error) (r : Request) (run : HM unit unit) (d : Directory)
    (s : store) (sent : string) : Prop :=
  ∃ d' s',
    run (at_rest d s sent ()) =
      (Ok (), at_rest d' s' (sent +:+ stream (snd (db_step tls (db_of d s) r))) ()) ∧
    db_of d' s' = fst (db_step tls (db_of d s) r) ∧
    dir_ok d' s' ∧ separate d' s' ∧ server d' = server d.

Section request.
Variables (tls : option error) (r : Request) (d : Directory) (s : store) (sent : string).
Hypothesis Hd : dir_ok d s.
Hypothesis Hsep : separate d s.

(** Requests that only read. *)
Lemma refined_read run xs :
  db_step tls (db_of d s) r = (db_of d s, xs) →
  run (at_rest d s sent ()) = (Ok (), at_rest d s (sent +:+ stream xs) ()) →
  refined tls r run d s sent.
Proof. intros Hx Hr. exists d, s. by rewrite Hx. Qed.

Lemma db_found_answer l :
  found_answer r d s l = db_found r (db_of d s) (map (view s) l).
Proof. destruct l; [done|]. simpl. by rewrite map_map. Qed.

Lemma separate_users u :
  NoDup (u ++ groups d) → (∀ e, e ∈ u → e ∈ users d) → separate (set_users u d) s.
Proof.
  destruct Hsep as [U _ T]. intros Hn Hu. constructor; [done|done|].
  intros sid l e Hl He Hin. apply (T sid l e Hl He). simpl in Hin. set_solver.
Qed.

Lemma separate_groups g :
  NoDup (users d ++ g) → (∀ e, e ∈ g → e ∈ groups d) → separate (set_groups g d) s.
Proof.
  destruct Hsep as [U _ T]. intros Hn Hu. constructor; [done|done|].
  intros sid l e Hl He Hin. apply (T sid l e Hl He). simpl in Hin. set_solver.
Qed.
Lemma refined_search handshake m :
  message r = MSearch m → refined tls r (dirHandle handshake (routed d r) r) d s sent.
Proof.
  intros Hm. destruct Hsep as [_ Hn _]. pose proof Hn as (_ & _ & Hg)%NoDup_app.
  eapply refined_read; [unfold db_step; rewrite Hm; reflexivity|].
  unfold routed, db_search. rewrite Hm. cbn [db_of db_userDN db_groupDN db_users db_groups].
  destruct (_ || EqualFold _ (userDN d)); [|destruct (_ || EqualFold _ (groupDN d))].
  - cbn [dirHandle]. rewrite (handleSearchUsers_run r d s sent m Hd Hm), db_found_answer.
    by rewrite map_hits.
  - cbn [dirHandle]. rewrite (handleSearchGroups_run r d s sent m Hd Hm), db_found_answer.
    by rewrite map_group_hits.
  - cbn [dirHandle]. rewrite (handleSearchGeneric_run r d s sent m Hd Hm). do 4 f_equal.
    unfold generic_answer, sid_search. cbn [db_of db_tokenGroups]. rewrite map_size_fmap.
    destruct (_ && _).
    + unfold sid_entries. rewrite lookup_fmap.
      by destruct (tokenGroups d !! _); simpl; rewrite ?map_map.
    + by rewrite db_found_answer, map_generic_hits.
Qed.

Lemma refined_bind handshake m :
  message r = MSimpleBind m → refined tls r (dirHandle handshake (routed d r) r) d s sent.
Proof.
  intros Hm. eapply refined_read; [unfold db_step; rewrite Hm; reflexivity|].
  unfold routed. rewrite Hm. case_decide as Ha; cbn [dirHandle].
  - rewrite (handleBind_run r d s sent m Hd Hm). do 5 f_equal. unfold bind_answer, db_bind.
    rewrite decide_False by tauto. rewrite existsb_bind_user. cbn [db_of db_anonymous db_users].
    case_decide; [done|]. by destruct (existsb _ _).
  - unfold handleNotFound. by rewrite (bind_run _ _ _ _ _ (write_at_rest _ _ _ _ _)).
Qed.

Lemma refined_add handshake m :
  message r = MAdd m → refined tls r (dirHandle handshake (routed d r) r) d s sent.
Proof.
  intros Hm. unfold routed. rewrite Hm. cbn [dirHandle].
  unfold refined, db_step. rewrite Hm. unfold db_add. cbn [db_of db_users].
  pose proof (matching_hits s (parenthesised (AddDN m)) (users d)) as Hh.
  destruct (matching _ _) as [|v vs].
  - destruct Hh as [Hh _].
    destruct (new_entry (NewEntry (AddDN m) (attributeMap (AddAttributes m))) s) as [l s'] eqn:E.
    exists (set_users (users d ++ [l]) d), s'. split; [by apply (handleAdd_new r d s sent m)|].
    destruct (dir_ok_add _ _ _ _ _ Hd E) as (Hd' & Hl & Hv & Hun).
    pose proof (new_entry_spec _ _ _ _ E) as (Hf & _).
    assert (∀ x, live s x → x ≠ l) as Hne by (intros x [o Ho] ->; congruence).
    destruct Hd as [Hok Hu Hg Ht]. rewrite Forall_forall in Hu, Hg.
    destruct Hsep as [U N T]. split; [|split; [done|split; [|done]]].
    + unfold db_of, with_users. simpl. f_equal.
      * rewrite map_app, (map_view_same s s') by auto. simpl. by rewrite Hl.
      * apply map_view_same. auto.
      * apply map_fmap_ext. intros sid k Hk. apply map_view_same. intros e He.
        specialize (Ht sid k Hk). rewrite Forall_forall in Ht. auto.
    + constructor; [auto| |].
      * simpl. rewrite <-app_assoc, (Permutation_app_comm [l]), app_assoc.
        apply NoDup_app. split; [done|]. split; [|apply NoDup_singleton].
        intros x Hx ->%list_elem_of_singleton. apply elem_of_app in Hx as [Hx|Hx];
          by apply (Hne l); auto.
      * intros sid k e Hk He Hin. simpl in Hin, Hk. specialize (Ht sid k Hk).
        rewrite Forall_forall in Ht. specialize (Hne e (Ht e He)).
        apply (T sid k e Hk He). set_solver.
  - exists d, s. split; [|done]. apply (handleAdd_exists r d s sent m); [done..|].
    destruct vs; [destruct Hh as (? & ? & -> & _); done|]. by destruct (hits _ _ _); [destruct Hh|].
Qed.
Lemma NoDup_delete_users i : NoDup (delete i (users d) ++ groups d).
Proof.
  eapply sublist_NoDup; [apply Hsep|]. apply sublist_app; [apply sublist_delete|done].
Qed.

Lemma NoDup_delete_groups i : NoDup (users d ++ delete i (groups d)).
Proof.
  eapply sublist_NoDup; [apply Hsep|]. apply sublist_app; [done|apply sublist_delete].
Qed.

Lemma elem_of_delete_at {A} i (l : list A) x : x ∈ delete i l → x ∈ l.
Proof. intros Hx. eapply elem_of_sublist; [done|apply sublist_delete]. Qed.

Lemma refined_delete_outcome m d' code diag :
  message r = MDelete m →
  delete_outcome d s (parenthesised (DeleteDN m)) = (d', code, diag) → separate d' s →
  db_delete r (db_of d s) m =
    (db_of d' s, general_answer r ApplicationDelResponse code "Unused" diag) →
  refined tls r (handleDelete r) d s sent.
Proof.
  intros Hm Ho Hs' Hdb. exists d', s. unfold db_step. rewrite Hm, Hdb.
  destruct (delete_outcome_ok _ _ _ _ _ _ Hd Ho) as (? & ? & _).
  split; [by apply (handleDelete_run r d s sent m)|done].
Qed.

Lemma refined_delete handshake m :
  message r = MDelete m → refined tls r (dirHandle handshake (routed d r) r) d s sent.
Proof.
  intros Hm. unfold routed. rewrite Hm. cbn [dirHandle].
  set (f := parenthesised (DeleteDN m)).
  pose proof (matching_hits s f (users d)) as Hu. pose proof (matching_hits s f (groups d)) as Hg.
  assert (db_delete r (db_of d s) m = db_delete r (db_of d s) m) as Hdb by done.
  unfold db_delete at 2 in Hdb. fold f in Hdb. cbn [db_of db_users db_groups] in Hdb.
  destruct (matching f (map (view s) (users d))) as [|u [|u2 us]].
  1: destruct Hu as [_ Pu], (matching f (map (view s) (groups d))) as [|g [|g2 gs]].
  - destruct Hg as [_ Pg]. eapply (refined_delete_outcome m d); [done| |done|exact Hdb].
    unfold delete_outcome. fold f. by rewrite Pu, Pg.
  - destruct Hg as (e & i & _ & _ & Pg & Rg). rewrite Rg in Hdb.
    eapply (refined_delete_outcome m (set_groups (delete i (groups d)) d)); [done| | |exact Hdb].
    + unfold delete_outcome. fold f. by rewrite Pu, Pg.
    + apply separate_groups; [apply NoDup_delete_groups|apply elem_of_delete_at].
  - destruct Hg as (Lg & i & j & k & Pg). eapply (refined_delete_outcome m d); [done| |done|exact Hdb].
    unfold delete_outcome. fold f. rewrite Pu, Pg, <-Lg, <-(length_positions s f 0), Pg. done.
  - destruct Hu as (e & i & _ & _ & Pu & Ru). rewrite Ru in Hdb.
    eapply (refined_delete_outcome m (set_users (delete i (users d)) d)); [done| | |exact Hdb].
    + unfold delete_outcome. fold f. by rewrite Pu.
    + apply separate_users; [apply NoDup_delete_users|apply elem_of_delete_at].
  - destruct Hu as (Lu & i & j & k & Pu). eapply (refined_delete_outcome m d); [done| |done|exact Hdb].
    unfold delete_outcome. fold f. rewrite Pu, <-Lu, <-(length_positions s f 0), Pu. done.
Qed.

(** A change to one entry of the directory. *)
Lemma separate_changed s' e g : separate d s → changed e g s s' → separate d s'.
Proof. intros [U N T] C. constructor; [by apply C|done|done]. Qed.

Lemma refined_modify_one m s' e (db : database) :
  message r = MModify m → modify_targets d s (ModifyDN m) = [e] →
  handleModify r (at_rest d s sent ()) = (Ok (), at_rest d s' (sent +:+ stream
    [general_answer r ApplicationModifyResponse ResultSuccess (DN (view s e)) "Unused"]) ()) →
  changed e (λ v, foldl apply_change v (Changes m)) s s' →
  db_modify r (db_of d s) m =
    (db, general_answer r ApplicationModifyResponse ResultSuccess (DN (view s e)) "Unused") →
  db_of d s' = db → refined tls r (handleModify r) d s sent.
Proof.
  intros Hm Ht Hr C Hdb Hof. exists d, s'. unfold db_step. rewrite Hm, Hdb. split; [done|].
  split; [done|]. split; [|split; [by eapply separate_changed|done]].
  eapply dir_ok_store; [done|apply C..].
Qed.

Lemma tokens_same s' e :
  (∀ l, live s l → l ≠ e → view s' l = view s l) → e ∈ users d ++ groups d →
  map (view s') <$> tokenGroups d = map (view s) <$> tokenGroups d.
Proof.
  intros Hx Hin. apply map_fmap_ext. intros sid k Hk. apply map_view_same. intros x Hk'.
  pose proof (ok_tokenGroups _ _ Hd sid k Hk) as Ht. rewrite Forall_forall in Ht.
  apply Hx; [auto|]. intros ->. by apply (sep_tokens _ _ Hsep sid k e Hk Hk').
Qed.

(** The database after the change of one entry that is among the users or the groups. *)
Lemma db_of_changed_users s' e f cs :
  hits s f (users d) = [e] → changed e (λ v, foldl apply_change v cs) s s' →
  db_of d s' = with_users (changed_entries f cs (map (view s) (users d))) (db_of d s).
Proof.
  intros Hh C. destruct Hsep as [U N _]. destruct (ch_view _ _ _ _ C U) as (_ & He & Hx).
  assert (e ∈ users d) as Hin by (eapply elem_of_hits; rewrite Hh; by left).
  pose proof N as (Nu & Nd & _)%NoDup_app. destruct Hd as [_ Hu Hg _].
  rewrite Forall_forall in Hu, Hg. unfold db_of, with_users. simpl. f_equal.
  - by apply (changed_one s s' f cs e); auto.
  - apply map_view_same. intros x Hin'. apply Hx; [auto|]. intros ->. by apply (Nd e).
  - apply (tokens_same s' e); [done|set_solver].
Qed.

Lemma db_of_changed_groups s' e f cs :
  hits s f (groups d) = [e] → changed e (λ v, foldl apply_change v cs) s s' →
  db_of d s' = with_groups (changed_entries f cs (map (view s) (groups d))) (db_of d s).
Proof.
  intros Hh C. destruct Hsep as [U N _]. destruct (ch_view _ _ _ _ C U) as (_ & He & Hx).
  assert (e ∈ groups d) as Hin by (eapply elem_of_hits; rewrite Hh; by left).
  pose proof N as (_ & Nd & Ng)%NoDup_app. destruct Hd as [_ Hu Hg _].
  rewrite Forall_forall in Hu, Hg. unfold db_of, with_groups. simpl. f_equal.
  - apply map_view_same. intros x Hin'. apply Hx; [auto|]. intros ->. by apply (Nd e).
  - by apply (changed_one s s' f cs e); auto.
  - apply (tokens_same s' e); [done|set_solver].
Qed.

Lemma refined_modify handshake m :
  message r = MModify m → refined tls r (dirHandle handshake (routed d r) r) d s sent.
Proof.
  intros Hm. unfold routed. rewrite Hm. cbn [dirHandle].
  pose proof (handleModify_exact r d s sent m Hd Hm) as Hx. cbv zeta in Hx.
  set (f := parenthesised (ModifyDN m)).
  pose proof (matching_hits s f (users d)) as Hu.
  pose proof (matching_hits s (ModifyDN m) (groups d)) as Hg.
  assert (db_modify r (db_of d s) m = db_modify r (db_of d s) m) as Hdb by done.
  unfold db_modify at 2 in Hdb. fold f in Hdb. cbn [db_of db_users db_groups] in Hdb.
  unfold modify_targets in Hx. fold f in Hx.
  destruct (matching f (map (view s) (users d))) as [|u [|u2 us]].
  1: destruct Hu as [Hu _]; rewrite Hu in Hx;
     destruct (matching (ModifyDN m) (map (view s) (groups d))) as [|g [|g2 gs]].
  - destruct Hg as [Hg _]. rewrite Hg in Hx. destruct Hx as (? & Hr & ->). eapply refined_read; [|exact Hr].
    unfold db_step. by rewrite Hm, Hdb.
  - destruct Hg as (e & i & Hg & -> & _). rewrite Hg in Hx. destruct Hx as (s' & Hr & _ & C).
    eapply (refined_modify_one m s' e); try done; [|by apply (db_of_changed_groups s' e)].
    unfold modify_targets. fold f. by rewrite Hu.
  - destruct Hg as (Lg & _). destruct (hits s (ModifyDN m) (groups d)) as [|e1 [|e2 h]]; try done.
    destruct Hx as (? & Hr & ->). eapply refined_read; [|exact Hr].
    unfold db_step. rewrite Hm, Hdb. by rewrite <-Lg.
  - destruct Hu as (e & i & Hu & -> & _). rewrite Hu in Hx. destruct Hx as (s' & Hr & _ & C).
    eapply (refined_modify_one m s' e); try done; [|by apply (db_of_changed_users s' e)].
    unfold modify_targets. fold f. by rewrite Hu.
  - destruct Hu as (Lu & _). destruct (hits s f (users d)) as [|e1 [|e2 h]]; try done.
    destruct Hx as (? & Hr & ->). eapply refined_read; [|exact Hr].
    unfold db_step. rewrite Hm, Hdb. by rewrite <-Lu.
Qed.

Lemma refined_refuse handshake run xs :
  db_step tls (db_of d s) r = (db_of d s, xs) → xs = [db_refuse r] →
  run = dirHandle handshake HNotFound r → refined tls r run d s sent.
Proof.
  intros Hx -> ->. eapply refined_read; [done|].
  simpl. unfold handleNotFound. by rewrite (bind_run _ _ _ _ _ (write_at_rest _ _ _ _ _)).
Qed.

Lemma refined_extended handshake m :
  StartTLS handshake (server d) = tls →
  message r = MExtended m → refined tls r (dirHandle handshake (routed d r) r) d s sent.
Proof.
  intros Ht Hm. unfold routed. rewrite Hm. case_decide as Hn.
  - eapply refined_read; [unfold db_step; rewrite Hm, decide_True by done; reflexivity|].
    cbn [dirHandle]. unfold handleStartTLS.
    rewrite (bind_run _ _ _ _ _ (write_at_rest _ _ _ _ _)). rewrite bind_getDir, Ht.
    destruct tls as [e|]; [|done].
    rewrite (bind_run _ _ _ _ _ (write_at_rest _ _ _ _ _)). by rewrite <-app_assoc_str, <-stream_app.
  - eapply refined_refuse; [unfold db_step; rewrite Hm, decide_False by done; reflexivity|done..].
Qed.

Lemma dirHandle_refined handshake :
  StartTLS handshake (server d) = tls → refined tls r (dirHandle handshake (routed d r) r) d s sent.
Proof.
  intros Ht. destruct (message r) as [m|m|m|m|m|m|m] eqn:Hm.
  - by eapply refined_search.
  - by eapply refined_bind.
  - by eapply refined_extended.
  - by eapply refined_modify.
  - by eapply refined_add.
  - by eapply refined_delete.
  - eapply refined_refuse; [unfold db_step; rewrite Hm; reflexivity|done|].
    unfold routed. by rewrite Hm.
Qed.
End request.

(** ** Sequences of requests *)

Lemma db_step_settings tls db r :
  db_userDN (fst (db_step tls db r)) = db_userDN db ∧
  db_groupDN (fst (db_step tls db r)) = db_groupDN db.
Proof.
  unfold db_step. destruct (message r); try done.
  - unfold db_modify. destruct (matching _ _) as [|? [|? ?]]; try done.
    by destruct (matching _ _) as [|? [|? ?]].
  - unfold db_add. by destruct (matching _ _).
  - unfold db_delete. destruct (matching _ _) as [|? [|? ?]]; try done.
    by destruct (matching _ _) as [|? [|? ?]].
Qed.

Lemma serveAll_refined handshake d0 d s sent rs :
  dir_ok d s → separate d s → userDN d = userDN d0 → groupDN d = groupDN d0 →
  Forall request_ok rs →
  let '(db, answers) := db_run (StartTLS handshake (server d)) (db_of d s) rs in
  ∃ d' s',
    serveAll handshake (registered (dirRegistrations d0)) rs (at_rest d s sent ()) =
      (Ok (), at_rest d' s' (sent +:+ stream (concat answers)) ()) ∧
    db_of d' s' = db ∧ dir_ok d' s' ∧ separate d' s'.
Proof.
  intros Hd Hs Hu Hg Hr. revert d s sent Hd Hs Hu Hg.
  induction Hr as [|r rs Hr _ IH]; intros d s sent Hd Hs Hu Hg.
  { exists d, s. simpl. by rewrite app_nil_r_str. }
  destruct (dirHandle_refined _ r d s sent Hd Hs handshake eq_refl)
    as (d1 & s1 & Hrun & Hdb & Hd1 & Hs1 & Hsrv).
  destruct (db_step_settings (StartTLS handshake (server d)) (db_of d s) r) as [Hu1 Hg1].
  cbn [db_run]. destruct (db_step _ (db_of d s) r) as [db a]. simpl in Hrun, Hdb, Hu1, Hg1.
  specialize (IH d1 s1 (sent +:+ stream a) Hd1 Hs1).
  rewrite Hsrv, Hdb in IH. rewrite <-Hdb in Hu1, Hg1. simpl in Hu1, Hg1.
  destruct (db_run _ db rs) as [db' as_].
  destruct IH as (d2 & s2 & Hrun2 & ?); [congruence..|]. exists d2, s2. split; [|done].
  cbn [serveAll]. erewrite bind_run; [rewrite Hrun2; simpl; by rewrite stream_app, app_assoc_str|].
  unfold dirServe. rewrite (dirRegistrations_ext d d0) by congruence.
  by rewrite (serve_dir d r Hr), handlerAt_handle.
Qed.
End refinement.

(** ** Distinct users *)

Lemma DN_apply_changes e cs : DN (foldl apply_change e cs) = DN e.
Proof. revert e. induction cs as [|c cs IH]; intros e; [done|]. simpl. by rewrite IH. Qed.

Lemma DN_changed_entries f cs es : map DN (changed_entries f cs es) = map DN es.
Proof.
  unfold changed_entries. rewrite map_map. apply map_ext. intros e.
  destruct (match_ f (DN e)); [apply DN_apply_changes|done].
Qed.

(** The DNs a request adds have no special characters. *)
Definition adds_plain (r : Request) : Prop :=
  ∀ m, message r = MAdd m → plain (AddDN m) = true.

Lemma db_step_distinct `{Folding} tls db r :
  adds_plain r → NoDup (map DN (db_users db)) →
  NoDup (map DN (db_users (fst (db_step tls db r)))).
Proof.
  intros Hp Hn. unfold db_step. destruct (message r) as [m|m|m|m|m|m|m] eqn:Hm; try done.
  - unfold db_modify. destruct (matching _ _) as [|? [|? ?]]; try done.
    + by destruct (matching _ _) as [|? [|? ?]].
    + simpl. by rewrite DN_changed_entries.
  - unfold db_add. destruct (matching _ _) as [|v vs] eqn:Em; [|done]. simpl.
    rewrite map_app. apply NoDup_app. split; [done|]. split; [|apply NoDup_singleton].
    intros n (e & -> & He)%list_elem_of_fmap Hn'%list_elem_of_singleton.
    assert (e ∈ matching (parenthesised (AddDN m)) (db_users db)) as Hin.
    { apply list_elem_of_filter. split; [|done]. rewrite Hn', match_plain by by apply Hp.
      simpl. by rewrite Contains_refl. }
    rewrite Em in Hin. by apply elem_of_nil in Hin.
  - unfold db_delete. destruct (matching _ _) as [|? [|? ?]]; try done.
    + by destruct (matching _ _) as [|? [|? ?]].
    + simpl. eapply sublist_NoDup; [done|]. apply fmap_sublist, sublist_filter.
Qed.

Lemma db_run_distinct `{Folding} tls db rs :
  Forall adds_plain rs → NoDup (map DN (db_users db)) →
  NoDup (map DN (db_users (fst (db_run tls db rs)))).
Proof.
  intros Hrs. revert db. induction Hrs as [|r rs Hr _ IH]; intros db Hn; [done|]. simpl.
  pose proof (db_step_distinct tls db r Hr Hn) as Hn1. destruct (db_step tls db r) as [db1 a].
  specialize (IH db1 Hn1). by destruct (db_run tls db1 rs).
Qed.

(** ** Properties *)

Section properties.
Context `{BerOps} `{Folding}.

(** What holds of a directory that [Start] made from entries that are all different. *)
Lemma started_ok freePort st ct sl opt d srv co s :
  Start freePort st ct sl opt = Ok (d, srv, co) → store_ok s → unshared s →
  Forall (live s) (users d) → Forall (live s) (groups d) → NoDup (users d ++ groups d) →
  srv_router srv = registered (dirRegistrations d) ∧ dir_ok d s ∧ separate d s.
Proof.
  intros HS Hs Hun Hu Hg Hn. apply Start_spec in HS as (-> & _ & _ & _ & Ht & _).
  split; [done|]. split; constructor; try done; intros sid l; rewrite Ht, lookup_empty; done.
Qed.



(** C38. Deleting matches DNs by substring: a delete request for any plain part [x] of the DN of
    exactly one user deletes that user, and answers Success. *)
Theorem delete_matches_substring r d s sent m u :
  dir_ok d s → separate d s → message r = MDelete m → plain (DeleteDN m) = true →
  filter (λ e, Is_true (Contains (DN (view s e)) (DeleteDN m))) (users d) = [u] →
  ∃ d', handleDelete r (at_rest d s sent ()) =
      (Ok (), at_rest d' s (sent +:+ stream
         [general_answer r ApplicationDelResponse ResultSuccess "Unused" "Unused"]) ()) ∧
    users d ≡ₚ u :: users d'.
Proof.
  intros Hd Hsep Hm Hp Hf. rewrite <-hits_plain in Hf by done.
  pose proof (length_positions s (parenthesised (DeleteDN m)) 0 (users d)) as Hlen. rewrite Hf in Hlen.
  destruct (positions s (parenthesised (DeleteDN m)) 0 (users d)) as [|i [|]] eqn:Hi; try done.
  assert (users d !! i = Some u) as Hu by by apply (position_hit s (parenthesised (DeleteDN m))).
  exists (set_users (delete i (users d)) d). split.
  - apply (handleDelete_run r d s sent m); [done..|]. unfold delete_outcome. by rewrite Hi.
  - simpl. by apply delete_Permutation.
Qed.
End properties.

(** ** Witnesses *)

Lemma example_separate : separate example_dir example_store.
Proof.
  constructor; [apply example_ok| |].
  - by apply (bool_decide_unpack _); vm_compute.
  - intros sid l e Hl. simpl in Hl. by rewrite lookup_empty in Hl.
Qed.

(** Eve is added, bob deleted, and eve binds. *)
Definition example_session : list Request :=
  map example_request
    [add_eve; MDelete (mkDeleteMessage 8 "cn=bob" []); bind_as eve_dn "secret"].

Lemma example_session_plain : Forall adds_plain example_session.
Proof.
  repeat constructor; intros m Hm; [|discriminate Hm..].
  injection Hm as <-. vm_compute. reflexivity.
Qed.

Lemma started_example d srv co :
  started = Ok (d, srv, co) →
  users d = users example_dir ∧ groups d = groups example_dir ∧ tokenGroups d = ∅ ∧
  server d = server example_dir.
Proof. intros E. by injection E as <- <- <-. Qed.



Lemma delete_matches_substring_witness :
  ∃ d' out, @handleDelete ber_model (example_request (MDelete (mkDeleteMessage 8 "n=bo" [])))
      (at_rest example_dir example_store "" ()) = (Ok (), at_rest d' example_store out ()) ∧
    length (users d') = 1%nat.
Proof.
  destruct (@delete_matches_substring ber_model
    (example_request (MDelete (mkDeleteMessage 8 "n=bo" []))) example_dir example_store ""
    (mkDeleteMessage 8 "n=bo" []) (nth 1 (users example_dir) 1%positive))
    as (d' & Hr & Hp).
  - apply example_ok.
  - apply example_separate.
  - reflexivity.
  - vm_compute. reflexivity.
  - vm_compute. reflexivity.
  - exists d'. eexists. split; [exact Hr|]. apply Permutation_length in Hp.
    vm_compute in Hp |- *. lia.
Defined.

(** An add of a user whose DN has a star in it. *)
Definition star_dn : string := "cn=a*b,ou=people,dc=example,dc=org".
Definition add_star : Message := MAdd (mkAddMessage 5 star_dn [] []).

(** A user can be added twice: a star is taken out of a DN that is looked up, so that a DN
    with a star does not match itself, and both adds succeed. *)
Theorem add_star_duplicates :
  let '(o, w) := @serveAll ber_model ascii_folding (λ _, None)
    (registered (dirRegistrations example_dir)) [example_request add_star; example_request add_star]
    (at_rest example_dir example_store "" ()) in
  o = Ok () ∧
  map (λ u, DN (view (mem w) u)) (drop 2 (users (dir w))) = [star_dn; star_dn].
Proof. vm_compute. done. Qed.
