(* ===== verification/DirWire.v ===== *)
(** A client and the test directory, byte for byte: the bytes of a request go
    through the BER library, [readPacket], [readRequest], the multiplexer and the
    handler, and the client reads the bytes that come back. *)
From Stdlib Require Import Ascii.
From stdpp Require Import base decidable option list strings gmap.
From Stdlib Require Import ZArith Lia.
From S2P Require Import Prelude GoStd Ber BerModel Codes Options Control Packet Entry Attribute Parameters Message MessageWire Response ResponseWire Request Mux Conn Server DirOptions Directory DirectorySpec DirectoryProps DirectoryMain.
Import GoStrings.

Section exchange.
Context `{L : BerLaws} `{LdapOps} `{Folding}.

(** What the server does with the bytes of one request on connection [c]. *)
Definition exchange (handshake : handle → option error) (m : Mux) (c : conn) (id : Z)
    (request : string) (w : world unit) : option (outcome unit * world unit) :=
  match ber_DecodePacketErr request with
  | Ok p =>
      match readRequest c id (inl p) with
      | Ok r => Some (dirServe handshake m r w)
      | _ => None
      end
  | _ => None
  end.

(** Validating a packet first does not change the message. *)
Lemma newMessage_validated P m q :
  newMessage (mkpacket P false) = Ok (m, q) →
  basicValidation (mkpacket P false) = Ok (mkpacket P true) ∧
  newMessage (mkpacket P true) = Ok (m, q).
Proof.
  assert (basicValidation (mkpacket P false) = Ok (mkpacket P true) ∨
    ¬ is_Ok (basicValidation (mkpacket P false))) as Hv.
  { unfold basicValidation. simpl. destruct (replaceErr _ _ _ _) as [[]|e|w]; simpl; [by left|..].
    all: right; by intros [? ?]. }
  destruct Hv as [Hv|Hv].
  - unfold newMessage, packet_requestType, requestPacket. rewrite Hv. done.
  - unfold newMessage, packet_requestType, requestPacket. intros Hm. exfalso.
    destruct (basicValidation (mkpacket P false)) as [p|e|w]; simpl in Hm; [|done..].
    apply Hv. by eexists.
Qed.

Lemma readRequest_message c id P m q :
  newMessage (mkpacket P false) = Ok (m, q) →
  readRequest c id (inl P) =
    Ok (mkRequest id (connID c) m (fst (message_route m)) (snd (message_route m))).
Proof.
  intros Hm%newMessage_validated. destruct Hm as [Hv Hm].
  unfold readRequest, readPacket, newRequest. rewrite Hv. simpl. rewrite Hm. simpl.
  by destruct (message_route m).
Qed.

(** The request that arrives. *)
Definition arrived (c : conn) (id : Z) (m : Message) : Request :=
  mkRequest id (connID c) m (fst (message_route m)) (snd (message_route m)).

Lemma arrived_ok c id m : request_ok (arrived c id m).
Proof. unfold request_ok, arrived. simpl. by destruct (message_route m). Qed.

(** The handler that gets it, on a directory with the base DNs it was started with. *)
Lemma exchange_handled handshake d0 c id request P m q w :
  ber_DecodePacketErr request = Ok P → newMessage (mkpacket P false) = Ok (m, q) →
  exchange handshake (registered (dirRegistrations d0)) c id request w =
    Some (dirHandle handshake (routed d0 (arrived c id m)) (arrived c id m) w).
Proof.
  intros Hd Hm. unfold exchange. rewrite Hd, (readRequest_message c id P m q Hm). f_equal.
  fold (arrived c id m). unfold dirServe. rewrite (serve_dir d0) by apply arrived_ok.
  by rewrite handlerAt_handle.
Qed.

(** The answer to a bind fits the wire. *)
Lemma bind_answer_wf r d s m :
  in_int 64 (GetID (message r)) → Forall control_wf (controls d) →
  controls_size (controls d) < 2 ^ 29 → response_wf (RBind (bind_answer r d s m)).
Proof.
  intros Hid Hc Hs. unfold bind_answer, response_wf.
  repeat (case_decide || destruct (existsb _ _)); simpl; (split_and!; [done|by vm_compute| |]).
  all: first [done|constructor|by vm_compute|lia].
Qed.

(** C24. End to end, a bind authenticates: from the bytes a client sends for a simple bind to the
    bytes it gets back, it reads a bind response with its message id and Success exactly when
    an anonymous bind is allowed and has no password, or a user has that DN and that
    password; Invalid Credentials otherwise. *)
Theorem directory_bind_over_wire handshake d0 d s c id m :
  dir_ok d s → Forall control_wf (controls d) → controls_size (controls d) < 2 ^ 29 →
  in_int 64 (bind_id m) → AuthChoice m = SimpleAuthChoice →
  Forall control_wf (BindControls m) → bind_size m < 2 ^ 29 →
  ∃ out p res,
    exchange handshake (registered (dirRegistrations d0)) c id
      (Packet_Bytes (pkt (testSimpleBindRequestPacket m))) (at_rest d s "" ()) =
      Some (Ok (), at_rest d s out ()) ∧
    ber_DecodePacketErr out = Ok p ∧ readResult p = Some res ∧
    res_id res = bind_id m ∧ res_op res = ApplicationBindResponse ∧
    res_code res =
      (if decide ((Password m = "" ∧ allowAnonymousBind d = true) ∨
                  Exists (λ u, DN (view s u) = UserName m ∧
                    head (GetAttributeValues (view s u) "password") = Some (Password m)) (users d))
       then ResultSuccess else ResultInvalidCredentials).
Proof.
  intros Hd Hc Hcs Hid Ha Hwf Hsz.
  destruct (bind_wire m Hid Ha Hwf Hsz) as (P & q & HP & Hm).
  set (r := arrived c id (MSimpleBind m)).
  destruct (result_read (RBind (bind_answer r d s m)) _ (bind_answer_wf r d s m Hid Hc Hcs) eq_refl)
    as (p & Hp & Hr).
  eexists (stream [RBind (bind_answer r d s m)]), p, _.
  split; [|split; [|split; [exact Hr|]]].
  - rewrite (exchange_handled _ _ _ _ _ _ _ _ _ HP Hm). unfold routed. simpl. rewrite decide_True by done.
    f_equal. cbn [dirHandle]. by rewrite (handleBind_run r d s "" m Hd eq_refl).
  - simpl. by rewrite app_nil_r_str.
  - simpl. split; [|split; [done|]].
    + unfold bind_answer. repeat (case_decide || destruct (existsb _ _)); done.
    + rewrite bind_answer_code. apply decide_ext. tauto.
Qed.

(** What a client reads of a response. *)
Definition reads_as (chunk : string) (x : Response) : Prop :=
  ∃ p, ber_DecodePacketErr chunk = Ok p ∧
    match x with
    | RSearchEntry e =>
        readEntry p = Some (messageID (entry_base e), DN (entry e),
                            map (λ a, mkAttribute (Name a) (Values a)) (Attributes (entry e)))
    | _ => ∃ res, result_of x = Some res ∧ readResult p = Some res
    end.

Lemma reads_as_wf x : response_wf x → reads_as (Packet_Bytes (Response_packet x)) x.
Proof.
  intros Hx. destruct x as [x|x|x|x|x]; unfold reads_as; try (by apply entry_read).
  all: destruct (result_read _ _ Hx eq_refl) as (p & ? & ?); eauto.
Qed.

Lemma stream_chunks xs :
  Forall response_wf xs → ∃ chunks, stream xs = String.concat "" chunks ∧ Forall2 reads_as chunks xs.
Proof.
  intros Hx. exists (map (λ x, Packet_Bytes (Response_packet x)) xs). split.
  - clear Hx. induction xs as [|x xs IH]; [done|]. simpl. rewrite IH.
    destruct xs; simpl; [by rewrite app_nil_r_str|done].
  - induction Hx; simpl; constructor; auto using reads_as_wf.
Qed.

Lemma done_answer_wf r code cs :
  in_int 64 (GetID (message r)) → in_int 16 code → Forall control_wf cs → controls_size cs < 2 ^ 29 →
  response_wf (done_answer r code cs).
Proof. intros. unfold response_wf, done_answer. simpl. split_and!; [done..|lia]. Qed.

(** C25. End to end, a search of the users with a filter [(f)], [f] without special characters,
    is answered with exactly the users whose DN contains [f]: from the bytes of the request
    to the entries the client reads, each with its DN and its attributes, in the directory's
    order, and the result that ends the search. *)
Theorem directory_search_over_wire handshake d0 d s c id m f fp :
  dir_ok d s → Forall control_wf (controls d) → controls_size (controls d) < 2 ^ 29 →
  Forall (λ u, response_wf (entry_answer (arrived c id (MSearch m)) (view s u))) (users d) →
  EqualFold (BaseDN m) (userDN d0) = true → Filter m = parenthesised f → plain f = true →
  in_int 64 (search_id m) → in_int 64 (Scope m) → in_int 64 (DerefAliases m) →
  in_int 64 (SizeLimit m) → in_int 64 (TimeLimit m) →
  Forall control_wf (SearchControls m) → search_size m < 2 ^ 28 →
  CompileFilter (Filter m) = Ok fp → enc fp (2 ^ 28) → DecompileFilter (reparse fp) = Ok (Filter m) →
  let r := arrived c id (MSearch m) in
  let found := filter (λ u, Is_true (Contains (DN (view s u)) f)) (users d) in
  ∃ sp out chunks,
    testSearchRequestPacket m = Ok sp ∧
    exchange handshake (registered (dirRegistrations d0)) c id (Packet_Bytes (pkt sp))
      (at_rest d s "" ()) = Some (Ok (), at_rest d s out ()) ∧
    out = String.concat "" chunks ∧
    Forall2 reads_as chunks
      (map (λ u, entry_answer r (view s u)) found ++
       [if decide (found = []) then done_answer r ResultNoSuchObject []
        else done_answer r ResultSuccess (controls d)]).
Proof.
  intros Hd Hc Hcs Hu Hb Hf Hpl Hid Hsc Hde Hsl Htl Hwf Hsz Hcf He Hdf. cbn zeta.
  destruct (search_wire m fp Hid Hsc Hde Hsl Htl Hwf Hsz Hcf He Hdf) as (sp & P & q & Hsp & HP & Hm).
  set (r := arrived c id (MSearch m)). set (found := filter _ _).
  destruct (stream_chunks (map (λ u, entry_answer r (view s u)) found ++
    [if decide (found = []) then done_answer r ResultNoSuchObject []
     else done_answer r ResultSuccess (controls d)])) as (chunks & Hs & Hr).
  { apply Forall_app. split.
    - apply Forall_map, Forall_forall. intros u [_ Hin]%list_elem_of_filter.
      by eapply Forall_forall in Hu.
    - constructor; [|constructor]. case_decide; apply done_answer_wf; try done; by vm_compute. }
  exists sp, (stream (map (λ u, entry_answer r (view s u)) found ++
    [if decide (found = []) then done_answer r ResultNoSuchObject []
     else done_answer r ResultSuccess (controls d)])), chunks.
  split; [done|]. split; [|done].
  rewrite (exchange_handled _ _ _ _ _ _ _ _ _ HP Hm). unfold routed. cbn [message arrived].
  rewrite Hb, orb_true_r. cbn [dirHandle]. f_equal. fold (arrived c id (MSearch m)). fold r.
  rewrite (handleSearchUsers_run r d s "" m Hd eq_refl).
  rewrite Hf, hits_plain by done. unfold found. by destruct (filter _ (users d)).
Qed.
End exchange.

(** ** Witnesses *)

(** Filters without special characters, in a packet that holds what is in the parentheses. *)
Definition ldap_plain : LdapOps := {|
  CompileFilter s := Ok (mkPacket 128 0 7 VNil (TrimSuffix (TrimPrefix s "(") ")") [] "");
  DecompileFilter p := Ok ("(" +:+ Data p +:+ ")");
|}.
Definition wire_conn : conn := mkConn 1 1 (registered (dirRegistrations example_dir)).
Definition wire_bind : SimpleBindMessage :=
  mkSimpleBindMessage 9 SimpleAuthChoice bob_dn "password" [].
Definition wire_search : SearchMessage :=
  mkSearchMessage 10 DefaultUserDN WholeSubtree 0 30 100 false "(cn=bob)" [] [].

Lemma directory_bind_over_wire_witness :
  ∃ out p res,
    @exchange ber_model ldap_plain ascii_folding (λ _, None) (registered (dirRegistrations example_dir))
      wire_conn 1 (@Packet_Bytes ber_model (pkt (@testSimpleBindRequestPacket ber_model wire_bind)))
      (at_rest example_dir example_store "" ()) = Some (Ok (), at_rest example_dir example_store out ()) ∧
    @ber_DecodePacketErr ber_model out = Ok p ∧ @readResult ber_model p = Some res ∧
    res_id res = 9 ∧ res_code res = ResultSuccess.
Proof.
  destruct (@directory_bind_over_wire ber_model ber_model_laws ldap_plain ascii_folding (λ _, None)
    example_dir example_dir example_store wire_conn 1 wire_bind)
    as (out & p & res & He & Hp & Hr & Hid & _ & Hc).
  - apply example_ok.
  - constructor.
  - by vm_compute.
  - by vm_compute.
  - done.
  - constructor.
  - by vm_compute.
  - exists out, p, res. split_and!; [exact He|done|done|done|]. rewrite Hc. by vm_compute.
Defined.

Lemma directory_search_over_wire_witness :
  ∃ sp out chunks,
    @testSearchRequestPacket ber_model ldap_plain wire_search = Ok sp ∧
    @exchange ber_model ldap_plain ascii_folding (λ _, None) (registered (dirRegistrations example_dir))
      wire_conn 1 (@Packet_Bytes ber_model (pkt sp)) (at_rest example_dir example_store "" ()) =
      Some (Ok (), at_rest example_dir example_store out ()) ∧
    out = String.concat "" chunks ∧ length chunks = 2%nat.
Proof.
  destruct (@directory_search_over_wire ber_model ber_model_laws ldap_plain ascii_folding (λ _, None)
    example_dir example_dir example_store wire_conn 1 wire_search "cn=bob"
    (mkPacket 128 0 7 VNil "cn=bob" [] "")) as (sp & out & chunks & Hsp & He & Ho & Hf).
  - apply example_ok.
  - constructor.
  - by vm_compute.
  - repeat constructor; by vm_compute.
  - done.
  - done.
  - by vm_compute.
  - by vm_compute.
  - by vm_compute.
  - by vm_compute.
  - by vm_compute.
  - by vm_compute.
  - constructor.
  - by vm_compute.
  - by vm_compute.
  - split; [|simpl; lia].
    apply (@encodable_primitive ber_model 128); [set_solver|lia|done|simpl; lia].
  - by vm_compute.
  - exists sp, out, chunks. split_and!; [done|exact He|done|].
    rewrite (Forall2_length _ _ _ Hf). by vm_compute.
Defined.
