(* ===== verification/DirThreads.v ===== *)
(** The handlers of the test directory as threads: [testdirectory/directory.go]
    with the interleaving of handlers, which run in goroutines of their own.

    Directory.v runs a handler as one step.  Here a handler is a program of
    atomic operations on what the handlers share: the slices [d.users] and
    [d.groups] with their backing arrays, the entries and attributes in memory,
    the lock [d.mu] and the connections' writers.  A slice header, an element of
    a backing array, an entry and an attribute are each read and written at
    once, in the order of the program (the code reads [d.users] and [d.groups]
    outside the lock, so Go promises less: what goes wrong here can go wrong
    there).  The other fields of the directory are not written by handlers. *)
From Stdlib Require Import Ascii.
From stdpp Require Import base decidable option list strings gmap.
From Stdlib Require Import ZArith Lia.
From S2P Require Import Prelude GoStd Ber BerModel Codes Options Control Packet Entry Attribute Parameters Message Response Request DirOptions Directory.
Import GoStrings.

(** A Go slice: its backing array, length and capacity. *)
Record slice : Type := mkSlice {
  s_arr : addr;
  s_len : nat;
  s_cap : nat;
}.

(** What the handlers share. *)
Record shared : Type := mkShared {
  base : Directory;
  s_users : slice;
  s_groups : slice;
  arrays : gmap addr (list (option addr));
  heap : store;
  mu : option nat;
  outs : gmap nat bufioWriter;
}.

Definition with_users (s : slice) (sh : shared) : shared :=
  mkShared (base sh) s (s_groups sh) (arrays sh) (heap sh) (mu sh) (outs sh).
Definition with_groups (s : slice) (sh : shared) : shared :=
  mkShared (base sh) (s_users sh) s (arrays sh) (heap sh) (mu sh) (outs sh).
Definition with_arrays (a : gmap addr (list (option addr))) (sh : shared) : shared :=
  mkShared (base sh) (s_users sh) (s_groups sh) a (heap sh) (mu sh) (outs sh).
Definition with_heap (m : store) (sh : shared) : shared :=
  mkShared (base sh) (s_users sh) (s_groups sh) (arrays sh) m (mu sh) (outs sh).
Definition with_mu (l : option nat) (sh : shared) : shared :=
  mkShared (base sh) (s_users sh) (s_groups sh) (arrays sh) (heap sh) l (outs sh).
Definition with_outs (o : gmap nat bufioWriter) (sh : shared) : shared :=
  mkShared (base sh) (s_users sh) (s_groups sh) (arrays sh) (heap sh) (mu sh) o.

(** Which of the two slices. *)
Inductive which : Type := Wusers | Wgroups.
Definition slice_of (x : which) (sh : shared) : slice :=
  match x with Wusers => s_users sh | Wgroups => s_groups sh end.
Definition with_slice (x : which) (s : slice) (sh : shared) : shared :=
  match x with Wusers => with_users s sh | Wgroups => with_groups s sh end.

(** ** Operations *)

(** The atomic operations, by the type of their result. *)
Inductive op : Type → Type :=
| OBase : op Directory
| OSlice (x : which) : op slice
| OSetSlice (x : which) (s : slice) : op unit
| OElem (a : addr) (i : nat) : op (option addr)
| OSetElem (a : addr) (i : nat) (e : option addr) : op unit
| OMake (l : list (option addr)) : op addr
| OEntry (e : addr) : op (option entryObj)
| OSetEntry (e : addr) (attrs : list addr) : op unit
| OAttr (a : addr) : op (option EntryAttribute)
| OSetAttr (a : addr) (v : EntryAttribute) : op unit
| ONewAttr (v : EntryAttribute) : op addr
| ONewEntry (v : Entry) : op addr
| OLock : op unit
| OUnlock : op unit
| OWrite (r : Response) : op (option error).

(** What an operation does: it is done, it waits, or it is a fatal error. *)
Inductive effect (X : Type) : Type :=
| Done (x : X) (sh : shared)
| Waits
| Fatal.
Arguments Done {X} x sh.
Arguments Waits {X}.
Arguments Fatal {X}.

(** The operation [o] of thread [i], whose connection is number [c]. *)
Definition exec `{BerOps} {X} (o : op X) (i c : nat) (sh : shared) : effect X :=
  match o with
  | OBase => Done (base sh) sh
  | OSlice x => Done (slice_of x sh) sh
  | OSetSlice x s => Done () (with_slice x s sh)
  | OElem a j =>
      match arrays sh !! a with
      | Some l => match l !! j with Some e => Done e sh | None => Fatal end
      | None => Fatal
      end
  | OSetElem a j e =>
      match arrays sh !! a with
      | Some l =>
          if decide (j < length l)%nat
          then Done () (with_arrays (<[a := <[j := e]> l]> (arrays sh)) sh) else Fatal
      | None => Fatal
      end
  | OMake l =>
      let a := fresh (dom (arrays sh)) in
      Done a (with_arrays (<[a := l]> (arrays sh)) sh)
  | OEntry e => Done (entries (heap sh) !! e) sh
  | OSetEntry e attrs =>
      match entries (heap sh) !! e with
      | Some o =>
          Done () (with_heap (mkStore (<[e := mkEntryObj (obj_DN o) attrs]> (entries (heap sh)))
                                (attributes (heap sh))) sh)
      | None => Fatal
      end
  | OAttr a => Done (attributes (heap sh) !! a) sh
  | OSetAttr a v =>
      Done () (with_heap (mkStore (entries (heap sh)) (<[a := v]> (attributes (heap sh)))) sh)
  | ONewAttr v => let '(a, m) := new_attribute v (heap sh) in Done a (with_heap m sh)
  | ONewEntry v => let '(e, m) := new_entry v (heap sh) in Done e (with_heap m sh)
  | OLock => match mu sh with None => Done () (with_mu (Some i) sh) | Some _ => Waits end
  | OUnlock => match mu sh with Some _ => Done () (with_mu None sh) | None => Fatal end
  | OWrite r =>
      let '(err, o) := Write (Some r) (default (idle_writer "") (outs sh !! c)) in
      Done err (with_outs (<[c := o]> (outs sh)) sh)
  end.

(** ** Programs *)

(** A program: the operations of a thread, each with what follows it. *)
Inductive prog (A : Type) : Type :=
| Ret (a : A)
| Step {X : Type} (o : op X) (k : X → prog A).
Arguments Ret {A} a.
Arguments Step {A X} o k.

Fixpoint prog_bind {A B} (p : prog A) (f : A → prog B) : prog B :=
  match p with
  | Ret a => f a
  | Step o k => Step o (λ x, prog_bind (k x) f)
  end.

(** A thread: it keeps its response and returns or panics. *)
Definition TM (R A : Type) : Type := R → prog (outcome A * R).

#[export] Instance TM_ret R : MRet (TM R) := λ A a r, Ret (Ok a, r).
#[export] Instance TM_bind R : MBind (TM R) := λ A B f m r,
  prog_bind (m r) (λ '(o, r),
    match o with
    | Ok a => f a r
    | Err e => Ret (Err e, r)
    | Panic w => Ret (Panic w, r)
    end).

Section threads.
Context {R : Type}.

Definition do_ {X} (o : op X) : TM R X := λ r, Step o (λ x, Ret (Ok x, r)).
Definition panic_ {A} (w : string) : TM R A := λ r, Ret (Panic w, r).
Definition changeRes_ (f : R → R) : TM R unit := λ r, Ret (Ok (), f r).

Definition nilDeref : string := "invalid memory address or nil pointer dereference".

(** [*e] and [*a] *)
Definition deref_ (e : option addr) : TM R entryObj :=
  match e with
  | None => panic_ nilDeref
  | Some e =>
      o ← do_ (OEntry e);
      match o with Some o => mret o | None => panic_ nilDeref end
  end.
Definition derefAttr_ (a : addr) : TM R EntryAttribute :=
  o ← do_ (OAttr a);
  match o with Some o => mret o | None => panic_ nilDeref end.

(** [d.mu.Lock(); defer d.mu.Unlock()] around the rest of a handler *)
Definition locked {A} (body : TM R A) : TM R A :=
  λ r, Step OLock (λ _,
    prog_bind (body r) (λ x, Step OUnlock (λ _, Ret x))).

(** [defer func() { _ = w.Write(res) }()] around the rest of a handler *)
Definition deferred_ (reply : R → Response) (body : TM R unit) : TM R unit :=
  λ r, prog_bind (body r) (λ '(o, r), Step (OWrite (reply r)) (λ _, Ret (o, r))).

(** [if err != nil { log; return }] after a message getter. *)
Definition withMessage_ {A} (m : outcome A) (k : A → TM R unit) : TM R unit :=
  match m with
  | Ok m => k m
  | Err _ => mret ()
  | Panic w => panic_ w
  end.

(** [entry.go:24-31] GetAttributeValues, attribute by attribute *)
Fixpoint attributeValues_ (attribute : string) (attrs : list addr) : TM R (list string) :=
  match attrs with
  | [] => mret []
  | a :: attrs =>
      attr ← derefAttr_ a;
      if decide (Name attr = attribute) then mret (Values attr)
      else attributeValues_ attribute attrs
  end.

(** [testdirectory/directory.go:698-710] The loop of find over the [n] elements of a
    slice from [idx] on; the callers pass no option *)
Fixpoint findLoop_ (filter : string) (s : slice) (idx n : nat) (matchIndexes : list nat)
    (matched : list addr) : TM R (bool * list nat * list addr) :=
  match n with
  | O =>
      mret (if decide (0 < length matched)%nat then (true, matchIndexes, matched)
            else (false, [], []))
  | S n =>
      e ← do_ (OElem (s_arr s) idx);
      o ← deref_ e;
      if match_ filter (obj_DN o)
      then findLoop_ filter s (S idx) n (matchIndexes ++ [idx]) (matched ++ option_list e)
      else findLoop_ filter s (S idx) n matchIndexes matched
  end.

(** [testdirectory/directory.go:694-711] find, on [d.users] or [d.groups] *)
Definition find_ (filter : string) (x : which) : TM R (bool * list nat * list addr) :=
  s ← do_ (OSlice x);
  findLoop_ filter s 0 (s_len s) [] [].

(** [testdirectory/directory.go:674-692] findMembers on a slice, from [idx] on; the callers
    pass no option *)
Fixpoint findMembersLoop_ (filter : string) (s : slice) (idx n : nat) (matched : list addr)
    : TM R (bool * list addr) :=
  match n with
  | O => mret (if decide (0 < length matched)%nat then (true, matched) else (false, []))
  | S n =>
      e ← do_ (OElem (s_arr s) idx);
      o ← deref_ e;
      members ← attributeValues_ "member" (obj_Attributes o);
      findMembersLoop_ filter s (S idx) n
        (match e with
         | Some e => snd (membersLoop false filter e members matched)
         | None => matched
         end)
  end.

(** [testdirectory/directory.go:346-364] The entries of a slice that match, appended;
    [fresh_only] leaves out, by pointer, those that are there already *)
Fixpoint appendMatching_ (fresh_only : bool) (filter : string) (s : slice) (idx n : nat)
    (found : list addr) : TM R (list addr) :=
  match n with
  | O => mret found
  | S n =>
      e ← do_ (OElem (s_arr s) idx);
      o ← deref_ e;
      appendMatching_ fresh_only filter s (S idx) n
        (match e with
         | Some e =>
             if match_ filter (obj_DN o) then
               if fresh_only && bool_decide (e ∈ found) then found else found ++ [e]
             else found
         | None => found
         end)
  end.

(** [testdirectory/directory.go:368-371] The response for an entry, read attribute by attribute. *)
Definition entryResponse_ (r : Request) (e : addr) : TM R SearchResponseEntry :=
  o ← deref_ (Some e);
  attrs ← mapM derefAttr_ (obj_Attributes o);
  mret (foldl (λ result attr,
          SearchResponseEntry_AddAttribute (Name attr) (Values attr) result)
        (NewSearchResponseEntry r (obj_DN o) []) attrs).

(** [testdirectory/directory.go:367-378] The entries are read and written one by one. *)
Fixpoint writeEntries_ (r : Request) (l : list addr) : TM R bool :=
  match l with
  | [] => mret true
  | e :: l =>
      result ← entryResponse_ r e;
      err ← do_ (OWrite (RSearchEntry result));
      match err with
      | Some _ => mret false
      | None => writeEntries_ r l
      end
  end.

(** Go's [append(s, e)]: in place when the capacity allows, otherwise in a new array
    with [extra] elements to spare. *)
Definition append_ (extra : nat → nat) (s : slice) (e : addr) : TM R slice :=
  if decide (s_len s < s_cap s)%nat then
    do_ (OSetElem (s_arr s) (s_len s) (Some e));;
    mret (mkSlice (s_arr s) (S (s_len s)) (s_cap s))
  else
    l ← mapM (λ j, do_ (OElem (s_arr s) j)) (seq 0 (s_len s));
    a ← do_ (OMake (l ++ [Some e] ++ replicate (extra (s_len s)) None));
    mret (mkSlice a (S (s_len s)) (S (s_len s) + extra (s_len s))).

(** Move [n] elements of an array down by one, from index [j] on. *)
Fixpoint shiftDown (a : addr) (j n : nat) : TM R unit :=
  match n with
  | O => mret ()
  | S n =>
      e ← do_ (OElem a j);
      do_ (OSetElem a (j - 1) e);;
      shiftDown a (S j) n
  end.

(** Go's [append(s[:i], s[i+1:]...)]: panics when [i+1] is beyond the length. *)
Definition removeAt_ (s : slice) (i : nat) : TM R slice :=
  if decide (S i ≤ s_len s)%nat then
    shiftDown (s_arr s) (S i) (s_len s - S i);;
    mret (mkSlice (s_arr s) (s_len s - 1) (s_cap s))
  else panic_ "slice bounds out of range".
End threads.

(** ** The handlers *)

(** The bodies of handlers, before the deferred write. *)
Section handlers.
Variable extra : nat → nat.

(** [testdirectory/directory.go:219-234] The loop of handleBind over the users. *)
Fixpoint bindLoop_ (m : SimpleBindMessage) (s : slice) (idx n : nat) : TM BindResponse unit :=
  match n with
  | O => mret ()
  | S n =>
      e ← do_ (OElem (s_arr s) idx);
      o ← deref_ e;
      if decide (obj_DN o = UserName m) then
        o ← deref_ e;
        values ← attributeValues_ "password" (obj_Attributes o);
        match values with
        | v :: _ =>
            if decide (Password m = v) then
              changeRes_ (onBind (SetResultCode ResultSuccess));;
              d ← do_ OBase;
              if decide (controls d ≠ []) then
                locked (d ← do_ OBase; changeRes_ (BindResponse_SetControls (controls d)))
              else mret ()
            else bindLoop_ m s (S idx) n
        | [] => bindLoop_ m s (S idx) n
        end
      else bindLoop_ m s (S idx) n
  end.

(** [testdirectory/directory.go:193-238] handleBind *)
Definition bind_thread (r : Request) : TM BindResponse unit :=
  deferred_ RBind (withMessage_ (GetSimpleBindMessage r) (λ m,
    if decide (AuthChoice m ≠ SimpleAuthChoice) then mret ()
    else
      d ← do_ OBase;
      if decide (Password m = "" ∧ allowAnonymousBind d = true)
      then changeRes_ (onBind (SetResultCode ResultSuccess))
      else
        s ← do_ (OSlice Wusers);
        bindLoop_ m s 0 (s_len s))).

(** [testdirectory/directory.go:365-385] The entries found are written, then the end of
    the search. *)
Definition writeFound_ (r : Request) (l : list addr) : TM SearchResponseDone unit :=
  if decide (0 < length l)%nat then
    ok ← writeEntries_ r l;
    if ok : bool then
      d ← do_ OBase;
      (if decide (controls d ≠ []) then
         locked (d ← do_ OBase;
                 changeRes_ (SearchResponseDone_SetControls (controls d));;
                 changeRes_ (onDone (SetResultCode ResultSuccess)))
       else changeRes_ (onDone (SetResultCode ResultSuccess)))
    else mret ()
  else mret ().

(** [testdirectory/directory.go:452-502] handleSearchUsers *)
Definition searchUsers_thread (r : Request) : TM SearchResponseDone unit :=
  deferred_ RSearchDone (withMessage_ (GetSearchMessage r) (λ m,
    '(_, _, found) ← find_ (Filter m) Wusers;
    writeFound_ r found)).

(** [testdirectory/directory.go:389-450] handleSearchGroups *)
Definition searchGroups_thread (r : Request) : TM SearchResponseDone unit :=
  deferred_ RSearchDone (withMessage_ (GetSearchMessage r) (λ m,
    s ← do_ (OSlice Wgroups);
    '(_, found) ← findMembersLoop_ (Filter m) s 0 (s_len s) [];
    s ← do_ (OSlice Wgroups);
    found ← appendMatching_ true (Filter m) s 0 (s_len s) found;
    writeFound_ r found)).

(** [testdirectory/directory.go:282-387] handleSearchGeneric *)
Definition searchGeneric_thread (r : Request) : TM SearchResponseDone unit :=
  deferred_ RSearchDone (withMessage_ (GetSearchMessage r) (λ m,
    d ← do_ OBase;
    let filter := if Contains (BaseDN m) (userDN d) then parenthesised (BaseDN m)
                  else Filter m in
    if bool_decide (0 < size (tokenGroups d))%nat && HasPrefix (BaseDN m) "<SID=" then
      let sid := TrimPrefix (BaseDN m) "<SID=" in
      let sid := TrimSuffix sid ">" in
      ok ← writeEntries_ r (default [] (tokenGroups d !! sid));
      if ok : bool then changeRes_ (onDone (SetResultCode ResultSuccess)) else mret ()
    else
      s ← do_ (OSlice Wusers);
      found ← appendMatching_ false filter s 0 (s_len s) [];
      s ← do_ (OSlice Wgroups);
      found ← appendMatching_ true filter s 0 (s_len s) found;
      writeFound_ r found)).

(** [testdirectory/directory.go:550-555] The last attribute of that name, and where it is. *)
Fixpoint findAttr_ (type_ : string) (i : nat) (attrs : list addr) (found : option (addr * nat))
    : TM GeneralResponse (option (addr * nat)) :=
  match attrs with
  | [] => mret found
  | a :: attrs =>
      attr ← derefAttr_ a;
      findAttr_ type_ (S i) attrs (if decide (Name attr = type_) then Some (a, i) else found)
  end.

(** [testdirectory/directory.go:547-577] One change. *)
Definition applyChange_ (e : addr) (chg : Change) : TM GeneralResponse unit :=
  o ← deref_ (Some e);
  let type_ := PartialType (Modification chg) in
  let vals := PartialVals (Modification chg) in
  found ← findAttr_ type_ 0 (obj_Attributes o) None;
  if decide (Operation chg = AddAttribute) then
    match found with
    | Some (a, _) => attr ← derefAttr_ a; do_ (OSetAttr a (AddValue vals attr))
    | None =>
        a ← do_ (ONewAttr (NewEntryAttribute type_ vals));
        do_ (OSetEntry e (obj_Attributes o ++ [a]))
    end
  else if decide (Operation chg = DeleteAttribute) then
    match found with
    | Some (_, foundAt) =>
        do_ (OSetEntry e (take foundAt (obj_Attributes o) ++ drop (S foundAt) (obj_Attributes o)))
    | None => mret ()
    end
  else mret ().

(** [testdirectory/directory.go:546-578] The changes, in order. *)
Fixpoint applyChanges_ (e : addr) (chgs : list Change) : TM GeneralResponse unit :=
  match chgs with
  | [] => mret ()
  | chg :: chgs => applyChange_ e chg;; applyChanges_ e chgs
  end.

(** The response to a request that matches several entries. *)
Definition several_ (n : nat) : TM GeneralResponse unit :=
  changeRes_ (onGeneral (SetResultCode ResultInappropriateMatching));;
  changeRes_ (onGeneral (SetDiagnosticMessage (moreThanOne n))).

(** [testdirectory/directory.go:504-581] handleModify *)
Definition modify_thread (r : Request) : TM GeneralResponse unit :=
  deferred_ RGeneral (withMessage_ (GetModifyMessage r) (λ m,
    '(_, _, found) ← find_ (parenthesised (ModifyDN m)) Wusers;
    '(_, _, found) ←
      (if decide (length found = 0%nat) then find_ (ModifyDN m) Wgroups
       else mret (true, [], found));
    match found with
    | [] => mret ()
    | [e] =>
        locked (
          o ← deref_ (Some e);
          changeRes_ (onGeneral (SetMatchedDN (obj_DN o)));;
          applyChanges_ e (Changes m);;
          changeRes_ (onGeneral (SetResultCode ResultSuccess)))
    | _ => several_ (length found)
    end)).

(** [testdirectory/directory.go:583-620] handleAdd *)
Definition add_thread (r : Request) : TM GeneralResponse unit :=
  deferred_ RGeneral (withMessage_ (GetAddMessage r) (λ m,
    '(found, _, _) ← find_ (parenthesised (AddDN m)) Wusers;
    if found : bool then
      changeRes_ (onGeneral (SetResultCode ResultEntryAlreadyExists));;
      changeRes_ (onGeneral (SetDiagnosticMessage ("entry exists for DN: " +:+ AddDN m)))
    else
      newEntry ← do_ (ONewEntry (NewEntry (AddDN m) (attributeMap (AddAttributes m))));
      locked (
        s ← do_ (OSlice Wusers);
        s ← append_ extra s newEntry;
        do_ (OSetSlice Wusers s);;
        changeRes_ (onGeneral (SetResultCode ResultSuccess))))).

(** The end of a delete: the element found before the lock was taken is removed. *)
Definition deleteAt_ (x : which) (i : nat) : TM GeneralResponse unit :=
  locked (
    s ← do_ (OSlice x);
    s ← removeAt_ s i;
    do_ (OSetSlice x s);;
    changeRes_ (onGeneral (SetResultCode ResultSuccess))).

(** [testdirectory/directory.go:622-672] handleDelete *)
Definition delete_thread (r : Request) : TM GeneralResponse unit :=
  deferred_ RGeneral (withMessage_ (GetDeleteMessage r) (λ m,
    '(_, foundAt, _) ← find_ (parenthesised (DeleteDN m)) Wusers;
    match foundAt with
    | [i] => deleteAt_ Wusers i
    | _ :: _ => several_ (length foundAt)
    | [] =>
        '(_, foundAt, _) ← find_ (parenthesised (DeleteDN m)) Wgroups;
        match foundAt with
        | [i] => deleteAt_ Wgroups i
        | _ :: _ => several_ (length foundAt)
        | [] => mret ()
        end
    end)).

(** [testdirectory/directory.go:240-251] handleNotFound *)
Definition notFound_thread (r : Request) : TM GeneralResponse unit :=
  λ res, Step (OWrite (RGeneral res)) (λ _, Ret (Ok (), res)).

(** [testdirectory/directory.go:253-280] handleStartTLS *)
Definition startTLS_thread (handshake : handle → option error) (r : Request)
    : TM ExtendedResponse unit :=
  λ res,
  (changeRes_ (SetResponseName ExtendedOperationStartTLS);;
   err ← do_ (OWrite (RExtended (SetResponseName ExtendedOperationStartTLS res)));
   match err with
   | Some _ => mret ()
   | None =>
       d ← do_ OBase;
       match StartTLS handshake (server d) with
       | Some err =>
           let f r := onExtended (SetResultCode ResultOperationsError)
             (onExtended (SetDiagnosticMessage
               ("StartTLS Handshake error : " +:+ quote +:+ ErrorText err +:+ quote)) r) in
           changeRes_ f;;
           do_ (OWrite (RExtended (f (SetResponseName ExtendedOperationStartTLS res))));;
           mret ()
       | None => mret ()
       end
   end) res.

(** A handler with the response it starts from; it ends with the last response. *)
Definition ended {R} (reply : R → Response) (p : prog (outcome unit * R))
    : prog (outcome unit * Response) :=
  prog_bind p (λ '(o, r), Ret (o, reply r)).

(** The response [handleModify] starts from. *)
Lemma modify_response r :
  NewModifyResponse r [WithResponseCode ResultNoSuchObject] =
    Ok (NewResponse r [WithApplicationCode ApplicationModifyResponse;
                       WithResponseCode ResultNoSuchObject]).
Proof. done. Qed.

(** The thread that serves a request. *)
Definition thread_of (handshake : handle → option error) (h : dirHandler) (r : Request)
    : prog (outcome unit * Response) :=
  let done := NewSearchDoneResponse r [WithResponseCode ResultNoSuchObject] in
  match h with
  | HNotFound =>
      ended RGeneral (notFound_thread r
        (NewResponse r [WithDiagnosticMessage "intentionally not handled"]))
  | HBind =>
      ended RBind (bind_thread r (NewBindResponse r [WithResponseCode ResultInvalidCredentials]))
  | HStartTLS =>
      ended RExtended (startTLS_thread handshake r
        (NewExtendedResponse r [WithResponseCode ResultSuccess]))
  | HSearchUsers => ended RSearchDone (searchUsers_thread r done)
  | HSearchGroups => ended RSearchDone (searchGroups_thread r done)
  | HSearchGeneric => ended RSearchDone (searchGeneric_thread r done)
  | HModify =>
      ended RGeneral (modify_thread r
        (NewResponse r [WithApplicationCode ApplicationModifyResponse;
                        WithResponseCode ResultNoSuchObject]))
  | HAdd =>
      ended RGeneral (add_thread r
        (NewResponse r [WithApplicationCode ApplicationAddResponse;
                        WithResponseCode ResultOperationsError]))
  | HDelete =>
      ended RGeneral (delete_thread r
        (NewResponse r [WithResponseCode ResultNoSuchObject;
                        WithApplicationCode ApplicationDelResponse]))
  end.
End handlers.

(** ** Interleaving *)

(** The threads, each with its connection, and what they share. *)
Record pool : Type := mkPool {
  threads : list (nat * prog (outcome unit * Response));
  sh : shared;
}.

(** One operation of one thread. *)
Definition thread_step `{BerOps} (i : nat) (p : pool) : option pool :=
  match threads p !! i with
  | Some (c, Step o k) =>
      match exec o i c (sh p) with
      | Done x s => Some (mkPool (<[i := (c, k x)]> (threads p)) s)
      | Waits | Fatal => None
      end
  | _ => None
  end.

Inductive pstep `{BerOps} : pool → pool → Prop :=
| pstep_intro i p p' : thread_step i p = Some p' → pstep p p'.

(** A schedule: the threads that make the next operations. *)
Fixpoint schedule `{BerOps} (is_ : list nat) (p : pool) : option pool :=
  match is_ with
  | [] => Some p
  | i :: is_ => p ← thread_step i p; schedule is_ p
  end.
