(* ===== verification/DirRely.v ===== *)
(** Reasoning about the threads of DirThreads.v: what holds at every point of
    every interleaving.

    A thread relies on what the others may do to the shared state ([Rely]) and
    guarantees the same to them; [safe] says that a program, run with such
    interference, keeps the invariant and the guarantee, makes no fatal error
    and ends with a result that satisfies a condition. *)
From Stdlib Require Import Ascii.
From stdpp Require Import base decidable option list strings gmap relations.
From Stdlib Require Import ZArith Lia.
From S2P Require Import Prelude GoStd Ber BerModel Codes Options Control Packet Entry Attribute Parameters Message Response Request DirOptions Directory DirectorySpec DirThreads.
Import GoStrings.


(** ** A logic of interference *)

Section rely.
Context `{BerOps}.
Variable Inv : shared → Prop.
Variable Rely : nat → shared → shared → Prop.
Hypothesis Rely_refl : ∀ i s, Rely i s s.
Hypothesis Rely_trans : ∀ i s1 s2 s3, Rely i s1 s2 → Rely i s2 s3 → Rely i s1 s3.

Fixpoint safe {A} (i c : nat) (p : prog A) (Q : A → shared → Prop) (s : shared) : Prop :=
  match p with
  | Ret a => ∀ s', Rely i s s' → Inv s' → Q a s'
  | Step o k =>
      ∀ s', Rely i s s' → Inv s' →
        match exec o i c s' with
        | Done x s'' =>
            Inv s'' ∧ (∀ j, j ≠ i → Rely j s' s'') ∧ safe i c (k x) Q s''
        | Waits => True
        | Fatal => False
        end
  end.

Lemma safe_mono {A} i c (p : prog A) Q s s' : safe i c p Q s → Rely i s s' → safe i c p Q s'.
Proof. destruct p; simpl; intros Hs Hr s'' Hr'; apply Hs; by eapply Rely_trans. Qed.

Lemma safe_weaken {A} i c (p : prog A) (Q Q' : A → shared → Prop) s :
  (∀ a s', Inv s' → Q a s' → Q' a s') → safe i c p Q s → safe i c p Q' s.
Proof.
  intros HQ. revert s. induction p as [a|X o k IH]; intros s Hs; simpl in *; [eauto|].
  intros s' Hr Hi. specialize (Hs s' Hr Hi). destruct (exec o i c s'); [|done..].
  destruct Hs as (? & ? & ?). split_and!; auto.
Qed.

Lemma safe_bind {A B} i c (p : prog A) (f : A → prog B) Q1 Q2 s :
  Inv s → safe i c p Q1 s → (∀ a s', Inv s' → Q1 a s' → safe i c (f a) Q2 s') →
  safe i c (prog_bind p f) Q2 s.
Proof.
  intros Hi Hp Hf. revert s Hi Hp. induction p as [a|X o k IH]; intros s Hi Hp; simpl in *.
  - eauto.
  - intros s' Hr Hi'. specialize (Hp s' Hr Hi'). destruct (exec o i c s'); [|done..].
    destruct Hp as (? & ? & ?). split_and!; auto.
Qed.

(** Threads that are all safe stay so. *)
Definition pool_safe (Q : nat → outcome unit * Response → shared → Prop) (p : pool) : Prop :=
  Inv (sh p) ∧ ∀ i c q, threads p !! i = Some (c, q) → safe i c q (Q i) (sh p).

Lemma pool_safe_step Q p p' : pool_safe Q p → pstep p p' → pool_safe Q p'.
Proof.
  intros Hp Hst0. destruct Hst0 as [i q q' Hst]. destruct Hp as [Hi Hs].
  unfold thread_step in Hst.
  destruct (threads q !! i) as [[c [a|X o k]]|] eqn:Ei; [done| |done].
  pose proof (Hs i c _ Ei (sh q) (Rely_refl i _) Hi) as Hst'.
  destruct (exec o i c (sh q)) as [x s| |]; [|done..]. destruct Hst' as (Hi' & Hg & Hk).
  injection Hst as <-. split; [done|]. simpl. intros j c' q'.
  destruct (decide (i = j)) as [->|Hne].
  - rewrite list_lookup_insert_eq by by eapply lookup_lt_Some. by intros [= <- <-].
  - rewrite list_lookup_insert_ne by done. intros Hj. eapply safe_mono; [by apply Hs|]. auto.
Qed.

Lemma pool_safe_steps Q p p' : pool_safe Q p → rtc pstep p p' → pool_safe Q p'.
Proof. induction 2; eauto using pool_safe_step. Qed.

(** A thread that is finished has its result. *)
Lemma pool_safe_result Q p i c a :
  pool_safe Q p → threads p !! i = Some (c, Ret a) → Q i a (sh p).
Proof. intros [Hi Hs] Hl. by apply (Hs i c _ Hl (sh p)). Qed.

(** What holds in spite of the others. *)
Definition stable (i : nat) (P : shared → Prop) : Prop :=
  ∀ s s', Inv s' → Rely i s s' → P s → P s'.

(** *** Triples *)

(** A thread started where [P] holds ends where [Q] holds of its result, or with a panic
    where [W] holds of it. *)
Definition post {R A} (W : string → shared → Prop) (Q : A → R → shared → Prop)
    (x : outcome A * R) (s : shared) : Prop :=
  match fst x with
  | Ok a => Q a (snd x) s
  | Err _ => False
  | Panic w => W w s
  end.

Definition triple {R A} (i c : nat) (W : string → shared → Prop) (P : R → shared → Prop)
    (m : TM R A) (Q : A → R → shared → Prop) : Prop :=
  ∀ r s, Inv s → P r s → safe i c (m r) (post W Q) s.

Lemma triple_ret {R A} i c W (P : R → shared → Prop) (a : A) (Q : A → R → shared → Prop) :
  (∀ r, stable i (P r)) → (∀ r s, Inv s → P r s → Q a r s) → triple i c W P (mret a) Q.
Proof. intros HP HQ r s Hi Hp s' Hr Hi'. apply HQ; [done|]. by eapply HP. Qed.

Lemma triple_bind {R A B} i c W P (m : TM R A) (f : A → TM R B) Q Q' :
  (∀ w, stable i (W w)) →
  triple i c W P m Q → (∀ a, triple i c W (Q a) (f a) Q') → triple i c W P (m ≫= f) Q'.
Proof.
  intros HW Hm Hf r s Hi Hp. eapply safe_bind; [done|by apply Hm|].
  intros [[a|e|w] r'] s' Hi' Hq; unfold post in Hq; simpl in *.
  - by apply Hf.
  - done.
  - intros s'' Hr Hi''. unfold post. simpl. by eapply HW.
Qed.

Lemma triple_conseq {R A} i c (W W' : string → shared → Prop) P P' (m : TM R A) Q Q' :
  triple i c W P m Q → (∀ r s, Inv s → P' r s → P r s) →
  (∀ a r s, Inv s → Q a r s → Q' a r s) → (∀ w s, W w s → W' w s) →
  triple i c W' P' m Q'.
Proof.
  intros Hm HP HQ HW r s Hi Hp. eapply safe_weaken; [|by apply Hm, HP].
  intros [[a|e|w] r'] s' Hi'; unfold post; simpl; auto.
Qed.

Lemma triple_panic {R A} i c (W : string → shared → Prop) (P : R → shared → Prop) w Q :
  (∀ r, stable i (P r)) → (∀ r s, P r s → W w s) →
  triple i c W P (panic_ (R := R) (A := A) w) Q.
Proof. intros HP Hw r s Hi Hp s' Hr Hi'. unfold post. simpl. eapply Hw. by eapply HP. Qed.

Lemma triple_res {R} i c W (P : R → shared → Prop) f (Q : unit → R → shared → Prop) :
  (∀ r, stable i (P r)) → (∀ r s, Inv s → P r s → Q () (f r) s) → triple i c W P (changeRes_ f) Q.
Proof. intros HP HQ r s Hi Hp s' Hr Hi'. apply HQ; [done|]. by eapply HP. Qed.

(** An operation. *)
Lemma triple_do {R X} i c W (P : R → shared → Prop) (o : op X) (Q : X → R → shared → Prop) :
  (∀ r, stable i (P r)) → (∀ x r, stable i (Q x r)) →
  (∀ r s, Inv s → P r s →
     match exec o i c s with
     | Done x s' => Inv s' ∧ (∀ j, j ≠ i → Rely j s s') ∧ Q x r s'
     | Waits => True
     | Fatal => False
     end) →
  triple i c W P (do_ o) Q.
Proof.
  intros HP HQ Ho r s Hi Hp s' Hr Hi'.
  specialize (Ho r s' Hi' (HP r s s' Hi' Hr Hp)). destruct (exec o i c s'); [|done..].
  destruct Ho as (? & ? & ?). split_and!; [done..|]. intros s'' Hr' Hi''. by eapply HQ.
Qed.

(** What no thread can undo is kept by this thread, too. *)
Definition always (F : shared → Prop) : Prop := ∀ i, stable i F.

Lemma safe_frame {A} i c (p : prog A) Q (F : shared → Prop) s :
  always F → F s → safe i c p Q s → safe i c p (λ a s, Q a s ∧ F s) s.
Proof.
  intros HF. revert s. induction p as [a|X o k IH]; intros s Hs Hp; simpl in *.
  - intros s' Hr Hi. split; [auto|]. by eapply HF.
  - intros s' Hr Hi. specialize (Hp s' Hr Hi). destruct (exec o i c s') as [x s''| |]; [|done..].
    destruct Hp as (? & Hg & ?). split_and!; [done..|]. apply IH; [|done].
    apply (HF (S i) s'); [done|apply Hg; lia|]. by eapply HF.
Qed.

Lemma triple_frame {R A} i c (W : string → shared → Prop) P (m : TM R A) Q (F : shared → Prop) :
  always F → triple i c W P m Q →
  triple i c W (λ r s, P r s ∧ F s) m (λ a r s, Q a r s ∧ F s).
Proof.
  intros HF Hm r s Hi [Hp Hf]. eapply safe_weaken;
    [|apply (safe_frame i c (m r) (post W Q) F s HF Hf); by apply Hm].
  intros [[a|e|w] r'] s' Hi' [Hq ?]; unfold post in *; simpl in *; auto.
Qed.

Lemma always_stable F i : always F → stable i F.
Proof. auto. Qed.

Lemma stable_and i P Q : stable i P → stable i Q → stable i (λ s, P s ∧ Q s).
Proof. intros HP HQ s s' Hi Hr [? ?]. eauto. Qed.

Lemma stable_pure i (P : Prop) : stable i (λ _, P).
Proof. by intros s s' _ _. Qed.

Lemma always_and P Q : always P → always Q → always (λ s, P s ∧ Q s).
Proof. intros HP HQ i. by apply stable_and. Qed.

Lemma always_pure (P : Prop) : always (λ _, P).
Proof. intros i. apply stable_pure. Qed.

Lemma always_Forall {A} (P : A → shared → Prop) l :
  (∀ x, always (P x)) → always (λ s, Forall (λ x, P x s) l).
Proof.
  intros HP i s s' Hi Hr Hl. eapply Forall_impl; [done|]. simpl. intros x. by apply (HP x i).
Qed.

Lemma always_ex {A} (P : A → shared → Prop) : (∀ x, always (P x)) → always (λ s, ∃ x, P x s).
Proof. intros HP i s s' Hi Hr [x Hx]. exists x. by eapply HP. Qed.
End rely.
