(* ===== verification/DirInterleave.v ===== *)
(** What holds in every interleaving of the test directory's handlers.

    The invariant [good]: no pointer the handlers can reach is nil and every
    slice header fits its backing array.  What a handler may do to the others
    is [frame]; DirRely.v gives the rules.  From these: no interleaving makes a
    fatal error, the only panic is the one of a delete whose index is out of
    range by the time it takes the lock, and while no handler deletes, an entry
    whose add succeeded stays. *)
From Stdlib Require Import Ascii.
From stdpp Require Import base decidable option list strings gmap relations.
From Stdlib Require Import ZArith Lia.
From S2P Require Import Prelude GoStd Ber BerModel Codes Options Control Packet Entry Attribute Parameters Message Response Request DirOptions Directory DirectorySpec DirThreads DirRely.
Import GoStrings.

(** ** The invariant *)

(** A slice header that fits its array; its elements are not nil. *)
Definition valid (x : slice) (s : shared) : Prop :=
  ∃ l, arrays s !! s_arr x = Some l ∧ length l = s_cap x ∧ (s_len x ≤ s_cap x)%nat ∧
    ∀ j, (j < s_len x)%nat → ∃ e, l !! j = Some (Some e).

Record good (s : shared) : Prop := mkGood {
  good_store : store_ok (heap s);
  good_slots : ∀ a l j e, arrays s !! a = Some l → l !! j = Some (Some e) → live (heap s) e;
  good_users : valid (s_users s) s;
  good_groups : valid (s_groups s) s;
  good_tokens : ∀ sid l, tokenGroups (base s) !! sid = Some l → Forall (live (heap s)) l;
}.

(** The elements of a slice, and the users there are. *)
Definition elements (x : slice) (s : shared) : list (option addr) :=
  take (s_len x) (default [] (arrays s !! s_arr x)).
Definition visible (s : shared) : list (option addr) := elements (s_users s) s.

(** Memory that only grows: entries keep their DN, attributes stay. *)
Record grows (m m' : store) : Prop := mkGrows {
  grows_entries : ∀ e o, entries m !! e = Some o →
    ∃ o', entries m' !! e = Some o' ∧ obj_DN o' = obj_DN o;
  grows_attributes : ∀ a, is_Some (attributes m !! a) → is_Some (attributes m' !! a);
}.

(** Arrays keep their length, and an element that is not nil does not become nil. *)
Definition arrays_grow (s s' : shared) : Prop :=
  ∀ a l, arrays s !! a = Some l →
    ∃ l', arrays s' !! a = Some l' ∧ length l' = length l ∧
      ∀ j e, l !! j = Some (Some e) → ∃ e', l' !! j = Some (Some e').

(** What the others may do while thread [i] looks away.  With [keep], none of them
    deletes. *)
Record frame (keep : bool) (i : nat) (s s' : shared) : Prop := mkFrame {
  frame_base : base s' = base s;
  frame_heap : grows (heap s) (heap s');
  frame_arrays : arrays_grow s s';
  frame_lock : mu s = Some i →
    mu s' = Some i ∧ s_users s' = s_users s ∧ s_groups s' = s_groups s ∧ arrays s' = arrays s;
  frame_keep : keep = true → visible s `prefix_of` visible s';
}.

Lemma grows_refl m : grows m m.
Proof. split; eauto. Qed.

Lemma grows_trans m1 m2 m3 : grows m1 m2 → grows m2 m3 → grows m1 m3.
Proof.
  intros [E1 A1] [E2 A2]. split; [|auto].
  intros e o Ho. destruct (E1 e o Ho) as (o' & Ho' & Hd).
  destruct (E2 e o' Ho') as (o'' & ? & ?). exists o''. split; congruence.
Qed.

Lemma grows_live m m' e : grows m m' → live m e → live m' e.
Proof. intros [He _] [o Ho]. destruct (He e o Ho) as (o' & ? & _). by exists o'. Qed.

Lemma arrays_grow_refl s s' : arrays s' = arrays s → arrays_grow s s'.
Proof. intros Ha a l Hl. rewrite Ha. eauto. Qed.

Lemma frame_refl keep i s : frame keep i s s.
Proof. split; auto using grows_refl, arrays_grow_refl. Qed.

Lemma frame_trans keep i s1 s2 s3 : frame keep i s1 s2 → frame keep i s2 s3 → frame keep i s1 s3.
Proof.
  intros [B1 H1 A1 L1 K1] [B2 H2 A2 L2 K2]. split.
  - congruence.
  - by eapply grows_trans.
  - intros a l Hl. destruct (A1 a l Hl) as (l' & Hl' & ? & Hj).
    destruct (A2 a l' Hl') as (l'' & ? & ? & Hj'). exists l''. split_and!; [done|lia|].
    intros j e He. destruct (Hj j e He) as [e' He']. eauto.
  - intros Hm. destruct (L1 Hm) as (Hm' & ? & ? & ?), (L2 Hm') as (? & ? & ? & ?).
    split_and!; congruence.
  - intros Hk. exact (transitivity (K1 Hk) (K2 Hk)).
Qed.

(** ** Changes of the shared state *)

(** A change of memory alone. *)
Lemma heap_change m s :
  good s → grows (heap s) m → store_ok m →
  good (with_heap m s) ∧ ∀ keep j, frame keep j s (with_heap m s).
Proof.
  intros [Hs Hl Hu Hg Ht] Hm Hok. split.
  - split; [done| |done..|].
    + intros a l j e Ha He. eapply grows_live; [done|]. by eapply Hl.
    + intros sid l Hsid. eapply Forall_impl; [by eapply Ht|]. intros e. by apply grows_live.
  - intros keep j. split; [done|done|by apply arrays_grow_refl|done|done].
Qed.

Lemma grows_set_entry m e o attrs :
  entries m !! e = Some o →
  grows m (mkStore (<[e := mkEntryObj (obj_DN o) attrs]> (entries m)) (attributes m)).
Proof.
  intros Ho. split; [|done]. intros e' o' Ho'. simpl.
  destruct (decide (e = e')) as [<-|Hne].
  - rewrite lookup_insert_eq. eexists. split; [done|]. simpl. congruence.
  - rewrite lookup_insert_ne by done. eauto.
Qed.

Lemma grows_attr m a v : grows m (mkStore (entries m) (<[a := v]> (attributes m))).
Proof. split; [eauto|]. intros b [w Hw]. simpl. destruct (decide (a = b)) as [->|Hne].
  - rewrite lookup_insert_eq. eauto.
  - rewrite lookup_insert_ne by done. eauto.
Qed.

Lemma store_ok_attr m a v :
  store_ok m → store_ok (mkStore (entries m) (<[a := v]> (attributes m))).
Proof.
  intros Hs l o Ho. eapply Forall_impl; [by apply (Hs l o)|]. simpl. intros b.
  apply (grows_attributes _ _ (grows_attr m a v)).
Qed.

Lemma store_ok_set_entry m e dn attrs :
  store_ok m → Forall (λ a, is_Some (attributes m !! a)) attrs →
  store_ok (mkStore (<[e := mkEntryObj dn attrs]> (entries m)) (attributes m)).
Proof.
  intros Hs Ha l o Ho. simpl in *.
  apply lookup_insert_Some in Ho as [[<- <-]|[_ Ho]]; [done|by eapply Hs].
Qed.

Lemma new_entry_grows v m e m' :
  store_ok m → new_entry v m = (e, m') →
  grows m m' ∧ store_ok m' ∧ ∃ o, entries m' !! e = Some o ∧ obj_DN o = DN v.
Proof.
  intros Hs. unfold new_entry. destruct (new_attributes (Attributes v) m) as [ls m1] eqn:E.
  intros [= <- <-]. pose proof (new_entry_spec v m) as Hn. unfold new_entry in Hn.
  rewrite E in Hn. destruct (Hn _ _ eq_refl) as (Hf & _ & _ & _ & Hok & _).
  apply new_attributes_spec in E as (He & Ha & _). split_and!.
  - split; simpl.
    + intros e o Ho. rewrite He in *. exists o. split; [|done]. rewrite lookup_insert_ne; [done|].
      congruence.
    + intros a [w Hw]. exists w. by eapply lookup_weaken.
  - by apply Hok.
  - eexists. split; [apply lookup_insert_eq|done].
Qed.

(** A change of the arrays by the thread that has the lock. *)
Lemma arrays_change A s i :
  good s → mu s = Some i → arrays_grow s (with_arrays A s) →
  (∀ a l j e, A !! a = Some l → l !! j = Some (Some e) → live (heap s) e) →
  good (with_arrays A s) ∧
  ∀ keep j, j ≠ i → (keep = true → visible s `prefix_of` visible (with_arrays A s)) →
    frame keep j s (with_arrays A s).
Proof.
  intros [Hs Hl Hu Hg Ht] Hm Hgr HA.
  assert (∀ x, valid x s → valid x (with_arrays A s)) as Hv.
  { intros x (l & Hx & ? & ? & Hj). destruct (Hgr _ _ Hx) as (l' & ? & ? & Hj').
    exists l'. split_and!; [done|lia|done|]. intros j Hlt. destruct (Hj j Hlt). eauto. }
  split; [split; [done|done|by apply Hv|by apply Hv|done]|].
  intros keep j Hne Hk. split; [done|apply grows_refl|done| |done]. simpl. congruence.
Qed.

(** Writing an element that is not nil. *)
Lemma arrays_set_grow s a l j e :
  arrays s !! a = Some l → arrays_grow s (with_arrays (<[a := <[j := Some e]> l]> (arrays s)) s).
Proof.
  intros Ha b l' Hl'. simpl. destruct (decide (a = b)) as [<-|Hne].
  - rewrite lookup_insert_eq. simplify_eq. eexists. split_and!; [done|by rewrite length_insert|].
    intros k e' Hk. destruct (decide (j = k)) as [<-|Hjk].
    + rewrite list_lookup_insert_eq by by eapply lookup_lt_Some. eauto.
    + rewrite list_lookup_insert_ne by done. eauto.
  - rewrite lookup_insert_ne by done. eauto.
Qed.

Lemma arrays_set_live s a l j e b l' k e' :
  good s → live (heap s) e → arrays s !! a = Some l →
  <[a := <[j := Some e]> l]> (arrays s) !! b = Some l' → l' !! k = Some (Some e') →
  live (heap s) e'.
Proof.
  intros Hg He Ha [[<- <-]|[Hne Hb]]%lookup_insert_Some Hk.
  - apply list_lookup_insert_Some in Hk as [(<- & [= <-] & _)|[_ Hk]]; [done|].
    by eapply good_slots.
  - by eapply good_slots.
Qed.

(** A new array. *)
Lemma arrays_new_grow s a l :
  arrays s !! a = None → arrays_grow s (with_arrays (<[a := l]> (arrays s)) s).
Proof.
  intros Ha b l' Hl'. simpl. exists l'. rewrite lookup_insert_ne by congruence. eauto.
Qed.

(** A new slice header, by the thread that has the lock. *)
Lemma slice_change x h s i :
  good s → mu s = Some i → valid h s →
  good (with_slice x h s) ∧
  ∀ keep j, j ≠ i → (keep = true → visible s `prefix_of` visible (with_slice x h s)) →
    frame keep j s (with_slice x h s).
Proof.
  intros [Hs Hl Hu Hg Ht] Hm Hv. destruct x; simpl.
  all: split; [by split|].
  all: intros keep j Hne Hk; split; [done|apply grows_refl|by apply arrays_grow_refl| |done].
  all: simpl; congruence.
Qed.

(** ** Rules for the directory *)

Section rules.
Context `{BerOps}.
Variable keep : bool.
Variables (i c : nat).
(** The panics that may happen. *)
Variable W0 : string → Prop.

#[local] Abbreviation Rely := (frame keep).
#[local] Abbreviation stable_ := (stable good Rely i).
#[local] Abbreviation always_ := (always good Rely).

(** The panics, with the lock held or not. *)
Definition held (h : bool) (s : shared) : Prop := if h then mu s = Some i else True.
Definition fails (h : bool) (w : string) (s : shared) : Prop := W0 w ∧ held h s.
#[local] Notation "'{{' P '}}' m '@' h '{{' Q '}}'" :=
  (triple good Rely i c (fails h) P m Q) (at level 0, m at level 10, h at level 5).

Lemma stable_held h : stable_ (held h).
Proof. intros s s' _ Hr. destruct h; simpl; [|done]. intros Hm. by apply (frame_lock _ _ _ _ Hr). Qed.

Lemma stable_fails h w : stable_ (fails h w).
Proof. apply stable_and; [apply stable_pure|apply stable_held]. Qed.

Lemma triple_seq {R A B} h (P : R → shared → Prop) (m : TM R A) (f : A → TM R B) Q Q' :
  {{ P }} m @ h {{ Q }} → (∀ a, {{ Q a }} (f a) @ h {{ Q' }}) → {{ P }} (m ≫= f) @ h {{ Q' }}.
Proof. apply triple_bind; [apply frame_refl|apply stable_fails]. Qed.

(** What is known for good. *)
Lemma always_live e : always_ (λ s, live (heap s) e).
Proof. intros j s s' _ Hr. apply grows_live, Hr. Qed.

Lemma always_attr a : always_ (λ s, is_Some (attributes (heap s) !! a)).
Proof. intros j s s' _ Hr. apply grows_attributes, Hr. Qed.

Lemma always_attrs l : always_ (λ s, Forall (λ a, is_Some (attributes (heap s) !! a)) l).
Proof. apply (always_Forall _ _ (λ a s, is_Some (attributes (heap s) !! a))), always_attr. Qed.

Lemma always_lives l : always_ (λ s, Forall (live (heap s)) l).
Proof. apply (always_Forall _ _ (λ e s, live (heap s) e)), always_live. Qed.

Lemma always_base d : always_ (λ s, base s = d).
Proof. intros j s s' _ Hr Hd. rewrite (frame_base _ _ _ _ Hr). done. Qed.

Lemma always_valid x : always_ (valid x).
Proof.
  intros j s s' _ Hr (l & Hl & ? & ? & Hj).
  destruct (frame_arrays _ _ _ _ Hr _ _ Hl) as (l' & ? & ? & Hj').
  exists l'. split_and!; [done|lia|done|]. intros k Hk. destruct (Hj k Hk). eauto.
Qed.

(** An entry with a DN. *)
Definition named (dn : string) (e : addr) (s : shared) : Prop :=
  ∃ o, entries (heap s) !! e = Some o ∧ obj_DN o = dn.

Lemma always_named dn e : always_ (named dn e).
Proof.
  intros j s s' _ Hr (o & Ho & <-). destruct (grows_entries _ _ (frame_heap _ _ _ _ Hr) e o Ho)
    as (o' & ? & ?). by exists o'.
Qed.

(** What the lock protects. *)
Lemma stable_locked (P : slice → slice → gmap addr (list (option addr)) → Prop) :
  stable_ (λ s, mu s = Some i ∧ P (s_users s) (s_groups s) (arrays s)).
Proof.
  intros s s' _ Hr [Hm HP]. destruct (frame_lock _ _ _ _ Hr Hm) as (-> & -> & -> & ->). done.
Qed.

(** Stability of a conjunction of such facts. *)
Ltac stab :=
  repeat first
    [ solve [eauto] | apply stable_and | apply stable_pure | apply stable_held
    | apply always_live | apply always_attr | apply always_attrs | apply always_lives
    | apply always_base | apply always_valid | apply always_named
    | apply always_stable | apply always_ex; intros | apply always_and | apply always_pure ].

(** Rules for a thread whose condition is stable. *)
Section stable.
Context {R : Type}.
Variable P : R → shared → Prop.
Hypothesis HP : ∀ r, stable_ (P r).

(** An operation that changes nothing the others, or this thread, rely on. *)
Lemma triple_quiet {X} h (o : op X) (F : X → shared → Prop) :
  (∀ x, stable_ (F x)) →
  (∀ r s, good s → P r s → ∃ x s', exec o i c s = Done x s' ∧ good s' ∧
     (∀ j, Rely j s s') ∧ F x s') →
  {{ P }} (do_ o) @ h {{ λ x r s, P r s ∧ F x s }}.
Proof.
  intros HF Ho. apply triple_do; [done|intros; by apply stable_and|].
  intros r s Hi Hp. destruct (Ho r s Hi Hp) as (x & s' & -> & Hg & Hr & Hf).
  split_and!; [done|auto| |done]. by eapply HP.
Qed.

Lemma triple_read {X} h (o : op X) (rd : shared → X) (F : X → shared → Prop) :
  (∀ s, exec o i c s = Done (rd s) s) → (∀ x, stable_ (F x)) →
  (∀ r s, good s → P r s → F (rd s) s) →
  {{ P }} (do_ o) @ h {{ λ x r s, P r s ∧ F x s }}.
Proof.
  intros Ho HF Hf. apply triple_quiet; [done|]. intros r s Hi Hp. exists (rd s), s.
  split_and!; eauto using frame_refl.
Qed.

Lemma triple_base h :
  {{ P }} (do_ OBase) @ h {{ λ d r s, P r s ∧ base s = d }}.
Proof. by apply (triple_read _ _ base); [|intros; apply always_base|]. Qed.

Lemma triple_slice h x :
  {{ P }} (do_ (OSlice x)) @ h {{ λ y r s, P r s ∧ valid y s }}.
Proof.
  apply (triple_read _ _ (slice_of x)); [done|intros; apply always_valid|].
  intros r s Hi _. destruct x; apply Hi.
Qed.

Lemma triple_elem h y j :
  (∀ r s, P r s → valid y s) → (j < s_len y)%nat →
  {{ P }} (do_ (OElem (s_arr y) j)) @ h
    {{ λ e r s, P r s ∧ ∃ a, e = Some a ∧ live (heap s) a }}.
Proof.
  intros Hv Hj. apply triple_quiet.
  { intros e. stab. }
  intros r s Hi Hp. destruct (Hv r s Hp) as (l & Hl & _ & _ & He). destruct (He j Hj) as [a Ha].
  exists (Some a), s. simpl. rewrite Hl, Ha. split_and!; eauto using frame_refl, good_slots.
Qed.

Lemma triple_deref h e :
  (∀ r s, P r s → live (heap s) e) →
  {{ P }} (deref_ (Some e)) @ h
    {{ λ o r s, P r s ∧ Forall (λ a, is_Some (attributes (heap s) !! a)) (obj_Attributes o) }}.
Proof.
  intros Hl. unfold deref_. eapply triple_seq.
  - apply (triple_read _ _ (λ s, entries (heap s) !! e)
      (λ o s, ∃ o', o = Some o' ∧ Forall (λ a, is_Some (attributes (heap s) !! a)) (obj_Attributes o')));
      [done| |].
    + intros o. stab.
    + intros r s Hi Hp. destruct (Hl r s Hp) as [o Ho]. exists o. split; [done|].
      by eapply good_store.
  - intros [o|]; simpl.
    + apply triple_ret; [intros r; stab|]. intros r s _ (Hp & ? & [= <-] & ?). eauto.
    + intros r s _ (_ & ? & [=] & _).
Qed.

Lemma triple_derefAttr h a :
  (∀ r s, P r s → is_Some (attributes (heap s) !! a)) →
  {{ P }} (derefAttr_ a) @ h {{ λ _ r s, P r s }}.
Proof.
  intros Hl. unfold derefAttr_. eapply triple_seq.
  - apply (triple_read _ _ (λ s, attributes (heap s) !! a) (λ o _, is_Some o)); [done| |].
    + intros o. apply stable_pure.
    + intros r s _ Hp. by apply (Hl r).
  - intros [o|]; simpl.
    + apply triple_ret; [|by intros r s _ [? _]]. intros r. stab.
    + intros r s _ [_ [? [=]]].
Qed.

Lemma triple_write h x :
  {{ P }} (do_ (OWrite x)) @ h {{ λ _ r s, P r s }}.
Proof.
  eapply triple_conseq; [apply (triple_quiet h _ (λ _ _, True))|..]; [| |eauto|by intros ? ? ? ? []|eauto].
  - intros. apply stable_pure.
  - intros r s [Hs Hl Hu Hg Ht] _. simpl.
    destruct (Write (Some x) _) as [err o]. eexists _, _. split; [done|]. split; [by split|].
    split; [|done]. intros j. split; [done|apply grows_refl|by apply arrays_grow_refl|done|done].
Qed.
End stable.

(** The same thread under a stronger condition. *)
Lemma triple_pre {R A} h (P P' : R → shared → Prop) (m : TM R A) Q :
  {{ P }} m @ h {{ Q }} → (∀ r s, P' r s → P r s) → {{ P' }} m @ h {{ Q }}.
Proof. intros Hm HP. eapply triple_conseq; eauto. Qed.

Lemma triple_post {R A} h (P : R → shared → Prop) (m : TM R A) Q Q' :
  {{ P }} m @ h {{ Q }} → (∀ a r s, Q a r s → Q' a r s) → {{ P }} m @ h {{ Q' }}.
Proof. intros Hm HQ. eapply triple_conseq; eauto. Qed.

Lemma triple_some {R A B} h (P : R → shared → Prop) F (e : option B) (m : TM R A) Q :
  (∀ a, e = Some a → {{ λ r s, P r s ∧ F a s }} m @ h {{ Q }}) →
  {{ λ r s, P r s ∧ ∃ a, e = Some a ∧ F a s }} m @ h {{ Q }}.
Proof. intros Hm r s Hi (Hp & a & He & Hf). by apply (Hm a He). Qed.

(** ** The loops *)

Lemma triple_mapM_attr {R} h (P : R → shared → Prop) attrs :
  (∀ r, stable_ (P r)) →
  (∀ r s, P r s → Forall (λ a, is_Some (attributes (heap s) !! a)) attrs) →
  {{ P }} (mapM derefAttr_ attrs) @ h {{ λ _ r s, P r s }}.
Proof.
  intros HP. induction attrs as [|a attrs IH]; intros Ha; simpl; [by apply triple_ret|].
  eapply triple_seq; [apply triple_derefAttr; [done|]|intros v].
  { intros r s Hp. by apply Ha in Hp as [? _]%Forall_cons. }
  eapply triple_seq; [apply IH|intros vs; by apply triple_ret].
  intros r s Hp. by apply Ha in Hp as [_ ?]%Forall_cons.
Qed.

Lemma triple_attributeValues {R} h (P : R → shared → Prop) name attrs :
  (∀ r, stable_ (P r)) →
  (∀ r s, P r s → Forall (λ a, is_Some (attributes (heap s) !! a)) attrs) →
  {{ P }} (attributeValues_ name attrs) @ h {{ λ _ r s, P r s }}.
Proof.
  intros HP. induction attrs as [|a attrs IH]; intros Ha; simpl; [by apply triple_ret|].
  eapply triple_seq; [apply triple_derefAttr; [done|]|intros v].
  { intros r s Hp. by apply Ha in Hp as [? _]%Forall_cons. }
  case_decide; [by apply triple_ret|]. apply IH.
  intros r s Hp. by apply Ha in Hp as [_ ?]%Forall_cons.
Qed.

(** The element of a slice, and the entry it points to. *)
Lemma triple_element {R A} h (P : R → shared → Prop) y j (k : option addr → entryObj → TM R A) Q :
  (∀ r, stable_ (P r)) → (∀ r s, P r s → valid y s) → (j < s_len y)%nat →
  (∀ a o, {{ λ r s, (P r s ∧ live (heap s) a) ∧
                Forall (λ a, is_Some (attributes (heap s) !! a)) (obj_Attributes o) }}
             (k (Some a) o) @ h {{ Q }}) →
  {{ P }} (e ← do_ (OElem (s_arr y) j); o ← deref_ e; k e o) @ h {{ Q }}.
Proof.
  intros HP Hv Hj Hk. eapply triple_seq; [by apply triple_elem|intros e].
  apply triple_some with (F := λ a s, live (heap s) a). intros a ->.
  eapply triple_seq; [apply triple_deref; [intros r; stab|by intros r s []]|].
  intros o. apply Hk.
Qed.

Lemma triple_findLoop {R} h (P : R → shared → Prop) f y n idx ids ms :
  (∀ r, stable_ (P r)) → (∀ r s, P r s → valid y s ∧ Forall (live (heap s)) ms) →
  (idx + n ≤ s_len y)%nat →
  {{ P }} (findLoop_ f y idx n ids ms) @ h {{ λ x r s, P r s ∧ Forall (live (heap s)) x.2 }}.
Proof.
  revert P idx ids ms. induction n as [|n IH]; intros P idx ids ms HP Hv Hn.
  - simpl. apply triple_ret; [done|]. intros r s _ Hp. split; [done|].
    case_decide; simpl; [by apply (Hv r)|by constructor].
  - cbn [findLoop_]. apply triple_element; [done|by intros r s []%Hv|lia|]. intros a o.
    destruct (match_ f (obj_DN o)).
    all: eapply triple_post; [apply IH; [intros r; stab| |lia]|by intros x r s [[[? _] _] ?]].
    all: intros r s [[Hp Hl] _]; destruct (Hv r s Hp); split; [done|].
    + simpl. apply Forall_app. auto.
    + done.
Qed.

Lemma triple_find {R} h (P : R → shared → Prop) f x :
  (∀ r, stable_ (P r)) →
  {{ P }} (find_ f x) @ h {{ λ y r s, P r s ∧ Forall (live (heap s)) y.2 }}.
Proof.
  intros HP. unfold find_. eapply triple_seq; [by apply triple_slice|]. intros y.
  eapply triple_post; [apply triple_findLoop; [intros r; stab| |lia]|by intros ? r s [[? _] ?]].
  intros r s [_ ?]. auto.
Qed.

Lemma Forall_members (F : addr → Prop) f e ms l :
  F e → Forall F l → Forall F (snd (membersLoop false f e ms l)).
Proof.
  intros He. revert l. induction ms as [|m ms IH]; intros l Hl; simpl; [done|].
  case_match; simpl; apply IH; [|done]. apply Forall_app. auto.
Qed.

Lemma triple_findMembersLoop {R} h (P : R → shared → Prop) f y n idx ms :
  (∀ r, stable_ (P r)) → (∀ r s, P r s → valid y s ∧ Forall (live (heap s)) ms) →
  (idx + n ≤ s_len y)%nat →
  {{ P }} (findMembersLoop_ f y idx n ms) @ h {{ λ x r s, P r s ∧ Forall (live (heap s)) x.2 }}.
Proof.
  revert P idx ms. induction n as [|n IH]; intros P idx ms HP Hv Hn.
  - simpl. apply triple_ret; [done|]. intros r s _ Hp. split; [done|].
    case_decide; simpl; [by apply (Hv r)|constructor].
  - cbn [findMembersLoop_].
    apply (triple_element _ _ _ _ (λ e o,
      members ← attributeValues_ "member" (obj_Attributes o);
      findMembersLoop_ f y (S idx) n (match e with
        | Some e => snd (membersLoop false f e members ms) | None => ms end)));
      [done|by intros r s []%Hv|lia|]. intros a o.
    eapply triple_seq; [apply triple_attributeValues; [intros r; stab|by intros r s [_ ?]]|].
    intros members.
    eapply triple_post; [apply IH; [intros r; stab| |lia]|by intros x r s [[[? _] _] ?]].
    intros r s [[Hp Hl] _]. destruct (Hv r s Hp). split; [done|]. by apply Forall_members.
Qed.

Lemma triple_appendMatching {R} h (P : R → shared → Prop) b f y n idx ms :
  (∀ r, stable_ (P r)) → (∀ r s, P r s → valid y s ∧ Forall (live (heap s)) ms) →
  (idx + n ≤ s_len y)%nat →
  {{ P }} (appendMatching_ b f y idx n ms) @ h {{ λ x r s, P r s ∧ Forall (live (heap s)) x }}.
Proof.
  revert P idx ms. induction n as [|n IH]; intros P idx ms HP Hv Hn.
  - simpl. apply triple_ret; [done|]. intros r s _ Hp. split; [done|]. by apply (Hv r).
  - cbn [appendMatching_].
    apply triple_element; [done|by intros r s []%Hv|lia|]. intros a o.
    eapply triple_post; [apply IH; [intros r; stab| |lia]|by intros x r s [[[? _] _] ?]].
    intros r s [[Hp Hl] _]. destruct (Hv r s Hp). split; [done|].
    repeat case_match; try done. apply Forall_app. auto.
Qed.

Lemma triple_entryResponse {R} h (P : R → shared → Prop) rq e :
  (∀ r, stable_ (P r)) → (∀ r s, P r s → live (heap s) e) →
  {{ P }} (entryResponse_ rq e) @ h {{ λ _ r s, P r s }}.
Proof.
  intros HP Hl. unfold entryResponse_. eapply triple_seq; [by apply triple_deref|intros o].
  eapply triple_seq; [apply triple_mapM_attr; [intros r; stab|by intros r s [_ ?]]|intros attrs].
  apply triple_ret; [intros r; stab|by intros r s _ [? _]].
Qed.

Lemma triple_writeEntries {R} h (P : R → shared → Prop) rq l :
  (∀ r, stable_ (P r)) → (∀ r s, P r s → Forall (live (heap s)) l) →
  {{ P }} (writeEntries_ rq l) @ h {{ λ _ r s, P r s }}.
Proof.
  intros HP. induction l as [|e l IH]; intros Hl; cbn [writeEntries_]; [by apply triple_ret|].
  eapply triple_seq; [apply triple_entryResponse; [done|]|intros result].
  { intros r s Hp. by apply Hl in Hp as [? _]%Forall_cons. }
  eapply triple_seq; [by apply triple_write|intros [err|]]; [by apply triple_ret|].
  apply IH. intros r s Hp. by apply Hl in Hp as [_ ?]%Forall_cons.
Qed.

(** ** The lock *)

(** Between [d.mu.Lock()] and [d.mu.Unlock()]. *)
Lemma triple_locked {R A} (P : R → shared → Prop) (body : TM R A) Q :
  (∀ r, stable_ (P r)) → (∀ a r, always_ (Q a r)) →
  {{ λ r s, P r s ∧ mu s = Some i }} body @ true {{ λ a r s, Q a r s ∧ mu s = Some i }} →
  {{ P }} (locked body) @ false {{ Q }}.
Proof.
  intros HP HQ Hb r s Hi Hp s' Hr Hi'. simpl. destruct (mu s') as [?|] eqn:Em; [done|].
  assert (good (with_mu (Some i) s')) as Hg by (destruct Hi'; by split).
  assert (∀ j, frame keep j s' (with_mu (Some i) s')) as Hf.
  { intros j. split; [done|apply grows_refl|by apply arrays_grow_refl| |done]. simpl. congruence. }
  split_and!; [done|auto|].
  eapply safe_bind; [apply frame_refl|done|apply Hb; [done|split; [|done]]|].
  { eapply HP; [done| |done]. by eapply frame_trans. }
  intros [o r'] t Hi2 Ht t' Hr2 Hi3. simpl.
  assert (mu t = Some i) as Hm by (unfold post in Ht; destruct o; simpl in Ht; [apply Ht|done|apply Ht]).
  destruct (frame_lock _ _ _ _ Hr2 Hm) as (Hm' & _). rewrite Hm'.
  assert (∀ j, j ≠ i → frame keep j t' (with_mu None t')) as Hu.
  { intros j Hj. split; [done|apply grows_refl|by apply arrays_grow_refl| |done]. simpl. congruence. }
  split_and!; [by destruct Hi3|done|]. intros t'' Hr3 Hi4. unfold post in *.
  destruct o as [a|e|w]; simpl in *; [|done|split; [apply Ht|done]].
  eapply (HQ a r' i); [done|done|]. eapply (HQ a r' (S i) t'); [by destruct Hi3|apply Hu; lia|].
  eapply (HQ a r' i); [done|done|apply Ht].
Qed.

(** [defer w.Write(res)] around the rest of a handler, which then ends. *)
Definition served {R} (reply : R → Response) (Q : R → shared → Prop) (x : outcome unit * Response)
    (s : shared) : Prop :=
  match fst x with
  | Ok _ => ∃ r, snd x = reply r ∧ Q r s
  | Err _ => False
  | Panic w => W0 w
  end.

Lemma safe_ended {R} (P : R → shared → Prop) reply (m : TM R unit) (Q : R → shared → Prop) r s :
  {{ P }} m @ false {{ λ _ r s, Q r s }} → (∀ r, stable_ (Q r)) → good s → P r s →
  safe good Rely i c (ended reply (m r)) (served reply Q) s.
Proof.
  intros Hm HQ Hi Hp. unfold ended.
  eapply safe_bind; [apply frame_refl|done|by apply Hm|].
  intros [o r'] s' Hi' Hq s'' Hr Hi''. unfold served, post in *.
  destruct o as [[]|e|w]; simpl in *; [|done|apply Hq]. exists r'. split; [done|]. by eapply HQ.
Qed.

Lemma triple_deferred {R} (P : R → shared → Prop) reply (m : TM R unit) (Q : R → shared → Prop) :
  {{ P }} m @ false {{ λ _ r s, Q r s }} → (∀ r, stable_ (Q r)) →
  {{ P }} (deferred_ reply m) @ false {{ λ _ r s, Q r s }}.
Proof.
  intros Hm HQ r s Hi Hp. unfold deferred_.
  eapply safe_bind; [apply frame_refl|done|by apply Hm|]. intros [o r'] s' Hi' Hq.
  set (F := λ (r : R) s, post (fails false) (λ (_ : unit) r s, Q r s) (o, r) s).
  assert (∀ r, stable_ (F r)) as HF.
  { intros r0. unfold F, post. simpl. destruct o; [apply HQ|apply stable_pure|apply stable_fails]. }
  intros s1 Hr1 Hi1. pose proof (triple_write F HF false (reply r') r' s' Hi' Hq s1 Hr1 Hi1) as Hw.
  simpl in *. destruct (Write (Some (reply r')) _) as [err u].
  destruct Hw as (? & ? & Hw). split_and!; [done..|].
  intros s2 Hr2 Hi2. specialize (Hw s2 Hr2 Hi2). done.
Qed.

Lemma triple_message {R A} (P : R → shared → Prop) (m : outcome A) (k : A → TM R unit) Q :
  (∀ r, stable_ (P r)) → (∀ r s, P r s → Q () r s) → (∀ w, m ≠ Panic w) →
  (∀ a, m = Ok a → {{ P }} (k a) @ false {{ Q }}) → {{ P }} (withMessage_ m k) @ false {{ Q }}.
Proof.
  intros HP HQ Hm Hk. destruct m as [a|e|w]; simpl; [by apply Hk| |by destruct (Hm w)].
  apply triple_ret; auto.
Qed.

(** ** Slices under the lock *)

Lemma triple_ex {R A B} h (P : B → R → shared → Prop) (m : TM R A) Q :
  (∀ b, {{ P b }} m @ h {{ Q }}) → {{ λ r s, ∃ b, P b r s }} m @ h {{ Q }}.
Proof. intros Hm r s Hi [b Hp]. by apply (Hm b). Qed.

Lemma triple_pure {R A} h (P : R → shared → Prop) (φ : Prop) (m : TM R A) Q :
  (φ → {{ P }} m @ h {{ Q }}) → {{ λ r s, P r s ∧ φ }} m @ h {{ Q }}.
Proof. intros Hm r s Hi [Hp Hf]. by apply Hm. Qed.

(** The thread has the lock and knows the slices and the arrays. *)
Definition owns (u g : slice) (A : gmap addr (list (option addr))) (s : shared) : Prop :=
  mu s = Some i ∧ s_users s = u ∧ s_groups s = g ∧ arrays s = A.

(** The array of a slice is there. *)
Definition valid_in (u : slice) (A : gmap addr (list (option addr))) : Prop :=
  is_Some (A !! s_arr u).

Lemma stable_owns u g A : stable_ (owns u g A).
Proof. apply (stable_locked (λ u' g' A', u' = u ∧ g' = g ∧ A' = A)). Qed.

Lemma triple_mapM_elem {R} (F : shared → Prop) u g A a l k n :
  stable_ F → A !! a = Some l → (k + n ≤ length l)%nat →
  {{ λ (_ : R) s, owns u g A s ∧ F s }} (mapM (λ j, do_ (OElem a j)) (seq k n)) @ true
    {{ λ x _ s, (owns u g A s ∧ F s) ∧ x = take n (drop k l) }}.
Proof.
  intros HF Ha. revert k. induction n as [|n IH]; intros k Hn; simpl.
  { apply triple_ret; [intros _; apply stable_and; [apply stable_owns|done]|done]. }
  destruct (lookup_lt_is_Some_2 l k) as [e He]; [lia|].
  eapply triple_seq.
  { apply triple_quiet with (F := λ e' _, e' = e).
    - intros _. apply stable_and; [apply stable_owns|done].
    - intros. apply stable_pure.
    - intros _ s Hi [(_ & _ & _ & HA) _]. exists e, s. simpl. rewrite HA, Ha, He.
      split_and!; auto using frame_refl. }
  intros e'. apply triple_pure. intros ->. eapply triple_seq; [apply (IH (S k)); lia|intros es].
  apply triple_pure. intros ->.
  apply triple_ret; [intros _; apply stable_and; [apply stable_owns|done]|].
  intros _ s _ ?. split; [done|]. by rewrite (drop_S _ _ _ He).
Qed.

(** Writing an element. *)
Lemma triple_setElem {R} (F : shared → Prop) u g A a l j e :
  always_ F → (∀ s, F s → live (heap s) e) → A !! a = Some l → (j < length l)%nat →
  (keep = true → a = s_arr u → (s_len u ≤ j)%nat) →
  {{ λ (_ : R) s, owns u g A s ∧ F s }} (do_ (OSetElem a j (Some e))) @ true
    {{ λ _ _ s, owns u g (<[a := <[j := Some e]> l]> A) s ∧ F s }}.
Proof.
  intros HF Hl Ha Hj Hk. apply triple_do.
  1,2: intros; apply stable_and; [apply stable_owns|apply HF].
  intros _ s Hi [(Hm & Hu & Hg & HA) Hf]. simpl. rewrite HA, Ha, decide_True by done.
  rewrite <-HA in *. destruct (arrays_change (<[a := <[j := Some e]> l]> (arrays s)) s i)
    as [Hgood Hfr]; [done|done|by apply arrays_set_grow|intros; by eapply arrays_set_live; eauto|].
  assert (∀ k, k ≠ i → Rely k s (with_arrays (<[a := <[j := Some e]> l]> (arrays s)) s)) as Hr.
  { intros k Hne. apply Hfr; [done|]. intros Hkeep. unfold visible, elements. simpl. rewrite Hu.
    destruct (decide (a = s_arr u)) as [->|Hau].
    - rewrite lookup_insert_eq, Ha. simpl. rewrite take_insert_ge by auto. done.
    - by rewrite lookup_insert_ne. }
  split_and!; [done|done|by split_and!|]. eapply (HF (S i)); [done|apply Hr; lia|done].
Qed.

(** Go's append under the lock. *)
Definition appended (u g : slice) (u' : slice) (e : addr) (s : shared) : Prop :=
  mu s = Some i ∧ s_users s = u ∧ s_groups s = g ∧ valid u' s ∧
  elements u' s = elements u s ++ [Some e].

Lemma stable_appended u g u' e : stable_ (appended u g u' e).
Proof.
  intros s s' Hi Hr (Hm & Hu & Hg & Hv & He). pose proof (always_valid u' i s s' Hi Hr Hv).
  destruct (frame_lock _ _ _ _ Hr Hm) as (? & Hu' & Hg' & HA).
  unfold appended, elements in *. rewrite Hu', Hg', HA. done.
Qed.

Lemma owns_appended u g A a l k e s u' :
  owns u g A s → A !! a = Some l → length l = s_cap u' → s_arr u' = a → s_len u' = S k →
  elements u s = take k l → l !! k = Some (Some e) → (∀ j, (j < k)%nat → ∃ e, l !! j = Some (Some e)) →
  appended u g u' e s.
Proof.
  intros (Hm & Hu & Hg & HA) Ha Hc Hau Hk He Hl Hj. pose proof (lookup_lt_Some _ _ _ Hl).
  unfold appended, valid. rewrite He. split_and!; [done..| |].
  - exists l. rewrite HA, Hau, Hk. split_and!; [done|done|lia|]. intros j Hlt.
    destruct (decide (j = k)) as [->|]; [eauto|]. apply Hj. lia.
  - unfold elements. rewrite HA, Hau, Ha, Hk. simpl. by apply take_S_r.
Qed.

Lemma triple_know {R A} h (φ : Prop) (P : R → shared → Prop) (m : TM R A) Q :
  (∀ r s, good s → P r s → φ) → (φ → {{ P }} m @ h {{ Q }}) → {{ P }} m @ h {{ Q }}.
Proof. intros Hf Hm r s Hi Hp. apply Hm; eauto. Qed.

(** A new array. *)
Lemma triple_make {R} (F : shared → Prop) u g A l :
  always_ F → valid_in u A → (∀ s j e, good s → owns u g A s → F s → l !! j = Some (Some e) → live (heap s) e) →
  {{ λ (_ : R) s, owns u g A s ∧ F s }} (do_ (OMake l)) @ true
    {{ λ a _ s, (owns u g (<[a := l]> A) s ∧ A !! a = None) ∧ F s }}.
Proof.
  intros HF Hu HL. apply triple_do.
  1,2: intros; repeat (apply stable_owns || apply stable_pure || apply HF || apply stable_and).
  intros r s Hi [Ho Hf]. pose proof Ho as (Hm & Hus & Hg & HA). cbn [exec]. rewrite <-HA.
  set (a := fresh (dom (arrays s))).
  assert (arrays s !! a = None) as Ha by (apply not_elem_of_dom, is_fresh).
  destruct (arrays_change (<[a := l]> (arrays s)) s i) as [Hgood Hfr];
    [done|done|by apply arrays_new_grow| |].
  { intros b l' j e [[<- <-]|[_ Hb]]%lookup_insert_Some Hj; [by eapply HL|by eapply good_slots]. }
  assert (∀ k, k ≠ i → Rely k s (with_arrays (<[a := l]> (arrays s)) s)) as Hr.
  { intros k Hne. apply Hfr; [done|]. intros _. unfold visible, elements. simpl. rewrite Hus.
    destruct Hu as [l' Hl']. rewrite <-HA in Hl'. by rewrite lookup_insert_ne by congruence. }
  split_and!; [done|done|by split_and!|done|]. eapply (HF (S i)); [done|apply Hr; lia|done].
Qed.

(** The elements of a slice of a known array are live. *)
Lemma owns_live u g A l n j e s :
  good s → owns u g A s → A !! s_arr u = Some l → take n l !! j = Some (Some e) → live (heap s) e.
Proof.
  intros Hi (_ & _ & _ & HA) Hl He. rewrite <-HA in Hl. eapply good_slots; [done|done|].
  apply lookup_take_Some in He as [? _]. done.
Qed.

Lemma triple_append {R} extra (F : shared → Prop) u g A e :
  always_ F → (∀ s, F s → live (heap s) e ∧ valid u s) →
  {{ λ (_ : R) s, owns u g A s ∧ F s }} (append_ extra u e) @ true
    {{ λ u' _ s, appended u g u' e s ∧ F s }}.
Proof.
  intros HF HP. apply triple_know with (φ := ∃ l, A !! s_arr u = Some l ∧ length l = s_cap u ∧
    (s_len u ≤ s_cap u)%nat ∧ ∀ j, (j < s_len u)%nat → ∃ e, l !! j = Some (Some e)).
  { intros _ s _ [(_ & _ & _ & <-) Hf]. apply (HP s Hf). }
  intros (l & Hl & Hc & Hlen & Hj). unfold append_. case_decide as Hd.
  - eapply triple_seq;
      [apply (triple_setElem F u g A _ l); [done|by intros s []%HP|done|lia|done]|intros []].
    apply triple_ret; [intros _; apply stable_and; [apply stable_owns|apply HF]|].
    intros _ s _ [Ho Hf]. split; [|done].
    eapply (owns_appended _ _ _ _ _ (s_len u)); [done|apply lookup_insert_eq| |done|done|..].
    + by rewrite length_insert.
    + destruct Ho as (_ & _ & _ & HA). unfold elements. by rewrite HA, lookup_insert_eq.
    + by rewrite list_lookup_insert_eq by lia.
    + intros j Hlt. rewrite list_lookup_insert_ne by lia. auto.
  - eapply triple_seq; [apply triple_mapM_elem; [apply HF|done|lia]|intros x].
    apply triple_pure. intros ->. rewrite drop_0.
    eapply triple_seq; [apply triple_make; [done|by exists l|]|intros a].
    { intros s j e' Hi Ho Hf [Hj'|[Hge Hj']]%lookup_app_Some; [by eapply owns_live|].
      apply lookup_app_Some in Hj' as [Hj'|[_ Hj']].
      - apply list_lookup_singleton_Some in Hj' as [_ [= <-]]. by apply HP.
      - by apply lookup_replicate in Hj' as [? _]. }
    apply triple_ret.
    { intros _. repeat (apply stable_owns || apply stable_pure || apply HF || apply stable_and). }
    intros _ s _ [[Ho Ha] Hf]. split; [|done].
    assert (length (take (s_len u) l) = s_len u) as Ht by (rewrite length_take; lia).
    eapply (owns_appended _ _ _ a _ (s_len u)); [done|apply lookup_insert_eq| |done|done|..].
    + rewrite length_app, Ht. simpl. rewrite length_replicate. lia.
    + destruct Ho as (_ & _ & _ & HA). unfold elements.
      rewrite HA, lookup_insert_ne by congruence. rewrite Hl. by rewrite take_app_length'.
    + by rewrite lookup_app_r, Ht, Nat.sub_diag by lia.
    + intros j Hlt. rewrite lookup_app_l by lia. rewrite lookup_take_lt by done. auto.
Qed.

(** [d.users = append(d.users, e)] *)
Definition present (dn : string) (s : shared) : Prop :=
  keep = true → ∃ e, Some e ∈ visible s ∧ named dn e s.

Lemma always_present dn : always_ (present dn).
Proof.
  intros j s s' Hi Hr Hp Hk. destruct (Hp Hk) as (e & He & Hn). exists e. split.
  - destruct (frame_keep _ _ _ _ Hr Hk) as [l ->]. apply elem_of_app. by left.
  - by eapply always_named.
Qed.

Lemma triple_setUsers {R} u g u' e dn :
  {{ λ (_ : R) s, appended u g u' e s ∧ named dn e s }} (do_ (OSetSlice Wusers u')) @ true
    {{ λ _ _ s, mu s = Some i ∧ present dn s }}.
Proof.
  apply triple_do.
  - intros _. apply stable_and; [apply stable_appended|apply always_named].
  - intros _ _. apply stable_and; [apply (stable_held true)|apply always_present].
  - intros r s Hi [(Hm & Hu & Hg & Hv & He) Hn]. cbn [exec].
    destruct (slice_change Wusers u' s i Hi Hm Hv) as [Hgood Hr]. split_and!; [done| |done|].
    + intros j Hj. apply Hr; [done|]. intros _. unfold visible, elements. simpl. rewrite Hu.
      change (elements u s `prefix_of` elements u' s). rewrite He. by eexists.
    + intros _. exists e. split; [|done]. unfold visible. simpl.
      change (Some e ∈ elements u' s). rewrite He. apply elem_of_app. right. by apply list_elem_of_singleton.
Qed.

(** [append(s[:i], s[i+1:]...)] *)
Lemma triple_shiftDown {R} y j n :
  keep = false → (1 ≤ j)%nat → (j + n ≤ s_len y)%nat →
  {{ λ (_ : R) s, mu s = Some i ∧ valid y s }} (shiftDown (s_arr y) j n) @ true
    {{ λ _ _ s, mu s = Some i ∧ valid y s }}.
Proof.
  intros Hk. revert j. induction n as [|n IH]; intros j Hj Hn; cbn [shiftDown].
  { apply triple_ret; [intros _; apply stable_and; [apply (stable_held true)|apply always_valid]|done]. }
  eapply triple_seq; [apply triple_elem; [|by intros r s []|lia]|intros e].
  { intros _. apply stable_and; [apply (stable_held true)|apply always_valid]. }
  apply triple_some with (F := λ a s, live (heap s) a). intros a ->.
  apply triple_seq with (Q := λ _ _ s, mu s = Some i ∧ valid y s); [|intros []; apply IH; lia].
  set (F := λ s, live (heap s) a ∧ valid y s).
  assert (always_ F) as HF by (apply always_and; [apply always_live|apply always_valid]).
  eapply triple_pre; [apply triple_ex with (P := λ b _ s, owns (s_users s) (s_groups s) b s ∧ F s)|].
  2:{ intros r s [[Hm Hv] Hl]. by exists (arrays s). }
  intros A r s Hi [Ho Hf].
  destruct Hf as [Hl Hv]. pose proof Hv as (l & Ha & Hc & ? & _).
  destruct Ho as (Hm & _ & _ & HA). rewrite HA in Ha.
  eapply safe_weaken; [|apply (triple_setElem F (s_users s) (s_groups s) A (s_arr y) l (j - 1) a HF);
    [by intros ? []|done|lia|congruence|done|by split_and!]].
  intros [[[]|?|w] ?] s' _; unfold post; simpl; [|done|done]. intros [(? & _) [_ ?]]. done.
Qed.

Lemma triple_removeAt {R} y k :
  keep = false → W0 "slice bounds out of range" →
  {{ λ (_ : R) s, mu s = Some i ∧ valid y s }} (removeAt_ y k) @ true
    {{ λ y' _ s, mu s = Some i ∧ valid y' s }}.
Proof.
  intros Hk HW. unfold removeAt_.
  assert (stable_ (λ s, mu s = Some i ∧ valid y s)) as Hst
    by (apply stable_and; [apply (stable_held true)|apply always_valid]).
  case_decide.
  - eapply triple_seq; [apply triple_shiftDown; [done|lia|lia]|intros []].
    apply triple_ret; [done|]. intros _ s _ [? (l & Hl & ? & ? & Hj)]. split; [done|].
    exists l. simpl. split_and!; [done|done|lia|]. intros j ?. apply Hj. lia.
  - apply triple_panic; [done|]. by intros _ s [? _].
Qed.

Lemma triple_setSlice {R} x y :
  keep = false →
  {{ λ (_ : R) s, mu s = Some i ∧ valid y s }} (do_ (OSetSlice x y)) @ true
    {{ λ _ _ s, True ∧ mu s = Some i }}.
Proof.
  intros Hk. apply triple_do.
  - intros _. apply stable_and; [apply (stable_held true)|apply always_valid].
  - intros _ _. apply stable_and; [apply stable_pure|apply (stable_held true)].
  - intros r s Hi [Hm Hv]. cbn [exec]. destruct (slice_change x y s i Hi Hm Hv) as [Hgood Hr].
    split_and!; [done| |done|by destruct x]. intros j Hj. apply Hr; [done|congruence].
Qed.
End rules.

(** Stability of what threads know. *)
Ltac stab :=
  intros;
  repeat first
    [ assumption | apply stable_pure | apply stable_appended | apply stable_owns
    | apply always_live | apply always_attr | apply always_attrs | apply always_lives
    | apply always_base | apply always_valid | apply always_named | apply always_present
    | apply (stable_held _ _ true) | apply stable_and | by eauto ].
