(* ===== verification/DirConcurrent.v ===== *)
(** The handlers of the test directory, interleaved: each handler keeps the
    invariant of DirInterleave.v whatever the others do, threads end, and the
    lock never blocks them for good. *)
From Stdlib Require Import Ascii.
From stdpp Require Import base decidable option list strings gmap relations.
From Stdlib Require Import ZArith Lia.
From S2P Require Import Prelude GoStd Ber BerModel Codes Options Control Packet Entry Attribute Parameters Message Response Request DirOptions Directory DirectorySpec DirectoryProps DirThreads DirRely DirInterleave.
Import GoStrings.

(** ** The handlers keep the invariant *)

Section handlers.
Context `{BerOps}.
Variable keep : bool.
Variables (i c : nat).
Variable W0 : string → Prop.

#[local] Abbreviation stable_ := (stable good (frame keep) i).
#[local] Abbreviation always_ := (always good (frame keep)).
#[local] Notation "'{{' P '}}' m '@' h '{{' Q '}}'" :=
  (triple good (frame keep) i c (fails i W0 h) P m Q) (at level 0, m at level 10, h at level 5).
#[local] Hint Resolve stable_pure : core.

(** A step of a handler that only changes its response. *)
Lemma triple_changeRes {R} h (P : shared → Prop) (f : R → R) :
  stable_ P → {{ λ _ s, P s }} (changeRes_ f) @ h {{ λ _ _ s, P s }}.
Proof. intros HP. apply triple_res; auto. Qed.

(** [if d.controls != nil { d.mu.Lock(); ... }] *)
Lemma triple_locked_res {R} (f : Directory → R → R) :
  {{ λ _ _, True }} (locked (d ← do_ OBase; changeRes_ (f d))) @ false {{ λ _ _ _, True }}.
Proof.
  apply triple_locked; [stab|intros ? ? j; apply stable_pure|].
  eapply triple_seq; [apply triple_base; stab|intros d].
  apply triple_res; [stab|]. by intros r s _ [? _].
Qed.

Lemma triple_bindLoop m y n idx :
  (idx + n ≤ s_len y)%nat →
  {{ λ _ s, valid y s }} (bindLoop_ m y idx n) @ false {{ λ _ _ _, True }}.
Proof.
  revert idx. induction n as [|n IH]; intros idx Hn; cbn [bindLoop_]; [apply triple_ret; [stab|done]|].
  assert (∀ a o, {{ λ (_ : BindResponse) s, (valid y s ∧ live (heap s) a) ∧
      Forall (λ a, is_Some (attributes (heap s) !! a)) (obj_Attributes o) }}
    (bindLoop_ m y (S idx) n) @ false {{ λ _ _ _, True }}) as Hnext.
  { intros a o. eapply triple_pre; [apply IH; lia|]. by intros r s [[? _] _]. }
  apply (triple_element _ _ _ _ _ (λ _ s, valid y s) y idx (λ e o, if decide _ then _ else _));
    [stab|done|lia|]. intros a o. case_decide; [|apply Hnext].
  eapply triple_seq; [apply triple_deref; [stab|by intros r s [[_ ?] _]]|intros o'].
  eapply triple_seq; [apply triple_attributeValues; [stab|by intros r s [_ ?]]|intros [|v vs]].
  { eapply triple_pre; [apply (Hnext a o)|by intros r s [? _]]. }
  case_decide; [|eapply triple_pre; [apply (Hnext a o)|by intros r s [? _]]].
  eapply triple_pre; [|by intros r s _; exact I].
  eapply triple_seq; [apply (triple_changeRes _ (λ _, True)); stab|intros []].
  eapply triple_seq; [apply triple_base; stab|intros d].
  eapply triple_pre; [|by intros r s _; exact I].
  case_decide; [apply (triple_locked_res (λ d, BindResponse_SetControls (controls d)))|].
  by apply triple_ret; [stab|].
Qed.

Lemma triple_bind_thread r :
  {{ λ _ _, True }} (bind_thread r) @ false {{ λ _ _ _, True }}.
Proof.
  apply (triple_deferred _ _ _ _ (λ _ _, True) RBind _ (λ _ _, True)); [|stab].
  apply triple_message; [stab|done| |].
  { intros w. unfold GetSimpleBindMessage. by destruct (message r). }
  intros m _. case_decide; [by apply triple_ret; [stab|]|].
  eapply triple_seq; [apply triple_base; stab|intros d].
  case_decide; [apply triple_res; [stab|done]|].
  eapply triple_seq; [apply triple_slice; stab|intros y].
  eapply triple_pre; [apply triple_bindLoop; lia|]. by intros r' s [_ ?].
Qed.

Lemma triple_writeFound (P : shared → Prop) r l :
  stable_ P → (∀ s, P s → Forall (live (heap s)) l) →
  {{ λ _ s, P s }} (writeFound_ r l) @ false {{ λ _ _ _, True }}.
Proof.
  intros HP Hl. unfold writeFound_. case_decide; [|by apply triple_ret; [stab|]].
  eapply triple_seq; [apply triple_writeEntries; [stab|eauto]|intros [|]; [|by apply triple_ret; [stab|]]].
  eapply triple_seq; [apply triple_base; stab|intros d].
  eapply triple_pre; [|by intros r' s _; exact I].
  case_decide; [|apply triple_res; [stab|done]].
  apply triple_locked; [stab|intros ? ? j; apply stable_pure|].
  eapply triple_seq; [apply triple_base; stab|intros d'].
  eapply triple_seq; [apply (triple_changeRes _ (λ s, (True ∧ mu s = Some i) ∧ base s = d')); stab|].
  intros []. apply triple_res; [stab|]. by intros r' s _ [? _].
Qed.

Lemma search_no_panic r w : GetSearchMessage r ≠ Panic w.
Proof. unfold GetSearchMessage. by destruct (message r). Qed.

Lemma triple_searchUsers_thread r :
  {{ λ _ _, True }} (searchUsers_thread r) @ false {{ λ _ _ _, True }}.
Proof.
  apply (triple_deferred _ _ _ _ (λ _ _, True) RSearchDone _ (λ _ _, True)); [|stab].
  apply triple_message; [stab|done|apply search_no_panic|]. intros m _.
  eapply triple_seq; [apply triple_find; stab|intros [[? ?] found]].
  eapply triple_pre; [apply (triple_writeFound (λ s, Forall (live (heap s)) found)); [stab|done]|].
    by intros ? s [_ ?].
Qed.

Lemma triple_searchGroups_thread r :
  {{ λ _ _, True }} (searchGroups_thread r) @ false {{ λ _ _ _, True }}.
Proof.
  apply (triple_deferred _ _ _ _ (λ _ _, True) RSearchDone _ (λ _ _, True)); [|stab].
  apply triple_message; [stab|done|apply search_no_panic|]. intros m _.
  eapply triple_seq; [apply triple_slice; stab|intros y].
  eapply triple_seq; [apply triple_findMembersLoop; [stab|by intros ? s [_ ?]|lia]|intros [b found]].
  eapply triple_seq; [apply triple_slice; stab|intros y'].
  eapply triple_seq; [apply triple_appendMatching; [stab|by intros ? s [[_ ?] ?]|lia]|intros found'].
  eapply triple_pre; [apply (triple_writeFound (λ s, Forall (live (heap s)) found')); [stab|done]|].
    by intros ? s [_ ?].
Qed.

Lemma triple_searchGeneric_thread r :
  {{ λ _ _, True }} (searchGeneric_thread r) @ false {{ λ _ _ _, True }}.
Proof.
  apply (triple_deferred _ _ _ _ (λ _ _, True) RSearchDone _ (λ _ _, True)); [|stab].
  apply triple_message; [stab|done|apply search_no_panic|]. intros m _.
  eapply triple_seq; [apply triple_base; stab|intros d]. cbn zeta.
  destruct (bool_decide (0 < size (tokenGroups d))%nat && HasPrefix (BaseDN m) "<SID=").
  - set (l := default [] _).
    eapply triple_conseq with (P := λ _ s, True ∧ Forall (live (heap s)) l) (Q := λ _ _ _, True);
      [|intros r' s Hi [_ Hd]|by intros ? ? ? _ ?|done].
    + eapply triple_seq; [apply triple_writeEntries; [stab|by intros ? s [_ ?]]|intros [|]].
      * apply triple_res; [stab|done].
      * by apply triple_ret; [stab|].
    + split; [done|]. unfold l. destruct (tokenGroups d !! _) as [l'|] eqn:El; simpl; [|constructor].
      subst d. by eapply good_tokens.
  - eapply triple_seq; [apply triple_slice; stab|intros y].
    eapply triple_seq; [apply triple_appendMatching; [stab|by intros ? s [_ ?]|lia]|intros found].
    eapply triple_seq; [apply triple_slice; stab|intros y'].
    eapply triple_seq; [apply triple_appendMatching; [stab|by intros ? s [[_ ?] ?]|lia]|intros found'].
    eapply triple_pre; [apply (triple_writeFound (λ s, Forall (live (heap s)) found')); [stab|done]|].
    by intros ? s [_ ?].
Qed.

(** *** Modify *)

Lemma triple_findAttr (P : shared → Prop) n k attrs found :
  stable_ P → (∀ s, P s → Forall (λ a, is_Some (attributes (heap s) !! a)) attrs) →
  (∀ s, P s → ∀ p, found = Some p → is_Some (attributes (heap s) !! p.1)) →
  {{ λ _ s, P s }} (findAttr_ n k attrs found) @ true
    {{ λ x _ s, P s ∧ ∀ p, x = Some p → is_Some (attributes (heap s) !! p.1) }}.
Proof.
  intros HP. revert k found. induction attrs as [|a attrs IH]; intros k found Ha Hf; cbn [findAttr_].
  { apply triple_ret; [stab|]. intros r s _ Hp. split; [done|]. by apply Hf. }
  eapply triple_seq; [apply triple_derefAttr; [stab|]|intros v].
  { intros r s Hp. by apply Ha in Hp as [? _]%Forall_cons. }
  apply IH.
  - intros s Hp. by apply Ha in Hp as [_ ?]%Forall_cons.
  - intros s Hp p. case_decide; [|by apply Hf]. intros [= <-].
    by apply Ha in Hp as [? _]%Forall_cons.
Qed.

(** An operation on memory. *)
Lemma triple_heap {X} (P : shared → Prop) (o : op X) (F : X → shared → Prop) :
  stable_ P → (∀ x, stable_ (F x)) →
  (∀ s, good s → P s → ∃ x m, exec o i c s = Done x (with_heap m s) ∧ grows (heap s) m ∧
     store_ok m ∧ F x (with_heap m s)) →
  {{ λ (_ : GeneralResponse) s, P s }} (do_ o) @ true {{ λ x _ s, P s ∧ F x s }}.
Proof.
  intros HP HF Ho. apply triple_quiet; [stab|done|]. intros r s Hi Hp.
  destruct (Ho s Hi Hp) as (x & m & -> & Hg & Hs & Hf).
  destruct (heap_change m s Hi Hg Hs) as [? ?]. eexists _, _. eauto.
Qed.

Lemma triple_setEntry (P : shared → Prop) e attrs :
  stable_ P → (∀ s, P s → live (heap s) e ∧ Forall (λ a, is_Some (attributes (heap s) !! a)) attrs) →
  {{ λ (_ : GeneralResponse) s, P s }} (do_ (OSetEntry e attrs)) @ true {{ λ _ _ s, P s }}.
Proof.
  intros HP He. eapply triple_post; [apply (triple_heap P _ (λ _ _, True))|by intros ? ? s [? _]];
    [done|stab|]. intros s Hi Hp. destruct (He s Hp) as [[o Ho] Ha]. eexists _, _. simpl. rewrite Ho.
  split_and!; [done|by apply grows_set_entry| |done]. apply store_ok_set_entry; [apply Hi|done].
Qed.

Lemma triple_setAttr (P : shared → Prop) a v :
  stable_ P → {{ λ (_ : GeneralResponse) s, P s }} (do_ (OSetAttr a v)) @ true {{ λ _ _ s, P s }}.
Proof.
  intros HP. eapply triple_post; [apply (triple_heap P _ (λ _ _, True))|by intros ? ? s [? _]];
    [done|stab|]. intros s Hi Hp. eexists _, _.
  split_and!; [done|apply grows_attr|apply store_ok_attr, Hi|done].
Qed.

Lemma triple_newAttr (P : shared → Prop) v :
  stable_ P → {{ λ (_ : GeneralResponse) s, P s }} (do_ (ONewAttr v)) @ true
    {{ λ a _ s, P s ∧ is_Some (attributes (heap s) !! a) }}.
Proof.
  intros HP. apply triple_heap; [done|stab|]. intros s Hi Hp. eexists _, _. cbn [exec new_attribute].
  split_and!; [done|apply grows_attr|apply store_ok_attr, Hi|]. simpl. rewrite lookup_insert_eq. eauto.
Qed.

Lemma triple_applyChange e chg :
  {{ λ _ s, live (heap s) e ∧ mu s = Some i }} (applyChange_ e chg) @ true
    {{ λ _ _ s, live (heap s) e ∧ mu s = Some i }}.
Proof.
  unfold applyChange_. eapply triple_seq; [apply triple_deref; [stab|by intros r s [? _]]|intros o].
  cbn zeta. eapply triple_seq; [apply (triple_findAttr (λ s, (live (heap s) e ∧ mu s = Some i) ∧ Forall _ _));
    [stab|by intros s [_ ?]|done]|intros found].
  assert (stable_ (λ s, (((live (heap s) e ∧ mu s = Some i) ∧
    Forall (λ a, is_Some (attributes (heap s) !! a)) (obj_Attributes o)) ∧
    ∀ p, found = Some p → is_Some (attributes (heap s) !! p.1)))) as Hst.
  { apply stable_and; [stab|]. intros s s' Hi Hr Hf p Hp. eapply always_attr; eauto. }
  repeat case_decide.
  - destruct found as [[a k]|].
    + eapply triple_seq; [apply triple_derefAttr; [done|by intros r s [_ Hf]; apply (Hf (a, k))]|intros v].
      eapply triple_post; [by apply triple_setAttr|by intros ? ? s [[? _] _]].
    + eapply triple_seq; [by apply triple_newAttr|intros a].
      eapply triple_post; [apply triple_setEntry; [stab|]|by intros ? ? s [[[? _] _] _]].
      intros s [[[[? _] ?] _] ?]. split; [done|]. apply Forall_app. auto.
  - destruct found as [[a k]|]; [|apply triple_ret; [done|by intros r s _ [[? _] _]]].
    eapply triple_post; [apply triple_setEntry; [done|]|by intros ? ? s [[? _] _]].
    intros s [[[? _] ?] _]. split; [done|]. apply Forall_app. auto using Forall_take, Forall_drop.
  - apply triple_ret; [done|by intros r s _ [[? _] _]].
Qed.

Lemma triple_applyChanges e chgs :
  {{ λ _ s, live (heap s) e ∧ mu s = Some i }} (applyChanges_ e chgs) @ true
    {{ λ _ _ s, live (heap s) e ∧ mu s = Some i }}.
Proof.
  induction chgs as [|chg chgs IH]; cbn [applyChanges_]; [by apply triple_ret; [stab|]|].
  eapply triple_seq; [apply triple_applyChange|]. by intros [].
Qed.

Lemma triple_several (P : shared → Prop) n :
  stable_ P → {{ λ _ s, P s }} (several_ n) @ false {{ λ _ _ s, P s }}.
Proof.
  intros HP. unfold several_. eapply triple_seq; [by apply triple_changeRes|intros []].
  by apply triple_changeRes.
Qed.

Lemma triple_modify_thread r :
  {{ λ _ _, True }} (modify_thread r) @ false {{ λ _ _ _, True }}.
Proof.
  apply (triple_deferred _ _ _ _ (λ _ _, True) RGeneral _ (λ _ _, True)); [|stab].
  apply triple_message; [stab|done| |].
  { intros w. unfold GetModifyMessage. by destruct (message r). }
  intros m _. eapply triple_seq; [apply triple_find; stab|intros [[b ids] found]]. simpl.
  apply triple_seq with (Q := λ x _ s, Forall (live (heap s)) x.2).
  { case_decide.
    - eapply triple_post; [apply triple_find; stab|by intros x r' s [_ ?]].
    - apply triple_ret; [stab|by intros r' s _ [_ ?]]. }
  intros [[b' ids'] found']. simpl. destruct found' as [|e [|e' l]].
  - by apply triple_ret; [stab|].
  - apply triple_locked; [stab|intros ? ? j; apply stable_pure|].
    eapply triple_pre with (P := λ _ s, live (heap s) e ∧ mu s = Some i);
      [|by intros r' s [[? _]%Forall_cons ?]].
    eapply triple_seq; [apply triple_deref; [stab|by intros r' s [? _]]|intros o].
    eapply triple_seq; [apply (triple_changeRes _ (λ s, (live (heap s) e ∧ mu s = Some i) ∧ Forall _ _)); stab|].
    intros []. eapply triple_seq; [eapply triple_pre; [apply triple_applyChanges|by intros r' s [? _]]|].
    intros []. apply triple_res; [stab|]. by intros r' s _ [_ ?].
  - eapply triple_post; [apply triple_several; stab|done].
Qed.

Lemma triple_newEntry h dn attrs :
  {{ λ (_ : GeneralResponse) _, True }} (do_ (ONewEntry (NewEntry dn attrs))) @ h
    {{ λ e _ s, True ∧ named dn e s }}.
Proof.
  apply triple_quiet; [stab|stab|]. intros r s Hi _. cbn [exec].
  destruct (new_entry (NewEntry dn attrs) (heap s)) as [e m] eqn:E.
  destruct (new_entry_grows _ _ _ _ (good_store _ Hi) E) as (Hg & Hs & o & Ho & Hd).
  destruct (heap_change m s Hi Hg Hs) as [? ?]. eexists _, _. split_and!; [done|done|auto|].
  by exists o.
Qed.

(** The result code of a response. *)
Definition code_of (r : GeneralResponse) : Z := code (general_base r).

(** A response that reports an entry as added only if it is there. *)
Definition added (dn : string) (r : GeneralResponse) (s : shared) : Prop :=
  code_of r = ResultSuccess → present keep dn s.

Lemma always_added dn r : always_ (added dn r).
Proof. intros j s s' Hi Hr Ha Hc. eapply always_present; eauto. Qed.

Lemma triple_add_locked extra dn e :
  {{ λ (_ : GeneralResponse) s, True ∧ named dn e s }} (locked (
       s ← do_ (OSlice Wusers);
       s ← append_ extra s e;
       do_ (OSetSlice Wusers s);;
       changeRes_ (onGeneral (SetResultCode ResultSuccess)))) @ false {{ λ _ r s, added dn r s }}.
Proof.
  apply triple_locked; [stab|intros; apply always_added|].
  set (F := λ u s, valid u s ∧ named dn e s).
  assert (∀ u, always_ (F u)) as HF by (intros u j; unfold F; stab).
  apply triple_seq with (Q := λ u _ s, ∃ b, owns i u b.1 b.2 s ∧ F u s).
  { apply triple_do; [stab| |].
    - intros u _ s s' Hi Hr (b & Ho & Hf). exists b. split; [by eapply stable_owns|by eapply HF].
    - intros r s Hi [[_ Hn] Hm]. cbn [exec]. split_and!; [done|intros; apply frame_refl|].
      exists (s_groups s, arrays s). split; [done|]. split; [apply Hi|done]. }
  intros u. apply triple_ex. intros [g A].
  eapply triple_seq; [apply (triple_append _ _ _ _ _ (F u)); [done|]|intros u'].
  { intros s [? (o & ? & _)]. split; [by exists o|done]. }
  eapply triple_seq; [eapply triple_pre; [apply (triple_setUsers _ _ _ _ u g u' e dn)|]|intros []].
  { by intros r s [? [_ ?]]. }
  apply triple_res; [stab|]. intros r s _ [? ?]. split; [|done]. by intros _.
Qed.

Lemma triple_add_thread extra r :
  {{ λ res _, code_of res = ResultOperationsError }} (add_thread extra r) @ false
    {{ λ _ res s, ∀ m, GetAddMessage r = Ok m → added (AddDN m) res s }}.
Proof.
  assert (∀ res, always_ (λ s, ∀ m, GetAddMessage r = Ok m → added (AddDN m) res s)) as Hst.
  { intros res j s s' Hi Hr Ha m Hm. eapply always_added; eauto. }
  apply triple_deferred with (Q := λ res s, ∀ m, GetAddMessage r = Ok m → added (AddDN m) res s);
    [|by intros; apply Hst].
  apply triple_message; [stab| | |].
  { intros res s Hc m _ Hs. rewrite Hc in Hs. done. }
  { intros w. unfold GetAddMessage. by destruct (message r). }
  intros m Hm. eapply triple_seq; [apply triple_find; stab|intros [[b ids] found]]. destruct b.
  - eapply triple_seq; [apply (triple_res _ _ _ _ _ _ _ (λ _ res _, code_of res ≠ ResultSuccess));
      [stab|done]|intros []].
    apply triple_res; [stab|]. by intros res s _ Hc m' _ Hs.
  - eapply triple_pre; [|intros ? ? _; exact I].
    eapply triple_seq; [apply triple_newEntry|intros e].
    eapply triple_post; [apply triple_add_locked|].
    intros [] res s Ha m' Hm'. by replace m' with m by congruence.
Qed.

(** *** Delete *)

Lemma triple_deleteAt x k :
  keep = false → W0 "slice bounds out of range" →
  {{ λ _ _, True }} (deleteAt_ x k) @ false {{ λ _ _ _, True }}.
Proof.
  intros Hk HW. unfold deleteAt_.
  apply triple_locked; [stab|intros ? ? j; apply stable_pure|].
  eapply triple_seq; [apply triple_slice; stab|intros y].
  eapply triple_seq; [eapply triple_pre; [by apply (triple_removeAt _ _ _ _ y)|]|intros y'].
  { by intros r s [[_ ?] ?]. }
  eapply triple_seq; [by apply triple_setSlice|intros []]. by apply triple_changeRes; stab.
Qed.

Lemma triple_delete_thread r :
  keep = false → W0 "slice bounds out of range" →
  {{ λ _ _, True }} (delete_thread r) @ false {{ λ _ _ _, True }}.
Proof.
  intros Hk HW.
  apply (triple_deferred _ _ _ _ (λ _ _, True) RGeneral _ (λ _ _, True)); [|stab].
  apply triple_message; [stab|done| |].
  { intros w. unfold GetDeleteMessage. by destruct (message r). }
  assert (∀ n, {{ λ _ _, True }} (several_ n) @ false {{ λ _ _ _, True }}) as Hs.
  { intros n. apply (triple_several (λ _, True)). stab. }
  intros m _. eapply triple_seq; [apply triple_find; stab|intros [[b ids] found]].
  eapply triple_pre; [|intros ? ? _; exact I].
  destruct ids as [|k [|k' ids]]; [|by apply triple_deleteAt|apply Hs].
  eapply triple_seq; [apply triple_find; stab|intros [[b' ids'] found']].
  eapply triple_pre; [|intros ? ? _; exact I].
  destruct ids' as [|k [|k' ids']]; [|by apply triple_deleteAt|apply Hs].
  by apply triple_ret; [stab|].
Qed.

Lemma triple_notFound_thread r :
  {{ λ _ _, True }} (notFound_thread r) @ false {{ λ _ _ _, True }}.
Proof.
  intros res s Hi _. pose proof (triple_write keep i c W0 (λ (_ : GeneralResponse) _, True)
    ltac:(stab) false (RGeneral res) res s Hi I) as Hw.
  exact Hw.
Qed.

Lemma triple_startTLS_thread handshake r :
  {{ λ _ _, True }} (startTLS_thread handshake r) @ false {{ λ _ _ _, True }}.
Proof.
  intros res s Hi _. unfold startTLS_thread.
  match goal with |- safe _ _ _ _ (?m res) _ _ =>
    assert ({{ λ _ _, True }} m @ false {{ λ _ _ _, True }}) as Hm; [|by apply Hm] end.
  eapply triple_seq; [apply (triple_changeRes _ (λ _, True)); stab|intros []].
  eapply triple_seq; [apply triple_write; stab|intros [err|]; [by apply triple_ret; [stab|]|]].
  eapply triple_seq; [apply triple_base; stab|intros d].
  eapply triple_pre; [|intros ? ? _; exact I].
  destruct (StartTLS handshake (server d)) as [err|]; [|by apply triple_ret; [stab|]]. cbn zeta.
  eapply triple_seq; [apply (triple_changeRes _ (λ _, True)); stab|intros []].
  eapply triple_seq; [apply triple_write; stab|intros ?]. by apply triple_ret; [stab|].
Qed.
End handlers.

(** ** All handlers *)

(** How a thread may end.  An add that reports success is there, as long as no handler
    deletes; only a delete can panic. *)
Definition ends_well (keep : bool) (h : dirHandler) (r : Request)
    (x : outcome unit * Response) (s : shared) : Prop :=
  match fst x with
  | Ok _ => h = HAdd → ∀ m res, GetAddMessage r = Ok m → snd x = RGeneral res →
      added keep (AddDN m) res s
  | Err _ => False
  | Panic w => keep = false ∧ h = HDelete ∧ w = "slice bounds out of range"
  end.

Lemma safe_thread `{BerOps} keep i c extra handshake h r s :
  good s → (h = HDelete → keep = false) →
  safe good (frame keep) i c (thread_of extra handshake h r) (ends_well keep h r) s.
Proof.
  intros Hi Hd.
  set (W := λ w, keep = false ∧ h = HDelete ∧ w = "slice bounds out of range").
  assert (h ≠ HAdd → ∀ R (reply : R → Response) (m : TM R unit) r0,
    triple good (frame keep) i c (fails i W false) (λ _ _, True) m (λ _ _ _, True) →
    safe good (frame keep) i c (ended reply (m r0)) (ends_well keep h r) s) as Hend.
  { intros Ha R reply m r0 Hm. eapply safe_weaken;
      [|apply (safe_ended keep i c W (λ _ _, True) reply m (λ _ _, True) r0 s Hm); [stab|done|done]].
    intros [[[]|e|w] resp] s' _; unfold served, ends_well; simpl; done. }
  destruct h; unfold thread_of; try (apply Hend; [done|]).
  - apply triple_notFound_thread.
  - apply triple_bind_thread.
  - apply triple_startTLS_thread.
  - apply triple_searchUsers_thread.
  - apply triple_searchGroups_thread.
  - apply triple_searchGeneric_thread.
  - apply triple_modify_thread.
  - eapply safe_weaken; [|apply (safe_ended keep i c W _ RGeneral _ _ _ s
      (triple_add_thread keep i c W extra r)); [|done|done]].
    + intros [[[]|e|w] resp] s' _; unfold served, ends_well; simpl; [|done|done].
      intros (res & -> & Ha) _ m res' Hm [= <-]. by apply Ha.
    + intros res s1 s2 Hi2 Hr Ha m Hm. eapply always_added; eauto.
  - apply triple_delete_thread; [auto|]. unfold W. auto.
Qed.

(** ** Threads end *)

(** [q] is what is left of [p] after its next operation. *)
Definition is_child {A} (q p : prog A) : Prop :=
  match p with
  | Ret _ => False
  | Step o k => ∃ x, q = k x
  end.

Lemma prog_Acc {A} (p : prog A) : Acc is_child p.
Proof. induction p as [a|X o k IH]; constructor; [done|]. intros q [x ->]. apply IH. Qed.

(** One element of a list decreases. *)
Definition one_less {A} (lt : A → A → Prop) (l' l : list A) : Prop :=
  ∃ i x y, l !! i = Some x ∧ lt y x ∧ l' = <[i := y]> l.

Lemma one_less_Acc {A} (lt : A → A → Prop) l : Forall (Acc lt) l → Acc (one_less lt) l.
Proof.
  induction 1 as [|x l Hx Hl IH]; [constructor; by intros l' (i & x & y & ? & _)|].
  clear Hl. revert l IH. induction Hx as [x _ IHx]. intros l IH.
  induction IH as [l Hl IHl]. constructor. intros l' ([|i] & z & y & Hi & Hy & ->); simplify_eq/=.
  - apply IHx; [done|]. by constructor.
  - apply IHl. by exists i, z, y.
Qed.

(** One thread of a list makes an operation. *)
Definition threads_less : relation (list (nat * prog (outcome unit * Response))) :=
  one_less (λ y x, is_child y.2 x.2).

Lemma threads_less_wf : well_founded threads_less.
Proof.
  intros l. apply one_less_Acc, Forall_forall. intros [c q] _.
  pose proof (prog_Acc q) as Hq. induction Hq as [q _ IH]. constructor. intros [c' q'] Hlt.
  specialize (IH q' Hlt). revert IH. clear. intros Hq. constructor. intros y Hy.
  apply (Acc_inv Hq). exact Hy.
Qed.

(** An operation of a thread makes the pool smaller. *)
Lemma pool_Acc `{BerOps} p : Acc (flip pstep) p.
Proof.
  assert (∀ l s, Acc threads_less l → Acc (flip pstep) (mkPool l s)) as Hl.
  { intros l s Ha. revert s. induction Ha as [l _ IH]. intros s. constructor.
    intros p' Hp. inversion Hp as [i ? ? Hst]; subst. unfold thread_step in Hst. simpl in Hst.
    destruct (l !! i) as [[c [a|X o k]]|] eqn:Ei; [done| |done].
    destruct (exec o i c s) as [x s'| |]; [|done..]. injection Hst as <-.
    apply IH. exists i, (c, Step o k), (c, k x). split_and!; [done|by exists x|done]. }
  destruct p as [l s]. apply Hl, threads_less_wf.
Qed.

(** ** The lock *)

(** Whether the thread has the lock after an operation; [None] is a mistake: it locks
    twice, or unlocks what it has not locked. *)
Definition lock_after {X} (held : bool) (o : op X) : option bool :=
  match o with
  | OLock => if held then None else Some true
  | OUnlock => if held then Some false else None
  | _ => Some held
  end.

(** Every run of the program goes from [h] to [h']. *)
Fixpoint disciplined {A} (h h' : bool) (p : prog A) : Prop :=
  match p with
  | Ret _ => h = h'
  | Step o k => ∃ h1, lock_after h o = Some h1 ∧ ∀ x, disciplined h1 h' (k x)
  end.

Lemma disciplined_bind {A B} h1 h2 h3 (p : prog A) (f : A → prog B) :
  disciplined h1 h2 p → (∀ a, disciplined h2 h3 (f a)) → disciplined h1 h3 (prog_bind p f).
Proof.
  intros Hp Hf. revert h1 Hp. induction p as [a|X o k IH]; intros h1 Hp; simpl in *.
  - subst. apply Hf.
  - destruct Hp as (h & ? & Hk). exists h. split; [done|]. intros x. apply IH, Hk.
Qed.

(** A computation that gives back the lock as it found it. *)
Definition tidy {R A} (h : bool) (m : TM R A) : Prop := ∀ r, disciplined h h (m r).

Lemma tidy_ret {R A} h (a : A) : tidy (R := R) h (mret a).
Proof. by intros r. Qed.
Lemma tidy_bind {R A B} h (m : TM R A) (f : A → TM R B) :
  tidy h m → (∀ a, tidy h (f a)) → tidy h (m ≫= f).
Proof.
  intros Hm Hf r. eapply disciplined_bind; [apply Hm|]. intros [[a|e|w] r']; [apply Hf|done..].
Qed.
Lemma tidy_panic {R A} h w : tidy h (panic_ (R := R) (A := A) w).
Proof. by intros r. Qed.
Lemma tidy_res {R} h (f : R → R) : tidy h (changeRes_ f).
Proof. by intros r. Qed.
Lemma tidy_do {R X} h (o : op X) : lock_after h o = Some h → tidy (R := R) h (do_ o).
Proof. intros Ho r. by exists h. Qed.
Lemma tidy_locked {R A} (m : TM R A) : tidy true m → tidy false (locked m).
Proof.
  intros Hm r. exists true. split; [done|]. intros _.
  eapply disciplined_bind; [apply Hm|]. intros x. by exists false.
Qed.
Lemma tidy_deferred {R} reply (m : TM R unit) : tidy false m → tidy false (deferred_ reply m).
Proof.
  intros Hm r. eapply disciplined_bind; [apply Hm|]. intros [o r']. by exists false.
Qed.
Lemma tidy_deref {R} h e : tidy (R := R) h (deref_ e).
Proof.
  destruct e; [|apply tidy_panic]. apply tidy_bind; [by apply tidy_do|].
  intros [o|]; [apply tidy_ret|apply tidy_panic].
Qed.
Lemma tidy_derefAttr {R} h a : tidy (R := R) h (derefAttr_ a).
Proof.
  apply tidy_bind; [by apply tidy_do|]. intros [o|]; [apply tidy_ret|apply tidy_panic].
Qed.
Lemma tidy_mapM {R A B} h (f : A → TM R B) l : (∀ x, tidy h (f x)) → tidy h (mapM f l).
Proof.
  intros Hf. induction l as [|x l IH]; simpl; [apply tidy_ret|].
  apply tidy_bind; [done|]. intros y. apply tidy_bind; [done|]. intros ys. apply tidy_ret.
Qed.

Create HintDb tidy.
#[export] Hint Resolve tidy_ret tidy_bind tidy_panic tidy_res tidy_locked tidy_deferred tidy_deref
  tidy_derefAttr tidy_mapM : tidy.
#[export] Hint Extern 1 (tidy _ (do_ _)) => (by apply tidy_do) : tidy.

(** Go through a computation. *)
Ltac tidy :=
  repeat first
    [ match goal with |- ∀ _, _ => intro end
    | solve [auto with tidy nocore]
    | apply tidy_locked | apply tidy_deferred | apply tidy_bind | apply tidy_mapM
    | progress case_match | progress case_decide ].

Lemma tidy_attributeValues {R} h n l : tidy (R := R) h (attributeValues_ n l).
Proof. induction l; cbn [attributeValues_]; tidy. Qed.
Lemma tidy_findLoop {R} h f s n : ∀ i ids ms, tidy (R := R) h (findLoop_ f s i n ids ms).
Proof. induction n; intros; cbn [findLoop_]; tidy. Qed.
Lemma tidy_find {R} h f x : tidy (R := R) h (find_ f x).
Proof. unfold find_. tidy. apply tidy_findLoop. Qed.
Lemma tidy_findMembers {R} h f s n : ∀ i ms, tidy (R := R) h (findMembersLoop_ f s i n ms).
Proof. induction n; intros; cbn [findMembersLoop_]; tidy. apply tidy_attributeValues. Qed.
Lemma tidy_appendMatching {R} h b f s n : ∀ i ms, tidy (R := R) h (appendMatching_ b f s i n ms).
Proof. induction n; intros; cbn [appendMatching_]; tidy. Qed.
Lemma tidy_writeEntries {R} h r l : tidy (R := R) h (writeEntries_ r l).
Proof. induction l; cbn [writeEntries_]; unfold entryResponse_; tidy. Qed.
Lemma tidy_append {R} h extra s e : tidy (R := R) h (append_ extra s e).
Proof. unfold append_. tidy. Qed.
Lemma tidy_shiftDown {R} h a n : ∀ j, tidy (R := R) h (shiftDown a j n).
Proof. induction n; intros; cbn [shiftDown]; tidy. Qed.
Lemma tidy_removeAt {R} h s j : tidy (R := R) h (removeAt_ s j).
Proof. unfold removeAt_. case_decide; tidy. apply tidy_shiftDown. Qed.
Lemma tidy_findAttr h t l : ∀ j found, tidy h (findAttr_ t j l found).
Proof. induction l; intros; cbn [findAttr_]; tidy. Qed.
#[export] Hint Resolve tidy_attributeValues tidy_findLoop tidy_find tidy_findMembers
  tidy_appendMatching tidy_writeEntries tidy_append tidy_removeAt tidy_findAttr : tidy.
Lemma tidy_applyChange h e chg : tidy h (applyChange_ e chg).
Proof. unfold applyChange_. tidy. Qed.
#[export] Hint Resolve tidy_applyChange : tidy.
Lemma tidy_applyChanges h e l : tidy h (applyChanges_ e l).
Proof. induction l; cbn [applyChanges_]; tidy. Qed.
Lemma tidy_message {R A} (m : outcome A) (k : A → TM R unit) :
  (∀ a, tidy false (k a)) → tidy false (withMessage_ m k).
Proof. intros Hk. destruct m; simpl; tidy. Qed.

#[export] Hint Resolve tidy_applyChanges : tidy.

Lemma tidy_bindLoop m s n : ∀ j, tidy false (bindLoop_ m s j n).
Proof. induction n; intros; cbn [bindLoop_]; tidy. Qed.
Lemma tidy_writeFound r l : tidy false (writeFound_ r l).
Proof. unfold writeFound_. tidy. Qed.
Lemma tidy_several n : tidy false (several_ n).
Proof. unfold several_. tidy. Qed.
Lemma tidy_deleteAt x j : tidy false (deleteAt_ x j).
Proof. unfold deleteAt_. tidy. Qed.

#[export] Hint Resolve tidy_bindLoop tidy_writeFound tidy_several tidy_deleteAt : tidy.

Lemma tidy_ended {R} reply (m : TM R unit) r : tidy false m → disciplined false false (ended reply (m r)).
Proof. intros Hm. eapply disciplined_bind; [apply Hm|]. by intros [o r']. Qed.

(** The handlers use the lock as they should. *)
Lemma thread_disciplined extra handshake h r :
  disciplined false false (thread_of extra handshake h r).
Proof.
  destruct h; unfold thread_of; apply tidy_ended.
  - intros res. by exists false.
  - apply tidy_deferred, tidy_message. tidy.
  - intros res. unfold startTLS_thread. generalize res at 3. apply tidy_bind; tidy.
  - apply tidy_deferred, tidy_message. tidy.
  - apply tidy_deferred, tidy_message. tidy.
  - apply tidy_deferred, tidy_message. tidy.
  - apply tidy_deferred, tidy_message. tidy.
  - apply tidy_deferred, tidy_message. tidy.
  - apply tidy_deferred, tidy_message. tidy.
Qed.

(** ** Pools of handlers *)

(** The shared state of a directory no handler of which is running: the slices have
    [spare] elements of capacity left. *)
Definition shared_of (d : Directory) (m : store) (spare : nat) (w : gmap nat bufioWriter) : shared :=
  mkShared d
    (mkSlice 1 (length (users d)) (length (users d) + spare))
    (mkSlice 2 (length (groups d)) (length (groups d) + spare))
    (<[1%positive := (Some <$> users d) ++ replicate spare None]>
      {[2%positive := (Some <$> groups d) ++ replicate spare None]})
    m None w.

(** The threads of requests, each from a connection and for a handler. *)
Definition start_pool (extra : nat → nat) (handshake : handle → option error)
    (rs : list (nat * dirHandler * Request)) (s : shared) : pool :=
  mkPool ((λ '(c, h, r), (c, thread_of extra handshake h r)) <$> rs) s.

Lemma valid_fresh l spare s a :
  arrays s !! a = Some ((Some <$> l) ++ replicate spare None) →
  valid (mkSlice a (length l) (length l + spare)) s.
Proof.
  intros Ha. eexists. split; [done|]. simpl. rewrite length_app, length_fmap, length_replicate.
  split_and!; [done|lia|]. intros j Hj. destruct (lookup_lt_is_Some_2 l j Hj) as [e He].
  exists e. rewrite lookup_app_l by (rewrite length_fmap; lia). by rewrite list_lookup_fmap, He.
Qed.

Lemma slots_fresh (P : addr → Prop) l spare j e :
  Forall P l → ((Some <$> l) ++ replicate spare None) !! j = Some (Some e) → P e.
Proof.
  intros Hl [Hj|[_ Hj]]%lookup_app_Some; [|by apply lookup_replicate in Hj as [? _]].
  rewrite list_lookup_fmap in Hj. destruct (l !! j) as [e'|] eqn:E; simplify_eq/=.
  by eapply Forall_lookup_1.
Qed.

Lemma good_shared_of d m spare w : dir_ok d m → good (shared_of d m spare w).
Proof.
  intros [Hs Hu Hg Ht]. split; [done| |by apply valid_fresh|by apply valid_fresh|done].
  intros a l j e Ha He. simpl in Ha. apply lookup_insert_Some in Ha as [[<- <-]|[_ Ha]].
  - eapply (slots_fresh (live m)); [exact Hu|exact He].
  - apply lookup_singleton_Some in Ha as [<- <-]. eapply (slots_fresh (live m)); [exact Hg|exact He].
Qed.

Section pools.
Context `{BerOps}.
Variables (extra : nat → nat) (handshake : handle → option error).
Variable rs : list (nat * dirHandler * Request).

(** How the thread of a request may end. *)
Definition request_ends (keep : bool) (i : nat) (x : outcome unit * Response) (s : shared) : Prop :=
  ∃ c h r, rs !! i = Some (c, h, r) ∧ ends_well keep h r x s.

Lemma start_pool_lookup s i c q :
  threads (start_pool extra handshake rs s) !! i = Some (c, q) →
  ∃ h r, rs !! i = Some (c, h, r) ∧ q = thread_of extra handshake h r.
Proof.
  simpl. rewrite list_lookup_fmap. destruct (rs !! i) as [[[c' h] r]|]; simpl; [|done].
  intros [= <- <-]. eauto.
Qed.

Lemma start_pool_safe keep s :
  good s → (∀ i c h r, rs !! i = Some (c, h, r) → h = HDelete → keep = false) →
  pool_safe good (frame keep) (request_ends keep) (start_pool extra handshake rs s).
Proof.
  intros Hs Hk. split; [done|]. intros i c q (h & r & Hr & ->)%start_pool_lookup.
  eapply safe_weaken; [|apply safe_thread; [done|by eapply Hk]].
  intros x s' _ Hx. by exists c, h, r.
Qed.

(** The lock is held by the thread that is between lock and unlock. *)
Definition lock_ok (p : pool) : Prop :=
  (∀ i c q, threads p !! i = Some (c, q) →
     disciplined (bool_decide (mu (sh p) = Some i)) false q) ∧
  ∀ i, mu (sh p) = Some i → is_Some (threads p !! i).

Lemma start_pool_lock s : mu s = None → lock_ok (start_pool extra handshake rs s).
Proof.
  intros Hm. split; [|by simpl; congruence]. intros i c q (h & r & Hr & ->)%start_pool_lookup.
  simpl. rewrite bool_decide_false by congruence. apply thread_disciplined.
Qed.

(** What an operation does to the lock. *)
Lemma exec_lock {X} (o : op X) i c s x s' h :
  exec o i c s = Done x s' → lock_after (bool_decide (mu s = Some i)) o = Some h →
  h = bool_decide (mu s' = Some i) ∧ ∀ j, j ≠ i → (mu s' = Some j ↔ mu s = Some j).
Proof.
  intros He Hh.
  assert (mu s' = mu s ∧ h = bool_decide (mu s = Some i) ∨
          mu s = None ∧ mu s' = Some i ∧ h = true ∨
          mu s = Some i ∧ mu s' = None ∧ h = false) as Hc.
  { destruct o; simpl in He, Hh; repeat case_match; simplify_eq/=; try by left.
    - left. by destruct x0.
    - right. left. done.
    - right. right. split; [|done]. by eapply bool_decide_eq_true. }
  destruct Hc as [[-> ->]|[(Hs & Hs' & ->)|(Hs & Hs' & ->)]]; [done|..].
  all: rewrite Hs, Hs'; (split; [|naive_solver]). all: symmetry.
  - by apply bool_decide_eq_true.
  - by apply bool_decide_eq_false.
Qed.

Lemma lock_ok_step p p' : lock_ok p → pstep p p' → lock_ok p'.
Proof.
  intros [Hd Hl] Hst0. destruct Hst0 as [i q q' Hst]. unfold thread_step in Hst.
  destruct (threads q !! i) as [[c [a|X o k]]|] eqn:Ei; [done| |done].
  destruct (exec o i c (sh q)) as [x s| |] eqn:Ee; [|done..]. injection Hst as <-.
  destruct (Hd i c _ Ei) as (h & Hh & Hk). destruct (exec_lock _ _ _ _ _ _ _ Ee Hh) as [-> Hj].
  pose proof (lookup_lt_Some _ _ _ Ei) as Hlt. split; simpl.
  - intros j c' q'. destruct (decide (i = j)) as [<-|Hne].
    + rewrite list_lookup_insert_eq by done. intros [= <- <-]. apply Hk.
    + rewrite list_lookup_insert_ne by done. intros Hq. specialize (Hd j c' q' Hq).
      by rewrite (bool_decide_ext _ (mu (sh q) = Some j)) by (apply Hj; congruence).
  - intros j Hm.
    destruct (decide (i = j)) as [<-|Hne]; [rewrite list_lookup_insert_eq by done; eauto|].
    rewrite list_lookup_insert_ne by done. apply Hl, Hj; [congruence|done].
Qed.

(** The threads that are not done are not all waiting. *)
Lemma lock_progress Q keep p i c X (o : op X) k :
  pool_safe good (frame keep) Q p → lock_ok p → threads p !! i = Some (c, Step o k) →
  ∃ p', pstep p p'.
Proof.
  intros [Hg Hs] [Hd Hl] Hi.
  assert (∀ j c X (o : op X) k, threads p !! j = Some (c, Step o k) →
    (mu (sh p) = None ∨ mu (sh p) = Some j) → ∃ p', pstep p p') as Hgo.
  { clear i c X o k Hi. intros j c X o k Hj Hm.
    specialize (Hs j c _ Hj (sh p) (frame_refl _ _ _) Hg).
    destruct (Hd j c _ Hj) as (h & Hh & _).
    destruct (exec o j c (sh p)) as [x s| |] eqn:Ee; [| |done].
    - eexists. apply (pstep_intro j). unfold thread_step. by rewrite Hj, Ee.
    - exfalso. destruct o; simpl in Ee, Hh; repeat case_match; simplify_eq/=.
      destruct Hm as [|Hm]; [done|]. simplify_eq.
      by match goal with Hb : bool_decide _ = false |- _ => apply bool_decide_eq_false in Hb end. }
  destruct (mu (sh p)) as [j|] eqn:Em; [|by eauto].
  destruct (Hl j eq_refl) as [[c' q] Hq]. pose proof (Hd j c' q Hq) as Hdj.
  rewrite bool_decide_true in Hdj by done. destruct q as [a|Y o' k']; [done|]. by eauto.
Qed.
End pools.
