(* ===== verification/DirAnswers.v ===== *)
(** What the handlers of the test directory write, as threads: however the
    operations of other handlers come between theirs, the responses that a
    handler writes, first to last, are a complete answer to its request.  [all_runs]
    goes through all results that the operations of a thread can have while
    the network takes what is written; [emits] is the form of it for a part of a
    handler. *)
From Stdlib Require Import Ascii.
From stdpp Require Import base decidable option list strings gmap.
From Stdlib Require Import ZArith Lia.
From S2P Require Import Prelude GoStd Ber BerModel Codes Options Control Packet Entry Attribute Parameters Message Response ResponseWire Request DirOptions Directory DirectorySpec DirectoryProps DirThreads.
Import GoStrings.

(** ** Runs of a thread *)

(** The results an operation can have in a directory [d], whose own fields do not
    change, on a connection whose writes do not fail. *)
Definition gives (d : Directory) {X} (o : op X) : X → Prop :=
  match o in op X return X → Prop with
  | OBase => λ x, x = d
  | OWrite _ => λ err, err = None
  | _ => λ _, True
  end.

(** What an operation writes. *)
Definition says {X} (o : op X) : list Response :=
  match o with
  | OWrite r => [r]
  | _ => []
  end.

(** [Q] holds of the responses written and the result at the end of every run of the thread, [said]
    having been written before. *)
Fixpoint all_runs (d : Directory) {A} (p : prog A) (Q : list Response → A → Prop)
    (said : list Response) : Prop :=
  match p with
  | Ret a => Q said a
  | Step o k => ∀ x, gives d o x → all_runs d (k x) Q (said ++ says o)
  end.

Lemma all_runs_weaken d {A} (p : prog A) (Q Q' : list Response → A → Prop) said :
  (∀ l a, Q l a → Q' l a) → all_runs d p Q said → all_runs d p Q' said.
Proof.
  intros HQ. revert said. induction p as [a|X o k IH]; intros said; simpl; [apply HQ|].
  intros Hp x Hx. by apply IH, Hp.
Qed.

Lemma all_runs_bind d {A B} (p : prog A) (f : A → prog B) Q1 Q2 said :
  all_runs d p Q1 said → (∀ l a, Q1 l a → all_runs d (f a) Q2 l) →
  all_runs d (prog_bind p f) Q2 said.
Proof.
  intros Hp Hf. revert said Hp. induction p as [a|X o k IH]; intros said Hp; simpl in *; [by apply Hf|].
  intros x Hx. by apply IH, Hp.
Qed.

(** ** Parts of handlers *)

Section emits.
Variable d : Directory.
(** What may be written, and what holds of the response under construction. *)
Context {R : Type} (E : Response → Prop) (I : R → Prop).

Definition emits {A} (m : TM R A) : Prop :=
  ∀ r said, I r →
    all_runs d (m r) (λ l x, I (snd x) ∧ ∃ es, l = said ++ es ∧ Forall E es) said.

Lemma emits_ret {A} (a : A) : emits (mret a).
Proof. intros r said HI. split; [done|]. exists []. by rewrite app_nil_r. Qed.

Lemma emits_panic {A} w : emits (panic_ (A := A) w).
Proof. intros r said HI. split; [done|]. exists []. by rewrite app_nil_r. Qed.

Lemma emits_res f : (∀ r, I r → I (f r)) → emits (changeRes_ f).
Proof. intros Hf r said HI. split; [by apply Hf|]. exists []. by rewrite app_nil_r. Qed.

Lemma emits_bind {A B} (m : TM R A) (f : A → TM R B) :
  emits m → (∀ a, emits (f a)) → emits (m ≫= f).
Proof.
  intros Hm Hf r said HI. eapply all_runs_bind; [by apply Hm|].
  intros l [o r'] [HI' (es & -> & Hes)]. simpl in HI'.
  destruct o as [a|e|w]; [|by split; [|exists es]..].
  eapply all_runs_weaken; [|by apply Hf]. intros l x [? (es' & -> & Hes')].
  split; [done|]. exists (es ++ es'). rewrite app_assoc, Forall_app. done.
Qed.

Lemma emits_do {X} (o : op X) : Forall E (says o) → emits (do_ o).
Proof. intros Ho r said HI x Hx. split; [done|]. by exists (says o). Qed.

Lemma emits_locked {A} (m : TM R A) : emits m → emits (locked m).
Proof.
  intros Hm r said HI x _. rewrite app_nil_r. eapply all_runs_bind; [by apply Hm|].
  intros l a Hl y _. by rewrite app_nil_r.
Qed.

Lemma emits_mapM {A B} (f : A → TM R B) l : (∀ x, emits (f x)) → emits (mapM f l).
Proof.
  intros Hf. induction l as [|x l IH]; simpl; [apply emits_ret|].
  apply emits_bind; [done|]. intros y. apply emits_bind; [done|]. intros ys. apply emits_ret.
Qed.

Lemma emits_deref e : emits (deref_ e).
Proof.
  destruct e; [|apply emits_panic]. apply emits_bind; [by apply emits_do|].
  intros [o|]; [apply emits_ret|apply emits_panic].
Qed.

Lemma emits_derefAttr a : emits (derefAttr_ a).
Proof.
  apply emits_bind; [by apply emits_do|]. intros [o|]; [apply emits_ret|apply emits_panic].
Qed.
End emits.

Create HintDb emits.
#[export] Hint Resolve emits_ret emits_panic emits_deref emits_derefAttr : emits.
#[export] Hint Extern 1 (emits _ _ _ (do_ _)) => (apply emits_do; by constructor) : emits.
#[export] Hint Extern 1 (emits _ _ _ (changeRes_ _)) =>
  (apply emits_res; let H := fresh in intros ? H; exact H) : emits.

(** Go through a part of a handler. *)
Ltac emit :=
  repeat first
    [ match goal with |- ∀ _, _ => intro end
    | solve [auto with emits nocore]
    | apply emits_locked | apply emits_bind | apply emits_mapM
    | progress case_match | progress case_decide ].

Section reading.
Variable d : Directory.
Context {R : Type} (E : Response → Prop) (I : R → Prop).

Lemma emits_attributeValues n l : emits d E I (attributeValues_ n l).
Proof. induction l; cbn [attributeValues_]; emit. Qed.
Lemma emits_findLoop f s n : ∀ i ids ms, emits d E I (findLoop_ f s i n ids ms).
Proof. induction n; intros; cbn [findLoop_]; emit. Qed.
Lemma emits_find f x : emits d E I (find_ f x).
Proof. unfold find_. emit. apply emits_findLoop. Qed.
Lemma emits_findMembers f s n : ∀ i ms, emits d E I (findMembersLoop_ f s i n ms).
Proof. induction n; intros; cbn [findMembersLoop_]; emit. apply emits_attributeValues. Qed.
Lemma emits_appendMatching b f s n : ∀ i ms, emits d E I (appendMatching_ b f s i n ms).
Proof. induction n; intros; cbn [appendMatching_]; emit. Qed.
Lemma emits_append extra s e : emits d E I (append_ extra s e).
Proof. unfold append_. emit. Qed.
Lemma emits_shiftDown a n : ∀ j, emits d E I (shiftDown a j n).
Proof. induction n; intros; cbn [shiftDown]; emit. Qed.
Lemma emits_removeAt s j : emits d E I (removeAt_ s j).
Proof. unfold removeAt_. case_decide; emit. apply emits_shiftDown. Qed.

Lemma emits_message {A} (m : outcome A) (k : A → TM R unit) :
  (∀ a, emits d E I (k a)) → emits d E I (withMessage_ m k).
Proof. intros Hk. destruct m; simpl; emit. Qed.
End reading.
#[export] Hint Resolve emits_attributeValues emits_findLoop emits_find emits_findMembers
  emits_appendMatching emits_append emits_removeAt : emits.

(** *** Entries of a search *)

(** The response for an entry of a search. *)
Definition entry_for (rq : Request) (x : Response) : Prop := ∃ e, x = entry_answer rq e.

(** The same, with what holds of the result. *)
Definition emits_to (d : Directory) {R} (E : Response → Prop) (I : R → Prop) {A} (F : A → Prop)
    (m : TM R A) : Prop :=
  ∀ r said, I r →
    all_runs d (m r) (λ l x, (∀ a, fst x = Ok a → F a) ∧ I (snd x) ∧
      ∃ es, l = said ++ es ∧ Forall E es) said.

Section entries.
Variable d : Directory.
Context {R : Type} (I : R → Prop) (rq : Request).
#[local] Abbreviation E := (entry_for rq).

Lemma emits_seq {A B} (F : A → Prop) (m : TM R A) (f : A → TM R B) :
  emits_to d E I F m → (∀ a, F a → emits d E I (f a)) → emits d E I (m ≫= f).
Proof.
  intros Hm Hf r said HI. eapply all_runs_bind; [by apply Hm|].
  intros l [o r'] [HF [HI' (es & -> & Hes)]]. simpl in HF, HI'.
  destruct o as [a|e|w]; [|by split; [|exists es]..].
  eapply all_runs_weaken; [|by apply (Hf a (HF a eq_refl))]. intros l x [? (es' & -> & Hes')].
  split; [done|]. exists (es ++ es'). rewrite app_assoc, Forall_app. done.
Qed.

Lemma emits_last {A B} (F : B → Prop) (m : TM R A) (f : A → TM R B) :
  emits d E I m → (∀ a, emits_to d E I F (f a)) → emits_to d E I F (m ≫= f).
Proof.
  intros Hm Hf r said HI. eapply all_runs_bind; [by apply Hm|].
  intros l [o r'] [HI' (es & -> & Hes)]. simpl in HI'.
  destruct o as [a|e|w]; [|by split; [|split; [|exists es]]..].
  eapply all_runs_weaken; [|by apply Hf]. intros l x [? [? (es' & -> & Hes')]].
  split_and!; [done..|]. exists (es ++ es'). rewrite app_assoc, Forall_app. done.
Qed.

Lemma emits_entryResponse e :
  emits_to d E I (λ res, E (RSearchEntry res)) (entryResponse_ rq e).
Proof.
  unfold entryResponse_. apply emits_last; [emit|]. intros o. apply emits_last; [emit|].
  intros attrs r said HI. split_and!; [|done|by exists []; rewrite app_nil_r].
  intros a [= <-]. exists (mkEntry (obj_DN o) attrs).
  unfold NewSearchResponseEntry, NewSearchResponseEntryFrom. by rewrite foldl_AddAttribute.
Qed.

Lemma emits_writeEntries l : emits d E I (writeEntries_ rq l).
Proof.
  induction l as [|e l IH]; cbn [writeEntries_]; [emit|].
  eapply emits_seq; [apply emits_entryResponse|]. intros res Hres.
  apply emits_bind; [apply emits_do; by constructor|]. intros [err|]; [emit|done].
Qed.
End entries.
#[export] Hint Resolve emits_writeEntries : emits.

(** ** The handlers *)

(** A response that ends an answer to [rq]. *)
Definition ends (rq : Request) (op : Z) (x : Response) : Prop :=
  res_id <$> result_of x = Some (GetID (message rq)) ∧ res_op <$> result_of x = Some op.

(** A handler that writes entries, and its response when it returns or panics. *)
Lemma deferred_answers d {R} (reply : R → Response) (m : TM R unit) rq op r0 :
  emits d (entry_for rq) (λ r, ends rq op (reply r)) m → ends rq op (reply r0) →
  all_runs d (ended reply (deferred_ reply m r0)) (λ l _, answer rq op l) [].
Proof.
  intros Hm H0. unfold ended, deferred_.
  apply all_runs_bind with (Q1 := λ l _, answer rq op l); [|by intros l [o r']].
  eapply all_runs_bind; [by apply Hm|]. intros l [o r'] [[Hid Hop] (es & -> & Hes)] x _. simpl in *.
  assert (∃ l, es = map (entry_answer rq) l) as [l ->].
  { clear -Hes. induction Hes as [|y es [e ->] _ [l ->]]; [by exists []|by exists (e :: l)]. }
  destruct (result_of (reply r')) as [res|] eqn:Er; simplify_eq/=.
  by exists l, (reply r'), res.
Qed.

(** A handler that writes its response only. *)
Lemma deferred_answers_once d {R} (reply : R → Response) (m : TM R unit) rq op r0 :
  (∀ E, emits d E (λ r, ends rq op (reply r)) m) → ends rq op (reply r0) →
  all_runs d (ended reply (deferred_ reply m r0)) (λ l _, answer rq op l) [].
Proof. intros Hm. by apply deferred_answers. Qed.

Section handlers.
Variable d : Directory.

Lemma emits_bindLoop E rq m s n : ∀ j,
  emits d E (λ r, ends rq ApplicationBindResponse (RBind r)) (bindLoop_ m s j n).
Proof. induction n; intros; cbn [bindLoop_]; emit. Qed.

Lemma emits_writeFound rq l :
  emits d (entry_for rq) (λ r, ends rq ApplicationSearchResultDone (RSearchDone r)) (writeFound_ rq l).
Proof. unfold writeFound_. emit. Qed.

(** The responses of the other handlers. *)
#[local] Abbreviation general rq op := (λ r, ends rq op (RGeneral r)).

Lemma emits_findAttr E rq op t l : ∀ j found, emits d E (general rq op) (findAttr_ t j l found).
Proof. induction l; intros; cbn [findAttr_]; emit. Qed.
#[local] Hint Resolve emits_findAttr : emits.
Lemma emits_applyChange E rq op e chg : emits d E (general rq op) (applyChange_ e chg).
Proof. unfold applyChange_. emit. Qed.
#[local] Hint Resolve emits_applyChange : emits.
Lemma emits_applyChanges E rq op e l : emits d E (general rq op) (applyChanges_ e l).
Proof. induction l; cbn [applyChanges_]; emit. Qed.
#[local] Hint Resolve emits_applyChanges : emits.
Lemma emits_several E rq op n : emits d E (general rq op) (several_ n).
Proof. unfold several_. emit. Qed.
Lemma emits_deleteAt E rq op x j : emits d E (general rq op) (deleteAt_ x j).
Proof. unfold deleteAt_. emit. Qed.
#[local] Hint Resolve emits_bindLoop emits_writeFound emits_several emits_deleteAt : emits.

(** Whatever happens between its operations, a handler writes a complete answer. *)
Lemma thread_answers extra handshake h rq :
  all_runs d (thread_of extra handshake h rq)
    (λ l _, complete_answer (StartTLS handshake (server d)) h rq l) [].
Proof.
  destruct (decide (h = HStartTLS)) as [->|Hh].
  - simpl. intros err ->. simpl. intros d' ->.
    destruct (StartTLS handshake (server d)) as [e|]; simpl.
    + by intros err _.
    + by apply answer_one.
  - eapply (all_runs_weaken _ _ (λ l _, answer rq (handler_op h) l)); [auto using answer_complete|].
    destruct h; [| |done|..]; unfold thread_of.
    + intros err _. by apply answer_one.
    + apply deferred_answers_once; [|done]. intros E. apply emits_message. emit.
    + apply deferred_answers; [|done]. apply emits_message. emit.
    + apply deferred_answers; [|done]. apply emits_message. emit.
    + apply deferred_answers; [|done]. apply emits_message. emit.
    + apply deferred_answers_once; [|done]. intros E. apply emits_message. emit.
    + apply deferred_answers_once; [|done]. intros E. apply emits_message. emit.
    + apply deferred_answers_once; [|done]. intros E. apply emits_message. emit.
Qed.
End handlers.
