(* ===== verification/DirSequential.v ===== *)
(** A handler that runs alone: the thread of DirThreads.v, without interference,
    does what the handler of Directory.v does.

    [world_of] reads the world of Directory.v off the shared state: the users
    and groups are the elements of the slices.  [sim] relates a computation of
    a thread with one of Directory.v, operation by operation. *)
From Stdlib Require Import Ascii.
From stdpp Require Import base decidable option list strings gmap relations.
From Stdlib Require Import ZArith Lia.
From S2P Require Import Prelude GoStd Ber BerModel Codes Options Control Packet Entry Attribute Parameters Message Response Request DirOptions Directory DirectorySpec DirThreads.
Import GoStrings.

(** Run a program to its end. *)
Fixpoint run `{BerOps} {A} (p : prog A) (i c : nat) (s : shared) : option (A * shared) :=
  match p with
  | Ret a => Some (a, s)
  | Step o k =>
      match exec o i c s with
      | Done x s => run (k x) i c s
      | Waits | Fatal => None
      end
  end.

Lemma run_bind `{BerOps} {A B} (p : prog A) (f : A → prog B) i c s a s' :
  run p i c s = Some (a, s') → run (prog_bind p f) i c s = run (f a) i c s'.
Proof.
  revert s. induction p as [b|X o k IH]; intros s; simpl; [by intros [= -> ->]|].
  destruct (exec o i c s); [apply IH|done..].
Qed.

(** A run of a thread is a run of its pool in which only this thread moves. *)
Lemma run_steps `{BerOps} p i c s x s' ths :
  run p i c s = Some (x, s') → ths !! i = Some (c, p) →
  rtc pstep (mkPool ths s) (mkPool (<[i := (c, Ret x)]> ths) s').
Proof.
  revert s ths. induction p as [a|X o k IH]; intros s ths; simpl.
  - intros [= -> ->] Hi. by rewrite list_insert_id.
  - destruct (exec o i c s) as [y s1| |] eqn:Ee; [|done..]. intros Hr Hi.
    eapply rtc_l; [apply (pstep_intro i); unfold thread_step; simpl; by rewrite Hi, Ee|].
    simpl. rewrite <-(list_insert_insert_eq ths i (c, Ret x) (c, k y)).
    eapply IH; [done|]. apply list_lookup_insert_eq. by eapply lookup_lt_Some.
Qed.

(** ** The world of a shared state *)

(** What operations on memory and on connections leave alone. *)
Record core : Type := mkCore {
  k_base : Directory;
  k_users : slice;
  k_groups : slice;
  k_arrays : gmap addr (list (option addr));
}.
Definition core_of (s : shared) : core := mkCore (base s) (s_users s) (s_groups s) (arrays s).
Definition k_slice (x : which) (k : core) : slice :=
  match x with Wusers => k_users k | Wgroups => k_groups k end.

(** The addresses in a slice. *)
Definition listed (A : gmap addr (list (option addr))) (y : slice) : list addr :=
  omap id (take (s_len y) (default [] (A !! s_arr y))).

(** The directory of Directory.v. *)
Definition dir_of (k : core) : Directory :=
  set_users (listed (k_arrays k) (k_users k))
    (set_groups (listed (k_arrays k) (k_groups k)) (k_base k)).

(** A slice whose elements are these. *)
Definition holds (A : gmap addr (list (option addr))) (y : slice) (l : list addr) : Prop :=
  ∃ L, A !! s_arr y = Some L ∧ length L = s_cap y ∧ (s_len y ≤ s_cap y)%nat ∧
    take (s_len y) L = Some <$> l.

(** The slices are as [append] and slicing make them, on arrays of their own. *)
Record core_ok (k : core) : Prop := mkCoreOk {
  ok_k_users : ∃ l, holds (k_arrays k) (k_users k) l;
  ok_k_groups : ∃ l, holds (k_arrays k) (k_groups k) l;
  ok_k_apart : s_arr (k_users k) ≠ s_arr (k_groups k);
}.

Lemma holds_listed A y l : holds A y l → listed A y = l ∧ length l = s_len y.
Proof.
  intros (L & HA & HL & Hle & Ht). unfold listed. rewrite HA. simpl. rewrite Ht. split.
  - clear. induction l as [|e l IH]; [done|]. rewrite fmap_cons. simpl. by f_equal.
  - apply (f_equal length) in Ht. rewrite length_take, length_fmap in Ht. lia.
Qed.

Lemma core_holds k x : core_ok k → holds (k_arrays k) (k_slice x k) (listed (k_arrays k) (k_slice x k)).
Proof.
  intros [[l Hu] [l' Hg] _]. destruct x; simpl.
  - by destruct (holds_listed _ _ _ Hu) as [-> _].
  - by destruct (holds_listed _ _ _ Hg) as [-> _].
Qed.

Section sequential.
Context `{BerOps}.
Variables (i c : nat).

Definition world_of {R} (s : shared) (r : R) : world R :=
  mkWorld (dir_of (core_of s)) (heap s) (default (idle_writer "") (outs s !! c)) r.

(** A computation of a thread that leaves [k] alone does what one of Directory.v does;
    [h] says that the thread has the lock, [E] are entries that are there. *)
Definition sim {R A} (h : bool) (k : core) (E : list addr) (m : TM R A) (hm : HM R A) : Prop :=
  ∀ s r, core_of s = k → mu s = (if h then Some i else None) → Forall (live (heap s)) E →
    ∃ o r' s', run (m r) i c s = Some ((o, r'), s') ∧ hm (world_of s r) = (o, world_of s' r') ∧
      core_of s' = k ∧ mu s' = mu s ∧ ∀ e, live (heap s) e → live (heap s') e.

Section rules.
Context {R : Type} (h : bool) (k : core) (E : list addr).

Lemma sim_ret {A} (a : A) : sim (R := R) h k E (mret a) (mret a).
Proof. intros s r Hk Hm HE. by eexists _, _, _. Qed.

Lemma sim_panic {A} w : sim (R := R) (A := A) h k E (panic_ w) (λ x, (Panic w, x)).
Proof. intros s r Hk Hm HE. by eexists _, _, _. Qed.

Lemma sim_res f : sim (R := R) h k E (changeRes_ f) (changeRes f).
Proof. intros s r Hk Hm HE. by eexists _, _, _. Qed.

Lemma sim_bind {A B} (m : TM R A) (f : A → TM R B) hm hf :
  sim h k E m hm → (∀ a, sim h k E (f a) (hf a)) → sim h k E (m ≫= f) (hm ≫= hf).
Proof.
  intros Hm Hf s r Hk Hmu HE. destruct (Hm s r Hk Hmu HE) as (o & r1 & s1 & Hr & Hh & Hk1 & Hmu1 & Hl).
  unfold mbind, TM_bind, HM_bind. rewrite (run_bind _ _ _ _ _ _ _ Hr), Hh.
  destruct o as [a|e|w]; [|by eexists _, _, _..].
  destruct (Hf a s1 r1 Hk1) as (o & r2 & s2 & ? & ? & ? & ? & ?); [congruence| |].
  { eapply Forall_impl; [exact HE|done]. }
  eexists _, _, _. split_and!; [done..|congruence|auto].
Qed.

(** Reading on one side. *)
Lemma sim_base_l {A} (f : Directory → TM R A) hm :
  sim h k E (f (k_base k)) hm → sim h k E (d ← do_ OBase; f d) hm.
Proof.
  intros Hf s r Hk Hm HE. destruct (Hf s r Hk Hm HE) as (o & r' & s' & Hr & ?). exists o, r', s'.
  by subst k.
Qed.

Lemma sim_slice_l {A} x (f : slice → TM R A) hm :
  sim h k E (f (k_slice x k)) hm → sim h k E (y ← do_ (OSlice x); f y) hm.
Proof.
  intros Hf s r Hk Hm HE. destruct (Hf s r Hk Hm HE) as (o & r' & s' & Hr & ?). exists o, r', s'.
  subst k. by destruct x.
Qed.

Lemma sim_elem_l {A} a j L e (f : option addr → TM R A) hm :
  k_arrays k !! a = Some L → L !! j = Some e →
  sim h k E (f e) hm → sim h k E (e ← do_ (OElem a j); f e) hm.
Proof.
  intros HL He Hf s r Hk Hm HE. destruct (Hf s r Hk Hm HE) as (o & r' & s' & Hr & ?).
  exists o, r', s'. subst k. simpl in *. by rewrite HL, He.
Qed.

Lemma sim_getDir_r {A} (m : TM R A) hf :
  sim h k E m (hf (dir_of k)) → sim h k E m (d ← getDir; hf d).
Proof.
  intros Hf s r Hk Hm HE. destruct (Hf s r Hk Hm HE) as (o & r' & s' & Hr & Hh & ?).
  exists o, r', s'. split; [done|]. split; [|done]. unfold mbind, HM_bind, getDir. simpl. by subst k.
Qed.

Lemma sim_deref_bind {A} e (f : entryObj → TM R A) hf :
  (∀ o, sim h k (e :: E) (f o) (hf o)) →
  sim h k E (o ← deref_ (Some e); f o) (o ← deref e; hf o).
Proof.
  intros Hf s r Hk Hm HE. unfold mbind at 2. unfold HM_bind, deref. simpl.
  destruct (entries (heap s) !! e) as [o|] eqn:He; [|by eexists _, _, _].
  destruct (Hf o s r Hk Hm) as (o' & r' & s' & Hr & Hh & ?); [constructor; [by exists o|done]|].
  exists o', r', s'. done.
Qed.

Lemma sim_deref e : sim (R := R) h k E (deref_ (Some e)) (deref e).
Proof.
  intros s r Hk Hm HE. unfold deref, deref_. simpl.
  destruct (entries (heap s) !! e); by eexists _, _, _.
Qed.

Lemma sim_derefAttr a : sim (R := R) h k E (derefAttr_ a) (derefAttr a).
Proof.
  intros s r Hk Hm HE. unfold derefAttr, derefAttr_. simpl.
  destruct (attributes (heap s) !! a); by eexists _, _, _.
Qed.

Lemma sim_mapM {A B} (f : A → TM R B) hf l :
  (∀ x, sim h k E (f x) (hf x)) → sim h k E (mapM f l) (mapM hf l).
Proof.
  intros Hf. induction l as [|x l IH]; simpl; [apply sim_ret|].
  apply sim_bind; [done|]. intros y. apply sim_bind; [done|]. intros ys. apply sim_ret.
Qed.

Lemma sim_write x : sim (R := R) h k E (do_ (OWrite x)) (write x).
Proof.
  intros s r Hk Hm HE. unfold write. simpl. destruct (Write (Some x) _) as [err o].
  eexists _, _, _. split_and!; [done| |done..]. unfold world_of. simpl. by rewrite lookup_insert_eq.
Qed.

(** Changes of memory. *)
Lemma sim_newEntry v : sim (R := R) h k E (do_ (ONewEntry v)) (changeMem (new_entry v)).
Proof.
  intros s r Hk Hm HE. unfold changeMem. simpl. destruct (new_entry v (heap s)) as [e m] eqn:En.
  eexists _, _, _. split_and!; [done..|]. by apply (new_entry_spec _ _ _ _ En).
Qed.
Lemma sim_newAttr v : sim (R := R) h k E (do_ (ONewAttr v)) (changeMem (new_attribute v)).
Proof. intros s r Hk Hm HE. by eexists _, _, _. Qed.
Lemma sim_setAttr a v : sim (R := R) h k E (do_ (OSetAttr a v)) (assignAttr a v).
Proof. intros s r Hk Hm HE. by eexists _, _, _. Qed.
Lemma sim_setEntry e attrs :
  e ∈ E → sim (R := R) h k E (do_ (OSetEntry e attrs)) (assignAttributes e attrs).
Proof.
  intros Hin s r Hk Hm HE. rewrite Forall_forall in HE. destruct (HE e Hin) as [o Ho].
  unfold assignAttributes, mbind, HM_bind, deref, changeMem. simpl. rewrite Ho. simpl.
  eexists _, _, _. split_and!; [done..|]. intros e' [o' Ho']. unfold live. simpl.
  destruct (decide (e = e')) as [->|]; [rewrite lookup_insert_eq|rewrite lookup_insert_ne by done]; eauto.
Qed.

Lemma sim_weaken {A} E' (m : TM R A) hm : E ⊆ E' → sim h k E m hm → sim h k E' m hm.
Proof.
  intros Hin Hs s r Hk Hm HE. apply Hs; [done|done|]. rewrite !Forall_forall in *. auto.
Qed.
End rules.

Lemma sim_locked {R A} k E (m : TM R A) hm : sim true k E m hm → sim false k E (locked m) hm.
Proof.
  intros Hm s r Hk Hmu HE.
  destruct (Hm (with_mu (Some i) s) r Hk eq_refl HE) as (o & r' & s' & Hr & Hh & Hk' & Hm' & Hl).
  exists o, r', (with_mu None s'). unfold locked. simpl. rewrite Hmu.
  rewrite (run_bind _ _ _ _ _ _ _ Hr). simpl in *. rewrite Hm'. done.
Qed.

(** ** The loops *)

Lemma sim_attributeValues {R} h k E n attrs :
  sim (R := R) h k E (attributeValues_ n attrs) (attributeValues n attrs).
Proof.
  induction attrs as [|a attrs IH]; cbn [attributeValues_ attributeValues]; [apply sim_ret|].
  apply sim_bind; [apply sim_derefAttr|]. intros v. case_decide; [apply sim_ret|done].
Qed.

(** The next element of a slice. *)
Lemma holds_next A y l idx n e l' :
  holds A y l → (idx + S n = s_len y)%nat → drop idx l = e :: l' →
  ∃ L, A !! s_arr y = Some L ∧ L !! idx = Some (Some e) ∧ drop (S idx) l = l'.
Proof.
  intros (L & HA & HL & Hle & Ht) Hn Hd. exists L. split; [done|].
  assert (l !! idx = Some e) as He by (rewrite <-(Nat.add_0_r idx), <-lookup_drop, Hd; done).
  split.
  - assert (take (s_len y) L !! idx = Some (Some e)) as Hi
      by (rewrite Ht, list_lookup_fmap, He; done). by apply lookup_take_Some in Hi as [? _].
  - apply (drop_S _ _ idx) in He. rewrite Hd in He. by injection He.
Qed.

Lemma holds_cons A y l idx n :
  holds A y l → (idx + S n = s_len y)%nat → ∃ e l', drop idx l = e :: l'.
Proof.
  intros Hh Hn. destruct (holds_listed _ _ _ Hh) as [_ Hl].
  destruct (drop idx l) as [|e l'] eqn:E; [|eauto].
  apply (f_equal length) in E. rewrite length_drop in E. simpl in E. lia.
Qed.

Lemma holds_end A y l idx : holds A y l → (idx + 0 = s_len y)%nat → drop idx l = [].
Proof. intros Hh Hn. destruct (holds_listed _ _ _ Hh) as [_ Hl]. apply drop_ge. lia. Qed.

Section loops.
Context {R : Type} (h : bool) (k : core) (E : list addr) (f : string) (y : slice) (l : list addr).
Hypothesis Hy : holds (k_arrays k) y l.

Lemma sim_findLoop n idx ids ms :
  (idx + n = s_len y)%nat →
  sim (R := R) h k E (findLoop_ f y idx n ids ms) (findLoop false f idx (drop idx l) ids ms).
Proof.
  revert idx ids ms. induction n as [|n IH]; intros idx ids ms Hn.
  { rewrite (holds_end _ _ _ _ Hy Hn). apply sim_ret. }
  destruct (holds_cons _ _ _ _ _ Hy Hn) as (e & l' & Hd). rewrite Hd.
  destruct (holds_next _ _ _ _ _ _ _ Hy Hn Hd) as (L & HA & He & Hd'). cbn [findLoop_ findLoop].
  eapply sim_elem_l; [done..|]. apply sim_bind; [apply sim_deref|]. intros o.
  rewrite <-Hd'. destruct (match_ f (obj_DN o)); apply IH; lia.
Qed.

Lemma sim_appendMatching n idx ms :
  (idx + n = s_len y)%nat →
  sim (R := R) h k E (appendMatching_ false f y idx n ms) (appendMatching f (drop idx l) ms).
Proof.
  revert idx ms. induction n as [|n IH]; intros idx ms Hn.
  { rewrite (holds_end _ _ _ _ Hy Hn). apply sim_ret. }
  destruct (holds_cons _ _ _ _ _ Hy Hn) as (e & l' & Hd). rewrite Hd.
  destruct (holds_next _ _ _ _ _ _ _ Hy Hn Hd) as (L & HA & He & Hd').
  cbn [appendMatching_ appendMatching]. eapply sim_elem_l; [done..|].
  apply sim_bind; [apply sim_deref|]. intros o. rewrite <-Hd'. simpl. apply IH. lia.
Qed.

Lemma sim_appendNewMatching n idx ms :
  (idx + n = s_len y)%nat →
  sim (R := R) h k E (appendMatching_ true f y idx n ms) (appendNewMatching f (drop idx l) ms).
Proof.
  revert idx ms. induction n as [|n IH]; intros idx ms Hn.
  { rewrite (holds_end _ _ _ _ Hy Hn). apply sim_ret. }
  destruct (holds_cons _ _ _ _ _ Hy Hn) as (e & l' & Hd). rewrite Hd.
  destruct (holds_next _ _ _ _ _ _ _ Hy Hn Hd) as (L & HA & He & Hd').
  cbn [appendMatching_ appendNewMatching]. eapply sim_elem_l; [done..|].
  apply sim_bind; [apply sim_deref|]. intros o. rewrite <-Hd'. simpl.
  replace (if decide (e ∈ ms) then ms else ms ++ [e]) with (if bool_decide (e ∈ ms) then ms else ms ++ [e]).
  - apply IH. lia.
  - case_bool_decide; by case_decide.
Qed.

Lemma sim_findMembersLoop n idx ms :
  (idx + n = s_len y)%nat →
  sim (R := R) h k E (findMembersLoop_ f y idx n ms) (findMembersLoop false f (drop idx l) ms).
Proof.
  revert idx ms. induction n as [|n IH]; intros idx ms Hn.
  { rewrite (holds_end _ _ _ _ Hy Hn). apply sim_ret. }
  destruct (holds_cons _ _ _ _ _ Hy Hn) as (e & l' & Hd). rewrite Hd.
  destruct (holds_next _ _ _ _ _ _ _ Hy Hn Hd) as (L & HA & He & Hd').
  cbn [findMembersLoop_ findMembersLoop]. eapply sim_elem_l; [done..|].
  apply sim_bind; [apply sim_deref|]. intros o.
  apply sim_bind; [apply sim_attributeValues|]. intros members. rewrite <-Hd'.
  rewrite (membersLoop_spec f e members ms). simpl. apply IH. lia.
Qed.
End loops.

Lemma sim_find {R} h k E f x :
  core_ok k →
  sim (R := R) h k E (find_ f x) (find f (listed (k_arrays k) (k_slice x k)) []).
Proof.
  intros Hk. apply sim_slice_l. apply (sim_findLoop _ _ _ _ _ _ (core_holds _ x Hk)). done.
Qed.

Lemma sim_writeEntries {R} h k E r l :
  sim (R := R) h k E (writeEntries_ r l) (writeEntries r l).
Proof.
  induction l as [|e l IH]; cbn [writeEntries_ writeEntries]; [apply sim_ret|].
  apply sim_bind.
  { apply sim_bind; [apply sim_deref|]. intros o.
    apply sim_bind; [apply sim_mapM, sim_derefAttr|]. intros attrs. apply sim_ret. }
  intros result. apply sim_bind; [apply sim_write|]. intros [err|]; [apply sim_ret|done].
Qed.

(** ** The handlers *)

(** An entry that is read twice in a row. *)
Lemma sim_deref_again {R A} h k E e (P : entryObj → Prop) `{∀ o, Decision (P o)}
    (f : entryObj → TM R A) g hf hg :
  (∀ o, sim h k E (f o) (hf o)) → sim h k E g hg →
  sim h k E (o ← deref_ (Some e); if decide (P o) then o ← deref_ (Some e); f o else g)
    (o ← deref e; if decide (P o) then hf o else hg).
Proof.
  intros Hf Hg s r Hk Hm HE. unfold mbind at 3. unfold HM_bind, deref. simpl.
  destruct (entries (heap s) !! e) as [o|] eqn:He; [|by eexists _, _, _].
  simpl. case_decide; [|by apply Hg]. simpl. rewrite He. by apply Hf.
Qed.

Lemma sim_message {R A} k E (m : outcome A) (f : A → TM R unit) hf :
  (∀ a, m = Ok a → sim false k E (f a) (hf a)) → sim false k E (withMessage_ m f) (withMessage m hf).
Proof. intros Hf. destruct m; simpl; [by apply Hf|apply sim_ret|apply sim_panic]. Qed.

Lemma sim_bindLoop k E m y l n idx :
  holds (k_arrays k) y l → (idx + n = s_len y)%nat →
  sim false k E (bindLoop_ m y idx n) (bindLoop m (dir_of k) (drop idx l)).
Proof.
  intros Hy. revert idx. induction n as [|n IH]; intros idx Hn.
  { rewrite (holds_end _ _ _ _ Hy Hn). apply sim_ret. }
  destruct (holds_cons _ _ _ _ _ Hy Hn) as (e & l' & Hd). rewrite Hd.
  destruct (holds_next _ _ _ _ _ _ _ Hy Hn Hd) as (L & HA & He & Hd').
  cbn [bindLoop_ bindLoop]. eapply sim_elem_l; [done..|]. rewrite <-Hd'.
  assert (sim false k E (bindLoop_ m y (S idx) n) (bindLoop m (dir_of k) (drop (S idx) l)))
    as Hnext by (apply IH; lia).
  apply sim_deref_again; [|done]. intros o. apply sim_bind; [apply sim_attributeValues|].
  intros [|v vs]; [done|]. case_decide; [|done].
  apply sim_bind; [apply sim_res|]. intros _. apply sim_base_l.
  change (controls (dir_of k)) with (controls (k_base k)). case_decide; [|apply sim_ret].
  apply sim_locked, sim_base_l, sim_res.
Qed.

Lemma sim_writeFound k E r l :
  sim false k E (writeFound_ r l) (writeFound r (dir_of k) l).
Proof.
  unfold writeFound_, writeFound. case_decide; [|apply sim_ret].
  apply sim_bind; [apply sim_writeEntries|]. intros [|]; [|apply sim_ret].
  apply sim_base_l. unfold searchDone.
  change (controls (dir_of k)) with (controls (k_base k)). case_decide.
  - apply sim_locked, sim_base_l. apply sim_bind; [apply sim_res|]. intros []. apply sim_res.
  - intros s x Hk Hm HE. by eexists _, _, _.
Qed.

Lemma sim_findAttr h k E t attrs j found :
  sim h k E (findAttr_ t j attrs found) (findAttr t j attrs found).
Proof.
  revert j found. induction attrs as [|a attrs IH]; intros j found; cbn [findAttr_ findAttr]; [apply sim_ret|].
  apply sim_bind; [apply sim_derefAttr|]. intros v. apply IH.
Qed.

Lemma sim_applyChange k E e chg : sim true k E (applyChange_ e chg) (applyChange e chg).
Proof.
  unfold applyChange_, applyChange. apply sim_deref_bind. intros o.
  apply sim_bind; [apply sim_findAttr|]. intros found. repeat case_decide; [| |apply sim_ret].
  - destruct found as [[a j]|].
    + apply sim_bind; [apply sim_derefAttr|]. intros v. apply sim_setAttr.
    + apply sim_bind; [apply sim_newAttr|]. intros a. apply sim_setEntry. by left.
  - destruct found as [[a j]|]; [|apply sim_ret]. apply sim_setEntry. by left.
Qed.

Lemma sim_applyChanges k E e chgs : sim true k E (applyChanges_ e chgs) (applyChanges e chgs).
Proof.
  induction chgs as [|chg chgs IH]; cbn [applyChanges_ applyChanges]; [apply sim_ret|].
  apply sim_bind; [apply sim_applyChange|]. by intros [].
Qed.

(** ** Handlers that change the slices *)

Definition body_sim {R} (k : core) (m : TM R unit) (hm : HM R unit) : Prop :=
  ∀ s r, core_of s = k → mu s = None →
    ∃ o r' s', run (m r) i c s = Some ((o, r'), s') ∧ hm (world_of s r) = (o, world_of s' r') ∧
      core_ok (core_of s') ∧ mu s' = None.

Lemma body_of_sim {R} k (m : TM R unit) hm : core_ok k → sim false k [] m hm → body_sim k m hm.
Proof.
  intros Hok Hs s r Hk Hm. destruct (Hs s r Hk Hm) as (o & r' & s' & ? & ? & Hk' & ? & _); [done|].
  exists o, r', s'. split_and!; [done|done|by rewrite Hk'|congruence].
Qed.

Lemma body_bind {R A} k (m : TM R A) hm (f : A → TM R unit) hf :
  core_ok k → sim false k [] m hm →
  (∀ a, (∃ w w', hm w = (Ok a, w')) → body_sim k (f a) (hf a)) → body_sim k (m ≫= f) (hm ≫= hf).
Proof.
  intros Hok Hs Hf s r Hk Hm. destruct (Hs s r Hk Hm) as (o & r1 & s1 & Hr & Hh & Hk1 & Hm1 & _); [done|].
  unfold mbind, TM_bind, HM_bind. rewrite (run_bind _ _ _ _ _ _ _ Hr), Hh.
  destruct o as [a|e|w].
  - apply Hf; [eauto|done|congruence].
  - eexists _, _, _. split_and!; [done|done|by rewrite Hk1|congruence].
  - eexists _, _, _. split_and!; [done|done|by rewrite Hk1|congruence].
Qed.

Lemma body_getDir {R} k (m : TM R unit) hf :
  body_sim k m (hf (dir_of k)) → body_sim k m (d ← getDir; hf d).
Proof.
  intros Hf s r Hk Hm. destruct (Hf s r Hk Hm) as (o & r' & s' & Hr & Hh & ?). exists o, r', s'.
  split; [done|]. split; [|done]. unfold mbind, HM_bind, getDir. simpl. by subst k.
Qed.

Lemma body_message {R A} k (m : outcome A) (f : A → TM R unit) hf :
  core_ok k → (∀ a, body_sim k (f a) (hf a)) → body_sim k (withMessage_ m f) (withMessage m hf).
Proof.
  intros Hok Hf. destruct m; simpl; [apply Hf|..]; apply body_of_sim; [done|apply sim_ret|done|apply sim_panic].
Qed.

(** The thread of a handler with a deferred response. *)
Definition handler_sim (p : prog (outcome unit * Response)) (hm : HM unit unit) : Prop :=
  ∀ s, core_ok (core_of s) → mu s = None →
    ∃ o resp s', run p i c s = Some ((o, resp), s') ∧ hm (world_of s ()) = (o, world_of s' ()) ∧
      core_ok (core_of s') ∧ mu s' = None.

Lemma handler_deferred {R} (reply : R → Response) (m : TM R unit) hm r0 :
  (∀ k, core_ok k → body_sim k m hm) →
  handler_sim (ended reply (deferred_ reply m r0)) (responding r0 (deferred reply hm)).
Proof.
  intros Hb s Hok Hm. destruct (Hb _ Hok s r0 eq_refl Hm) as (o & r1 & s1 & Hr & Hh & Hok1 & Hm1).
  pose proof (sim_write false (core_of s1) [] (reply r1) s1 r1 eq_refl Hm1 (Forall_nil_2 _))
    as (o2 & r2 & s2 & Hr2 & Hh2 & Hk2 & Hm2 & _).
  exists o, (reply r1), s2. unfold ended, deferred_, responding, deferred.
  change (mkWorld (dir (world_of s ())) (mem (world_of s ())) (out (world_of s ())) r0) with (world_of s r0).
  rewrite Hh. simpl in Hr2. cbn [res world_of]. rewrite Hh2.
  destruct (Write (Some (reply r1)) (default (idle_writer "") (outs s1 !! c))) as [err w] eqn:Ew.
  injection Hr2 as <- <- <-. split_and!; [|done|by rewrite Hk2|congruence].
  erewrite run_bind; [|erewrite run_bind; [|exact Hr]; simpl; rewrite Ew; reflexivity]. done.
Qed.

(** ** Slices *)

(** Slices of other arrays do not change. *)
Lemma listed_ne A A' y : A' !! s_arr y = A !! s_arr y → listed A' y = listed A y.
Proof. intros He. unfold listed. by rewrite He. Qed.

Lemma holds_ne A A' y l : A' !! s_arr y = A !! s_arr y → holds A y l → holds A' y l.
Proof. intros He (L & HA & ?). exists L. by rewrite He. Qed.

Lemma run_mapM_elem {R} s (r : R) a L j n :
  arrays s !! a = Some L → (j + n ≤ length L)%nat →
  run (mapM (λ j, do_ (OElem a j)) (seq j n) r) i c s = Some ((Ok (take n (drop j L)), r), s).
Proof.
  intros Ha. revert j. induction n as [|n IH]; intros j Hn; simpl; [done|].
  destruct (lookup_lt_is_Some_2 L j) as [e He]; [lia|]. rewrite Ha, He.
  unfold mbind, TM_bind. erewrite run_bind; [|apply (IH (S j)); lia]. simpl. by rewrite (drop_S _ _ _ He).
Qed.

(** Go's append. *)
Lemma run_append {R} extra s (r : R) u l e :
  holds (arrays s) u l →
  ∃ u' A', run (append_ extra u e r) i c s = Some ((Ok u', r), with_arrays A' s) ∧
    holds A' u' (l ++ [e]) ∧ (s_arr u' = s_arr u ∨ arrays s !! s_arr u' = None) ∧
    ∀ a, a ≠ s_arr u' → A' !! a = arrays s !! a.
Proof.
  intros Hh. pose proof Hh as (L & HA & HL & Hle & Ht).
  destruct (holds_listed _ _ _ Hh) as [_ Hl]. unfold append_. case_decide as Hd.
  - eexists _, _. simpl. rewrite HA, decide_True by lia. simpl. split_and!; [done| |by left|].
    + eexists. simpl. rewrite lookup_insert_eq, length_insert. split_and!; [done|done|lia|].
      erewrite take_S_r; [|by apply list_lookup_insert_eq; lia].
      rewrite take_insert_ge by lia. by rewrite Ht, fmap_app.
    + intros a Ha. by rewrite lookup_insert_ne.
  - eexists _, _. unfold mbind at 1, TM_bind. erewrite run_bind; [|apply run_mapM_elem; [done|lia]].
    rewrite drop_0, Ht. simpl. split_and!; [done| | |].
    + eexists. simpl. rewrite lookup_insert_eq. split; [done|].
      rewrite !length_app, length_fmap, Hl. simpl. rewrite length_replicate. split_and!; [lia|lia|].
      rewrite cons_middle, app_assoc, take_app_length'; [by rewrite fmap_app|].
      rewrite length_app, length_fmap, Hl. simpl. lia.
    + right. simpl. apply not_elem_of_dom, is_fresh.
    + simpl. intros a Ha. by rewrite lookup_insert_ne.
Qed.

(** Moving elements down. *)
Lemma run_shiftDown {R} s (r : R) a L j n :
  arrays s !! a = Some L → (1 ≤ j)%nat → (j + n ≤ length L)%nat →
  ∃ A', run (shiftDown a j n r) i c s = Some ((Ok (), r), with_arrays A' s) ∧
    A' !! a = Some (take (j - 1) L ++ take n (drop j L) ++ drop (j - 1 + n) L) ∧
    ∀ b, b ≠ a → A' !! b = arrays s !! b.
Proof.
  revert s L j. induction n as [|n IH]; intros s L j Ha Hj Hn.
  - exists (arrays s). simpl. rewrite Nat.add_0_r, take_drop. by destruct s.
  - destruct (lookup_lt_is_Some_2 L j) as [e He]; [lia|]. set (L1 := <[(j - 1)%nat := e]> L).
    destruct (IH (with_arrays (<[a := L1]> (arrays s)) s) L1 (S j)) as (A' & Hr & HA' & Hb);
      [apply lookup_insert_eq|lia|unfold L1; rewrite length_insert; lia|].
    exists A'. simpl. rewrite Ha, He. simpl. rewrite Ha, decide_True by lia. simpl. split; [exact Hr|]. split.
    + rewrite HA'. f_equal. unfold L1. simpl. rewrite Nat.sub_0_r.
      rewrite (drop_insert_lt L (S j) (j - 1)), (drop_insert_lt L (j + n) (j - 1)) by lia.
      rewrite (drop_S _ _ _ He). replace (j - 1 + S n)%nat with (j + n)%nat by lia.
      replace j with (S (j - 1)) at 1 by lia.
      erewrite take_S_r; [|apply list_lookup_insert_eq; lia].
      rewrite take_insert_ge, <-app_assoc by lia. done.
    + intros b Hne. rewrite Hb by done. simpl. by rewrite lookup_insert_ne.
Qed.

(** [append(s[:j], s[j+1:]...)] *)
Lemma run_removeAt {R} s (r : R) u l j :
  holds (arrays s) u l → (j < length l)%nat →
  ∃ u' A', run (removeAt_ u j r) i c s = Some ((Ok u', r), with_arrays A' s) ∧
    holds A' u' (take j l ++ drop (S j) l) ∧ s_arr u' = s_arr u ∧
    ∀ a, a ≠ s_arr u' → A' !! a = arrays s !! a.
Proof.
  intros Hh Hj. pose proof Hh as (L & HA & HL & Hle & Ht).
  destruct (holds_listed _ _ _ Hh) as [_ Hl]. unfold removeAt_. rewrite decide_True by lia.
  destruct (run_shiftDown s r (s_arr u) L (S j) (s_len u - S j) HA) as (A' & Hr & HA' & Hb); [lia|lia|].
  eexists _, A'. unfold mbind, TM_bind. erewrite run_bind; [|exact Hr]. split; [done|].
  split; [|split; [done|exact Hb]]. eexists. simpl. split; [exact HA'|].
  replace (S j - 1)%nat with j by lia. rewrite !length_app, !length_take, !length_drop.
  split_and!; [lia|lia|]. rewrite app_assoc, take_app_length'.
  - rewrite fmap_app, fmap_take, fmap_drop, <-Ht.
    rewrite take_take, Nat.min_l by lia. by rewrite skipn_firstn_comm.
  - rewrite length_app, !length_take, length_drop. lia.
Qed.

(** ** Changing a slice under the lock *)

Definition set_list (x : which) (l : list addr) : Directory → Directory :=
  match x with Wusers => set_users l | Wgroups => set_groups l end.

(** The core after a change of slice [x]. *)
Lemma changed_core k x u' A' l' :
  core_ok k → holds A' u' l' →
  (s_arr u' = s_arr (k_slice x k) ∨ k_arrays k !! s_arr u' = None) →
  (∀ a, a ≠ s_arr u' → A' !! a = k_arrays k !! a) →
  let k' := match x with
            | Wusers => mkCore (k_base k) u' (k_groups k) A'
            | Wgroups => mkCore (k_base k) (k_users k) u' A'
            end in
  core_ok k' ∧ dir_of k' = set_list x l' (dir_of k).
Proof.
  intros Hok Hh Ha HA. pose proof Hok as [[lu Hu] [lg Hg] Hne].
  assert (∀ y l, holds (k_arrays k) y l → s_arr y ≠ s_arr (k_slice x k) → s_arr y ≠ s_arr u') as Hap.
  { intros y l (L & HL & _) Hy He. destruct Ha as [Ha|Ha]; congruence. }
  destruct (holds_listed _ _ _ Hh) as [Hl' _].
  destruct x; simpl in *; (split; [split; simpl|]).
  - by exists l'.
  - exists lg. eapply holds_ne; [|exact Hg]. apply HA. by eapply Hap.
  - intros He. by apply (Hap _ _ Hg).
  - unfold dir_of, set_users, set_groups. simpl. f_equal; [done|].
    apply listed_ne, HA. by eapply Hap.
  - exists lu. eapply holds_ne; [|exact Hu]. apply HA. by eapply Hap.
  - by exists l'.
  - by eapply Hap.
  - unfold dir_of, set_users, set_groups. simpl. f_equal; [|done].
    apply listed_ne, HA. by eapply Hap.
Qed.

Lemma body_change {R} k x (g : slice → TM R slice) l' f :
  core_ok k →
  (∀ s r, arrays s = k_arrays k → ∃ u' A',
     run (g (k_slice x k) r) i c s = Some ((Ok u', r), with_arrays A' s) ∧ holds A' u' l' ∧
     (s_arr u' = s_arr (k_slice x k) ∨ k_arrays k !! s_arr u' = None) ∧
     ∀ a, a ≠ s_arr u' → A' !! a = k_arrays k !! a) →
  body_sim k
    (locked (s ← do_ (OSlice x); s ← g s; do_ (OSetSlice x s);; changeRes_ f))
    (putDir (set_list x l' (dir_of k));; changeRes f).
Proof.
  intros Hok Hg s r Hk Hm.
  destruct (Hg (with_mu (Some i) s) r) as (u' & A' & Hr & Hh & Ha & HA); [by subst k|].
  destruct (changed_core k x u' A' l' Hok Hh Ha HA) as [Hok' Hd].
  exists (Ok ()), (f r), (with_mu None (with_slice x u' (with_arrays A' (with_mu (Some i) s)))).
  assert (slice_of x (with_mu (Some i) s) = k_slice x k) as Hx by (subst k; by destruct x).
  split; [|split; [|split]].
  - unfold locked. simpl. rewrite Hm. unfold mbind, TM_bind. simpl. rewrite Hx.
    erewrite run_bind; [|erewrite run_bind; [|exact Hr]; reflexivity]. simpl.
    by destruct x.
  - unfold mbind, HM_bind, putDir, changeRes, world_of. simpl. f_equal. f_equal; [|by destruct x..].
    rewrite <-Hd. subst k. by destruct x.
  - subst k. by destruct x.
  - by destruct x.
Qed.

Lemma findLoop_indexes {R} f idx l ids ms (w : world R) b ids' ms' w' :
  findLoop false f idx l ids ms w = (Ok (b, ids', ms'), w') →
  Forall (λ j, (j < idx + length l)%nat) ids → Forall (λ j, (j < idx + length l)%nat) ids'.
Proof.
  revert idx ids ms. induction l as [|e l IH]; intros idx ids ms; simpl.
  - unfold mret, HM_ret. case_decide; intros [= <- <- <- <-]; [done|constructor].
  - unfold mbind, HM_bind, deref. destruct (entries (mem w) !! e) as [o|]; [|done].
    replace (idx + S (length l))%nat with (S idx + length l)%nat by lia.
    destruct (match_ f (obj_DN o)); intros Hr Hf; (eapply IH; [exact Hr|]); [|done].
    apply Forall_app. split; [done|]. apply Forall_singleton. lia.
Qed.

Lemma find_index {R} f l (w : world R) b j ms w' :
  find f l [] w = (Ok (b, [j], ms), w') → (j < length l)%nat.
Proof. intros Hf%findLoop_indexes; [by apply Forall_cons in Hf as [? _]|constructor]. Qed.

(** Removing the element found. *)
Lemma body_delete k x j :
  core_ok k → (j < length (listed (k_arrays k) (k_slice x k)))%nat →
  body_sim k (deleteAt_ x j)
    (putDir (set_list x (take j (listed (k_arrays k) (k_slice x k)) ++
                         drop (S j) (listed (k_arrays k) (k_slice x k))) (dir_of k));;
     changeRes (onGeneral (SetResultCode ResultSuccess))).
Proof.
  intros Hok Hj. apply (body_change k x (λ s, removeAt_ s j)); [done|]. intros s r HA.
  destruct (run_removeAt s r _ _ j ltac:(rewrite HA; apply (core_holds k x Hok)) Hj)
    as (u' & A' & ? & ? & ? & Hb).
  rewrite HA in Hb. exists u', A'. split_and!; [done|done|by left|done].
Qed.

Lemma body_res2 {R} k (f g : R → R) :
  core_ok k → body_sim k (changeRes_ f;; changeRes_ g) (changeRes f;; changeRes g).
Proof.
  intros Hok. apply body_of_sim; [done|]. apply sim_bind; [apply sim_res|]. intros []. apply sim_res.
Qed.

(** ** Each handler *)

Lemma alone_bind rq r0 :
  handler_sim (ended RBind (bind_thread rq r0))
    (responding r0 (deferred RBind (withMessage (GetSimpleBindMessage rq) (λ m,
       if decide (AuthChoice m ≠ SimpleAuthChoice) then mret ()
       else
         d ← getDir;
         if decide (Password m = "" ∧ allowAnonymousBind d = true)
         then changeRes (onBind (SetResultCode ResultSuccess))
         else bindLoop m d (users d))))).
Proof.
  apply handler_deferred. intros k Hk. apply body_of_sim; [done|].
  apply sim_message. intros m _. case_decide; [apply sim_ret|].
  apply sim_base_l, sim_getDir_r.
  change (allowAnonymousBind (dir_of k)) with (allowAnonymousBind (k_base k)).
  case_decide; [apply sim_res|]. apply sim_slice_l.
  apply (sim_bindLoop _ _ _ _ _ _ 0 (core_holds _ Wusers Hk)). done.
Qed.

Lemma alone_notFound rq : handler_sim
  (ended RGeneral (notFound_thread rq (NewResponse rq [WithDiagnosticMessage "intentionally not handled"])))
  (handleNotFound rq).
Proof.
  intros s Hok Hm. unfold notFound_thread, handleNotFound, ended, write, mbind, HM_bind. simpl.
  destruct (Write _ _) as [err o]. eexists _, _, _. split_and!; [done| |done|done].
  unfold world_of. simpl. by rewrite lookup_insert_eq.
Qed.

Lemma alone_startTLS handshake rq : handler_sim
  (ended RExtended (startTLS_thread handshake rq (NewExtendedResponse rq [WithResponseCode ResultSuccess])))
  (handleStartTLS handshake rq).
Proof.
  intros s Hok Hm. unfold startTLS_thread, handleStartTLS, ended, write, mbind, HM_bind. simpl.
  destruct (Write _ _) as [[err|] o].
  { eexists _, _, _. split_and!; [done| |done|done]. unfold world_of. simpl. by rewrite lookup_insert_eq. }
  simpl. destruct (StartTLS handshake (server (base s))) as [err|]; simpl.
  - rewrite lookup_insert_eq. simpl. destruct (Write _ _) as [err' o'].
    eexists _, _, _. split_and!; [done| |done|done]. unfold world_of. simpl. by rewrite lookup_insert_eq.
  - eexists _, _, _. split_and!; [done| |done|done]. unfold world_of. simpl. by rewrite lookup_insert_eq.
Qed.

Lemma alone_searchUsers rq : handler_sim
  (ended RSearchDone (searchUsers_thread rq (NewSearchDoneResponse rq [WithResponseCode ResultNoSuchObject])))
  (handleSearchUsers rq).
Proof.
  apply handler_deferred. intros k Hk. apply body_of_sim; [done|].
  apply sim_message. intros m _. apply sim_getDir_r.
  apply sim_bind; [by apply (sim_find _ _ _ _ Wusers)|]. intros [[b ids] found].
  pose proof (sim_writeFound k [] rq found) as Hf. unfold writeFound in Hf.
  destruct found as [|e found]; simpl in *; exact Hf.
Qed.

Lemma alone_searchGroups rq : handler_sim
  (ended RSearchDone (searchGroups_thread rq (NewSearchDoneResponse rq [WithResponseCode ResultNoSuchObject])))
  (handleSearchGroups rq).
Proof.
  apply handler_deferred. intros k Hk. apply body_of_sim; [done|].
  apply sim_message. intros m _. apply sim_slice_l. apply sim_bind.
  { apply sim_getDir_r. by apply (sim_findMembersLoop _ _ _ _ _ _ (core_holds _ Wgroups Hk) _ 0). }
  intros [b found]. apply sim_slice_l, sim_getDir_r. apply sim_bind; [|intros found'; apply sim_writeFound].
  by apply (sim_appendNewMatching _ _ _ _ _ _ (core_holds _ Wgroups Hk) _ 0).
Qed.

Lemma alone_searchGeneric rq : handler_sim
  (ended RSearchDone (searchGeneric_thread rq (NewSearchDoneResponse rq [WithResponseCode ResultNoSuchObject])))
  (handleSearchGeneric rq).
Proof.
  apply handler_deferred. intros k Hk. apply body_of_sim; [done|].
  apply sim_message. intros m _. apply sim_base_l, sim_getDir_r. cbn zeta.
  change (tokenGroups (dir_of k)) with (tokenGroups (k_base k)).
  change (userDN (dir_of k)) with (userDN (k_base k)).
  destruct (_ && _).
  - apply sim_bind; [apply sim_writeEntries|]. intros [|]; [apply sim_res|apply sim_ret].
  - apply sim_slice_l. apply sim_bind.
    { by apply (sim_appendMatching _ _ _ _ _ _ (core_holds _ Wusers Hk) _ 0). }
    intros found. apply sim_slice_l. apply sim_bind; [|intros found'; apply sim_writeFound].
    by apply (sim_appendNewMatching _ _ _ _ _ _ (core_holds _ Wgroups Hk) _ 0).
Qed.

Lemma alone_modify rq : handler_sim
  (ended RGeneral (modify_thread rq (NewResponse rq [WithApplicationCode ApplicationModifyResponse;
                                                    WithResponseCode ResultNoSuchObject])))
  (handleModify rq).
Proof.
  unfold handleModify. rewrite modify_response. cbn [withMessage].
  apply handler_deferred. intros k Hk. apply body_of_sim; [done|].
  apply sim_message. intros m _. apply sim_getDir_r.
  apply sim_bind; [by apply (sim_find _ _ _ _ Wusers)|]. intros [[b ids] found].
  apply sim_bind.
  { case_decide; [by apply (sim_find _ _ _ _ Wgroups)|apply sim_ret]. }
  intros [[b' ids'] [|e [|e' found']]]; simpl; [apply sim_ret| |].
  - apply sim_locked. apply sim_bind; [apply sim_deref|]. intros o.
    apply sim_bind; [apply sim_res|]. intros []. apply sim_bind; [apply sim_applyChanges|].
    intros []. apply sim_res.
  - apply sim_bind; [apply sim_res|]. intros []. apply sim_res.
Qed.

Lemma alone_add extra rq : handler_sim
  (ended RGeneral (add_thread extra rq (NewResponse rq [WithApplicationCode ApplicationAddResponse;
                                                        WithResponseCode ResultOperationsError])))
  (handleAdd rq).
Proof.
  apply handler_deferred. intros k Hk. apply body_message; [done|]. intros m. apply body_getDir.
  apply body_bind; [done|by apply (sim_find _ _ _ _ Wusers)|]. intros [[[|] ids] found] _.
  { by apply body_res2. }
  apply body_bind; [done|apply sim_newEntry|]. intros e _.
  apply (body_change k Wusers (λ s, append_ extra s e) (users (dir_of k) ++ [e])); [done|].
  intros s r HA. destruct (run_append extra s r (k_users k) (listed (k_arrays k) (k_users k)) e)
    as (u' & A' & ? & ? & Hf & Hb); [rewrite HA; apply (core_holds k Wusers Hk)|].
  rewrite HA in Hf, Hb. exists u', A'. by split_and!.
Qed.

Lemma alone_delete rq : handler_sim
  (ended RGeneral (delete_thread rq (NewResponse rq [WithResponseCode ResultNoSuchObject;
                                                     WithApplicationCode ApplicationDelResponse])))
  (handleDelete rq).
Proof.
  apply handler_deferred. intros k Hk. apply body_message; [done|]. intros m. cbn zeta. apply body_getDir.
  apply body_bind; [done|by apply (sim_find _ _ _ _ Wusers)|].
  intros [[b [|j [|j' ids]]] found] (w & w' & Hf).
  - apply body_bind; [done|by apply (sim_find _ _ _ _ Wgroups)|].
    intros [[b' [|j [|j' ids]]] found'] (w1 & w1' & Hf').
    + by apply body_of_sim; [|apply sim_ret].
    + apply (body_delete k Wgroups j Hk). by eapply find_index.
    + by apply body_res2.
  - apply (body_delete k Wusers j Hk). by eapply find_index.
  - by apply body_res2.
Qed.

(** Every handler of the directory, run alone, does what Directory.v says. *)
Lemma thread_alone extra handshake h rq :
  handler_sim (thread_of extra handshake h rq) (dirHandle handshake h rq).
Proof.
  destruct h; unfold thread_of, dirHandle.
  - apply alone_notFound.
  - apply alone_bind.
  - apply alone_startTLS.
  - apply alone_searchUsers.
  - apply alone_searchGroups.
  - apply alone_searchGeneric.
  - apply alone_modify.
  - apply alone_add.
  - apply alone_delete.
Qed.
End sequential.
