(* ===== verification/DirSchedules.v ===== *)
(** The test directory under concurrent requests: what every interleaving of
    its handlers keeps, and what the ones that race for the users do. *)
From Stdlib Require Import Ascii.
From stdpp Require Import base decidable option list strings gmap relations.
From Stdlib Require Import ZArith Lia.
From S2P Require Import Prelude GoStd Ber BerModel Codes Options Control Packet Entry Attribute Parameters Message Response Request DirOptions Directory DirectorySpec DirectoryProps DirectoryMain DirThreads DirRely DirInterleave DirConcurrent DirSequential.
Import GoStrings.

Section interleavings.
Context `{BerOps}.
Variables (extra : nat → nat) (handshake : handle → option error).

Lemma pool_safe_from keep rs s p :
  good s → (∀ i c h r, rs !! i = Some (c, h, r) → h = HDelete → keep = false) →
  rtc pstep (start_pool extra handshake rs s) p →
  pool_safe good (frame keep) (request_ends rs keep) p.
Proof.
  intros Hs Hk Hp. eapply pool_safe_steps;
    [apply frame_refl|apply frame_trans|by apply start_pool_safe|done].
Qed.

Lemma lock_ok_from rs s p :
  mu s = None → rtc pstep (start_pool extra handshake rs s) p → lock_ok p.
Proof.
  intros Hm Hp. assert (lock_ok (start_pool extra handshake rs s)) as Hl by by apply start_pool_lock.
  revert Hl. induction Hp; eauto using lock_ok_step.
Qed.

Lemma ended_result keep rs p i c h r x :
  pool_safe good (frame keep) (request_ends rs keep) p → rs !! i = Some (c, h, r) →
  threads p !! i = Some (c, Ret x) → ends_well keep h r x (sh p).
Proof.
  intros Hp Hr Hi.
  destruct (pool_safe_result _ _ (λ j t, frame_refl keep j t) _ _ _ _ _ Hp Hi) as (c' & h' & r' & Hr' & He).
  by simplify_eq.
Qed.

(** C17. However the handlers of a directory are interleaved, no pointer they follow is nil and
    no index into [d.users] or [d.groups] is outside the array (there is no fatal error), and
    a handler that is done has returned; the only panic is that of a delete whose index,
    found before it took the lock, is out of range when it uses it. *)
Theorem interleaving_safe d m spare w rs p :
  dir_ok d m →
  rtc pstep (start_pool extra handshake rs (shared_of d m spare w)) p →
  good (sh p) ∧
  ∀ i c h r, rs !! i = Some (c, h, r) →
    match threads p !! i with
    | Some (c', Step o k) => exec o i c' (sh p) ≠ Fatal
    | Some (c', Ret (o, _)) => c' = c →
        o = Ok () ∨ h = HDelete ∧ o = Panic "slice bounds out of range"
    | None => True
    end.
Proof.
  intros Hd Hp. pose proof (pool_safe_from false rs _ p (good_shared_of d m spare w Hd)
    (λ _ _ _ _ _ _, eq_refl) Hp) as Hs.
  split; [apply Hs|]. intros i c h r Hr. destruct (threads p !! i) as [[c' [[o resp]|X o k]]|] eqn:Ei; [| |done].
  - intros ->. pose proof (ended_result _ _ _ _ _ _ _ _ Hs Hr Ei) as He.
    unfold ends_well in He. simpl in He. destruct o as [[]|e|w']; [by left|done|].
    destruct He as (_ & ? & ->). by right.
  - destruct Hs as [Hg Hs]. specialize (Hs i c' _ Ei (sh p) (frame_refl _ _ _) Hg).
    destruct (exec o i c' (sh p)); done.
Qed.

(** C18. As long as no handler deletes, every handler returns without a panic, and once an
    add has answered Success, a user with that DN is there, whatever the handlers that run
    meanwhile do. *)
Theorem interleaved_adds_kept d m spare w rs p i c h r o resp :
  dir_ok d m → Forall (λ x, x.1.2 ≠ HDelete) rs →
  rtc pstep (start_pool extra handshake rs (shared_of d m spare w)) p →
  rs !! i = Some (c, h, r) → threads p !! i = Some (c, Ret (o, resp)) →
  o = Ok () ∧
  ∀ a res, h = HAdd → GetAddMessage r = Ok a → resp = RGeneral res → code_of res = ResultSuccess →
    ∃ e, Some e ∈ visible (sh p) ∧ named (AddDN a) e (sh p).
Proof.
  intros Hd Hn Hp Hr Hi.
  assert (pool_safe good (frame true) (request_ends rs true) p) as Hs.
  { eapply pool_safe_from; [by apply good_shared_of| |done]. intros j c' h' r' Hj ->.
    by apply (Forall_lookup_1 _ _ _ _ Hn) in Hj. }
  pose proof (ended_result _ _ _ _ _ _ _ _ Hs Hr Hi) as He. unfold ends_well in He. simpl in He.
  destruct o as [[]|e|w']; [|done|by destruct He]. split; [done|].
  intros a res -> Ha -> Hc. by apply (He eq_refl a res).
Qed.

(** C19. Concurrent handlers cannot run forever and cannot block each other for good: there
    is no infinite interleaving, and in one that cannot go on every handler is done. *)
Theorem interleaved_handlers_end d m spare w rs :
  dir_ok d m →
  Acc (flip pstep) (start_pool extra handshake rs (shared_of d m spare w)) ∧
  ∀ p, rtc pstep (start_pool extra handshake rs (shared_of d m spare w)) p →
    (∀ p', ¬ pstep p p') → ∀ i c q, threads p !! i = Some (c, q) → ∃ x, q = Ret x.
Proof.
  intros Hd. split; [apply pool_Acc|]. intros p Hp Hst i c [x|X o k] Hi; [by exists x|].
  exfalso. destruct (lock_progress (request_ends rs false) false p i c X o k) as [p' Hp'].
  - eapply pool_safe_from; [by apply good_shared_of|done|done].
  - by eapply (lock_ok_from rs (shared_of d m spare w)).
  - done.
  - by apply (Hst p').
Qed.
End interleavings.

(** C20. A handler that runs while the others pause does in the threads' model, operation by
    operation and with whatever capacity [append] gives, what the handler of the sequential
    model does in one step: it ends the same way, with the same users, groups, entries and
    output. *)
Theorem handler_alone_refines `{BerOps} extra handshake h r i c ths s :
  core_ok (core_of s) → mu s = None → ths !! i = Some (c, thread_of extra handshake h r) →
  ∃ o resp s',
    rtc pstep (mkPool ths s) (mkPool (<[i := (c, Ret (o, resp))]> ths) s') ∧
    dirHandle handshake h r (world_of c s ()) = (o, world_of c s' ()) ∧
    core_ok (core_of s') ∧ mu s' = None.
Proof.
  intros Hok Hm Hi. destruct (thread_alone i c extra handshake h r s Hok Hm)
    as (o & resp & s' & Hr & Hh & ? & ?).
  exists o, resp, s'. split_and!; [by eapply run_steps|done..].
Qed.

(** The worlds of the two models. *)
Lemma shared_of_core d m spare w :
  core_ok (core_of (shared_of d m spare w)) ∧ dir_of (core_of (shared_of d m spare w)) = d.
Proof.
  assert (∀ a l A, A !! a = Some ((Some <$> l) ++ replicate spare None) →
    holds A (mkSlice a (length l) (length l + spare)) l) as Hh.
  { intros a l A Ha. eexists. split; [done|]. simpl.
    rewrite length_app, length_fmap, length_replicate. split_and!; [done|lia|].
    apply take_app_length'. by rewrite length_fmap. }
  assert (holds (arrays (shared_of d m spare w)) (s_users (shared_of d m spare w)) (users d)) as Hu
    by by apply Hh.
  assert (holds (arrays (shared_of d m spare w)) (s_groups (shared_of d m spare w)) (groups d)) as Hg
    by by apply Hh.
  split; [by split; [eexists..|]|]. unfold dir_of.
  destruct (holds_listed _ _ _ Hu) as [Eu _], (holds_listed _ _ _ Hg) as [Eg _].
  cbn [k_arrays k_users k_groups k_base core_of]. rewrite Eu, Eg. by destruct d.
Qed.

(** ** Races *)

Lemma schedule_steps `{BerOps} l p p' : schedule l p = Some p' → rtc pstep p p'.
Proof.
  revert p. induction l as [|i l IH]; simpl; intros p; [by intros [= <-]|].
  destruct (thread_step i p) as [q|] eqn:E; simpl; [|done]. intros Hq.
  eapply rtc_l; [by apply (pstep_intro i)|by apply IH].
Qed.

(** The DNs of the users there are. *)
Definition user_names (s : shared) : list string :=
  omap (λ e, e ← e; obj_DN <$> entries (heap s) !! e) (visible s).
(** How the threads that are done ended: without a panic, and with which code. *)
Definition results (p : pool) : list (option (outcome unit * Z)) :=
  (λ x, match x.2 with
        | Ret (o, RGeneral r) => Some (o, code_of r)
        | _ => None
        end) <$> threads p.

(** Two requests of one kind to the example directory, whose users are alice and bob, on
    connections of their own. *)
Definition race (h : dirHandler) (m : Message) : pool :=
  start_pool (λ _, 0%nat) (λ _, None)
    [(0%nat, h, example_request m); (1%nat, h, example_request m)]
    (shared_of example_dir example_store 1 ∅).
(** Both look for the entry; then the first thread ends, then the second. *)
Definition both_find (a b : nat) : list nat :=
  replicate 5 0%nat ++ replicate 5 1%nat ++ replicate a 0%nat ++ replicate b 1%nat.
Definition alice_dn : string := "cn=alice,ou=people,dc=example,dc=org".
Definition delete_of (dn : string) : Message := MDelete (mkDeleteMessage 7 dn []).

(** Where a schedule leads. *)
Definition scheduled `{BerOps} (l : list nat) (p : pool) : pool := default p (schedule l p).

Lemma scheduled_steps `{BerOps} l p : bool_decide (is_Some (schedule l p)) = true →
  rtc pstep p (scheduled l p).
Proof.
  intros [p' Hp]%bool_decide_eq_true. apply (schedule_steps l). unfold scheduled. by rewrite Hp.
Qed.

(** C39. Two concurrent requests to delete the same user can delete another user as well:
    both find alice at index 0 before either takes the lock, and both answer Success, but
    the second one has deleted bob. *)
Theorem concurrent_deletes_wrong_user :
  ∃ p, rtc (@pstep ber_model) (race HDelete (delete_of alice_dn)) p ∧
    user_names (sh (race HDelete (delete_of alice_dn))) = [alice_dn; bob_dn] ∧
    results p = [Some (Ok (), ResultSuccess); Some (Ok (), ResultSuccess)] ∧
    user_names (sh p) = [].
Proof.
  exists (@scheduled ber_model (both_find 7 5) (race HDelete (delete_of alice_dn))).
  split; [apply scheduled_steps|]; by vm_compute.
Qed.

(** Two concurrent requests to delete the last user can panic: the second one slices
    [d.users] beyond its length; its deferred response still goes out. *)
Theorem concurrent_deletes_panic :
  ∃ p, rtc (@pstep ber_model) (race HDelete (delete_of bob_dn)) p ∧
    results p = [Some (Ok (), ResultSuccess);
                 Some (Panic "slice bounds out of range", ResultNoSuchObject)].
Proof.
  exists (@scheduled ber_model (both_find 5 4) (race HDelete (delete_of bob_dn))).
  split; [apply scheduled_steps|]; by vm_compute.
Qed.

(** Two concurrent requests to add the same user can both succeed: each looks for the
    DN before it takes the lock. *)
Theorem concurrent_adds_duplicate :
  ∃ p, rtc (@pstep ber_model) (race HAdd add_eve) p ∧
    results p = [Some (Ok (), ResultSuccess); Some (Ok (), ResultSuccess)] ∧
    user_names (sh p) = [alice_dn; bob_dn; eve_dn; eve_dn].
Proof.
  exists (@scheduled ber_model (both_find 7 10) (race HAdd add_eve)).
  split; [apply scheduled_steps|]; by vm_compute.
Qed.

(** ** Witnesses *)

Definition two_adds : list (nat * dirHandler * Request) :=
  [(0%nat, HAdd, example_request add_eve); (1%nat, HAdd, example_request add_eve)].

Lemma interleaving_safe_witness :
  good (sh (@scheduled ber_model (both_find 5 4) (race HDelete (delete_of bob_dn)))).
Proof.
  apply (@interleaving_safe ber_model (λ _, 0%nat) (λ _, None) example_dir example_store 1 ∅
    [(0%nat, HDelete, example_request (delete_of bob_dn));
     (1%nat, HDelete, example_request (delete_of bob_dn))]).
  - apply example_ok.
  - apply scheduled_steps. by vm_compute.
Defined.

Lemma interleaved_adds_kept_witness :
  let p := @scheduled ber_model (both_find 7 10) (race HAdd add_eve) in
  ∃ e, Some e ∈ visible (sh p) ∧ named eve_dn e (sh p).
Proof.
  intros p. destruct (threads p !! 0%nat) as [[c [[o resp]|]]|] eqn:E; [|exfalso; vm_compute in E..].
  2,3: discriminate E.
  assert (c = 0%nat ∧ ∃ res, resp = RGeneral res ∧ code_of res = ResultSuccess) as (-> & res & -> & Hc).
  { clear -E. vm_compute in E. injection E as <- <- <-. split; [done|]. eexists. by split. }
  destruct (@interleaved_adds_kept ber_model (λ _, 0%nat) (λ _, None) example_dir example_store 1 ∅
    two_adds p 0 0 HAdd (example_request add_eve) o (RGeneral res)) as [_ Ha].
  - apply example_ok.
  - by repeat constructor.
  - apply scheduled_steps. by vm_compute.
  - done.
  - done.
  - by apply (Ha (mkAddMessage 7 eve_dn [mkAttribute "password" ["secret"]] []) res).
Defined.

Lemma interleaved_handlers_end_witness :
  Acc (flip (@pstep ber_model)) (race HAdd add_eve).
Proof.
  apply (@interleaved_handlers_end ber_model (λ _, 0%nat) (λ _, None) example_dir example_store 1 ∅ two_adds).
  apply example_ok.
Defined.

Lemma handler_alone_refines_witness :
  ∃ o resp s',
    rtc (@pstep ber_model) (race HAdd add_eve)
      (mkPool (<[0%nat := (0%nat, Ret (o, resp))]> (threads (race HAdd add_eve))) s') ∧
    @dirHandle ber_model (λ _, None) HAdd (example_request add_eve)
      (mkWorld example_dir example_store (idle_writer "") ()) = (o, world_of 0 s' ()).
Proof.
  destruct (@handler_alone_refines ber_model (λ _, 0%nat) (λ _, None) HAdd (example_request add_eve)
    0 0 (threads (race HAdd add_eve)) (shared_of example_dir example_store 1 ∅))
    as (o & resp & s' & Hs & Hd & _).
  - apply shared_of_core.
  - done.
  - done.
  - exists o, resp, s'. split; [exact Hs|]. rewrite <-Hd. by f_equal.
Defined.
