(* ===== verification/DirSession.v ===== *)
(** Whole sessions: a client that sends requests without waiting for their
    answers, the connection of [conn.go] that reads them and starts a goroutine
    for each, and the test directory whose handlers those goroutines run.

    A session is the connection (Conn.v), the handlers of its requests as threads
    with what they share (DirThreads.v), and the input that is left.  What happens
    next is one of: the loop reads a request, or the end of the input; a goroutine
    calls its handler; the handler of a goroutine, or the StartTLS handler that the
    loop runs itself, makes one operation; a handler returns or panics; a
    goroutine runs its deferred [Done]; the connection is closed.  So the operations of the
    handlers of a connection interleave as its goroutines do.  What a handler writes goes
    to the writer that its goroutine got when it was started, and a StartTLS
    whose handshake succeeds gives the connection a new one.

    What [ber.ReadPacket] returns is what the BER library decodes of the next
    request of the input, read from the connection or, after StartTLS, from the TLS
    connection; and at the end of the input an end of file.  The network
    does not fail and the server is not stopped; both are in Conn.v. *)
From Stdlib Require Import Ascii.
From stdpp Require Import base decidable option list strings gmap relations.
From Stdlib Require Import ZArith Lia Wellfounded Relation_Operators.
From S2P Require Import Prelude GoStd Ber BerModel Codes Options Control Packet Entry Attribute Parameters Message MessageWire Response ResponseWire Request Testing Mux Conn Server DirOptions Directory DirectorySpec DirectoryProps DirectoryMain DirDatabase DirRefines DirWire DirThreads DirRely DirInterleave DirConcurrent DirAnswers DirSequential DirSchedules.
Import GoStrings.

(** ** Sessions *)

Record session : Type := mkSession {
  s_conn : connState;
  s_threads : list (nat * prog (outcome unit * Response));
  s_shared : shared;
  s_input : list string;
}.

(** The thread of a request: the requests of a connection are numbered from 1. *)
Definition slot (r : Request) : nat := Z.to_nat (ID r - 1).

(** What happens next; [j] is the place of a goroutine among those in flight. *)
Inductive event : Type :=
| ERead (eof : error)
| ECall (j : nat)
| EOp (j : nat)
| EReturn (j : nat)
| EDone (j : nat)
| EMainOp
| EMainReturn
| EClose (err : option error).

Definition end_of_file (e : error) : bool :=
  errors_Is_io e EOF || errors_Is_io e ErrUnexpectedEOF.

Section session.
Context {BO : BerOps} {LO : LdapOps} {FO : Folding}.
Variables (extra : nat → nat) (handshake : handle → option error).
Variable c : conn.

(** The handler that the multiplexer gives a request, as a thread. *)
Definition program (r : Request) : prog (outcome unit * Response) :=
  let none := Ret (Ok (), RGeneral (NewResponse r [])) in
  match serve (router c) (Some r) with
  | Ok (CallHandler f) =>
      match handlerAt f with Some h => thread_of extra handshake h r | None => none end
  | _ => none
  end.

(** The threads of the requests that an iteration received: not of an unbind, for
    which the directory has no handler. *)
Definition spawned (s s' : connState) : list (nat * prog (outcome unit * Response)) :=
  (λ r, (current s, program r)) <$>
    filter (λ r, routeOp r ≠ unbindRouteOperation) (drop (length (received s)) (received s')).

(** One operation of thread [k], whose goroutine has writer [i]: a [Write] is one on
    the connection, the others are on what the handlers share. *)
Definition sess_exec {X} (o : op X) (k i : nat) (s : connState) (sh : shared)
    : option (X * connState * shared) :=
  match o in op X return option (X * connState * shared) with
  | OWrite r => let '(err, s) := writeOn i r s in Some (err, s, sh)
  | o => match exec o k i sh with Done x sh => Some (x, s, sh) | _ => None end
  end.

Definition sess_op (k i : nat) (σ : session) : option session :=
  match s_threads σ !! k with
  | Some (j, Step o kont) =>
      '(x, s, sh) ← sess_exec o k i (s_conn σ) (s_shared σ);
      Some (mkSession s (<[k := (j, kont x)]> (s_threads σ)) sh (s_input σ))
  | _ => None
  end.

(** The connection changes, and nothing else. *)
Definition set_conn (s : connState) (σ : session) : session :=
  mkSession s (s_threads σ) (s_shared σ) (s_input σ).

(** What the loop reads: the next request, or the end of the input. *)
Definition sess_read (eof : error) (σ : session) : option session :=
  let s := s_conn σ in
  let go r input :=
    let s' := iteration c None r s in
    Some (mkSession s' (s_threads σ ++ spawned s s') (s_shared σ) input) in
  match s_input σ with
  | [] => if end_of_file eof then go (inr eof) [] else None
  | b :: input =>
      match ber_DecodePacketErr b with
      | Ok P => go (inl P) input
      | Err e => go (inr e) input
      | Panic _ => None
      end
  end.

(** [conn.go:135-140] The goroutine of a request calls [serve] *)
Definition sess_call (j : nat) (σ : session) : option session :=
  let s := s_conn σ in
  match inflight s !! j with
  | Some (mkThread r i Started) =>
      let status st := with_inflight (<[j := mkThread r i st]> (inflight s)) s in
      match serveOn (router c) r with
      | Ok (CallHandler f) => Some (set_conn (with_called f r (status (InHandler f))) σ)
      | Ok (WriteResponse res) => Some (set_conn (snd (writeOn i res (status Leaving))) σ)
      | Ok LogOnly => Some (set_conn (status Leaving) σ)
      | Err _ => None
      | Panic w => Some (set_conn (with_crash s) σ)
      end
  | _ => None
  end.

(** The handler of a goroutine returns, or panics, which ends the process. *)
Definition sess_return (j : nat) (σ : session) : option session :=
  let s := s_conn σ in
  match inflight s !! j with
  | Some (mkThread r i (InHandler f)) =>
      match s_threads σ !! slot r with
      | Some (_, Ret (Panic w, _)) => Some (set_conn (with_crash s) σ)
      | Some (_, Ret _) =>
          Some (set_conn (with_inflight (<[j := mkThread r i Leaving]> (inflight s)) s) σ)
      | _ => None
      end
  | _ => None
  end.

(** [conn.go:136-139] The deferred [requestsWg.Done()] of a goroutine, with which it ends *)
Definition sess_done (j : nat) (σ : session) : option session :=
  let s := s_conn σ in
  match inflight s !! j with
  | Some (mkThread r i Leaving) =>
      match wg_add (-1) (requestsWg s) with
      | Ok n => Some (set_conn (with_requestsWg n (with_inflight (delete j (inflight s)) s)) σ)
      | Err _ => None
      | Panic w => Some (set_conn (with_crash s) σ)
      end
  | _ => None
  end.

(** Whether the handler the loop ran is the one of StartTLS, wrote its first response and had a
    successful handshake. *)
Definition tls_started (t : thread) (σ : session) : bool :=
  match t_status t with
  | InHandler f =>
      match handlerAt f, StartTLS handshake (server (base (s_shared σ))),
            writers (s_conn σ) !! t_writer t with
      | Some HStartTLS, None, Some w => match werr w with None => true | Some _ => false end
      | _, _, _ => false
      end
  | _ => false
  end.

(** [conn.go:131-132] The StartTLS handler that the loop runs returns, or panics; a StartTLS with
    a successful handshake, after which the handler does nothing more, gives the connection its
    new writer here *)
Definition sess_main_return (σ : session) : option session :=
  let s := s_conn σ in
  match loop s with
  | MainHandler t stop =>
      match s_threads σ !! slot (t_req t) with
      | Some (_, Ret (Panic w, _)) => Some (set_conn (with_loop (Panicked w) s) σ)
      | Some (_, Ret _) =>
          let s := if tls_started t σ
                   then match startTLS s with Ok s' => s' | _ => s end else s in
          Some (set_conn (with_loop (if stop : bool then Returned None else Serving) s) σ)
      | _ => None
      end
  | _ => None
  end.

Definition sess_do (ev : event) (σ : session) : option session :=
  let s := s_conn σ in
  if crashed s then None else
  match ev with
  | ERead eof => match loop s with Serving => sess_read eof σ | _ => None end
  | ECall j => sess_call j σ
  | EOp j =>
      match inflight s !! j with
      | Some (mkThread r i (InHandler f)) => sess_op (slot r) i σ
      | _ => None
      end
  | EReturn j => sess_return j σ
  | EDone j => sess_done j σ
  | EMainOp =>
      match loop s with
      | MainHandler t _ => sess_op (slot (t_req t)) (t_writer t) σ
      | _ => None
      end
  | EMainReturn => sess_main_return σ
  | EClose err =>
      match loop s with
      | Returned _ | Panicked _ => '(s, _) ← conn_close err s; Some (set_conn s σ)
      | _ => None
      end
  end.

Definition sess_step (σ σ' : session) : Prop := ∃ ev, sess_do ev σ = Some σ'.

(** Events one after the other. *)
Fixpoint sess_run (evs : list event) (σ : session) : option session :=
  match evs with
  | [] => Some σ
  | ev :: evs => σ ← sess_do ev σ; sess_run evs σ
  end.

Lemma sess_run_steps evs σ σ' : sess_run evs σ = Some σ' → rtc sess_step σ σ'.
Proof.
  revert σ. induction evs as [|ev evs IH]; simpl; intros σ; [by intros [= <-]|].
  destruct (sess_do ev σ) as [σ1|] eqn:E; [|done]. intros Hr. eapply rtc_l; [by exists ev|by apply IH].
Qed.

(** ** A session is a run of its connection *)

Lemma sess_exec_conn {X} (o : op X) k i s sh x s' sh' :
  sess_exec o k i s sh = Some (x, s', sh') →
  base sh' = base sh ∧ s' = match says o with r :: _ => snd (writeOn i r s) | [] => s end.
Proof.
  destruct o as [|y|y z|a j|a j v|l|e|e l|a|a v|v|v| | |r]; simpl; intros He;
    repeat case_match; simplify_eq/=; try done; by destruct y.
Qed.

(** A goroutine in the list of those in flight. *)
Lemma inflight_split s j t : inflight s !! j = Some t →
  has_thread s (take j (inflight s)) t (drop (S j) (inflight s)) ∧
  (∀ t', <[j := t']> (inflight s) = take j (inflight s) ++ t' :: drop (S j) (inflight s)) ∧
  delete j (inflight s) = take j (inflight s) ++ drop (S j) (inflight s).
Proof.
  intros Hj. split_and!.
  - unfold has_thread. by rewrite take_drop_middle.
  - intros t'. apply insert_take_drop. by eapply lookup_lt_Some.
  - apply delete_take_drop.
Qed.

Lemma sess_op_conn k i σ σ' :
  sess_op k i σ = Some σ' → s_input σ' = s_input σ ∧
  (s_conn σ' = s_conn σ ∨ ∃ r, s_conn σ' = snd (writeOn i r (s_conn σ))) ∧
  threads_less (s_threads σ') (s_threads σ).
Proof.
  unfold sess_op. destruct (s_threads σ !! k) as [[j [a|X o kont]]|] eqn:Ek; [done| |done].
  destruct (sess_exec o k i (s_conn σ) (s_shared σ)) as [[[x s] sh]|] eqn:E; simpl; [|done].
  intros [= <-]. simpl. split; [done|]. apply sess_exec_conn in E as [_ ->]. split.
  - destruct (says o); eauto.
  - exists k, (j, Step o kont), (j, kont x). split_and!; [done|by exists x|done].
Qed.

(** Each step of a session is one of its connection, or of nobody but the handlers. *)
Lemma sess_goroutine_conn ev σ σ' :
  crashed (s_conn σ) = false → sess_do ev σ = Some σ' →
  match ev with
  | ECall _ | EOp _ | EReturn _ | EDone _ => rtc (Conn.step c) (s_conn σ) (s_conn σ')
  | _ => True
  end.
Proof.
  unfold sess_do. intros Hc. rewrite Hc. set (s := s_conn σ) in *.
  destruct ev as [eof|j|j|j|j| | |err]; try done;
    unfold sess_call, sess_return, sess_done; fold s; destruct (inflight s !! j) as [[r i st]|] eqn:Ej; try done;
    destruct (inflight_split s j _ Ej) as (Ht & Hi & Hd); destruct st as [|f|]; try done.
  - destruct (serveOn (router c) r) as [[f|res|]|e|w] eqn:Es; try done; intros [= <-]; simpl;
      rewrite ?Hi; apply rtc_once.
    + by apply Conn.step_start_call.
    + by apply Conn.step_start_refuse.
    + by apply Conn.step_start_log.
    + by eapply Conn.step_start_panic.
  - intros (_ & [->|[res ->]] & _)%sess_op_conn; [done|]. apply rtc_once. by eapply Conn.step_write.
  - destruct (s_threads σ !! slot r) as [[? [[[?|?|?] ?]|? ? ?]]|]; try done; intros [= <-]; simpl;
      rewrite ?Hi; apply rtc_once; by eapply Conn.step_return || by eapply Conn.step_panic.
  - destruct (wg_add (-1) (requestsWg s)) as [n|e|w] eqn:Ew; try done; intros [= <-]; simpl;
      rewrite ?Hd; apply rtc_once; by eapply Conn.step_done || by eapply Conn.step_done_panic.
Qed.

Lemma sess_do_conn ev σ σ' :
  sess_do ev σ = Some σ' → rtc (Conn.step c) (s_conn σ) (s_conn σ').
Proof.
  intros Hdo. assert (crashed (s_conn σ) = false) as Hc.
  { unfold sess_do in Hdo. by destruct (crashed (s_conn σ)). }
  pose proof (sess_goroutine_conn ev σ σ' Hc Hdo) as Hg.
  unfold sess_do in Hdo. rewrite Hc in Hdo. set (s := s_conn σ) in *.
  destruct ev as [eof|j|j|j|j| | |err]; try exact Hg; clear Hg.
  - destruct (loop s) eqn:Hl; try done. unfold sess_read in Hdo. fold s in Hdo.
    destruct (s_input σ) as [|b input]; [destruct (end_of_file eof)|destruct (ber_DecodePacketErr b)];
      try done; injection Hdo as <-; simpl; by apply rtc_once, Conn.step_iterate.
  - destruct (loop s) as [|t stop| | |] eqn:Hl; try done.
    apply sess_op_conn in Hdo as (_ & [->|[res ->]] & _); [done|]. apply rtc_once. by eapply Conn.step_main_write.
  - unfold sess_main_return in Hdo. fold s in Hdo. destruct (loop s) as [|t stop| | |] eqn:Hl; try done.
    assert (rtc (Conn.step c) s (with_loop (if stop : bool then Returned None else Serving)
      (if tls_started t σ then match startTLS s with Ok s' => s' | _ => s end else s))) as Hr.
    { destruct (tls_started t σ); [|by apply rtc_once; eapply Conn.step_main_return].
      eapply rtc_l; [by eapply Conn.step_main_startTLS|]. apply rtc_once. by eapply Conn.step_main_return. }
    destruct (s_threads σ !! slot (t_req t)) as [[? [[[?|?|?] ?]|? ? ?]]|]; try done; injection Hdo as <-; try exact Hr.
    apply rtc_once. by eapply Conn.step_main_panic.
  - destruct (loop s) as [| |e|w|] eqn:Hl; try done;
      destruct (conn_close err s) as [[s' e']|] eqn:Ec; try done; injection Hdo as <-;
      apply rtc_once; eapply Conn.step_close; eauto.
Qed.

(** ** Sessions end *)

(** What is left to read and for the loop to do; for the goroutines to do beside the
    operations of their handlers. *)
Definition loop_measure (s : connState) : nat :=
  match loop s with
  | MainHandler _ _ => 4
  | Serving => 3
  | Returned _ | Panicked _ => 2
  | Closed => 1
  end.
Definition read_measure (σ : session) : nat :=
  if crashed (s_conn σ) then 0 else 2 * length (s_input σ) + loop_measure (s_conn σ).
Definition status_measure (t : thread) : nat :=
  match t_status t with Started => 3 | InHandler _ => 2 | Leaving => 1 end.
Definition goroutine_measure (s : connState) : nat := sum_list_with status_measure (inflight s).

(** Something is read or the loop goes on, or else a handler makes an operation, or else a
    goroutine goes on. *)
Definition sess_less : relation (nat * (list (nat * prog (outcome unit * Response)) * nat)) :=
  slexprod _ _ lt (slexprod _ _ threads_less lt).
Definition sess_size (σ : session) : nat * (list (nat * prog (outcome unit * Response)) * nat) :=
  (read_measure σ, (s_threads σ, goroutine_measure (s_conn σ))).

Lemma loop_measure_bounds s : (1 ≤ loop_measure s ≤ 4)%nat.
Proof. unfold loop_measure. destruct (loop s); lia. Qed.

Lemma goroutine_moves s j t t' :
  inflight s !! j = Some t → (status_measure t' < status_measure t)%nat →
  (sum_list_with status_measure (<[j := t']> (inflight s)) < goroutine_measure s)%nat.
Proof.
  intros Hj Hlt. destruct (inflight_split s j t Hj) as (Ht & -> & _). unfold goroutine_measure.
  unfold has_thread in Ht. rewrite Ht at 3. rewrite !sum_list_with_app. simpl. lia.
Qed.

(** The loop returns when it cannot read a request. *)
Lemma readRequest_error id e : ∃ e', readRequest c id (inr e) = Err e'.
Proof. unfold readRequest, readPacket. simpl. destruct (Contains _ _); simpl; by eexists. Qed.

Lemma iteration_returns r s e :
  readRequest c (go_int (lastID s + 1)) r = Err e →
  ∃ err, iteration c None r s =
    with_loop (Returned err) (with_lastID (go_int (lastID s + 1)) s).
Proof.
  intros He. unfold iteration. simpl. case_decide; [by eexists|]. case_decide; [by eexists|].
  unfold afterRead, nextRequest. simpl. rewrite He. destruct (_ || _); by eexists.
Qed.

(** The steps that do not read. *)
Lemma sess_less_read σ σ' :
  crashed (s_conn σ) = false →
  (crashed (s_conn σ') = true ∨
   (2 * length (s_input σ') + loop_measure (s_conn σ') < 2 * length (s_input σ) + loop_measure (s_conn σ))%nat) →
  sess_less (sess_size σ') (sess_size σ).
Proof.
  intros Hc Hl. left. unfold read_measure. rewrite Hc.
  pose proof (loop_measure_bounds (s_conn σ)). destruct (crashed (s_conn σ')); [lia|].
  destruct Hl as [?|?]; [done|lia].
Qed.

Lemma sess_less_goroutine σ s' :
  crashed (s_conn σ) = false → crashed s' = false → loop s' = loop (s_conn σ) →
  (goroutine_measure s' < goroutine_measure (s_conn σ))%nat →
  sess_less (sess_size (set_conn s' σ)) (sess_size σ).
Proof.
  intros Hc Hc' Hl Hg. unfold sess_size, read_measure, loop_measure. simpl.
  rewrite Hc, Hc', Hl. by do 2 right.
Qed.

Lemma sess_less_op k i σ σ' :
  crashed (s_conn σ) = false → sess_op k i σ = Some σ' → sess_less (sess_size σ') (sess_size σ).
Proof.
  intros Hc (Hi & Hs & Ht)%sess_op_conn.
  assert (read_measure σ' = read_measure σ) as Hr.
  { unfold read_measure, loop_measure. rewrite Hi. destruct Hs as [->|[r ->]]; [done|].
    by destruct (writeOn_fields i r (s_conn σ)) as (_ & _ & -> & -> & _). }
  unfold sess_size. rewrite Hr. right. by left.
Qed.

Lemma sess_less_goroutines ev σ σ' :
  crashed (s_conn σ) = false → sess_do ev σ = Some σ' →
  match ev with
  | ECall _ | EOp _ | EReturn _ | EDone _ => sess_less (sess_size σ') (sess_size σ)
  | _ => True
  end.
Proof.
  unfold sess_do. intros Hc. rewrite Hc. destruct ev as [eof|j|j|j|j| | |err]; try done;
    unfold sess_call, sess_return, sess_done; destruct (inflight (s_conn σ) !! j) as [[r i st]|] eqn:Ej; try done;
    destruct st as [|f|]; try done.
  - destruct (serveOn (router c) r) as [[f|res|]|e|w]; try done; intros [= <-].
    + apply sess_less_goroutine; [done..|]. eapply goroutine_moves; [done|]. unfold status_measure. simpl. lia.
    + set (s1 := with_inflight _ _). destruct (writeOn_fields i res s1) as (_ & Hi & Hl & Hc' & _).
      apply sess_less_goroutine; [done|by rewrite Hc'|by rewrite Hl|]. unfold goroutine_measure at 1. rewrite Hi.
      eapply goroutine_moves; [done|]. unfold status_measure. simpl. lia.
    + apply sess_less_goroutine; [done..|]. eapply goroutine_moves; [done|]. unfold status_measure. simpl. lia.
    + apply sess_less_read; [done|by left].
  - intros Hop. by eapply sess_less_op.
  - destruct (s_threads σ !! slot r) as [[? [[[?|?|?] ?]|? ? ?]]|]; try done; intros [= <-];
      try (apply sess_less_goroutine; [done..|]; eapply goroutine_moves; [done|]; unfold status_measure; simpl; lia).
    apply sess_less_read; [done|by left].
  - destruct (wg_add (-1) _) as [n|e|w]; try done; intros [= <-]; [|apply sess_less_read; [done|by left]].
    apply sess_less_goroutine; [done..|]. unfold goroutine_measure. simpl.
    destruct (inflight_split _ j _ Ej) as (Ht & _ & ->). unfold has_thread in Ht. rewrite Ht at 3.
    rewrite !sum_list_with_app. cbn [sum_list_with].
    change (status_measure (mkThread r i Leaving)) with 1%nat. lia.
Qed.

Lemma sess_do_less ev σ σ' : sess_do ev σ = Some σ' → sess_less (sess_size σ') (sess_size σ).
Proof.
  intros Hdo. assert (crashed (s_conn σ) = false) as Hc.
  { unfold sess_do in Hdo. by destruct (crashed (s_conn σ)). }
  pose proof (sess_less_goroutines ev σ σ' Hc Hdo) as Hg.
  unfold sess_do in Hdo. rewrite Hc in Hdo.
  destruct ev as [eof|j|j|j|j| | |err]; try exact Hg; clear Hg.
  - destruct (loop (s_conn σ)) eqn:Hl; try done. unfold sess_read in Hdo. apply sess_less_read; [done|]. right.
    unfold loop_measure at 2. rewrite Hl. destruct (s_input σ) as [|b input].
    + destruct (end_of_file eof) eqn:He; [|done]. injection Hdo as <-. simpl.
      destruct (readRequest_error (go_int (lastID (s_conn σ) + 1)) eof) as [e Hr].
      destruct (iteration_returns _ _ _ Hr) as [err ->]. unfold loop_measure. simpl. lia.
    + destruct (ber_DecodePacketErr b) as [P|e|w]; try done; injection Hdo as <-; simpl;
        match goal with |- context [loop_measure ?s] => pose proof (loop_measure_bounds s) end; lia.
  - destruct (loop (s_conn σ)); try done. by eapply sess_less_op.
  - unfold sess_main_return in Hdo. destruct (loop (s_conn σ)) as [|t stop| | |] eqn:Hl; try done.
    assert (∀ s', loop_measure (with_loop (if stop : bool then Returned None else Serving) s') < 4)%nat as Hs
      by (intros; unfold loop_measure; simpl; destruct stop; lia).
    destruct (s_threads σ !! slot (t_req t)) as [[? [[[?|?|?] ?]|? ? ?]]|]; try done; injection Hdo as <-;
      (apply sess_less_read; [done|right]); simpl; unfold loop_measure at 2; rewrite Hl;
      apply Nat.add_lt_mono_l; try apply Hs.
    unfold loop_measure. simpl. lia.
  - destruct (loop (s_conn σ)) as [| |e|w|] eqn:Hl; try done;
      destruct (conn_close err (s_conn σ)) as [[s' e']|] eqn:Ec; try done; injection Hdo as <-;
      apply conn_close_Some in Ec as [_ ->]; (apply sess_less_read; [done|right]); simpl;
      unfold loop_measure; simpl; rewrite Hl; lia.
Qed.

Lemma session_sn σ : sn sess_step σ.
Proof.
  apply (wf_projected (R1 := flip sess_step) sess_less sess_size).
  - intros σ' σ0 [ev Hev]. by eapply sess_do_less.
  - apply wf_slexprod; [apply lt_wf|]. apply wf_slexprod; [apply threads_less_wf|apply lt_wf].
Qed.

(** ** What the client sends *)

(** The bytes of a request that carry a message. *)
Definition carries (request : string) (m : Message) : Prop :=
  ∃ P q, ber_DecodePacketErr request = Ok P ∧ newMessage (mkpacket P false) = Ok (m, q).

(** Bytes that are no request: the BER library or the connection refuses them. *)
Definition unreadable (request : string) : Prop :=
  match ber_DecodePacketErr request with
  | Ok P => ∀ id, ∃ e, readRequest c id (inl P) = Err e
  | Err _ => True
  | Panic _ => False
  end.

Definition is_unbind (m : Message) : bool :=
  match m with MUnbind _ => true | _ => false end.
Definition is_startTLS (m : Message) : bool :=
  match m with MExtended m => bool_decide (ExtendedName m = ExtendedOperationStartTLS) | _ => false end.

(** A client's input with the messages [ms]: it ends after them, or they are
    followed by an unbind or by something that is no request, with anything after it. *)
Inductive conversation : list Message → list string → Prop :=
| conversation_end : conversation [] []
| conversation_unbind b m rest : carries b (MUnbind m) → conversation [] (b :: rest)
| conversation_unreadable b rest : unreadable b → conversation [] (b :: rest)
| conversation_request b m ms input :
    carries b m → is_unbind m = false → conversation ms input → conversation (m :: ms) (b :: input).

(** The requests that the connection makes of them. *)
Definition requests (ms : list Message) : list Request :=
  imap (λ i m, arrived c (Z.of_nat i + 1) m) ms.

Lemma requests_lookup ms k r :
  requests ms !! k = Some r ↔ ∃ m, ms !! k = Some m ∧ r = arrived c (Z.of_nat k + 1) m.
Proof.
  unfold requests. rewrite list_lookup_imap. destruct (ms !! k) as [m|]; simpl; [|naive_solver].
  split; [intros [= <-]; eauto|]. by intros (m' & [= <-] & ->).
Qed.

Lemma slot_arrived k m : slot (arrived c (Z.of_nat k + 1) m) = k.
Proof. unfold slot. simpl. lia. Qed.

Lemma nextRequest_carried id P m q :
  newMessage (mkpacket P false) = Ok (m, q) →
  nextRequest c id (inl P) =
    (if is_unbind m then NUnbind (arrived c id m)
     else if is_startTLS m then NSync (arrived c id m) else NSpawn (arrived c id m)).
Proof.
  intros Hm. unfold nextRequest. rewrite (readRequest_message c id P m q Hm).
  destruct m; simpl; try done. by repeat case_decide; repeat case_bool_decide.
Qed.

(** ** Threads come in *)

Lemma pool_safe_outs keep Q l s o :
  pool_safe good (frame keep) Q (mkPool l s) → pool_safe good (frame keep) Q (mkPool l (with_outs o s)).
Proof.
  intros [[? ? ? ? ?] Hs]. split; [by constructor|]. intros i j q Hi.
  eapply safe_mono; [apply frame_trans|by apply (Hs i j q)|].
  destruct (frame_refl keep i s) as [? ? ? ? ?]. by constructor.
Qed.

Lemma lock_ok_outs l s o : lock_ok (mkPool l s) → lock_ok (mkPool l (with_outs o s)).
Proof. done. Qed.

Lemma pool_safe_snoc keep Q l s j q :
  pool_safe good (frame keep) Q (mkPool l s) → safe good (frame keep) (length l) j q (Q (length l)) s →
  pool_safe good (frame keep) Q (mkPool (l ++ [(j, q)]) s).
Proof.
  intros [Hg Hs] Hq. split; [done|]. simpl. intros i j' q' [Hi|[Hl Hi]]%lookup_app_Some; [by apply Hs|].
  apply list_lookup_singleton_Some in Hi as [Hz [= <- <-]].
  by replace i with (length l) by lia.
Qed.

Lemma lock_ok_snoc l s j q :
  lock_ok (mkPool l s) → disciplined false false q → lock_ok (mkPool (l ++ [(j, q)]) s).
Proof.
  intros [Hd Hl] Hq. split; simpl in *.
  - intros i j' q' [Hi|[Hlen Hi]]%lookup_app_Some; [by eapply Hd|].
    apply list_lookup_singleton_Some in Hi as [Hz [= <- <-]].
    rewrite bool_decide_false; [done|]. intros Hm. destruct (Hl i Hm) as [x Hx%lookup_lt_Some]. lia.
  - intros i Hm. destruct (Hl i Hm) as [x Hx]. exists x. by apply lookup_app_l_Some.
Qed.

(** An operation of a thread of a session is one of the thread in a pool, whose
    writers are the connection's. *)
Lemma sess_exec_step {X} (o : op X) k i s sh x s' sh' l kont w :
  sess_exec o k i s sh = Some (x, s', sh') → writers s !! i = Some w →
  l !! k = Some (i, Step o kont) →
  ∃ o1 o2, pstep (mkPool l (with_outs o1 sh)) (mkPool (<[k := (i, kont x)]> l) (with_outs o2 sh')).
Proof.
  intros He Hw Hk.
  assert (∀ o1 sh2, exec o k i (with_outs o1 sh) = Done x sh2 →
    pstep (mkPool l (with_outs o1 sh)) (mkPool (<[k := (i, kont x)]> l) sh2)) as Hgo.
  { intros o1 sh2 Hx. apply (pstep_intro k). unfold thread_step. simpl. by rewrite Hk, Hx. }
  assert ((∃ r, says o = [r]) ∨ exec o k i sh = Done x sh') as [[r Hr]|Hd].
  { destruct o; cbv beta iota delta [sess_exec] in He;
      try (right; match type of He with context [exec ?o' k i sh] =>
             destruct (exec o' k i sh) as [y sh1| |] end; [|done..]; by injection He as <- _ <-).
    left. by eexists. }
  - exists {[i := w]}. destruct o; try done. simpl in He, Hr. injection Hr as ->.
    unfold writeOn in He. rewrite Hw in He.
    destruct (Write (Some r) w) as [err w'] eqn:Ew. injection He as <- <- <-.
    exists (<[i := w']> {[i := w]}). apply Hgo. simpl. rewrite lookup_singleton_eq. simpl. by rewrite Ew.
  - exists (outs sh), (outs sh'). specialize (Hgo (outs sh)).
    assert (∀ z, with_outs (outs z) z = z) as Hz by by intros [].
    rewrite Hz in Hgo |- *. rewrite Hz. by apply Hgo.
Qed.

(** ** Writers that take everything *)

(** Every writer is idle, and the network has what was written on it. *)
Definition idle_writers (s : connState) : Prop :=
  ∀ i w, writers s !! i = Some w → w = idle_writer (stream (written_on i (written s))).

(** What a handler's operation leaves alone. *)
Definition same_conn (s s' : connState) : Prop :=
  loop s' = loop s ∧ inflight s' = inflight s ∧ crashed s' = crashed s ∧ lastID s' = lastID s ∧
  length (writers s') = length (writers s).

Lemma writeOn_idle i r s :
  idle_writers s → (i < length (writers s))%nat →
  ∃ s', writeOn i r s = (None, s') ∧ same_conn s s' ∧ idle_writers s' ∧
    written s' = written s ++ [(i, r)].
Proof.
  intros Hi Hlt. destruct (writeOn_fields i r s) as (? & ? & ? & ? & _ & _ & ? & _).
  destruct (lookup_lt_is_Some_2 _ _ Hlt) as [w Hw]. unfold writeOn in *. rewrite Hw in *.
  pose proof (Hi i w Hw) as Ew. rewrite Ew, Write_idle in *. simpl in *.
  eexists. split; [done|]. split; [done|]. split; [|done].
  intros j w' Hj. simpl in Hj |- *. rewrite written_on_snoc, stream_app.
  destruct (decide (j = i)) as [->|Hne].
  - rewrite list_lookup_insert_eq in Hj by done. injection Hj as <-. simpl. by rewrite app_nil_r_str.
  - rewrite list_lookup_insert_ne in Hj by done. simpl. rewrite app_nil_r_str. by apply Hi.
Qed.

Lemma sess_exec_idle {X} (o : op X) k i s sh x s' sh' :
  idle_writers s → (i < length (writers s))%nat → sess_exec o k i s sh = Some (x, s', sh') →
  gives (base sh) o x ∧ base sh' = base sh ∧ same_conn s s' ∧ idle_writers s' ∧
  written s' = written s ++ (pair i <$> says o).
Proof.
  intros Hi Hlt He. destruct (sess_exec_conn _ _ _ _ _ _ _ _ He) as [Hb Hs].
  assert ((∃ r, says o = [r]) ∨ says o = [] ∧ gives (base sh) o x) as [[r Hr]|[Hr Hg]].
  { destruct o; simpl in He |- *; try (by right); try (left; by eexists).
    right. by injection He as <- _ _. }
  - rewrite Hr in Hs |- *. destruct o; try done. simpl in He, Hr. injection Hr as ->.
    destruct (writeOn_idle i r s Hi Hlt) as (s1 & Hw & ? & ? & ?). rewrite Hw in He.
    by injection He as <- <- <-.
  - rewrite Hr in Hs |- *. subst s'. by rewrite app_nil_r.
Qed.

(** ** The responses of each request *)

(** The responses that a request got, of those written, each with the place of its
    request. *)
Definition said (k : nat) (log : list (nat * Response)) : list Response :=
  omap (λ '(j, x), if decide (j = k) then Some x else None) log.

Lemma said_app k log xs : said k (log ++ (pair k <$> xs)) = said k log ++ xs.
Proof.
  unfold said. rewrite omap_app. f_equal. induction xs as [|x xs IH]; simpl; [done|].
  rewrite decide_True by done. by f_equal.
Qed.

Lemma said_other k j log xs : j ≠ k → said k (log ++ (pair j <$> xs)) = said k log.
Proof.
  intros Hne. unfold said. rewrite omap_app.
  assert (omap (λ '(j, x), if decide (j = k) then Some x else None) (pair j <$> xs) = []) as ->.
  { induction xs as [|x xs IH]; simpl; [done|]. by rewrite decide_False. }
  by rewrite app_nil_r.
Qed.

(** How often StartTLS gave the connection a new writer. *)
Definition switches (tls : option error) (ms : list Message) : nat :=
  match tls with
  | None => length (filter (λ m, is_startTLS m = true) ms)
  | Some _ => 0
  end.

(** The writer of the request at [k]. *)
Definition writer_of (tls : option error) (ms : list Message) (k : nat) : nat :=
  switches tls (take k ms).

Lemma writer_of_0 tls ms : writer_of tls ms 0 = 0%nat.
Proof. by destruct tls. Qed.

Lemma writer_of_S tls ms k m :
  ms !! k = Some m →
  writer_of tls ms (S k) =
    (writer_of tls ms k + match tls with None => if is_startTLS m then 1 else 0 | Some _ => 0 end)%nat.
Proof.
  intros Hk. unfold writer_of, switches. destruct tls; [done|].
  rewrite (take_S_r _ _ _ Hk), filter_app, length_app, filter_cons. by destruct (is_startTLS m).
Qed.

Lemma writer_of_mono tls ms k n : (k ≤ n)%nat → (writer_of tls ms k ≤ writer_of tls ms n)%nat.
Proof.
  induction 1 as [|n _ IH]; [done|]. destruct (ms !! n) as [m|] eqn:Hn.
  - rewrite (writer_of_S _ _ _ _ Hn). lia.
  - unfold writer_of in *. apply lookup_ge_None in Hn. rewrite (take_ge ms (S n)) by lia.
    by rewrite (take_ge ms n) in IH by lia.
Qed.

(** ** The invariant *)

Section running.
Hypothesis connected : connID c ≠ 0.
Variable d : Directory.
Hypothesis routes : router c = registered (dirRegistrations d).
Variable ms : list Message.
Hypothesis few : Z.of_nat (length ms) < 2 ^ 63 - 1.
#[local] Abbreviation tls := (StartTLS handshake (server d)).
#[local] Abbreviation writer := (writer_of tls ms).

(** The request at [k]. *)
Definition request_at (k : nat) (r : Request) : Prop := requests ms !! k = Some r.

Lemma request_at_slot k r : request_at k r → slot r = k.
Proof. intros (m & _ & ->)%requests_lookup. apply slot_arrived. Qed.

Lemma request_at_ok k r : request_at k r → request_ok r.
Proof. intros (m & _ & ->)%requests_lookup. apply arrived_ok. Qed.

Lemma request_at_lt k r : request_at k r → (k < length ms)%nat.
Proof. intros (m & Hm & _)%requests_lookup. by eapply lookup_lt_Some. Qed.

Lemma request_there k : (k < length ms)%nat → ∃ r, request_at k r.
Proof.
  intros [m Hm]%lookup_lt_is_Some. eexists. apply requests_lookup. eauto.
Qed.

Lemma program_routed r : request_ok r → program r = thread_of extra handshake (routed d r) r.
Proof. intros Hr. unfold program. rewrite routes, (serve_dir d r Hr), handlerAt_handle. done. Qed.

Lemma serveOn_routed r :
  request_ok r → serveOn (router c) r = Ok (CallHandler (handlerHandle (routed d r))).
Proof. intros Hr. unfold serveOn. by rewrite routes, (serve_dir d r Hr). Qed.

(** The requests with their writers and handlers. *)
Definition served : list (nat * dirHandler * Request) :=
  imap (λ k r, (writer k, routed d r, r)) (requests ms).

Lemma served_lookup k r : request_at k r → served !! k = Some (writer k, routed d r, r).
Proof. intros Hr. unfold served. rewrite list_lookup_imap. by rewrite Hr. Qed.

(** The threads of the first [n] requests, with [log] written: each is on its way to a complete
    answer, none can fail but a delete, and the lock is in order. *)
Record threads_ok (n : nat) (log : list (nat * Response))
    (l : list (nat * prog (outcome unit * Response))) (sh : shared) : Prop := mkThreadsOk {
  to_length : length l = n;
  to_read : (n ≤ length ms)%nat;
  to_answers : ∀ k r, (k < n)%nat → request_at k r →
    ∃ q, l !! k = Some (writer k, q) ∧
      all_runs d q (λ xs _, complete_answer tls (routed d r) r xs) (said k log);
  to_safe : pool_safe good (frame false) (request_ends served false) (mkPool l sh);
  to_lock : lock_ok (mkPool l sh);
  to_base : base sh = d;
  to_log : Forall (λ p, (p.1 < n)%nat) log;
}.

Lemma threads_ok_start m spare w :
  dir_ok d m → threads_ok 0 [] [] (shared_of d m spare w).
Proof.
  intros Hd. split; [done|lia|lia| | |done|constructor].
  - split; [by apply good_shared_of|done].
  - by split.
Qed.

(** A request is read. *)
Lemma threads_ok_snoc n log l sh r :
  threads_ok n log l sh → request_at n r →
  threads_ok (S n) log (l ++ [(writer n, program r)]) sh.
Proof.
  intros [Hl Hn Ha Hs Hk Hb Hlog] Hr. pose proof (request_at_lt _ _ Hr).
  rewrite (program_routed r (request_at_ok _ _ Hr)). split; try done.
  - rewrite length_app. simpl. lia.
  - intros k r' Hlt Hr'. destruct (decide (k = n)) as [->|Hne].
    + replace r' with r by (unfold request_at in *; congruence).
      eexists. split; [rewrite lookup_app_r, Hl, Nat.sub_diag by lia; done|].
      replace (said n log) with (@nil Response); [apply thread_answers|].
      symmetry. clear -Hlog. induction Hlog as [|[j x] log Hj _ IH]; [done|]. simpl in *.
      rewrite decide_False by lia. done.
    + destruct (Ha k r' ltac:(lia) Hr') as (q & Hq & Hall). exists q. split; [|done].
      by apply lookup_app_l_Some.
  - apply pool_safe_snoc; [done|]. rewrite Hl.
    eapply safe_weaken; [|apply safe_thread; [apply Hs|done]].
    intros x s' _ Hx. eexists _, _, _. split; [by apply served_lookup|done].
  - apply lock_ok_snoc; [done|]. apply thread_disciplined.
  - eapply Forall_impl; [done|]. simpl. intros. lia.
Qed.

(** A handler makes an operation. *)
Lemma threads_ok_op n log l sh k {X} (o : op X) kont s s' sh' x :
  threads_ok n log l sh → l !! k = Some (writer k, Step o kont) →
  idle_writers s → (writer k < length (writers s))%nat →
  sess_exec o k (writer k) s sh = Some (x, s', sh') →
  threads_ok n (log ++ (pair k <$> says o)) (<[k := (writer k, kont x)]> l) sh'.
Proof.
  intros [Hl Hn Ha Hs Hk Hb Hlog] Ek Hi Hw He.
  destruct (sess_exec_idle _ _ _ _ _ _ _ _ Hi Hw He) as (Hg & Hb' & _).
  destruct (lookup_lt_is_Some_2 _ _ Hw) as [w Hwr].
  destruct (sess_exec_step _ _ _ _ _ _ _ _ _ kont w He Hwr Ek) as (o1 & o2 & Hp).
  assert (∀ z, with_outs (outs z) z = z) as Hz by by intros [].
  pose proof (lookup_lt_Some _ _ _ Ek) as Hlt. split; [by rewrite length_insert|done| | | |congruence|].
  - intros j r Hj Hr. destruct (Ha j r Hj Hr) as (q & Hq & Hall).
    destruct (decide (j = k)) as [->|Hne].
    + rewrite Ek in Hq. injection Hq as <-. eexists.
      rewrite list_lookup_insert_eq by done. split; [done|]. rewrite said_app.
      apply Hall. by rewrite <-Hb.
    + exists q. rewrite list_lookup_insert_ne by done. split; [done|]. by rewrite said_other.
  - rewrite <-(Hz sh'). replace (with_outs (outs sh') sh') with (with_outs (outs sh') (with_outs o2 sh')) by done.
    apply pool_safe_outs. eapply pool_safe_step; [apply frame_refl|apply frame_trans| |exact Hp].
    by apply pool_safe_outs.
  - apply (lock_ok_outs _ (with_outs o2 sh') (outs sh')).
    exact (lock_ok_step extra (mkPool l (with_outs o1 sh)) _ Hk Hp).
  - apply Forall_app. split; [done|]. apply Forall_fmap, Forall_true. simpl. lia.
Qed.

(** The goroutines: each serves one of the first [n] requests on that request's writer, and
    is leaving only when its handler ended; a handler that did not end has a goroutine or is
    run by the loop. *)
Definition flying (n : nat) (l : list (nat * prog (outcome unit * Response))) (t : thread) : Prop :=
  ∃ k, (k < n)%nat ∧ request_at k (t_req t) ∧ t_writer t = writer k ∧
    (t_status t = Leaving → ∃ x, l !! k = Some (writer k, Ret x)).

Record goroutines_ok (n : nat) (s : connState)
    (l : list (nat * prog (outcome unit * Response))) : Prop := mkGoroutinesOk {
  go_flying : ∀ t, t ∈ inflight s → flying n l t;
  go_pending : ∀ k j X (o : op X) kont, l !! k = Some (j, Step o kont) →
    (∃ t, t ∈ inflight s ∧ slot (t_req t) = k ∧ t_status t ≠ Leaving) ∨
    (∃ t stop, loop s = MainHandler t stop ∧ slot (t_req t) = k);
}.

(** Where the loop is: it reads, or runs StartTLS, the last request that it read; or all were
    read and it returned, or also closed the connection. *)
Definition loop_at (n : nat) (s : connState) (input : list string) : Prop :=
  match loop s with
  | Serving => conversation (drop n ms) input ∧ lastID s = Z.of_nat n
  | MainHandler t stop =>
      conversation (drop n ms) input ∧ lastID s = Z.of_nat n ∧ stop = false ∧
      ∃ k m r, n = S k ∧ ms !! k = Some m ∧ is_startTLS m = true ∧ request_at k r ∧
        t = mkThread r (writer k) (InHandler (handlerHandle HStartTLS))
  | Returned _ | Closed => n = length ms
  | Panicked _ => False
  end.

(** The process crashed because a delete panicked. *)
Definition delete_panicked (l : list (nat * prog (outcome unit * Response))) : Prop :=
  ∃ k r resp, request_at k r ∧ routed d r = HDelete ∧
    l !! k = Some (writer k, Ret (Panic "slice bounds out of range", resp)).

Record conn_ok (n : nat) (log : list (nat * Response)) (σ : session) : Prop := mkConnOk {
  co_loop : loop_at n (s_conn σ) (s_input σ);
  co_idle : idle_writers (s_conn σ);
  co_count : length (writers (s_conn σ)) =
    S (writer (match loop (s_conn σ) with MainHandler _ _ => pred n | _ => n end));
  co_written : written (s_conn σ) = (λ '(k, x), (writer k, x)) <$> log;
  co_crash : crashed (s_conn σ) = true → delete_panicked (s_threads σ);
}.

Definition sess_inv (n : nat) (log : list (nat * Response)) (σ : session) : Prop :=
  threads_ok n log (s_threads σ) (s_shared σ) ∧ goroutines_ok n (s_conn σ) (s_threads σ) ∧
  conn_ok n log σ.
Definition sess_ok (σ : session) : Prop := ∃ n log, sess_inv n log σ.

Definition session_start (sh : shared) (input : list string) : session :=
  mkSession (initState [idle_writer ""]) [] sh input.

Lemma sess_ok_start m spare w input :
  dir_ok d m → conversation ms input → sess_ok (session_start (shared_of d m spare w) input).
Proof.
  intros Hd Hc. exists 0%nat, []. split; [by apply threads_ok_start|]. split.
  { split; [by intros t ?%elem_of_nil|done]. }
  split; try done.
  - intros i w' Hi. by apply list_lookup_singleton_Some in Hi as [-> <-].
  - simpl. by rewrite writer_of_0.
Qed.

(** The writer of a request that was read is there. *)
Lemma writer_there n log σ k :
  conn_ok n log σ → (k < n)%nat → (writer k < length (writers (s_conn σ)))%nat.
Proof.
  intros Hco Hk. rewrite (co_count _ _ _ Hco).
  apply Nat.lt_succ_r, writer_of_mono. destruct (loop (s_conn σ)); lia.
Qed.

(** *** The operations of handlers *)

Lemma sess_ok_op n log σ σ' k :
  sess_inv n log σ → (k < n)%nat → sess_op k (writer k) σ = Some σ' → sess_ok σ'.
Proof.
  intros (Ht & [Hf Hp] & Hco) Hk Hop. pose proof (writer_there _ _ _ _ Hco Hk) as Hw.
  unfold sess_op in Hop. destruct (s_threads σ !! k) as [[j [a|X o kont]]|] eqn:Ek; try done.
  assert (j = writer k) as ->.
  { destruct (request_there k) as [r Hr]; [destruct Ht; lia|].
    destruct (to_answers _ _ _ _ Ht k r Hk Hr) as (q & Hq & _). congruence. }
  destruct (sess_exec _ _ _ _ _) as [[[x s] sh]|] eqn:He; simpl in Hop; [|done].
  injection Hop as <-. destruct Hco as [Cl Ci Cc Cw Ck].
  destruct (sess_exec_idle _ _ _ _ _ _ _ _ Ci Hw He) as (_ & _ & (Sl & Si & Sc & Sid & Sn) & Ci' & Cw').
  pose proof (lookup_lt_Some _ _ _ Ek) as Hlt.
  exists n, (log ++ (pair k <$> says o)).
  split; [eapply (threads_ok_op n log _ _ k o kont (s_conn σ) s); eassumption|].
  split; [split|split]; simpl.
  - intros t Ht'. rewrite Si in Ht'. destruct (Hf t Ht') as (k' & ? & ? & ? & Hl). exists k'.
    split_and!; [done..|]. intros Hst. destruct (Hl Hst) as [y Hy].
    exists y. rewrite list_lookup_insert_ne; [done|]. intros ->. congruence.
  - rewrite Si, Sl. intros k' j' Y o' kont' Hk'. destruct (decide (k = k')) as [<-|Hne].
    + by apply (Hp k (writer k) X o kont).
    + rewrite list_lookup_insert_ne in Hk' by done. by eapply Hp.
  - unfold loop_at in *. by rewrite Sl, Sid.
  - done.
  - by rewrite Sn, Sl.
  - rewrite Cw', Cw, fmap_app. f_equal. by rewrite <-list_fmap_compose.
  - rewrite Sc. intros Hc. destruct (Ck Hc) as (k' & r' & resp & ? & ? & ?).
    exists k', r', resp. split_and!; [done..|]. rewrite list_lookup_insert_ne; [done|]. intros ->. congruence.
Qed.

(** *** The goroutines *)

(** A goroutine goes on, or ends. *)
Lemma sess_ok_goroutine n log σ s' :
  sess_inv n log σ → loop s' = loop (s_conn σ) → crashed s' = crashed (s_conn σ) →
  lastID s' = lastID (s_conn σ) → writers s' = writers (s_conn σ) → written s' = written (s_conn σ) →
  goroutines_ok n s' (s_threads σ) → sess_ok (set_conn s' σ).
Proof.
  intros (Ht & _ & [Cl Ci Cc Cw Ck]) H1 H2 H3 H4 H5 Hg. exists n, log. split; [done|]. split; [done|].
  split; simpl; unfold loop_at, idle_writers in *; by rewrite ?H1, ?H2, ?H3, ?H4, ?H5.
Qed.

(** The goroutine [t] becomes [t'], which may be leaving only when its handler ended. *)
Lemma goroutines_ok_move n s s' l j t st :
  goroutines_ok n s l → inflight s !! j = Some t → loop s' = loop s →
  inflight s' = <[j := mkThread (t_req t) (t_writer t) st]> (inflight s) →
  (st = Leaving → ∃ x, l !! slot (t_req t) = Some (t_writer t, Ret x)) →
  goroutines_ok n s' l.
Proof.
  intros [Hf Hp] Hj Hl Hi Hst. pose proof (lookup_lt_Some _ _ _ Hj) as Hlt.
  destruct (Hf t (list_elem_of_lookup_2 _ _ _ Hj)) as (k & Hk & Hr & Hw & _).
  rewrite (request_at_slot _ _ Hr), Hw in Hst. split; rewrite Hi.
  - intros t' (i & Hi')%list_elem_of_lookup. apply list_lookup_insert_Some in Hi' as [(<- & <- & _)|[_ Hi']].
    + exists k. done.
    + by apply Hf, (list_elem_of_lookup_2 _ i).
  - rewrite Hl. intros k' j' X o kont Hk'. destruct (Hp k' j' X o kont Hk') as [(t' & Ht' & Hs & Hn)|?]; [|by right].
    left. apply list_elem_of_lookup in Ht' as [i Hi'].
    destruct (decide (j = i)) as [<-|Hne].
    + simplify_eq. eexists. split; [by apply (list_elem_of_lookup_2 _ j), list_lookup_insert_eq|]. simpl.
      split; [done|]. intros ->. destruct (Hst eq_refl) as [x Hx].
      rewrite (request_at_slot _ _ Hr) in Hk'. congruence.
    + exists t'. split; [|done]. apply (list_elem_of_lookup_2 _ i). by rewrite list_lookup_insert_ne.
Qed.

(** A goroutine that was leaving is gone. *)
Lemma goroutines_ok_leave n s s' l j t :
  goroutines_ok n s l → inflight s !! j = Some t → t_status t = Leaving → loop s' = loop s →
  inflight s' = delete j (inflight s) → goroutines_ok n s' l.
Proof.
  intros [Hf Hp] Hj Hst Hl Hi. destruct (inflight_split s j t Hj) as (Hs & _ & Hd). unfold has_thread in Hs.
  assert (∀ t', t' ∈ inflight s ↔ t' = t ∨ t' ∈ inflight s') as Hin.
  { intros t'. rewrite Hi, Hd, Hs at 1. set_solver. }
  split.
  - intros t' Ht'. apply Hf, Hin. by right.
  - rewrite Hl. intros k j' X o kont Hk. destruct (Hp k j' X o kont Hk) as [(t' & Ht' & ? & ?)|?]; [|by right].
    left. exists t'. apply Hin in Ht' as [->|?]; done.
Qed.

(** How the handler of a request ended. *)
Lemma handler_result n log σ k r j o resp :
  sess_inv n log σ → (k < n)%nat → request_at k r → s_threads σ !! k = Some (j, Ret (o, resp)) →
  j = writer k ∧ (o = Ok () ∨ o = Panic "slice bounds out of range" ∧ routed d r = HDelete).
Proof.
  intros ([_ _ Ha Hs _ _ _] & _) Hk Hr Hj.
  destruct (Ha k r Hk Hr) as (q & Hq & _). rewrite Hj in Hq. injection Hq as -> _. split; [done|].
  pose proof (ended_result _ _ _ _ _ _ _ _ Hs (served_lookup _ _ Hr) Hj) as He.
  unfold ends_well in He. simpl in He. destruct o as [[]|e|w]; [by left|done|right].
  by destruct He as (_ & ? & ->).
Qed.

Lemma sess_ok_crash n log σ :
  sess_inv n log σ → delete_panicked (s_threads σ) → sess_ok (set_conn (with_crash (s_conn σ)) σ).
Proof.
  intros (Ht & [Hf Hp] & [Cl Ci Cc Cw Ck]) Hd. exists n, log. split; [done|].
  split; [by split|]. by split.
Qed.

Lemma sess_ok_goroutines n log ev σ σ' :
  Conn.reachable c (s_conn σ) → crashed (s_conn σ) = false → sess_inv n log σ → sess_do ev σ = Some σ' →
  match ev with
  | ECall _ | EOp _ | EReturn _ | EDone _ => sess_ok σ'
  | _ => True
  end.
Proof.
  intros Hre Hc Hinv. unfold sess_do. rewrite Hc. pose proof Hinv as (_ & Hg & _).
  destruct ev as [eof|j|j|j|j| | |err]; try done;
    unfold sess_call, sess_return, sess_done; destruct (inflight (s_conn σ) !! j) as [[r i st]|] eqn:Ej; try done;
    destruct (go_flying _ _ _ Hg _ (list_elem_of_lookup_2 _ _ _ Ej)) as (k & Hk & Hr & Hw & _); simpl in Hr, Hw;
    destruct st as [|f|]; try done.
  - rewrite (serveOn_routed r (request_at_ok _ _ Hr)). intros [= <-].
    eapply sess_ok_goroutine; [done..|]. by eapply goroutines_ok_move.
  - rewrite (request_at_slot _ _ Hr), Hw. by apply (sess_ok_op n log).
  - rewrite (request_at_slot _ _ Hr).
    destruct (s_threads σ !! k) as [[j' [[o resp]|? ? ?]]|] eqn:Ek; try done.
    destruct (handler_result _ _ _ _ _ _ _ _ Hinv Hk Hr Ek) as [-> [->|[-> Hdel]]]; intros [= <-].
    + eapply sess_ok_goroutine; [done..|]. eapply goroutines_ok_move; [done|done|done|done|].
      intros _. simpl. rewrite (request_at_slot _ _ Hr), Hw. by eexists.
    + eapply sess_ok_crash; [done|]. by exists k, r, resp.
  - pose proof (Conn.inv_wg _ _ (conn_inv_reachable c _ Hre)) as Hwg. rewrite wg_add_Ok.
    + intros [= <-]. eapply sess_ok_goroutine; [done..|]. by eapply goroutines_ok_leave.
    + apply lookup_lt_Some in Ej. lia.
Qed.

(** *** The loop *)

(** What was written is on writers that are there. *)
Lemma written_fresh n log σ :
  sess_inv n log σ → written_on (length (writers (s_conn σ))) (written (s_conn σ)) = [].
Proof.
  intros (Ht & _ & Hco). apply written_on_fresh. unfold written_bound.
  rewrite (co_written _ _ _ Hco). apply Forall_fmap. pose proof (to_log _ _ _ _ Ht) as Hlog.
  eapply Forall_impl; [done|]. intros [k x] Hk. simpl in *. by eapply writer_there.
Qed.

(** The connection after the StartTLS handler that the loop ran. *)
Lemma startTLS_conn n log σ k m (b := tls_started (mkThread (arrived c (Z.of_nat k + 1) m) (writer k)
    (InHandler (handlerHandle HStartTLS))) σ)
    (s' := if b then match startTLS (s_conn σ) with Ok s' => s' | _ => s_conn σ end else s_conn σ) :
  sess_inv n log σ → ms !! k = Some m → is_startTLS m = true →
  length (writers (s_conn σ)) = S (writer k) →
  inflight s' = inflight (s_conn σ) ∧ crashed s' = crashed (s_conn σ) ∧ lastID s' = lastID (s_conn σ) ∧
  written s' = written (s_conn σ) ∧ idle_writers s' ∧ length (writers s') = S (writer (S k)).
Proof.
  intros Hinv Hm Htls Hlen. pose proof (written_fresh _ _ _ Hinv) as Hfresh.
  destruct Hinv as (Ht & _ & [_ Ci _ _ _]).
  destruct (lookup_lt_is_Some_2 (writers (s_conn σ)) (writer k)) as [w Hw]; [lia|].
  assert (b = true ∧ writer (S k) = S (writer k) ∨ b = false ∧ writer (S k) = writer k) as Hb.
  { rewrite (writer_of_S tls ms k m Hm), Htls. unfold b, tls_started. cbn [t_status t_writer].
    rewrite handlerAt_handle, (to_base _ _ _ _ Ht), Hw, (Ci _ _ Hw). simpl.
    destruct tls; [right|left]; (split; [done|lia]). }
  unfold s'. destruct Hb as [[-> ->]|[-> ->]]; [|done]. simpl. split_and!; try done.
  - intros i w' [Hi|[Hge Hi]]%lookup_app_Some; [by apply Ci|].
    apply list_lookup_singleton_Some in Hi as [Hz <-]. simpl.
    replace i with (length (writers (s_conn σ))) by lia. by rewrite Hfresh.
  - rewrite length_app. simpl. lia.
Qed.

(** StartTLS has run. *)
Lemma sess_ok_main n log σ σ' :
  sess_inv n log σ → sess_main_return σ = Some σ' → sess_ok σ'.
Proof.
  intros Hinv. pose proof Hinv as (Ht & [Hf Hp] & [Cl Ci Cc Cw Ck]). unfold sess_main_return.
  unfold loop_at in Cl. destruct (loop (s_conn σ)) as [|t stop| | |] eqn:Hl; try done.
  destruct Cl as (Hconv & Hid & -> & k & m & r & -> & Hm & Htls & Hr & ->). cbn [t_req].
  pose proof Hr as (m' & Hm' & ->)%requests_lookup. assert (m' = m) as -> by congruence.
  clear Hm'. rewrite slot_arrived.
  destruct (s_threads σ !! k) as [[j [[o resp]|? ? ?]]|] eqn:Ek; try done.
  destruct (handler_result _ _ _ _ _ _ _ _ Hinv (Nat.lt_succ_diag_r k) Hr Ek) as [-> [->|[-> Hdel]]].
  2: { unfold routed in Hdel. simpl in Hdel. destruct m; try done. simpl in Htls.
       apply bool_decide_eq_true in Htls. by rewrite decide_True in Hdel. }
  intros [= <-]. destruct (startTLS_conn _ _ _ _ _ Hinv Hm Htls Cc) as (Si & Sc & Sd & Sw & Sh & Sn).
  set (s' := if tls_started _ _ then _ else _) in *. clearbody s'.
  exists (S k), log. split; [done|]. split; [split|split]; simpl.
  - by rewrite Si.
  - rewrite Si. intros k' j' X o kont Hk'.
    destruct (Hp k' j' X o kont Hk') as [?|(t' & stop' & Ht' & Hs)]; [by left|].
    injection Ht' as <- <-. simpl in Hs. rewrite slot_arrived in Hs. congruence.
  - unfold loop_at. simpl. by rewrite Sd.
  - done.
  - done.
  - by rewrite Sw.
  - by rewrite Sc.
Qed.

(** The connection is closed. *)
Lemma sess_ok_close n log σ e :
  sess_inv n log σ → loop (s_conn σ) = Returned e → sess_ok (set_conn (with_loop Closed (s_conn σ)) σ).
Proof.
  intros (Ht & [Hf Hp] & [Cl Ci Cc Cw Ck]) Hl. unfold loop_at in Cl. rewrite Hl in Cl, Cc.
  exists n, log. split; [done|]. split; [split; [done|]|by split].
  intros k j X o kont Hk. destruct (Hp k j X o kont Hk) as [?|(t & stop & Ht' & _)]; [by left|congruence].
Qed.

(** The loop returns, with everything read. *)
Lemma sess_ok_return n log σ s' err input :
  sess_inv n log σ → loop (s_conn σ) = Serving → n = length ms →
  loop s' = Returned err → crashed s' = crashed (s_conn σ) → inflight s' = inflight (s_conn σ) →
  writers s' = writers (s_conn σ) → written s' = written (s_conn σ) →
  sess_ok (mkSession s' (s_threads σ) (s_shared σ) input).
Proof.
  intros (Ht & [Hf Hp] & [Cl Ci Cc Cw Ck]) Hl Hn Hl' Hc Hi Hw Hwr. rewrite Hl in Cc.
  exists n, log. split; [done|]. split; [split|split]; simpl.
  - by rewrite Hi.
  - rewrite Hi. intros k j X o kont Hk.
    destruct (Hp k j X o kont Hk) as [?|(t & stop & Ht' & _)]; [by left|congruence].
  - unfold loop_at. by rewrite Hl'.
  - unfold idle_writers in *. by rewrite Hw, Hwr.
  - by rewrite Hw, Hl'.
  - by rewrite Hwr.
  - by rewrite Hc.
Qed.

(** A request is read: a goroutine is started for it, or the loop calls the handler of StartTLS. *)
Lemma sess_ok_request n log σ s' m input r (t := mkThread r (writer n) Started) :
  sess_inv n log σ → loop (s_conn σ) = Serving → ms !! n = Some m → request_at n r →
  conversation (drop (S n) ms) input → lastID s' = Z.of_nat (S n) → crashed s' = false →
  writers s' = writers (s_conn σ) → written s' = written (s_conn σ) →
  (if is_startTLS m
   then loop s' = MainHandler (mkThread r (writer n) (InHandler (handlerHandle HStartTLS))) false ∧
        inflight s' = inflight (s_conn σ)
   else loop s' = Serving ∧ inflight s' = inflight (s_conn σ) ++ [t]) →
  sess_ok (mkSession s' (s_threads σ ++ [(writer n, program r)]) (s_shared σ) input).
Proof.
  intros (Ht & [Hf Hp] & [Cl Ci Cc Cw Ck]) Hl Hm Hr Hconv Hid Hc Hw Hwr Hnext. rewrite Hl in Cc.
  assert (∀ u, u ∈ inflight s' → u ∈ inflight (s_conn σ) ∨ u = t) as Hin.
  { intros u Hu. destruct (is_startTLS m); destruct Hnext as [_ Hi]; rewrite Hi in Hu; [by left|].
    apply elem_of_app in Hu as [?|?%list_elem_of_singleton]; auto. }
  assert (∀ u, u ∈ inflight (s_conn σ) → u ∈ inflight s') as Hin'.
  { intros u Hu. destruct (is_startTLS m); destruct Hnext as [_ Hi]; rewrite Hi; set_solver. }
  exists (S n), log. split; [by apply threads_ok_snoc|]. split; [split|split]; simpl.
  - intros u Hu. destruct (Hin u Hu) as [Hu'| ->].
    + destruct (Hf u Hu') as (k & ? & ? & ? & Hlv). exists k. split_and!; [lia|done|done|].
      intros Hs. destruct (Hlv Hs) as [x Hx]. exists x. by apply lookup_app_l_Some.
    + exists n. split_and!; [lia|done|done|done].
  - intros k j X o kont [Hk|[Hge Hk]]%lookup_app_Some.
    + destruct (Hp k j X o kont Hk) as [(u & ? & ?)|(u & stop & Hu & _)]; [|congruence].
      left. exists u. auto.
    + apply list_lookup_singleton_Some in Hk as [Hz _]. rewrite (to_length _ _ _ _ Ht) in *.
      assert (slot r = k) as Hsl by (rewrite (request_at_slot _ _ Hr); lia).
      destruct (is_startTLS m); destruct Hnext as [Hl' Hi]; [right|left].
      * eexists _, _. by split.
      * exists t. split; [rewrite Hi; set_solver|done].
  - unfold loop_at. destruct (is_startTLS m) eqn:Em; destruct Hnext as [-> _]; [|done].
    split_and!; [done..|]. exists n, m, r. done.
  - unfold idle_writers in *. by rewrite Hw, Hwr.
  - rewrite Hw. pose proof (writer_of_S tls ms n m Hm) as HS.
    destruct (is_startTLS m); destruct Hnext as [-> _]; [done|]. rewrite Cc, HS. destruct tls; lia.
  - by rewrite Hwr.
  - congruence.
Qed.

(** The number of a request that is read. *)
Lemma next_number s n :
  lastID s = Z.of_nat n → (n ≤ length ms)%nat → go_int (lastID s + 1) = Z.of_nat n + 1.
Proof.
  intros -> Hn. apply wrapS_id; [lia|]. unfold in_int. change (64 - 1) with 63. lia.
Qed.

Lemma iteration_reads P m q s n :
  lastID s = Z.of_nat n → (n ≤ length ms)%nat → newMessage (mkpacket P false) = Ok (m, q) →
  let r := arrived c (Z.of_nat n + 1) m in
  let s1 := with_received r (with_lastID (Z.of_nat n + 1) s) in
  iteration c None (inl P) s =
    (if is_unbind m then with_loop (Returned None) s1
     else if is_startTLS m
     then with_loop (MainHandler (mkThread r (current s) (InHandler (handlerHandle HStartTLS))) false)
            (with_called (handlerHandle HStartTLS) r s1)
     else spawnRequest r s1).
Proof.
  intros Hid Hn Hm r s1. unfold iteration. rewrite (next_number _ _ Hid Hn). simpl.
  rewrite decide_False, decide_False by (done || lia). unfold afterRead. simpl.
  rewrite (nextRequest_carried _ P m q Hm). fold r. destruct (is_unbind m) eqn:Eu.
  { by rewrite routes. }
  destruct (is_startTLS m) eqn:Et; [|done]. rewrite (serveOn_routed r (arrived_ok _ _ _)).
  assert (routed d r = HStartTLS) as ->; [|done]. unfold routed. simpl.
  destruct m; try done. simpl in Et. apply bool_decide_eq_true in Et. by rewrite decide_True.
Qed.

Lemma spawned_one s s' id m :
  received s' = received s ++ [arrived c id m] →
  spawned s s' = if is_unbind m then [] else [(current s, program (arrived c id m))].
Proof.
  intros Hr. unfold spawned. rewrite Hr, drop_app_length. rewrite filter_cons.
  by destruct m as [| | | | | |?]; simpl.
Qed.

Lemma spawned_none s s' : received s' = received s → spawned s s' = [].
Proof. intros Hr. unfold spawned. by rewrite Hr, drop_all. Qed.

(** Nothing is read any more: the loop returned. *)
Lemma sess_ok_stop n log σ s' input err r :
  sess_inv n log σ → loop (s_conn σ) = Serving → drop n ms = [] →
  (r = [] ∨ ∃ u id, is_unbind u = true ∧ r = [arrived c id u]) →
  received s' = received (s_conn σ) ++ r → loop s' = Returned err → crashed s' = crashed (s_conn σ) →
  inflight s' = inflight (s_conn σ) → writers s' = writers (s_conn σ) → written s' = written (s_conn σ) →
  sess_ok (mkSession s' (s_threads σ ++ spawned (s_conn σ) s') (s_shared σ) input).
Proof.
  intros Hinv Hl Hd Hr Hrec Hl' Hc Hi Hw Hwr.
  assert (spawned (s_conn σ) s' = []) as ->.
  { destruct Hr as [->|(u & id & Hu & ->)].
    - apply spawned_none. by rewrite Hrec, app_nil_r.
    - by rewrite (spawned_one _ _ _ _ Hrec), Hu. }
  rewrite app_nil_r. eapply sess_ok_return; try done.
  destruct Hinv as (Ht & _). pose proof (to_read _ _ _ _ Ht).
  assert (length (drop n ms) = 0)%nat as Hz by by rewrite Hd. rewrite length_drop in Hz. lia.
Qed.

Lemma sess_ok_read n log eof σ σ' :
  Conn.reachable c (s_conn σ) → crashed (s_conn σ) = false →
  sess_inv n log σ → loop (s_conn σ) = Serving → sess_read eof σ = Some σ' → sess_ok σ'.
Proof.
  intros Hre Hcr Hinv Hl Hrd. pose proof Hinv as (Ht & _ & Hco). pose proof (to_read _ _ _ _ Ht) as Hn.
  pose proof (co_loop _ _ _ Hco) as Cl. unfold loop_at in Cl. rewrite Hl in Cl. destruct Cl as [Hconv Hid].
  unfold sess_read in Hrd. remember (drop n ms) as todo eqn:Etodo. symmetry in Etodo.
  remember (s_input σ) as inp eqn:Ei. clear Ei.
  assert (∀ rd e input, readRequest c (go_int (lastID (s_conn σ) + 1)) rd = Err e → todo = [] →
    let s' := iteration c None rd (s_conn σ) in
    sess_ok (mkSession s' (s_threads σ ++ spawned (s_conn σ) s') (s_shared σ) input)) as Hret.
  { intros rd e input He -> s'. destruct (iteration_returns rd (s_conn σ) e He) as [err Es]. unfold s'. rewrite Es.
    eapply (sess_ok_stop n log σ _ input err []); try done; [by left|]. by rewrite app_nil_r. }
  destruct Hconv as [|b u rest (P & q & HP & Hm)|b rest Hb|b m todo' input (P & q & HP & Hm) Hu Hconv].
  - destruct (end_of_file eof); [|done]. injection Hrd as <-.
    destruct (readRequest_error (go_int (lastID (s_conn σ) + 1)) eof) as [e He]. by eapply Hret.
  - rewrite HP in Hrd. injection Hrd as <-. rewrite (iteration_reads P (MUnbind u) q _ n) by done. simpl.
    eapply (sess_ok_stop n log σ _ rest None [arrived c (Z.of_nat n + 1) (MUnbind u)]); try done.
    right. by exists (MUnbind u), (Z.of_nat n + 1).
  - unfold unreadable in Hb. destruct (ber_DecodePacketErr b) as [P|e|w]; [| |done]; injection Hrd as <-.
    + destruct (Hb (go_int (lastID (s_conn σ) + 1))) as [e He]. by eapply Hret.
    + destruct (readRequest_error (go_int (lastID (s_conn σ) + 1)) e) as [e' He]. by eapply Hret.
  - rewrite HP in Hrd. injection Hrd as <-.
    assert (ms !! n = Some m) as Hn'.
    { pose proof (lookup_drop ms n 0) as Hx. rewrite Etodo, Nat.add_0_r in Hx. by rewrite <-Hx. }
    set (r := arrived c (Z.of_nat n + 1) m). assert (request_at n r) as Hr by (apply requests_lookup; eauto).
    assert (current (s_conn σ) = writer n) as Hcur.
    { unfold current. rewrite (co_count _ _ _ Hco), Hl. done. }
    assert (conversation (drop (S n) ms) input) as Hconv'.
    { rewrite <-Nat.add_1_r, <-drop_drop, Etodo. done. }
    rewrite (iteration_reads P m q _ n), Hu by done. fold r.
    pose proof (Conn.inv_wg _ _ (conn_inv_reachable c _ Hre)) as Hwg.
    unfold spawnRequest. cbn [requestsWg with_received with_lastID]. rewrite wg_add_Ok by lia.
    rewrite (spawned_one _ _ (Z.of_nat n + 1) m), Hu, Hcur by by destruct (is_startTLS m).
    eapply (sess_ok_request n log σ _ m); try done; destruct (is_startTLS m); simpl; try done; try lia.
    split; [done|]. unfold current in Hcur |- *. simpl. by rewrite Hcur.
Qed.

(** *** Every step *)

Lemma sess_ok_step σ σ' :
  Conn.reachable c (s_conn σ) → sess_ok σ → sess_step σ σ' → sess_ok σ'.
Proof.
  intros Hre (n & log & Hinv) [ev Hdo].
  assert (crashed (s_conn σ) = false) as Hc.
  { unfold sess_do in Hdo. by destruct (crashed (s_conn σ)). }
  pose proof (sess_ok_goroutines n log ev σ σ' Hre Hc Hinv Hdo) as Hg.
  unfold sess_do in Hdo. rewrite Hc in Hdo. pose proof Hinv as (_ & _ & Hco).
  pose proof (co_loop _ _ _ Hco) as Cl. unfold loop_at in Cl.
  destruct ev as [eof|j|j|j|j| | |err]; try exact Hg; clear Hg.
  - destruct (loop (s_conn σ)) eqn:Hl; try done. by eapply sess_ok_read.
  - destruct (loop (s_conn σ)) as [|t stop| | |] eqn:Hl; try done.
    destruct Cl as (_ & _ & _ & k & m & r & -> & _ & _ & Hr & ->). simpl in Hdo.
    rewrite (request_at_slot _ _ Hr) in Hdo. eapply sess_ok_op; [done| |done]. lia.
  - by eapply sess_ok_main.
  - destruct (loop (s_conn σ)) as [| |e|w|] eqn:Hl; try done.
    destruct (conn_close err (s_conn σ)) as [[s' e']|] eqn:Ec; [|done]. injection Hdo as <-.
    apply conn_close_Some in Ec as [_ ->]. by eapply sess_ok_close.
Qed.

Lemma session_ok_run σ σ' :
  Conn.reachable c (s_conn σ) → sess_ok σ → rtc sess_step σ σ' →
  sess_ok σ' ∧ Conn.reachable c (s_conn σ').
Proof.
  intros Hre Hok Hr. induction Hr as [|σ σ1 σ' Hs _ IH]; [done|].
  apply IH; [|by eapply sess_ok_step]. destruct Hs as [ev Hev%sess_do_conn].
  unfold Conn.reachable in *. by etrans.
Qed.

(** ** Sessions go on until the connection is closed *)

Lemma call_goes_on n log σ j t :
  crashed (s_conn σ) = false → sess_inv n log σ → inflight (s_conn σ) !! j = Some t →
  t_status t = Started → ∃ σ', sess_step σ σ'.
Proof.
  intros Hc (_ & Hg & _) Hj Hst.
  destruct (go_flying _ _ _ Hg t (list_elem_of_lookup_2 _ _ _ Hj)) as (k & _ & Hr & _).
  destruct t as [r i st]. simpl in *. subst st. eexists _, (ECall j). unfold sess_do, sess_call.
  by rewrite Hc, Hj, (serveOn_routed r (request_at_ok _ _ Hr)).
Qed.

(** The thread that can make an operation has a goroutine, or is run by the loop. *)
Lemma handlers_go_on n log σ k j X (o : op X) kont :
  crashed (s_conn σ) = false → sess_inv n log σ → s_threads σ !! k = Some (j, Step o kont) →
  ∃ σ', sess_step σ σ'.
Proof.
  intros Hc Hinv Hk. pose proof Hinv as (Ht & [Hf Hp] & Hco).
  destruct (lock_progress _ _ _ _ _ _ _ _ (to_safe _ _ _ _ Ht) (to_lock _ _ _ _ Ht) Hk) as [p' Hst].
  clear k j X o kont Hk. inversion Hst as [k p p'' Hk]; subst. unfold thread_step in Hk. simpl in Hk.
  destruct (s_threads σ !! k) as [[j [a|X o kont]]|] eqn:Ek; try done.
  destruct (exec o k j (s_shared σ)) as [x sh'| |] eqn:Ee; try done.
  assert (k < n)%nat as Hlt by (rewrite <-(to_length _ _ _ _ Ht); by eapply lookup_lt_Some).
  destruct (request_there k) as [r0 Hr0]; [pose proof (to_read _ _ _ _ Ht); lia|].
  destruct (to_answers _ _ _ _ Ht k r0 Hlt Hr0) as (q & Hq & _). rewrite Ek in Hq. injection Hq as -> <-.
  assert (∃ σ', sess_op k (writer k) σ = Some σ') as [σ' Hop].
  { unfold sess_op. rewrite Ek. unfold sess_exec.
    destruct o; try (rewrite Ee; by eexists). simpl. destruct (writeOn _ _ _). by eexists. }
  destruct (Hp k _ _ _ _ Ek) as [(t & Ht' & Hs & Hn)|(t & stop & Hl & Hs)].
  - apply list_elem_of_lookup in Ht' as [i Hi].
    destruct (t_status t) as [|f|] eqn:Est; [by eapply call_goes_on| |done].
    exists σ', (EOp i). destruct (Hf t (list_elem_of_lookup_2 _ _ _ Hi)) as (k' & _ & Hr & Hw & _).
    rewrite (request_at_slot _ _ Hr) in Hs. subst k'. destruct t as [r w st]. simpl in *. subst.
    unfold sess_do. by rewrite Hc, Hi, (request_at_slot _ _ Hr).
  - exists σ', EMainOp. unfold sess_do. rewrite Hc, Hl.
    pose proof (co_loop _ _ _ Hco) as Cl. unfold loop_at in Cl. rewrite Hl in Cl.
    destruct Cl as (_ & _ & _ & k' & m & r & -> & _ & _ & Hr & ->). simpl in *.
    rewrite (request_at_slot _ _ Hr) in *. by subst k'.
Qed.

Lemma goroutines_go_on n log σ j t :
  Conn.reachable c (s_conn σ) → crashed (s_conn σ) = false → sess_inv n log σ →
  inflight (s_conn σ) !! j = Some t → ∃ σ', sess_step σ σ'.
Proof.
  intros Hre Hc Hinv Hj. pose proof Hinv as (Ht & [Hf Hp] & _).
  destruct (t_status t) as [|f|] eqn:Est; [by eapply call_goes_on|..];
    destruct (Hf t (list_elem_of_lookup_2 _ _ _ Hj)) as (k & Hk & Hr & Hw & _); destruct t as [r i st];
    simpl in *; subst.
  - destruct (to_answers _ _ _ _ Ht k r Hk Hr) as (q & Hq & _).
    destruct q as [[o resp]|X o kont]; [|by eapply handlers_go_on].
    destruct o; (eexists _, (EReturn j); unfold sess_do, sess_return;
      by rewrite Hc, Hj, (request_at_slot _ _ Hr), Hq).
  - eexists _, (EDone j). unfold sess_do, sess_done. rewrite Hc, Hj.
    pose proof (Conn.inv_wg _ _ (conn_inv_reachable c _ Hre)) as Hwg. rewrite wg_add_Ok; [done|].
    apply lookup_lt_Some in Hj. lia.
Qed.

Lemma loop_goes_on n log σ :
  Conn.reachable c (s_conn σ) → crashed (s_conn σ) = false → sess_inv n log σ →
  loop (s_conn σ) ≠ Closed → ∃ σ', sess_step σ σ'.
Proof.
  intros Hre Hc Hinv Hl. pose proof Hinv as (Ht & _ & Hco).
  pose proof (co_loop _ _ _ Hco) as Cl. unfold loop_at in Cl.
  destruct (loop (s_conn σ)) as [|t stop|e|w|] eqn:El; [| | |done|done].
  - destruct Cl as [Hconv _]. set (eof := EExternal EOF "EOF").
    assert (∃ σ', sess_read eof σ = Some σ') as [σ' Hrd].
    { unfold sess_read. destruct Hconv as [|b u rest (P & q & -> & _)|b rest Hb|b m todo input (P & q & -> & _)];
        [by eexists..| |by eexists].
      unfold unreadable in Hb. destruct (ber_DecodePacketErr b); [by eexists..|done]. }
    exists σ', (ERead eof). unfold sess_do. by rewrite Hc, El.
  - destruct Cl as (_ & _ & _ & k & m & r & -> & _ & _ & Hr & ->).
    destruct (to_answers _ _ _ _ Ht k r ltac:(lia) Hr) as (q & Hq & _).
    destruct q as [[o resp]|X o kont]; [|by eapply handlers_go_on].
    destruct o; (eexists _, EMainReturn; unfold sess_do, sess_main_return;
      rewrite Hc, El; simpl; by rewrite (request_at_slot _ _ Hr), Hq).
  - destruct (inflight (s_conn σ)) as [|t l] eqn:Ei.
    + eexists _, (EClose None). unfold sess_do. rewrite Hc, El. unfold conn_close.
      pose proof (Conn.inv_wg _ _ (conn_inv_reachable c _ Hre)) as Hwg. rewrite Ei in Hwg.
      by rewrite decide_True.
    + eapply (goroutines_go_on n log σ 0 t); try done. by rewrite Ei.
Qed.

(** When nothing more happens, all is answered, or a delete panicked. *)
Lemma session_finished m spare w input σ :
  dir_ok d m → conversation ms input →
  rtc sess_step (session_start (shared_of d m spare w) input) σ → nf sess_step σ →
  good (s_shared σ) ∧
  (crashed (s_conn σ) = true ∧ delete_panicked (s_threads σ) ∨
   crashed (s_conn σ) = false ∧ loop (s_conn σ) = Closed ∧ inflight (s_conn σ) = [] ∧
   ∃ log, Forall (λ p, (p.1 < length ms)%nat) log ∧
     (∀ k r, request_at k r → complete_answer tls (routed d r) r (said k log)) ∧
     length (writers (s_conn σ)) = S (switches tls ms) ∧
     written (s_conn σ) = (λ '(k, x), (writer k, x)) <$> log ∧ idle_writers (s_conn σ)).
Proof.
  intros Hd Hconv Hr Hnf.
  assert (Conn.reachable c (s_conn (session_start (shared_of d m spare w) input))) as Hre0 by constructor.
  destruct (session_ok_run _ _ Hre0 (sess_ok_start m spare w input Hd Hconv) Hr)
    as [(n & log & Hinv) Hre]. pose proof Hinv as (Ht & [_ Hp] & [Cl Ci Cc Cw Ck]).
  split; [apply (to_safe _ _ _ _ Ht)|]. destruct (crashed (s_conn σ)) eqn:Hc; [left; auto|right].
  assert (loop (s_conn σ) = Closed) as Hl.
  { destruct (loop (s_conn σ)) as [| | | |] eqn:El; [..|done].
    all: exfalso; apply Hnf; eapply (loop_goes_on n log); [done|done|done|by rewrite El]. }
  pose proof (inv_closed _ _ (conn_inv_reachable c _ Hre) Hl) as Hi.
  unfold loop_at in Cl. rewrite Hl in Cl, Cc. subst n. split_and!; [done..|].
  exists log. split; [apply (to_log _ _ _ _ Ht)|]. split_and!; [| |done|done].
  2: { rewrite Cc. unfold writer_of. by rewrite firstn_all. }
  intros k r Hk. destruct (to_answers _ _ _ _ Ht k r (request_at_lt _ _ Hk) Hk) as (q & Hq & Hall).
  destruct q as [x|X o kont]; [done|].
  destruct (Hp k _ X o kont Hq) as [(t & Ht' & _)|(t & stop & Ht' & _)]; [|congruence].
  rewrite Hi in Ht'. by apply elem_of_nil in Ht'.
Qed.
End running.
End session.

(** ** What clients send *)

Section clients.
Context `{L : BerLaws} `{LdapOps}.

Lemma bind_carried m :
  in_int 64 (bind_id m) → AuthChoice m = SimpleAuthChoice →
  Forall control_wf (BindControls m) → bind_size m < 2 ^ 29 →
  carries (Packet_Bytes (pkt (testSimpleBindRequestPacket m))) (MSimpleBind m).
Proof. apply bind_wire. Qed.

Lemma add_carried m :
  in_int 64 (add_id m) → Forall control_wf (AddControls m) → add_size m < 2 ^ 29 →
  carries (Packet_Bytes (pkt (testAddRequestPacket m))) (MAdd m).
Proof. apply add_wire. Qed.

Lemma delete_carried m :
  in_int 64 (delete_id m) → Forall control_wf (DeleteControls m) →
  Z.of_nat (String.length (DeleteDN m)) + controls_size (DeleteControls m) < 2 ^ 29 →
  carries (Packet_Bytes (delete_request m)) (MDelete m).
Proof. apply delete_wire. Qed.

Lemma modify_carried m :
  in_int 64 (modify_id m) → Forall control_wf (ModifyControls m) →
  Forall (λ c, in_int 64 (Operation c)) (Changes m) → modify_size m < 2 ^ 29 →
  carries (Packet_Bytes (pkt (testModifyRequestPacket m)))
    (MModify (mkModifyMessage (modify_id m) (ModifyDN m) (map raw_change (Changes m)) (ModifyControls m))).
Proof. apply modify_wire. Qed.

Lemma unbind_carried m :
  in_int 64 (unbind_id m) → carries (Packet_Bytes (pkt (testUnbindRequestPacket m))) (MUnbind m).
Proof. apply unbind_wire. Qed.

Lemma startTLS_carried id :
  in_int 64 id →
  carries (Packet_Bytes (pkt (testStartTLSRequestPacket id)))
    (MExtended (mkExtendedOperationMessage id ExtendedOperationStartTLS "")).
Proof. intros Hid. by apply unbind_startTLS_wire_roundtrip. Qed.
End clients.

(** ** Properties *)

(** C22. A whole session with the directory ends and every request is answered. A client sends
    any requests that the server can read, StartTLS among them (after a successful one over TLS),
    without waiting for answers, and then unbinds, closes or sends something that is no request;
    the network does not fail and the server is not stopped. However the operations of the loop
    and of the handlers, which run in goroutines of their own, are interleaved, the session
    cannot run forever, and when nothing more can happen, either a delete has panicked and taken
    the process down, or the connection is closed, no goroutine is left and every request has
    its complete answer: there is a log of all responses, each with its request, in which the
    responses of each request are, in order, entries and then one result, of the operation of
    its kind and with its message id (two results for a StartTLS whose handshake failed), and
    each writer of the connection, a new one after each successful StartTLS, carried exactly
    the bytes of the responses of the requests that were read while it was the connection's,
    in the order of the log; responses that are well formed the client reads as they were made. *)
Theorem directory_session_completes `{L : BerLaws} `{LdapOps} `{Folding}
    extra handshake freePort st ct sl opt d srv co c m spare ms input :
  Start freePort st ct sl opt = Ok (d, srv, co) → store_ok m →
  Forall (live m) (users d) → Forall (live m) (groups d) →
  connID c ≠ 0 → router c = srv_router srv →
  conversation c ms input → Z.of_nat (length ms) < 2 ^ 63 - 1 →
  let tls := StartTLS handshake (server d) in
  let step := sess_step extra handshake c in
  let start := session_start (shared_of d m spare ∅) input in
  sn step start ∧
  ∀ σ, rtc step start σ → nf step σ →
    good (s_shared σ) ∧
    (crashed (s_conn σ) = true ∧
       (∃ k r w resp, requests c ms !! k = Some r ∧ routed d r = HDelete ∧
          s_threads σ !! k = Some (w, Ret (Panic "slice bounds out of range", resp))) ∨
     crashed (s_conn σ) = false ∧ loop (s_conn σ) = Closed ∧ inflight (s_conn σ) = [] ∧
     ∃ log,
       Forall (λ p, (p.1 < length ms)%nat) log ∧
       (∀ k r, requests c ms !! k = Some r → complete_answer tls (routed d r) r (said k log)) ∧
       length (writers (s_conn σ)) = S (switches tls ms) ∧
       ∀ i w, writers (s_conn σ) !! i = Some w →
         let sent := written_on i ((λ '(k, x), (writer_of tls ms k, x)) <$> log) in
         w = idle_writer (stream sent) ∧
         (Forall response_wf sent →
          ∃ chunks, stream sent = String.concat "" chunks ∧ Forall2 reads_as chunks sent)).
Proof.
  intros HS Hs Hu Hg Hc Hrt Hconv Hlen tls step start. split; [apply session_sn|]. intros σ Hr Hnf.
  pose proof (Start_spec _ _ _ _ _ _ _ _ HS) as (Er & _ & _ & _ & Htg & _). rewrite Er in Hrt.
  assert (dir_ok d m) as Hd.
  { constructor; [done..|]. intros sid l. rewrite Htg. by rewrite lookup_empty. }
  destruct (session_finished extra handshake c Hc d Hrt ms Hlen m spare ∅ input σ Hd Hconv Hr Hnf)
    as [Hgood [[Hcr (k & r & resp & ? & ? & ?)]|(Hcr & Hl & Hi & log & Hlog & Ha & Hn & Hw & Hidle)]];
    (split; [done|]).
  - left. split; [done|]. by eexists k, r, _, resp.
  - right. split_and!; [done..|]. exists log. split_and!; [done..|]. intros i w Hiw sent.
    pose proof (Hidle i w Hiw) as ->. rewrite Hw. split; [done|]. apply stream_chunks.
Qed.

(** *** A client that takes the server down *)

(** Two requests to delete bob, the last user of the example directory. *)
Definition delete_bob (id : Z) : DeleteMessage := mkDeleteMessage id bob_dn [].
Definition deletes_bytes : list string :=
  [@Packet_Bytes ber_model (@delete_request ber_model (delete_bob 1));
   @Packet_Bytes ber_model (@delete_request ber_model (delete_bob 2))].

(** Both are read and both handlers look for bob before one of them takes the lock. *)
Definition deletes_events : list event :=
  [ERead (EExternal EOF "EOF"); ERead (EExternal EOF "EOF"); ECall 0; ECall 1] ++
  replicate 5 (EOp 0) ++ replicate 5 (EOp 1) ++ replicate 5 (EOp 0) ++ replicate 4 (EOp 1) ++ [EReturn 1].

Definition deletes_run : option session :=
  match started with
  | Ok (d, srv, _) =>
      @sess_run ber_model ldap_plain ascii_folding (λ _, 0%nat) (λ _, None) (mkConn 1 1 (srv_router srv))
        deletes_events (session_start (shared_of d example_store 1 ∅) deletes_bytes)
  | _ => None
  end.

(** The number, operation and code of the results that were written. *)
Definition results_written (s : connState) : list (option (Z * Z * Z)) :=
  map (λ x, (λ res, (res_id res, res_op res, res_code res)) <$> result_of x.2) (written s).

Lemma deletes_run_crashed :
  (λ σ, (crashed (s_conn σ), results_written (s_conn σ))) <$> deletes_run =
  Some (true, [Some (1, ApplicationDelResponse, ResultSuccess);
               Some (2, ApplicationDelResponse, ResultNoSuchObject)]).
Proof. vm_compute. reflexivity. Qed.

Lemma deletes_run_steps d srv co σ :
  started = Ok (d, srv, co) → deletes_run = Some σ →
  rtc (@sess_step ber_model ldap_plain ascii_folding (λ _, 0%nat) (λ _, None) (mkConn 1 1 (srv_router srv)))
    (session_start (shared_of d example_store 1 ∅) deletes_bytes) σ.
Proof. intros E. unfold deletes_run. rewrite E. apply sess_run_steps. Qed.

(** C40. One client can take the server down: when it sends two requests to delete the last user one
    after the other, without waiting, the handlers can both find the user before one of
    them takes the lock; both requests are answered, the first with Success, and then the
    second handler's goroutine panics (it slices beyond the end of [d.users]), which ends the
    process and with it all connections. *)
Theorem pipelined_deletes_crash :
  ∃ d srv co σ, started = Ok (d, srv, co) ∧
    rtc (@sess_step ber_model ldap_plain ascii_folding (λ _, 0%nat) (λ _, None) (mkConn 1 1 (srv_router srv)))
      (session_start (shared_of d example_store 1 ∅) deletes_bytes) σ ∧
    crashed (s_conn σ) = true ∧
    results_written (s_conn σ) =
      [Some (1, ApplicationDelResponse, ResultSuccess);
       Some (2, ApplicationDelResponse, ResultNoSuchObject)].
Proof.
  destruct started as [[[d srv] co]|e|w] eqn:E; [|vm_compute in E; discriminate E..].
  pose proof deletes_run_crashed as (σ & Hr & Hx)%fmap_Some. apply pair_equal_spec in Hx as [Hc Hw].
  exists d, srv, co, σ. split; [reflexivity|]. split; [by apply (deletes_run_steps _ _ _ _ E)|].
  split; [symmetry; exact Hc|symmetry; exact Hw].
Qed.

(** ** Witnesses *)

(** A session that is over. *)
Lemma closed_nf `{BerOps} `{LdapOps} `{Folding} extra handshake c σ :
  loop (s_conn σ) = Closed → inflight (s_conn σ) = [] → nf (sess_step extra handshake c) σ.
Proof.
  intros Hl Hi [σ' [ev Hev]]. unfold sess_do in Hev.
  destruct (crashed (s_conn σ)); [done|]. unfold sess_call, sess_return, sess_done, sess_main_return in Hev.
  rewrite Hl, Hi in Hev. by destruct ev.
Qed.

(** Run a session: of the events that can happen, the handlers' operations come first,
    taking turns. *)
Definition turn (k : nat) : list event :=
  (if Nat.even k then [EOp 0; EOp 1] else [EOp 1; EOp 0]) ++
  [EMainOp; EMainReturn; ECall 1; ECall 0; ERead (EExternal EOF "EOF"); EReturn 0; EReturn 1; EDone 0;
   EDone 1; EClose None].

Section drive.
Context `{BerOps} `{LdapOps} `{Folding}.
Variables (extra : nat → nat) (handshake : handle → option error) (c : conn).

Fixpoint first_event (evs : list event) (σ : session) : option session :=
  match evs with
  | [] => None
  | ev :: evs =>
      match sess_do extra handshake c ev σ with Some σ' => Some σ' | None => first_event evs σ end
  end.

Fixpoint drive (fuel : nat) (σ : session) : session :=
  match fuel with
  | O => σ
  | S fuel => match first_event (turn fuel) σ with Some σ' => drive fuel σ' | None => σ end
  end.

Lemma drive_steps fuel σ : rtc (sess_step extra handshake c) σ (drive fuel σ).
Proof.
  revert σ. induction fuel as [|fuel IH]; intros σ; [constructor|]. cbn [drive].
  assert (∀ evs σ', first_event evs σ = Some σ' → sess_step extra handshake c σ σ') as Hf.
  { intros evs. induction evs as [|ev evs IHe]; intros σ'; simpl; [done|].
    destruct (sess_do extra handshake c ev σ) eqn:E; [|by apply IHe]. intros [= <-]. by exists ev. }
  destruct (first_event (turn fuel) σ) as [σ'|] eqn:E; [|constructor].
  eapply rtc_l; [by eapply Hf|apply IH].
Qed.
End drive.

(** Bob binds and deletes himself, starts TLS, binds again and unbinds. *)
Definition session_bind (id : Z) : SimpleBindMessage :=
  mkSimpleBindMessage id SimpleAuthChoice bob_dn "password" [].
Definition session_delete : DeleteMessage := mkDeleteMessage 2 "cn=bob" [].
Definition session_messages : list Message :=
  [MSimpleBind (session_bind 1); MDelete session_delete;
   MExtended (mkExtendedOperationMessage 3 ExtendedOperationStartTLS "");
   MSimpleBind (session_bind 4)].
Definition session_bytes : list string :=
  [@Packet_Bytes ber_model (pkt (@testSimpleBindRequestPacket ber_model (session_bind 1)));
   @Packet_Bytes ber_model (@delete_request ber_model session_delete);
   @Packet_Bytes ber_model (pkt (@testStartTLSRequestPacket ber_model 3));
   @Packet_Bytes ber_model (pkt (@testSimpleBindRequestPacket ber_model (session_bind 4)));
   @Packet_Bytes ber_model (pkt (@testUnbindRequestPacket ber_model (mkUnbindMessage 5)))].

Lemma session_conversation c :
  @conversation ber_model ldap_plain c session_messages session_bytes.
Proof.
  constructor; [|done|constructor; [|done|constructor; [|done|constructor; [|done|]]]].
  - apply (@bind_carried ber_model ber_model_laws); [by vm_compute|done|constructor|by vm_compute].
  - apply (@delete_carried ber_model ber_model_laws); [by vm_compute|constructor|by vm_compute].
  - apply (@startTLS_carried ber_model ber_model_laws). by vm_compute.
  - apply (@bind_carried ber_model ber_model_laws); [by vm_compute|done|constructor|by vm_compute].
  - eapply (conversation_unbind _ _ (mkUnbindMessage 5)).
    apply (@unbind_carried ber_model ber_model_laws). by vm_compute.
Qed.

(** How that session ends. *)
Definition session_end : option session :=
  match started with
  | Ok (d, srv, _) =>
      Some (@drive ber_model ldap_plain ascii_folding (λ _, 0%nat) (λ _, None) (mkConn 1 1 (srv_router srv)) 200
        (session_start (shared_of d example_store 1 ∅) session_bytes))
  | _ => None
  end.

Lemma session_end_closed :
  (λ σ, (loop (s_conn σ), inflight (s_conn σ), crashed (s_conn σ), length (writers (s_conn σ)),
         map fst (written (s_conn σ)))) <$> session_end =
  Some (Closed, [], false, 2%nat, [0; 0; 0; 1]%nat).
Proof. vm_compute. reflexivity. Qed.

Lemma directory_session_completes_witness :
  ∃ d srv co σ log, started = Ok (d, srv, co) ∧ session_end = Some σ ∧
    rtc (@sess_step ber_model ldap_plain ascii_folding (λ _, 0%nat) (λ _, None) (mkConn 1 1 (srv_router srv)))
      (session_start (shared_of d example_store 1 ∅) session_bytes) σ ∧
    loop (s_conn σ) = Closed ∧ length (writers (s_conn σ)) = 2%nat ∧
    ∀ k r, requests (mkConn 1 1 (srv_router srv)) session_messages !! k = Some r →
      complete_answer (StartTLS (λ _, None) (server d)) (@routed ascii_folding d r) r (said k log).
Proof.
  destruct started as [[[d srv] co]|e|w] eqn:E; [|vm_compute in E; discriminate E..].
  destruct (started_example d srv co E) as (Hu & Hg & _).
  pose proof session_end_closed as Hend. unfold session_end in *. rewrite E in *.
  set (σ := drive _ _ _ _ _) in *.
  assert (rtc (@sess_step ber_model ldap_plain ascii_folding (λ _, 0%nat) (λ _, None)
    (mkConn 1 1 (srv_router srv))) (session_start (shared_of d example_store 1 ∅) session_bytes) σ)
    as Hr by apply drive_steps.
  clearbody σ. simpl in Hend. injection Hend as Hl Hi Hc Hw _.
  destruct (@directory_session_completes ber_model ber_model_laws ldap_plain ascii_folding (λ _, 0%nat) (λ _, None)
    389 2 3 1 example_opts d srv co (mkConn 1 1 (srv_router srv)) example_store 1 session_messages
    session_bytes E) as [_ Hx].
  all: rewrite ?Hu, ?Hg.
  - apply example_ok.
  - apply example_ok.
  - constructor.
  - done.
  - done.
  - apply session_conversation.
  - by vm_compute.
  - destruct (Hx σ Hr (closed_nf _ _ _ σ Hl Hi)) as [_ [[Hcr _]|(_ & _ & _ & log & _ & Ha & _)]].
    { rewrite Hc in Hcr. discriminate Hcr. }
    exists d, srv, co, σ, log. split; [reflexivity|]. split; [reflexivity|].
    split; [exact Hr|]. split; [exact Hl|]. split; [exact Hw|exact Ha].
Defined.
