(* ===== verification/DirFixtures.v ===== *)
(** The test directory around its handlers: the test it runs for
    ([testdirectory/testingt.go]), its certificates ([testdirectory/testing.go])
    and the rest of [testdirectory/directory.go]: waiting for the server, Stop,
    Conn, Cert, ClientCert and ClientKey.

    Cryptography, PEM and the network are parameters.  A draw of randomness or
    of the time is numbered by its place in the code, which has no branches
    between draws.  A failed [require] ends the test: [FailNow] of the
    directory's logger panics, and that of [*testing.T] does not return, which
    is a panic here, too. *)
From Stdlib Require Import Ascii.
From stdpp Require Import base decidable option list strings gmap.
From Stdlib Require Import ZArith Lia.
From S2P Require Import Prelude GoStd Ber BerModel Codes Options Control Packet Entry Attribute Parameters Message Response Request Mux Conn Server DirOptions Directory.
Import GoStrings.

(** ** The test *)

(** [testdirectory/testingt.go:31-35] Logger; the [hclog.Logger] is an address *)
Record Logger : Type := mkLogger { logger_Logger : handle }.

(** [testdirectory/testingt.go:37-45] NewLogger *)
Definition NewLogger (logger : option handle) : outcome Logger :=
  match logger with
  | None => Err (errorsNew "missing logger")
  | Some l => Ok (mkLogger l)
  end.

(** A line of a log: its level, message and arguments. *)
Inductive level : Type := LError | LInfo | LStandard.
Record logLine : Type := mkLogLine { line_to : handle; line_level : level; line_msg : string;
  line_args : list string }.

(** [testdirectory/testingt.go:47-50] Errorf *)
Definition Logger_Errorf (l : Logger) (format : string) (args : list string) (log : list logLine)
    : list logLine := log ++ [mkLogLine (logger_Logger l) LError format args].
(** [testdirectory/testingt.go:52-55] Infof *)
Definition Logger_Infof (l : Logger) (format : string) (args : list string) (log : list logLine)
    : list logLine := log ++ [mkLogLine (logger_Logger l) LInfo format args].
(** [testdirectory/testingt.go:62-64] Log *)
Definition Logger_Log (l : Logger) (args : list string) (log : list logLine)
    : list logLine := log ++ [mkLogLine (logger_Logger l) LStandard "" args].
(** [testdirectory/testingt.go:57-60] FailNow *)
Definition Logger_FailNow : outcome unit :=
  Panic "testing.T failed, see logs for output (if any)".

(** [testdirectory/testingt.go:12-18] TestingT: a [*testing.T], or the logger above *)
Inductive TestingT : Type :=
| StdT
| LoggerT (l : Logger).

(** [testdirectory/testingt.go:20-21] CleanupT: has it a [Cleanup]? *)
Definition is_CleanupT (t : TestingT) : bool :=
  match t with StdT => true | LoggerT _ => false end.
(** [testdirectory/testingt.go:23-24] HelperT: has it a [Helper]? *)
Definition is_HelperT (t : TestingT) : bool :=
  match t with StdT => true | LoggerT _ => false end.

(** A failed requirement. *)
Definition failNow {A} (t : TestingT) : outcome A :=
  match t with
  | StdT => Panic "testing.T failed"
  | LoggerT _ => Panic "testing.T failed, see logs for output (if any)"
  end.
(** [require.NoError(err)] after [a, err := m] *)
Definition requireNoError {A} (t : TestingT) (m : outcome A) : outcome A :=
  match m with
  | Ok a => Ok a
  | Err _ => failNow t
  | Panic w => Panic w
  end.
(** [require.Len], [require.NotNil] and the like *)
Definition require (t : TestingT) (b : bool) : outcome unit := if b then Ok () else failNow t.

(** ** Certificates *)

Record pkixName : Type := mkName {
  Organization : list string; Country : list string; Province : list string;
  Locality : list string; StreetAddress : list string; PostalCode : list string;
}.

(** What the code sets of an [x509.Certificate]; [KeyUsage] is its two flags. *)
Record Certificate : Type := mkCertificate {
  SerialNumber : Z;
  Subject : pkixName;
  IPAddresses : list string;
  DNSNames : list string;
  EmailAddresses : list string;
  NotBefore : Z;
  NotAfter : Z;
  IsCA : bool;
  SubjectKeyId : list Z;
  ExtKeyUsage_ClientAuth : bool;
  ExtKeyUsage_ServerAuth : bool;
  KeyUsage_DigitalSignature : bool;
  KeyUsage_CertSign : bool;
  BasicConstraintsValid : bool;
}.

(** [crypto/tls], [crypto/x509], [crypto/ecdsa] and [encoding/pem]. *)
Class Crypto : Type := {
  PrivateKey : Type;
  PublicKey : Type;
  public : PrivateKey → PublicKey;
  GenerateKey : nat → outcome PrivateKey;
  rand_Int : nat → Z → outcome Z;
  time_Now : nat → Z;
  AddDate : Z → Z → Z;
  CreateCertificate : nat → Certificate → Certificate → PublicKey → PrivateKey → outcome string;
  MarshalPKCS8PrivateKey : PrivateKey → outcome string;
  pem_Encode : string → string → string;
  X509KeyPair : string → string → outcome (list string * PrivateKey);
  ParseIP : string → option string;
  AppendCertsFromPEM : list string → string → list string;
  Verify : list string → string → bool;
}.

(** What is relied on: a certificate verifies against a pool that has the CA that signed it,
    and PEM and key pairs can be read back. *)
Class CryptoLaws (C : Crypto) : Prop := {
  Verify_signed n n' ca t key pub caDER der pool :
    IsCA ca = true → KeyUsage_CertSign ca = true → BasicConstraintsValid ca = true →
    CreateCertificate n ca ca (public key) key = Ok caDER →
    CreateCertificate n' t ca pub key = Ok der → caDER ∈ pool → Verify pool der = true;
  AppendCerts_pem pool n t ca pub key der :
    CreateCertificate n t ca pub key = Ok der →
    AppendCertsFromPEM pool (pem_Encode "CERTIFICATE" der) = pool ++ [der];
  KeyPair_pem n t ca cakey key der k8 certs key' :
    CreateCertificate n t ca (public key) cakey = Ok der →
    MarshalPKCS8PrivateKey key = Ok k8 →
    X509KeyPair (pem_Encode "CERTIFICATE" der) (pem_Encode "PRIVATE KEY" k8) = Ok (certs, key') →
    certs = [der] ∧ key' = key;
}.

Section tls.
Context `{C : Crypto}.

Record tlsCertificate : Type := mkTlsCertificate { cert_chain : list string; cert_key : PrivateKey }.
Inductive clientAuth : Type := NoClientCert | RequireAndVerifyClientCert.
Record tlsConfig : Type := mkTlsConfig {
  Certificates : list tlsCertificate;
  RootCAs : option (list string);
  ClientCAs : option (list string);
  ClientAuth : clientAuth;
}.

(** [testdirectory/testing.go:246-255] genSerialNumber *)
Definition genSerialNumber (t : TestingT) (n : nat) : outcome Z :=
  let serialNumberLimit := Z.shiftl 1 128 in
  requireNoError t (rand_Int n serialNumberLimit).

(** [testdirectory/testing.go:213-244] genCert *)
Definition genCert (t : TestingT) (n : nat) (ca : Certificate) (caPriv : PrivateKey)
    (certTemplate : Certificate) : outcome tlsCertificate :=
  certPrivKey ← requireNoError t (GenerateKey n);
  certBytes ← requireNoError t (CreateCertificate n certTemplate ca (public certPrivKey) caPriv);
  let certPEM := pem_Encode "CERTIFICATE" certBytes in
  privBytes ← requireNoError t (MarshalPKCS8PrivateKey certPrivKey);
  let certPrivKeyPEM := pem_Encode "PRIVATE KEY" privBytes in
  newCert ← requireNoError t (X509KeyPair certPEM certPrivKeyPEM);
  Ok (mkTlsCertificate newCert.1 newCert.2).

(** [testdirectory/testing.go:117-124] certSubject *)
Definition certSubject : pkixName :=
  mkName ["Acme, INC."] ["US"] [""] ["New York"] ["Empire State Building"] ["10118"].

(** [testdirectory/testing.go:126-135] The CA certificate, with its serial number. *)
Definition caTemplate (serial : Z) : Certificate :=
  mkCertificate serial certSubject [] [] [] (time_Now 0) (AddDate (time_Now 1) 1) true []
    true true true true true.

(** [testdirectory/testing.go:159-175] The server's certificate. *)
Definition serverTemplate (serial : Z) (host : string) : Certificate :=
  let ipAddrs := match ParseIP host with Some ip => [ip] | None => [] end in
  mkCertificate serial certSubject ipAddrs [host] [] (time_Now 2) (AddDate (time_Now 3) 1) false
    [1; 2; 3; 4; 6] true true true false true.

(** [testdirectory/testing.go:195-205] The certificate of an mTLS client. *)
Definition clientTemplate : Certificate :=
  mkCertificate 2019 certSubject [] [] ["mtls.client@example.com"] (time_Now 4)
    (AddDate (time_Now 5) 1) false [1; 2; 3; 4; 6] true true true false true.

(** [testdirectory/testing.go:110-211] GetTLSConfig *)
Definition GetTLSConfig (t : TestingT) (opt : list DirOptions.Option)
    : outcome (tlsConfig * tlsConfig) :=
  caSerial ← genSerialNumber t 0;
  let ca := caTemplate caSerial in
  caPriv ← requireNoError t (GenerateKey 0);
  caBytes ← requireNoError t (CreateCertificate 0 ca ca (public caPriv) caPriv);
  let caPEM := pem_Encode "CERTIFICATE" caBytes in
  privBytes ← requireNoError t (MarshalPKCS8PrivateKey caPriv);
  let caPrivKeyPEM := pem_Encode "PRIVATE KEY" privBytes in
  let opts := getOpts opt in
  serial ← genSerialNumber t 1;
  serverCert ← genCert t 1 ca caPriv (serverTemplate serial (withHost opts));
  let certpool := AppendCertsFromPEM [] caPEM in
  if withMTLS opts then
    clientCert ← genCert t 2 ca caPriv clientTemplate;
    Ok (mkTlsConfig [serverCert] None (Some certpool) RequireAndVerifyClientCert,
        mkTlsConfig [clientCert] (Some certpool) None NoClientCert)
  else
    Ok (mkTlsConfig [serverCert] None None NoClientCert,
        mkTlsConfig [] (Some certpool) None NoClientCert).

(** [testdirectory/directory.go:766-782] Cert, for a directory with this server configuration *)
Definition Cert (t : TestingT) (server : option tlsConfig) : outcome string :=
  match server with
  | None => failNow t
  | Some s =>
      require t (bool_decide (length (Certificates s) = 1%nat));;
      cert ← index (Certificates s) 0;
      require t (bool_decide (length (cert_chain cert) = 1%nat));;
      der ← index (cert_chain cert) 0;
      Ok (pem_Encode "CERTIFICATE" der)
  end.

(** [testdirectory/directory.go:800-817] ClientCert, with this client configuration *)
Definition ClientCert (t : TestingT) (client : option tlsConfig) : outcome string :=
  match client with
  | None => failNow t
  | Some c =>
      require t (bool_decide (length (Certificates c) = 1%nat));;
      cert ← index (Certificates c) 0;
      require t (bool_decide (length (cert_chain cert) = 1%nat));;
      der ← index (cert_chain cert) 0;
      Ok (pem_Encode "CERTIFICATE" der)
  end.

(** [testdirectory/directory.go:819-834] ClientKey *)
Definition ClientKey (t : TestingT) (client : option tlsConfig) : outcome string :=
  match client with
  | None => failNow t
  | Some c =>
      require t (bool_decide (length (Certificates c) = 1%nat));;
      cert ← index (Certificates c) 0;
      privBytes ← requireNoError t (MarshalPKCS8PrivateKey (cert_key cert));
      Ok (pem_Encode "PRIVATE KEY" privBytes)
  end.
End tls.

(** [testdirectory/testing.go:95-108] FreePort: [resolve] and [listen] are what the network
    returns, [listen] with the port *)
Definition FreePort (t : TestingT) (resolve : outcome unit) (listen : outcome Z) : outcome Z :=
  requireNoError t resolve;;
  requireNoError t listen.

(** ** Certificates that verify *)

Lemma requireNoError_Ok {A} t (m : outcome A) a : requireNoError t m = Ok a → m = Ok a.
Proof. destruct m; simpl; [done|by destruct t|done]. Qed.

Section verifies.
Context `{C : Crypto} `{L : !CryptoLaws C}.

(** A certificate of the CA. *)
Lemma genCert_spec t n ca caPriv template cert :
  genCert t n ca caPriv template = Ok cert →
  ∃ der, cert_chain cert = [der] ∧
    CreateCertificate n template ca (public (cert_key cert)) caPriv = Ok der.
Proof.
  unfold genCert. intros Hg.
  destruct (requireNoError t (GenerateKey n)) as [key|e|w] eqn:Hk; [|done..]. simpl in Hg.
  destruct (requireNoError t (CreateCertificate _ _ _ _ _)) as [der|e|w] eqn:Hc; [|done..]. simpl in Hg.
  destruct (requireNoError t (MarshalPKCS8PrivateKey key)) as [k8|e|w] eqn:Hm; [|done..]. simpl in Hg.
  destruct (requireNoError t (X509KeyPair _ _)) as [[certs key']|e|w] eqn:Hp; [|done..]. simpl in Hg.
  injection Hg as <-. apply requireNoError_Ok in Hc, Hm, Hp.
  destruct (KeyPair_pem _ _ _ _ _ _ _ _ _ Hc Hm Hp) as [-> ->]. by exists der.
Qed.

(** The configurations [GetTLSConfig] makes fit each other: the client accepts the server's
    certificate, and with [WithMTLS] the server asks every client for a certificate and
    accepts the one of the client configuration; without it the server asks for none and the
    client configuration has none. *)
Theorem tls_configs_match t opt srv cl :
  GetTLSConfig t opt = Ok (srv, cl) →
  (∃ sc der pool, Certificates srv = [sc] ∧ cert_chain sc = [der] ∧ RootCAs cl = Some pool ∧
     Verify pool der = true) ∧
  if withMTLS (getOpts opt) then
    ClientAuth srv = RequireAndVerifyClientCert ∧
    ∃ cc der pool, Certificates cl = [cc] ∧ cert_chain cc = [der] ∧ ClientCAs srv = Some pool ∧
      Verify pool der = true ∧ ClientCert t (Some cl) = Ok (pem_Encode "CERTIFICATE" der)
  else
    ClientAuth srv = NoClientCert ∧ Certificates cl = [] ∧ ClientCert t (Some cl) = failNow t.
Proof.
  unfold GetTLSConfig. intros Hg.
  destruct (genSerialNumber t 0) as [s0|e|w]; [|done..]. simpl in Hg.
  destruct (requireNoError t (GenerateKey 0)) as [key|e|w]; [|done..]. simpl in Hg.
  destruct (requireNoError t (CreateCertificate _ _ _ _ _)) as [ca|e|w] eqn:Hca; [|done..]. simpl in Hg.
  destruct (requireNoError t (MarshalPKCS8PrivateKey key)) as [k8|e|w]; [|done..]. simpl in Hg.
  destruct (genSerialNumber t 1) as [s1|e|w]; [|done..]. simpl in Hg.
  destruct (genCert t 1 _ _ _) as [sc|e|w] eqn:Hs; [|done..]. simpl in Hg.
  apply requireNoError_Ok in Hca. apply genCert_spec in Hs as (sder & Hsc & Hs).
  rewrite (AppendCerts_pem [] _ _ _ _ _ _ Hca) in Hg. simpl in Hg.
  assert (∀ n tm pub der, CreateCertificate n tm (caTemplate s0) pub key = Ok der →
    Verify [ca] der = true) as Hv.
  { intros n tm pub der Hd. eapply Verify_signed; [| | |exact Hca|exact Hd|by left]; done. }
  destruct (withMTLS (getOpts opt)).
  - destruct (genCert t 2 _ _ _) as [cc|e|w] eqn:Hc; [|done..]. injection Hg as <- <-.
    apply genCert_spec in Hc as (cder & Hcc & Hc). split; [eexists _, _, _; eauto|].
    split; [done|]. exists cc, cder, [ca]. split_and!; [done..|eauto|].
    unfold ClientCert. simpl. by rewrite Hcc.
  - injection Hg as <- <-. split; [eexists _, _, _; eauto|].
    split_and!; [done|done|]. by destruct t.
Qed.
End verifies.

(** ** Starting, stopping, connecting *)

(** [testdirectory/directory.go:168-175] The loop of Start that waits for the server; [ready n]
    is what the [n]-th call of Ready returns *)
Fixpoint waitReady (fuel : nat) (ready : nat → bool) (n : nat) : option nat :=
  match fuel with
  | O => None
  | S fuel => if ready n then Some n else waitReady fuel ready (S n)
  end.

Section stop.
Context {σ : Type}.
(** [d.s.Stop()] *)
Variable srvStop : σ → option error * σ.

(** [testdirectory/directory.go:165-167] The functions Start registers with [t.Cleanup]. *)
Definition startCleanups (t : TestingT) : list (σ → σ) :=
  if is_CleanupT t then [λ s, snd (srvStop s)] else [].

(** [testdirectory/directory.go:181-190] Stop; its error is logged *)
Definition Directory_Stop (t : TestingT) (s : σ) : σ :=
  if is_CleanupT t then s else snd (srvStop s).

(** A directory that is stopped and whose test ends has stopped its server exactly once. *)
Lemma directory_stopped_once t s :
  foldl (λ s f, f s) (Directory_Stop t s) (startCleanups t) = snd (srvStop s).
Proof. by destruct t. Qed.
End stop.

(** Start returns as soon as the server is ready, and not before. *)
Lemma waitReady_spec ready n k :
  (∀ j, (n ≤ j < n + k)%nat → ready j = false) → ready (n + k)%nat = true →
  waitReady (S k) ready n = Some (n + k)%nat.
Proof.
  revert n. induction k as [|k IH]; intros n Hf Ht.
  - rewrite Nat.add_0_r in *. simpl. by rewrite Ht.
  - change (waitReady (S (S k)) ready n)
      with (if ready n then Some n else waitReady (S k) ready (S n)). rewrite Hf by lia. rewrite IH.
    + f_equal. lia.
    + intros j Hj. apply Hf. lia.
    + by replace (S n + k)%nat with (n + S k)%nat by lia.
Qed.

Lemma waitReady_never ready fuel n : (∀ j, ready j = false) → waitReady fuel ready n = None.
Proof. intros Hf. revert n. induction fuel as [|fuel IH]; intros n; simpl; [done|]. by rewrite Hf. Qed.

(** What an operation tells [backoff.Retry]. *)
Inductive opResult : Type := OpNil | OpPermanent (e : error) | OpRetry (e : error).

(** [backoff.Retry] with a constant back-off: it calls the operation until it returns nil or a
    permanent error. *)
Class Backoff : Type := { Retry {σ : Type} : (σ → opResult * σ) → σ → option error * σ }.
Class BackoffLaws (B : Backoff) : Prop := {
  Retry_nil {σ} (op : σ → opResult * σ) s s' : op s = (OpNil, s') → Retry op s = (None, s');
  Retry_permanent {σ} (op : σ → opResult * σ) s s' e :
    op s = (OpPermanent e, s') → Retry op s = (Some e, s');
}.

(** The local variables of Conn, and the dials so far. *)
Record connVars : Type := mkConnVars {
  cv_conn : option handle;
  retryAttempt : Z;
  dials : nat;
}.

Section conn.
Context `{B : Backoff}.
(** [ldap.DialURL]: the [n]-th call, with the URL and the TLS configuration. *)
Variable DialURL : nat → string → option (option handle) → handle + error.

(** [testdirectory/directory.go:741-748] retryErrFn *)
Definition retryErrFn (e : error) (v : connVars) : opResult * connVars :=
  if decide (0 < retryAttempt v)
  then (OpPermanent e, mkConnVars (cv_conn v) (retryAttempt v - 1) (dials v))
  else (OpPermanent e, v).

(** [ldaps://host:port] or [ldap://host:port] *)
Definition connURL (d : Directory) : string :=
  (if useTLS d then "ldaps://" else "ldap://") +:+ Host d +:+ ":" +:+ Strconv.FormatInt (Port d).

(** [testdirectory/directory.go:749-761] The operation Conn retries. *)
Definition connOp (d : Directory) (v : connVars) : opResult * connVars :=
  match DialURL (dials v) (connURL d) (if useTLS d then Some (client d) else None) with
  | inl c => (OpNil, mkConnVars (Some c) (retryAttempt v) (S (dials v)))
  | inr e => retryErrFn e (mkConnVars None (retryAttempt v) (S (dials v)))
  end.

(** [testdirectory/directory.go:731-764] Conn: the connection, and the variables at the end *)
Definition Directory_Conn (t : TestingT) (d : Directory) : outcome (option handle) * connVars :=
  match Retry (connOp d) (mkConnVars None 5 0) with
  | (None, v) => (Ok (cv_conn v), v)
  | (Some _, v) => (failNow t, v)
  end.

(** [Conn] dials once: its function for errors marks every error as permanent, also while
    there are attempts left, so that a first dial that fails fails the test, whatever a second
    one would have done. *)
Theorem conn_never_retries `{!BackoffLaws B} t d :
  let '(o, v) := Directory_Conn t d in
  dials v = 1%nat ∧
  match DialURL 0 (connURL d) (if useTLS d then Some (client d) else None) with
  | inl c => o = Ok (Some c)
  | inr _ => o = failNow t
  end.
Proof.
  unfold Directory_Conn. destruct (DialURL 0 (connURL d) _) as [c|e] eqn:Ed.
  - rewrite (Retry_nil _ _ (mkConnVars (Some c) 5 1)); [done|]. unfold connOp. simpl. by rewrite Ed.
  - rewrite (Retry_permanent _ _ (mkConnVars None 4 1) e); [by destruct t|].
    unfold connOp. simpl. by rewrite Ed.
Qed.
End conn.

(** ** Models of the libraries *)

(** Keys are characters, a certificate is the key that signed it and the key it is for. *)
Definition crypto_model : Crypto := {|
  PrivateKey := ascii;
  PublicKey := ascii;
  public := λ k, k;
  GenerateKey := λ n, Ok (Ascii.ascii_of_nat n);
  rand_Int := λ n limit, Ok (Z.of_nat n mod limit);
  time_Now := Z.of_nat;
  AddDate := λ t years, t + years;
  CreateCertificate := λ _ _ _ pub key, Ok (String key (String pub ""));
  MarshalPKCS8PrivateKey := λ k, Ok (String k "");
  pem_Encode := λ ty b, ty +:+ ":" +:+ b;
  X509KeyPair := λ cert key,
    match drop_str 12 key with
    | String k _ => Ok ([drop_str 12 cert], k)
    | _ => Err (errorsNew "tls: failed to parse private key")
    end;
  ParseIP := λ _, None;
  AppendCertsFromPEM := λ pool pem, pool ++ [drop_str 12 pem];
  Verify := λ pool der,
    existsb (λ ca, match ca, der with
                   | String _ (String subject _), String signer _ => bool_decide (subject = signer)
                   | _, _ => false
                   end) pool;
|}.

#[export] Instance crypto_model_laws : CryptoLaws crypto_model.
Proof.
  split; simpl.
  - intros n n' ca t key pub caDER der pool _ _ _ [= <-] [= <-] Hin.
    apply existsb_exists. exists (String key (String key "")). split; [by apply list_elem_of_In|].
    by apply bool_decide_eq_true.
  - by intros pool n t ca pub key der [= <-].
  - by intros n t ca cakey key der k8 certs key' [= <-] [= <-] [= <- <-].
Qed.

(** Call at most [fuel] times. *)
Fixpoint retry_times {σ} (fuel : nat) (op : σ → opResult * σ) (s : σ) : option error * σ :=
  match op s with
  | (OpNil, s) => (None, s)
  | (OpPermanent e, s) => (Some e, s)
  | (OpRetry e, s) =>
      match fuel with
      | O => (Some e, s)
      | S fuel => retry_times fuel op s
      end
  end.
Definition backoff_model : Backoff := {| Retry σ := @retry_times σ 10 |}.

#[export] Instance backoff_model_laws : BackoffLaws backoff_model.
Proof. split; intros σ op s s'; simpl; [intros ->|intros e ->]; done. Qed.

(** A directory whose first dial fails and whose second would not. *)
Definition flaky (n : nat) (url : string) (c : option (option handle)) : handle + error :=
  match n with O => inr (errorsNew "connection refused") | S _ => inl 7 end.
Definition plain_dir : Directory :=
  mkDirectory (Some 1) 389 "localhost" false None None [] [] ∅ false [] "" "".

Lemma conn_never_retries_witness :
  fst (@Directory_Conn backoff_model flaky StdT plain_dir) = failNow StdT.
Proof.
  pose proof (@conn_never_retries backoff_model flaky backoff_model_laws StdT plain_dir) as Hc.
  destruct (Directory_Conn _ _ _) as [o v]. apply Hc.
Defined.

Lemma tls_configs_match_witness :
  ∃ srv cl, @GetTLSConfig crypto_model StdT [WithMTLS] = Ok (srv, cl) ∧
    ClientAuth srv = RequireAndVerifyClientCert.
Proof.
  destruct (@GetTLSConfig crypto_model StdT [WithMTLS]) as [[srv cl]|e|w] eqn:E;
    [|vm_compute in E; discriminate E..].
  exists srv, cl. split; [done|].
  apply (@tls_configs_match crypto_model crypto_model_laws StdT [WithMTLS] srv cl E).
Defined.
