(* ===== verification/Example.v ===== *)
(** The example server: [examples/simple/main.go].

    Its handlers share the set of authenticated connections.  A handler's
    writes do not influence it (their errors are ignored), so a handler is a
    function from that set and a request to the set afterwards and the
    responses it writes, in order.  Each handler is one step here; the code's
    map has no lock.  What main does after it started the server is a step
    relation on top of that of Server.v. *)
From Stdlib Require Import Ascii.
From stdpp Require Import base decidable option list strings gmap relations.
From Stdlib Require Import ZArith Lia.
From S2P Require Import Prelude GoStd Ber BerModel Codes Options Control Packet Entry Attribute Parameters Message Response Request Mux Conn Server DirOptions Directory DirectoryMain.
Import GoStrings.

Module Simple.

(** [examples/simple/main.go:52-73] bindHandler *)
Definition bindHandler (authenticatedConnections : gset Z) (r : Request) : gset Z * list Response :=
  let resp := NewBindResponse r [WithResponseCode ResultInvalidCredentials] in
  match GetSimpleBindMessage r with
  | Ok m =>
      if decide (UserName m = "uid=alice") then
        ({[ConnectionID r]} ∪ authenticatedConnections,
         [RBind (mkBindResponse (SetResultCode ResultSuccess (bind_base resp)) (bind_controls resp))])
      else (authenticatedConnections, [RBind resp])
  | _ => (authenticatedConnections, [RBind resp])
  end.

(** [examples/simple/main.go:96-110] The entry of alice. *)
Definition aliceEntry (r : Request) : SearchResponseEntry :=
  let entry := NewSearchResponseEntry r "uid=alice,ou=people,cn=example,dc=org"
    [WithAttributes (list_to_map
       [("objectclass", ["top"; "person"; "organizationalPerson"; "inetOrgPerson"]);
        ("uid", ["alice"]); ("cn", ["alice eve smith"]); ("givenname", ["alice"]);
        ("sn", ["smith"]); ("ou", ["people"]);
        ("description", ["friend of Rivest, Shamir and Adleman"]);
        ("password", ["{SSHA}U3waGJVC7MgXYc0YQe7xv7sSePuTP8zN"])])] in
  SearchResponseEntry_AddAttribute "email" ["alice@example.org"] entry.

(** [examples/simple/main.go:115-121] The entry of the people. *)
Definition peopleEntry (r : Request) : SearchResponseEntry :=
  NewSearchResponseEntry r "ou=people,cn=example,dc=org"
    [WithAttributes (list_to_map
       [("objectclass", ["organizationalUnit"]); ("ou", ["people"])])].

(** [examples/simple/main.go:75-126] searchHandler *)
Definition searchHandler (authenticatedConnections : gset Z) (r : Request)
    : gset Z * list Response :=
  let resp := NewSearchDoneResponse r [WithResponseCode ResultNoSuchObject] in
  let setCode c := mkSearchResponseDone (SetResultCode c (done_base resp)) (done_controls resp) in
  if decide (ConnectionID r ∈ authenticatedConnections) then
    match GetSearchMessage r with
    | Ok m =>
        let alice := Contains (Filter m) "uid=alice" ||
          bool_decide (BaseDN m = "uid=alice,ou=people,cn=example,dc=org") in
        let people := bool_decide (BaseDN m = "ou=people,cn=example,dc=org") in
        (authenticatedConnections,
         (if alice then [RSearchEntry (aliceEntry r)] else []) ++
         (if people then [RSearchEntry (peopleEntry r)] else []) ++
         [RSearchDone (if alice || people then setCode ResultSuccess else resp)])
    | _ => (authenticatedConnections, [RSearchDone resp])
    end
  else (authenticatedConnections, [RSearchDone (setCode ResultAuthorizationDenied)]).

(** The handlers as function values. *)
Definition bindHandle : handle := 1.
Definition searchHandle : handle := 2.

(** [examples/simple/main.go:34-41] The registrations; their errors are ignored. *)
Definition registrations : list registration :=
  [RegBind (Some bindHandle) []; RegSearch (Some searchHandle) [WithLabel "All Searches"]].

(** [examples/simple/main.go:17-41] main up to Run: the server, or the error it exits with;
    [l] is the logger *)
Definition simple_main (l serverLogger : handle) : outcome Server :=
  s ← NewServer serverLogger [Options.WithLogger (Some l); Options.WithDisablePanicRecovery];
  r ← NewMux [];
  let r := foldl (λ m o, match register o m with Ok m => m | _ => m end) r registrations in
  match Router (Some r) s with Ok s => Ok s | _ => Ok s end.

(** Where main is: waiting for the interrupt, inside [s.Stop()], or returned. *)
Inductive mainPhase : Type := MWaiting | MStopping | MReturned.

(** The running program: the server with the goroutine of [Run], whether the
    process was interrupted, and main. *)
Record process : Type := mkProcess {
  p_server : serverState;
  p_interrupted : bool;
  p_main : mainPhase;
}.

(** [examples/simple/main.go:41-50] main from Run on, one thing at a time: the
    server runs, an interrupt comes, main sees it, calls Stop, and returns when
    that does; its error, like that of Run, is ignored.  The process is over
    when main returned. *)
Inductive process_step (srv : Server) : process → process → Prop :=
| proc_run s s' i m :
    m ≠ MReturned → Server.step srv s s' → stop s' = stop s →
    process_step srv (mkProcess s i m) (mkProcess s' i m)
| proc_interrupt s i m :
    m ≠ MReturned → process_step srv (mkProcess s i m) (mkProcess s true m)
| proc_done s :
    process_step srv (mkProcess s true MWaiting) (mkProcess s true MStopping)
| proc_stop s s' i :
    Server.step srv s s' → stop s' ≠ stop s →
    process_step srv (mkProcess s i MStopping) (mkProcess s' i MStopping)
| proc_return s i err :
    stop s = SReturned err →
    process_step srv (mkProcess s i MStopping) (mkProcess s i MReturned).

Definition process_start : process := mkProcess initServer false MWaiting.

(** What the server does with a request: the set afterwards and the responses written. *)
Definition simpleServe `{Folding} (m : Mux) (auth : gset Z) (r : Request)
    : gset Z * list Response :=
  match serve m (Some r) with
  | Ok (CallHandler f) =>
      if decide (f = bindHandle) then bindHandler auth r
      else if decide (f = searchHandle) then searchHandler auth r
      else (auth, [])
  | Ok (WriteResponse res) => (auth, [res])
  | _ => (auth, [])
  end.

(** Requests one after the other, from any connections, with what each is answered. *)
Fixpoint simpleServeAll `{Folding} (m : Mux) (auth : gset Z) (rs : list Request)
    : list (Request * list Response) :=
  match rs with
  | [] => []
  | r :: rs =>
      let '(auth', out) := simpleServe m auth r in
      (r, out) :: simpleServeAll m auth' rs
  end.

(** ** What the example promises *)

Section promises.
Context `{Folding}.

(** The server has the two routes. *)
Lemma simple_main_routes l sl :
  ∃ s, simple_main l sl = Ok s ∧ srv_router s = registered registrations.
Proof. by eexists. Qed.

(** A bind as alice. *)
Definition alice_bind (r : Request) : Prop :=
  ∃ m, message r = MSimpleBind m ∧ UserName m = "uid=alice".

Lemma bindHandler_auth auth r auth' out :
  bindHandler auth r = (auth', out) →
  (∀ e, RSearchEntry e ∉ out) ∧ (∀ c, c ∈ auth' → c ∈ auth ∨ c = ConnectionID r ∧ alice_bind r).
Proof.
  unfold bindHandler, GetSimpleBindMessage, alice_bind.
  destruct (message r) as [m|m|m|m|m|m|m]; try case_decide; intros [= <- <-]; split;
    try (by intros e ?%list_elem_of_singleton); auto.
  intros c [->%elem_of_singleton|Hc]%elem_of_union; [right|by left]. eauto.
Qed.

Lemma searchHandler_auth auth r auth' out :
  searchHandler auth r = (auth', out) →
  auth' = auth ∧ ∀ e, RSearchEntry e ∈ out → ConnectionID r ∈ auth.
Proof.
  unfold searchHandler. case_decide; [|intros [= <- <-]; split; [done|]; by intros e ?%list_elem_of_singleton].
  destruct (GetSearchMessage r); by intros [= <- <-].
Qed.

Lemma simpleServe_auth m auth r auth' out :
  simpleServe m auth r = (auth', out) →
  (∀ e, RSearchEntry e ∈ out → ConnectionID r ∈ auth) ∧
  (∀ c, c ∈ auth' → c ∈ auth ∨ c = ConnectionID r ∧ alice_bind r).
Proof.
  unfold simpleServe. destruct (serve m (Some r)) as [[f|res|]|e|w] eqn:Es;
    try (intros [= <- <-]; split; [by intros ? ?%elem_of_nil|by left]).
  - repeat case_decide.
    + intros [Hn ?]%bindHandler_auth. split; [|done]. intros e He. by destruct (Hn e).
    + intros [-> ?]%searchHandler_auth. auto.
    + intros [= <- <-]. split; [by intros ? ?%elem_of_nil|by left].
  - intros [= <- <-]. split; [|by left]. intros e He%list_elem_of_singleton.
    unfold serve, call in Es. repeat case_match; simplify_eq.
Qed.

(** A request of the run, with the set it was served with. *)
Lemma simpleServeAll_at m auth rs pre r out post :
  simpleServeAll m auth rs = pre ++ (r, out) :: post →
  ∃ auth1 auth2, simpleServe m auth1 r = (auth2, out) ∧
    (ConnectionID r ∈ auth1 → ConnectionID r ∈ auth ∨
       ∃ rb outb, (rb, outb) ∈ pre ∧ ConnectionID rb = ConnectionID r ∧ alice_bind rb).
Proof.
  revert auth pre. induction rs as [|r0 rs IH]; intros auth pre; simpl; [by destruct pre|].
  destruct (simpleServe m auth r0) as [auth' out0] eqn:E.
  destruct (simpleServe_auth _ _ _ _ _ E) as [_ Ha].
  destruct pre as [|x pre]; simpl; intros [= <- Hrs].
  - subst. exists auth, auth'. auto.
  - destruct (IH _ _ Hrs) as (auth1 & auth2 & Hr & Hin). exists auth1, auth2. split; [done|].
    intros [Hc|(rb & outb & Hb & Hc & Hal)]%Hin.
    + destruct (Ha _ Hc) as [?|[Hc' Hal]]; [by left|]. right. exists r0, out0.
      split_and!; [by left|done|done].
    + right. exists rb, outb. split_and!; [by right|done|done].
Qed.

Lemma searchHandler_denied auth r :
  ConnectionID r ∉ auth →
  ∃ res, searchHandler auth r = (auth, [RSearchDone res]) ∧
    code (done_base res) = ResultAuthorizationDenied.
Proof. intros Hn. unfold searchHandler. rewrite decide_False by done. by eexists. Qed.

(** C33. The example server shows an entry only on a connection on which a bind as
    [uid=alice] came before, whatever requests come, one after the other, on whatever connections; a
    search that reaches the search handler on a connection without such a bind before it is
    answered with Authorization Denied and nothing else. *)
Theorem simple_search_authorized m rs pre r out post :
  simpleServeAll m ∅ rs = pre ++ (r, out) :: post →
  (∀ e, RSearchEntry e ∈ out →
     ∃ rb outb, (rb, outb) ∈ pre ∧ ConnectionID rb = ConnectionID r ∧ alice_bind rb) ∧
  (serve m (Some r) = Ok (CallHandler searchHandle) →
   (∀ rb outb, (rb, outb) ∈ pre → ConnectionID rb = ConnectionID r → ¬ alice_bind rb) →
   ∃ res, out = [RSearchDone res] ∧ code (done_base res) = ResultAuthorizationDenied) ∧
  ∀ auth, ConnectionID r ∉ auth →
    ∃ res, searchHandler auth r = (auth, [RSearchDone res]) ∧
      code (done_base res) = ResultAuthorizationDenied.
Proof.
  intros Hrs. destruct (simpleServeAll_at _ _ _ _ _ _ _ Hrs) as (auth1 & auth2 & Hr & Hin).
  split; [|split; [|intros auth; apply searchHandler_denied]].
  - intros e He. destruct (simpleServe_auth _ _ _ _ _ Hr) as [Hs _].
    by destruct (Hin (Hs e He)) as [?%elem_of_empty|?].
  - intros Hs Hno. unfold simpleServe in Hr. rewrite Hs in Hr. simpl in Hr.
    destruct (searchHandler_denied auth1 r) as (res & Hd & Hc).
    { intros [?%elem_of_empty|(rb & outb & Hb & Hc & Hal)]%Hin; [done|]. by apply (Hno rb outb). }
    rewrite Hd in Hr. injection Hr as _ <-. by exists res.
Qed.

(** After a bind as alice, whatever its password, a search for her or for the people is
    answered with the entries that match and Success, any other search with No Such Object. *)
Theorem simple_search_answers r m auth :
  message r = MSearch m → ConnectionID r ∈ auth →
  let alice := Contains (Filter m) "uid=alice" = true ∨
    BaseDN m = "uid=alice,ou=people,cn=example,dc=org" in
  let people := BaseDN m = "ou=people,cn=example,dc=org" in
  ∃ entries res, searchHandler auth r = (auth, (RSearchEntry <$> entries) ++ [RSearchDone res]) ∧
    (∀ e, e ∈ entries ↔ alice ∧ e = aliceEntry r ∨ people ∧ e = peopleEntry r) ∧
    code (done_base res) = (if decide (entries = []) then ResultNoSuchObject else ResultSuccess).
Proof.
  intros Hm Hc. unfold searchHandler, GetSearchMessage. rewrite decide_True, Hm by done. cbn zeta.
  set (a := Contains (Filter m) "uid=alice" || _). set (p := bool_decide (BaseDN m = "ou=people,cn=example,dc=org")).
  exists ((if a then [aliceEntry r] else []) ++ (if p then [peopleEntry r] else [])).
  exists (let resp := NewSearchDoneResponse r [WithResponseCode ResultNoSuchObject] in
    if a || p then mkSearchResponseDone (SetResultCode ResultSuccess (done_base resp)) (done_controls resp)
    else resp).
  split; [by destruct a, p|]. split.
  - assert (a = true ↔ Contains (Filter m) "uid=alice" = true ∨
      BaseDN m = "uid=alice,ou=people,cn=example,dc=org") as Ha
      by (unfold a; by rewrite orb_true_iff, bool_decide_eq_true).
    assert (p = true ↔ BaseDN m = "ou=people,cn=example,dc=org") as Hp
      by (unfold p; by rewrite bool_decide_eq_true).
    intros e. rewrite <-Ha, <-Hp. generalize (aliceEntry r) (peopleEntry r). intros x y.
    destruct a, p; simpl; set_solver.
  - destruct a, p; by case_decide.
Qed.

(** *** The end of the program *)

(** Only [Stop] cancels the shutdown context. *)
Lemma server_step_shutdown srv s s' :
  Server.step srv s s' → shutdown s' ≠ shutdown s → stop s = SCancel.
Proof.
  destruct 1 as [s opt l|s c|s k|s k|s k e|s k|s i|s err Hi|s Hi|s Hi Hw]; simpl; try done.
  - by destruct l.
  - unfold spawn. by destruct (newConn _ _ _ _ _).
  - unfold leave. by destruct (conns s !! i) as [[? []]|].
  - unfold closeListener. by destruct (listener s).
Qed.

Record process_inv (srv : Server) (p : process) : Prop := {
  pi_reachable : Server.reachable srv (p_server p);
  pi_waiting : p_main p = MWaiting → stop (p_server p) = SIdle ∧ shutdown (p_server p) = false;
  pi_stopping : p_main p ≠ MWaiting → p_interrupted p = true;
  pi_returned : p_main p = MReturned → ∃ err, stop (p_server p) = SReturned err;
}.

Lemma process_inv_step srv p p' : process_step srv p p' → process_inv srv p → process_inv srv p'.
Proof.
  destruct 1 as [s s' i m Hm Hs Hst|s i m Hm|s|s s' i Hs Hst|s i err Hst];
    intros [Hr Hw Hi Hret]; simpl in *; constructor; simpl; try done.
  - by eapply rtc_r.
  - intros Hm'. destruct (Hw Hm') as [H1 H2]. split; [congruence|].
    destruct (decide (shutdown s' = shutdown s)) as [->|Hne]; [done|].
    by rewrite (server_step_shutdown srv s s' Hs Hne) in H1.
  - by eapply rtc_r.
  - intros _. by apply Hi.
  - eauto.
Qed.

Lemma process_inv_reached srv p : rtc (process_step srv) process_start p → process_inv srv p.
Proof.
  assert (process_inv srv process_start) as H0.
  { constructor; simpl; try done. constructor. }
  intros Hr. revert H0. induction Hr as [|p1 p2 p3 Hs _ IH]; [done|]. intros H0.
  by eapply IH, process_inv_step.
Qed.

(** The example stops its server when it is interrupted, and only then: whatever the server's
    goroutines do, until an interrupt main waits and the server is not told to stop, also when
    [Run] has failed; and the process is over only after [Stop] returned. *)
Theorem simple_waits_for_interrupt srv p :
  rtc (process_step srv) process_start p →
  (p_interrupted p = false →
     p_main p = MWaiting ∧ stop (p_server p) = SIdle ∧ shutdown (p_server p) = false) ∧
  (p_main p = MReturned → ∃ err, stop (p_server p) = SReturned err).
Proof.
  intros [Hr Hw Hi Hret]%process_inv_reached. split; [|done]. intros Hn.
  destruct (p_main p) eqn:Hm; [by destruct (Hw eq_refl)|..]; by rewrite Hi in Hn.
Qed.
End promises.

(** ** Witnesses *)

Definition simple_bind (c : Z) (user : string) : Request :=
  mkRequest 1 c (MSimpleBind (mkSimpleBindMessage 1 SimpleAuthChoice user "" [])) bindRouteOperation "".
Definition simple_search (c : Z) (base filter : string) : Request :=
  mkRequest 2 c (MSearch (mkSearchMessage 2 base 0 0 0 0 false filter [] [])) searchRouteOperation "".

(** Two connections: only the one that was bound as alice sees the entry. *)
Example simple_run :
  (λ x, length x.2) <$> @simpleServeAll ascii_folding (registered registrations) ∅
    [simple_bind 1 "uid=alice"; simple_search 1 "" "(uid=alice)"; simple_search 2 "" "(uid=alice)"] =
  [1; 2; 1]%nat.
Proof. by vm_compute. Qed.

Lemma simple_search_authorized_witness :
  (∃ rb, ConnectionID rb = 1 ∧ alice_bind rb) ∧
  (λ x, length x.2) <$> @simpleServeAll ascii_folding (registered registrations) ∅
    [simple_bind 1 "uid=alice"; simple_search 2 "" "(uid=alice)"] = [1; 1]%nat ∧
  ∃ res, snd (searchHandler {[1]} (simple_search 2 "" "(uid=alice)")) = [RSearchDone res] ∧
    code (done_base res) = ResultAuthorizationDenied.
Proof.
  split; [|split; [by vm_compute|]].
  - destruct (@simple_search_authorized ascii_folding (registered registrations)
      [simple_bind 1 "uid=alice"; simple_search 1 "" "(uid=alice)"]
      [(simple_bind 1 "uid=alice", snd (bindHandler ∅ (simple_bind 1 "uid=alice")))]
      (simple_search 1 "" "(uid=alice)")
      (snd (searchHandler {[1]} (simple_search 1 "" "(uid=alice)"))) []) as [Hs _].
    + by vm_compute.
    + destruct (Hs (aliceEntry (simple_search 1 "" "(uid=alice)"))) as (rb & outb & _ & Hc & Ha).
      * by left.
      * by exists rb.
  - destruct (@simple_search_authorized ascii_folding (registered registrations)
      [simple_bind 1 "uid=alice"; simple_search 2 "" "(uid=alice)"]
      [(simple_bind 1 "uid=alice", snd (bindHandler ∅ (simple_bind 1 "uid=alice")))]
      (simple_search 2 "" "(uid=alice)")
      (snd (searchHandler {[1]} (simple_search 2 "" "(uid=alice)"))) []) as (_ & Hd & _).
    + by vm_compute.
    + apply Hd; [by vm_compute|].
      intros rb outb Hin%list_elem_of_singleton Hc. injection Hin as -> _. discriminate Hc.
Defined.

(** [Run] fails to listen, the process is interrupted and stops. *)
Definition simple_server : Server := mkServer (registered registrations) 1 0 0 true None.
Definition failed_listen : serverState := listen [] (Some (EExternal OtherErr "address in use")) initServer.

Lemma simple_waits_for_interrupt_witness :
  ∃ p, rtc (process_step simple_server) process_start p ∧ run (p_server p) ≠ RIdle ∧
    p_main p = MWaiting ∧ shutdown (p_server p) = false.
Proof.
  assert (rtc (process_step simple_server) process_start (mkProcess failed_listen false MWaiting)) as Hr.
  { apply rtc_once, proc_run; [done| |done]. by apply Server.step_listen. }
  exists (mkProcess failed_listen false MWaiting).
  destruct (simple_waits_for_interrupt simple_server _ Hr) as [Hw _].
  split; [exact Hr|]. split; [done|]. destruct (Hw eq_refl) as (? & _ & ?). done.
Defined.

Lemma simple_search_answers_witness :
  ∃ entries res, searchHandler {[1]} (simple_search 1 "" "(uid=alice)") =
    ({[1]}, (RSearchEntry <$> entries) ++ [RSearchDone res]).
Proof.
  destruct (simple_search_answers (simple_search 1 "" "(uid=alice)")
    (mkSearchMessage 2 "" 0 0 0 0 false "(uid=alice)" [] []) {[1]} eq_refl) as (es & res & He & _).
  - by apply elem_of_singleton.
  - by exists es, res.
Defined.
End Simple.
